(** * mbtool/util/copy.cpp: the filesystem copy engine of DualBootPatcher

    A shallow embedding of [copy_data_fd], [copy_data], [copy_xattrs],
    [copy_stat], [readlink2], [copy_contents], [copy_file], the hooks of
    [RecursiveCopier] and [copy_dir].

    The program talks to the operating system through system calls only.
    A process is modelled as its file-creation mask, its [errno], the state
    of the kernel it runs on and the log of the system calls it has made.
    The kernel is a type class with one method, [k_call], that answers a
    system call; every theorem about the code is stated for any kernel. *)

From Stdlib Require Import ZArith List String Ascii Bool Lia.
From Stdlib Require Import Strings.Byte.
Import ListNotations.

Local Open Scope string_scope.
Local Open Scope list_scope.
Local Open Scope Z_scope.

(** ** Constants of <sys/stat.h>, <fcntl.h> and <errno.h> (Linux values) *)

Definition S_IFMT   : Z := 61440.  (* 0170000 *)
Definition S_IFSOCK : Z := 49152.  (* 0140000 *)
Definition S_IFLNK  : Z := 40960.  (* 0120000 *)
Definition S_IFREG  : Z := 32768.  (* 0100000 *)
Definition S_IFBLK  : Z := 24576.  (* 0060000 *)
Definition S_IFDIR  : Z := 16384.  (* 0040000 *)
Definition S_IFCHR  : Z := 8192.   (* 0020000 *)
Definition S_IFIFO  : Z := 4096.   (* 0010000 *)

Definition S_ISUID : Z := 2048.    (* 04000 *)
Definition S_ISGID : Z := 1024.    (* 02000 *)
Definition S_ISVTX : Z := 512.     (* 01000 *)
Definition S_IRWXU : Z := 448.     (* 0700 *)
Definition S_IRWXG : Z := 56.      (* 070 *)
Definition S_IRWXO : Z := 7.       (* 07 *)

Definition O_RDONLY : Z := 0.
Definition O_WRONLY : Z := 1.
Definition O_CREAT  : Z := 64.     (* 0100 *)
Definition O_EXCL   : Z := 128.    (* 0200 *)
Definition O_TRUNC  : Z := 512.    (* 01000 *)

Definition ENOENT  : Z := 2.
Definition EIO     : Z := 5.
Definition EEXIST  : Z := 17.
Definition EINVAL  : Z := 22.
Definition ERANGE  : Z := 34.
Definition ENOTSUP : Z := 95.

Definition S_ISLNK (m : Z) : bool := Z.land m S_IFMT =? S_IFLNK.
Definition S_ISDIR (m : Z) : bool := Z.land m S_IFMT =? S_IFDIR.

(** The bits [chmod] is given by [copy_stat]. *)
Definition PERM_MASK : Z :=
  Z.lor S_ISUID (Z.lor S_ISGID (Z.lor S_ISVTX
    (Z.lor S_IRWXU (Z.lor S_IRWXG S_IRWXO)))).

(** ** The data the code exchanges with the kernel *)

Record stat := mkstat {
  st_dev  : Z;
  st_ino  : Z;
  st_mode : Z;
  st_uid  : Z;
  st_gid  : Z;
  st_rdev : Z
}.

Inductive syscall :=
| SysUnlink (path : string)
| SysStat (path : string)
| SysLstat (path : string)
| SysMknod (path : string) (mode dev : Z)
| SysMkfifo (path : string) (mode : Z)
| SysSymlink (contents linkpath : string)
| SysMkdir (path : string) (mode : Z)
| SysOpen (path : string) (flags mode : Z)
| SysRead (fd count : Z)
| SysWrite (fd : Z) (data : list byte)
| SysClose (fd : Z)
| SysLlistxattr (path : string) (size : Z)
| SysLgetxattr (path name : string) (size : Z)
| SysLsetxattr (path name : string) (value : list byte) (flags : Z)
| SysLchown (path : string) (uid gid : Z)
| SysChmod (path : string) (mode : Z)
| SysReadlink (path : string) (bufsiz : Z).

Inductive sysval :=
| VUnit
| VInt (n : Z)
| VStat (sb : stat)
| VStr (s : string)
| VBytes (b : list byte).

(** [inl e]: the call failed and set [errno] to [e]; [inr v]: it returned. *)
Definition sysret : Type := Z + sysval.

Record event := mkevent {
  ev_call  : syscall;
  ev_umask : Z;        (* the file-creation mask in force at the call *)
  ev_ret   : sysret
}.

(** The kernel: any state type with a function that answers a system call
    made under a given file-creation mask. *)
Class Kernel (K : Type) := k_call : syscall -> Z -> K -> sysret * K.

Record proc (K : Type) := mkproc {
  p_umask  : Z;
  p_errno  : Z;
  p_kernel : K;
  p_trace  : list event
}.
Arguments mkproc {K}.
Arguments p_umask {K}.
Arguments p_errno {K}.
Arguments p_kernel {K}.
Arguments p_trace {K}.

(** ** The monad of the embedding

    State passing over the process; [None] only when a loop of the model
    has used up its fuel. *)
Definition M (K A : Type) : Type := proc K -> option (A * proc K).

Definition ret {K A} (a : A) : M K A := fun p => Some (a, p).

Definition bind {K A B} (m : M K A) (f : A -> M K B) : M K B :=
  fun p => match m p with
           | Some (a, p') => f a p'
           | None => None
           end.

Declare Scope cp_scope.
Delimit Scope cp_scope with cp.
Notation "x <- m ;; k" := (bind m (fun x => k))
  (at level 61, m at next level, right associativity) : cp_scope.
Notation "' pat <- m ;; k" :=
  (bind m (fun x => match x with pat => k end))
  (at level 61, pat pattern, m at next level, right associativity) : cp_scope.
Notation "m ;;; k" := (bind m (fun _ => k))
  (at level 61, right associativity) : cp_scope.
Local Open Scope cp_scope.

Section Syscalls.
Context {K : Type} `{Kernel K}.

(** One system call: ask the kernel, log the call, set [errno] on failure. *)
Definition syscall_raw (s : syscall) : M K sysret :=
  fun p =>
    let (r, k') := k_call s (p_umask p) (p_kernel p) in
    let e' := match r with inl e => e | inr _ => p_errno p end in
    Some (r, mkproc (p_umask p) e' k'
                    (p_trace p ++ [mkevent s (p_umask p) r])).

Definition set_errno (e : Z) : M K unit :=
  fun p => Some (tt, mkproc (p_umask p) e (p_kernel p) (p_trace p)).

Definition get_errno : M K Z := fun p => Some (p_errno p, p).

(** An answer of the wrong shape is reported as [EIO]. *)
Definition fail_eio {A} : M K (Z + A) := set_errno EIO ;;; ret (inl EIO).

(** Calls that return 0 or -1. *)
Definition sys_status (s : syscall) : M K (Z + unit) :=
  r <- syscall_raw s ;;
  match r with
  | inl e => ret (inl e)
  | inr _ => ret (inr tt)
  end.

Definition sys_stat_like (s : syscall) : M K (Z + stat) :=
  r <- syscall_raw s ;;
  match r with
  | inl e => ret (inl e)
  | inr (VStat sb) => ret (inr sb)
  | inr _ => fail_eio
  end.

Definition sys_int (s : syscall) : M K (Z + Z) :=
  r <- syscall_raw s ;;
  match r with
  | inl e => ret (inl e)
  | inr (VInt n) => if 0 <=? n then ret (inr n) else fail_eio
  | inr _ => fail_eio
  end.

Definition unlink (path : string) := sys_status (SysUnlink path).
Definition sys_stat (path : string) := sys_stat_like (SysStat path).
Definition lstat (path : string) := sys_stat_like (SysLstat path).
Definition mknod (path : string) (mode dev : Z) :=
  sys_status (SysMknod path mode dev).
Definition mkfifo (path : string) (mode : Z) :=
  sys_status (SysMkfifo path mode).
Definition symlink (contents linkpath : string) :=
  sys_status (SysSymlink contents linkpath).
Definition mkdir (path : string) (mode : Z) :=
  sys_status (SysMkdir path mode).
Definition open (path : string) (flags mode : Z) :=
  sys_int (SysOpen path flags mode).
Definition close (fd : Z) := sys_status (SysClose fd).
Definition lchown (path : string) (uid gid : Z) :=
  sys_status (SysLchown path uid gid).
Definition chmod (path : string) (mode : Z) :=
  sys_status (SysChmod path mode).
Definition lsetxattr (path name : string) (value : list byte) (flags : Z) :=
  sys_status (SysLsetxattr path name value flags).

(** [read(fd, buf, count)]: at most [count] bytes arrive. *)
Definition read (fd count : Z) : M K (Z + list byte) :=
  r <- syscall_raw (SysRead fd count) ;;
  match r with
  | inl e => ret (inl e)
  | inr (VBytes b) =>
      if Z.of_nat (List.length b) <=? count then ret (inr b) else fail_eio
  | inr _ => fail_eio
  end.

(** [write(fd, data, n)]: the kernel takes between 0 and [n] bytes. *)
Definition write (fd : Z) (data : list byte) : M K (Z + Z) :=
  r <- syscall_raw (SysWrite fd data) ;;
  match r with
  | inl e => ret (inl e)
  | inr (VInt n) =>
      if (0 <=? n) && (n <=? Z.of_nat (List.length data))
      then ret (inr n) else fail_eio
  | inr _ => fail_eio
  end.

(** [umask(mask)]: never fails; installs [mask & 0777], returns the old
    mask. The mask is process state and does not go through [k_call]. *)
Definition umask (mask : Z) : M K Z :=
  fun p => Some (p_umask p,
                 mkproc (Z.land mask 511) (p_errno p) (p_kernel p)
                        (p_trace p)).
End Syscalls.

(** ** Strings as the code uses them *)

Definition NUL : ascii := Ascii.zero.

(** A [char *] read as a C string: the characters before the first NUL. *)
Fixpoint c_str (s : string) : string :=
  match s with
  | EmptyString => EmptyString
  | String c rest => if Ascii.eqb c NUL then EmptyString
                     else String c (c_str rest)
  end.

(** [s.back()]; the source never calls it on an empty string, where it is
    undefined: the model answers NUL there. *)
Fixpoint back (s : string) : ascii :=
  match s with
  | EmptyString => NUL
  | String c EmptyString => c
  | String _ rest => back rest
  end.

(** [*p] for a [char *] into a C string: NUL at its end. *)
Definition front (s : string) : ascii :=
  match s with
  | EmptyString => NUL
  | String c _ => c
  end.

(** [p + n] for a [char *] [p]: the string from offset [n] on. *)
Fixpoint string_drop (n : nat) (s : string) : string :=
  match n, s with
  | O, _ => s
  | S n', String _ rest => string_drop n' rest
  | S _, EmptyString => EmptyString
  end.

Fixpoint string_take (n : nat) (s : string) : string :=
  match n, s with
  | S n', String c rest => String c (string_take n' rest)
  | _, _ => EmptyString
  end.

(** The names the loop of [copy_xattrs] steps through: the buffer cut after
    every NUL (an empty name where two NULs meet). A last name that the
    kernel left without its NUL is taken as it is; the source would run
    past [end_names] there. *)
Fixpoint split_names (cur buf : string) : list string :=
  match buf with
  | EmptyString => match cur with EmptyString => [] | _ => [cur] end
  | String c rest =>
      if Ascii.eqb c NUL then cur :: split_names EmptyString rest
      else split_names (cur ++ String c EmptyString)%string rest
  end.

Definition flag_set (flags bit : Z) : bool := negb (Z.land flags bit =? 0).

(** Modelled from the spec: the values of [CopyFlags] are declared in
    util/copy.h, which is not among the sources; the spec lists the four
    options as a bit set, so they are four distinct bits. *)
Definition MB_COPY_ATTRIBUTES        : Z := 1.
Definition MB_COPY_XATTRS            : Z := 2.
Definition MB_COPY_EXCLUDE_TOP_LEVEL : Z := 4.
Definition MB_COPY_FOLLOW_SYMLINKS   : Z := 8.

Section Copy.
Context {K : Type} `{Kernel K}.

(** [readlink(path, buf, bufsiz)]: the kernel names the contents of the
    link, of which at most [bufsiz] characters reach the buffer. *)
Definition readlink (path : string) (bufsiz : Z) : M K (Z + string) :=
  r <- syscall_raw (SysReadlink path bufsiz) ;;
  match r with
  | inl e => ret (inl e)
  | inr (VStr s) => ret (inr (string_take (Z.to_nat bufsiz) s))
  | inr _ => fail_eio
  end.

(** [llistxattr(path, NULL, 0)] and [lgetxattr(path, name, NULL, 0)]:
    the size a buffer needs. *)
Definition llistxattr_size (path : string) : M K (Z + Z) :=
  sys_int (SysLlistxattr path 0).
Definition lgetxattr_size (path name : string) : M K (Z + Z) :=
  sys_int (SysLgetxattr path name 0).

(** What the caller finds in a buffer that a call with [size] 0 left
    alone. To the kernel such a call is a size probe again: it returns the
    length [n] of the list or of the value, whatever it is, and writes
    nothing. The source goes on with [n] bytes of its buffer all the same
    (it writes [names[n]] and reads up to there; it hands [value.data()]
    and [n] to [lsetxattr]), past the end of the buffer when [n] is not
    0. The program does not determine these bytes; the model writes NULs
    for them, and nothing below says more of them than their number. *)
Fixpoint nul_string (n : nat) : string :=
  match n with
  | O => EmptyString
  | S n' => String NUL (nul_string n')
  end.

Definition unfilled_names (n : Z) : string := nul_string (Z.to_nat n).
Definition unfilled_value (n : Z) : list byte :=
  repeat x00%byte (Z.to_nat n).

(** The same calls with a buffer of [size] bytes. With a buffer, the
    kernel names the list or the value, and what does not fit is [ERANGE];
    with [size] 0 the call is a probe, as above. *)
Definition llistxattr (path : string) (size : Z) : M K (Z + string) :=
  r <- syscall_raw (SysLlistxattr path size) ;;
  if size =? 0 then
    match r with
    | inl e => ret (inl e)
    | inr (VInt n) =>
        if 0 <=? n then ret (inr (unfilled_names n)) else fail_eio
    | inr _ => fail_eio
    end
  else
    match r with
    | inl e => ret (inl e)
    | inr (VStr names) =>
        if Z.of_nat (String.length names) <=? size then ret (inr names)
        else set_errno ERANGE ;;; ret (inl ERANGE)
    | inr _ => fail_eio
    end.

Definition lgetxattr (path name : string) (size : Z)
  : M K (Z + list byte) :=
  r <- syscall_raw (SysLgetxattr path name size) ;;
  if size =? 0 then
    match r with
    | inl e => ret (inl e)
    | inr (VInt n) =>
        if 0 <=? n then ret (inr (unfilled_value n)) else fail_eio
    | inr _ => fail_eio
    end
  else
    match r with
    | inl e => ret (inl e)
    | inr (VBytes value) =>
        if Z.of_nat (List.length value) <=? size then ret (inr value)
        else set_errno ERANGE ;;; ret (inl ERANGE)
    | inr _ => fail_eio
    end.

(** *** copy_data_fd *)

(** The [do ... while (nread > 0)] loop: [out] is what [out_ptr] points
    at, [nread] its length. [false] is [goto error]. *)
Fixpoint write_chunk (fuel : nat) (fd_target : Z) (out : list byte)
  : M K bool :=
  match fuel with
  | O => fun _ => None
  | S fuel' =>
      r <- write fd_target out ;;
      match r with
      | inl _ => ret false
      | inr nwritten =>
          let out' := skipn (Z.to_nat nwritten) out in
          if 0 <? Z.of_nat (List.length out')
          then write_chunk fuel' fd_target out'
          else ret true
      end
  end.

Definition BUF_SIZE : Z := 10240.

Fixpoint copy_data_fd (fuel : nat) (fd_source fd_target : Z) : M K bool :=
  match fuel with
  | O => fun _ => None
  | S fuel' =>
      r <- read fd_source BUF_SIZE ;;
      match r with
      | inl _ => ret false                      (* nread < 0 *)
      | inr [] => ret true                      (* nread == 0 *)
      | inr buf =>
          ok <- write_chunk fuel' fd_target buf ;;
          if ok then copy_data_fd fuel' fd_source fd_target
          else ret false
      end
  end.

(** *** copy_data *)

(** The [error:] label of [copy_data]. *)
Definition copy_data_error (fd_source fd_target : Z) : M K bool :=
  saved_errno <- get_errno ;;
  (if 0 <=? fd_source then close fd_source ;;; ret tt else ret tt) ;;;
  (if 0 <=? fd_target then close fd_target ;;; ret tt else ret tt) ;;;
  set_errno saved_errno ;;;
  ret false.

Definition copy_data (fuel : nat) (source target : string) : M K bool :=
  r <- open source O_RDONLY 0 ;;
  match r with
  | inl _ => copy_data_error (-1) (-1)
  | inr fd_source =>
      r <- open target (Z.lor O_WRONLY (Z.lor O_CREAT O_EXCL)) 438 ;;
      match r with
      | inl _ => copy_data_error fd_source (-1)
      | inr fd_target =>
          ok <- copy_data_fd fuel fd_source fd_target ;;
          if negb ok then copy_data_error fd_source fd_target else
          r <- close fd_source ;;
          match r with
          | inl _ => copy_data_error (-1) fd_target
          | inr _ =>
              r <- close fd_target ;;
              match r with
              | inl _ => copy_data_error fd_source (-1)
              | inr _ => ret true
              end
          end
      end
  end.

(** *** copy_xattrs *)

Fixpoint copy_xattrs_loop (source target : string) (names : list string)
  : M K bool :=
  match names with
  | [] => ret true
  | name :: rest =>
      if String.eqb name EmptyString
      then copy_xattrs_loop source target rest   (* !*name: continue *)
      else
        r <- lgetxattr_size source name ;;
        match r with
        | inl _ => copy_xattrs_loop source target rest
        | inr size =>
            r <- lgetxattr source name size ;;
            match r with
            | inl _ => copy_xattrs_loop source target rest
            | inr value =>
                r <- lsetxattr target name value 0 ;;
                match r with
                | inl _ =>
                    e <- get_errno ;;
                    if e =? ENOTSUP then ret true   (* break *)
                    else ret false
                | inr _ => copy_xattrs_loop source target rest
                end
            end
        end
  end.

Definition copy_xattrs (source target : string) : M K bool :=
  r <- llistxattr_size source ;;
  match r with
  | inl _ =>
      e <- get_errno ;;
      if e =? ENOTSUP then ret true else ret false
  | inr size =>
      r <- llistxattr source size ;;
      match r with
      | inl _ => ret false
      | inr names =>
          copy_xattrs_loop source target (split_names EmptyString names)
      end
  end.

(** *** copy_stat *)

Definition copy_stat (source target : string) : M K bool :=
  r <- lstat source ;;
  match r with
  | inl _ => ret false
  | inr sb =>
      r <- lchown target (st_uid sb) (st_gid sb) ;;
      match r with
      | inl _ => ret false
      | inr _ =>
          if negb (S_ISLNK (st_mode sb)) then
            r <- chmod target (Z.land (st_mode sb) PERM_MASK) ;;
            match r with
            | inl _ => ret false
            | inr _ => ret true
            end
          else ret true
      end
  end.

(** *** readlink2 *)

(** [size_t] arithmetic. *)
Definition SIZE_MOD : Z := 2 ^ 64.
Definition size_t (n : Z) : Z := n mod SIZE_MOD.

(** The [for (;;)] loop; [bufsize] is [buf.size()]. [None] is
    [return false], [Some s] the string stored through [out_ptr]. *)
Fixpoint readlink2_loop (fuel : nat) (path : string) (bufsize : Z)
  : M K (option string) :=
  match fuel with
  | O => fun _ => None
  | S fuel' =>
      r <- readlink path (size_t (bufsize - 1)) ;;
      match r with
      | inl _ => ret None
      | inr buf =>
          if Z.of_nat (String.length buf) =? size_t (bufsize - 1)
          then readlink2_loop fuel' path (size_t (Z.shiftl bufsize 1))
          else ret (Some (c_str buf))
      end
  end.

Definition readlink2 (fuel : nat) (path : string) : M K (option string) :=
  readlink2_loop fuel path 64.
End Copy.

(** ** The entry points for one file *)

Section CopyFile.
Context {K : Type} `{Kernel K}.

(** The [error:] label of [copy_contents] closes both descriptors as
    they are, -1 included. *)
Definition copy_contents (fuel : nat) (source target : string) : M K bool :=
  r <- open source O_RDONLY 0 ;;
  match r with
  | inl _ => close (-1) ;;; close (-1) ;;; ret false
  | inr fd_source =>
      r <- open target (Z.lor O_WRONLY (Z.lor O_CREAT O_TRUNC)) 438 ;;
      match r with
      | inl _ => close fd_source ;;; close (-1) ;;; ret false
      | inr fd_target =>
          ok <- copy_data_fd fuel fd_source fd_target ;;
          close fd_source ;;; close fd_target ;;; ret ok
      end
  end.

(** The [switch (sb.st_mode & S_IFMT)] of [copy_file]; [false] is
    [goto error]. A type outside the listed cases leaves the switch. *)
Definition copy_file_create (fuel : nat) (source target : string)
    (flags : Z) (sb : stat) : M K bool :=
  let ty := Z.land (st_mode sb) S_IFMT in
  let status (r : Z + unit) : M K bool :=
    ret (match r with inl _ => false | inr _ => true end) in
  if ty =? S_IFBLK then
    r <- mknod target (Z.lor S_IFBLK S_IRWXU) (st_rdev sb) ;; status r
  else if ty =? S_IFCHR then
    r <- mknod target (Z.lor S_IFCHR S_IRWXU) (st_rdev sb) ;; status r
  else if ty =? S_IFIFO then
    r <- mkfifo target S_IRWXU ;; status r
  else if (ty =? S_IFLNK)
          && negb (flag_set flags MB_COPY_FOLLOW_SYMLINKS) then
    l <- readlink2 fuel source ;;
    match l with
    | None => ret false
    | Some symlink_path => r <- symlink symlink_path target ;; status r
    end
  else if (ty =? S_IFLNK) || (ty =? S_IFREG) then
    copy_data fuel source target
  else if (ty =? S_IFSOCK) || (ty =? S_IFDIR) then
    set_errno EINVAL ;;; ret false
  else ret true.

(** The two attribute steps at the end of [copy_file]. *)
Definition copy_file_attrs (source target : string) (flags : Z)
  : M K bool :=
  ok <- (if flag_set flags MB_COPY_ATTRIBUTES
         then copy_stat source target else ret true) ;;
  if negb ok then ret false else
  ok <- (if flag_set flags MB_COPY_XATTRS
         then copy_xattrs source target else ret true) ;;
  if negb ok then ret false else ret true.

Definition is_err {A} (r : Z + A) : bool :=
  match r with inl _ => true | inr _ => false end.

(** [copy_file] between its two calls of [umask]; [false] is
    [goto error]. *)
Definition copy_file_body (fuel : nat) (source target : string) (flags : Z)
  : M K bool :=
  r <- unlink target ;;
  e <- get_errno ;;
  if is_err r && negb (e =? ENOENT) then ret false else
  r <- (if flag_set flags MB_COPY_FOLLOW_SYMLINKS
        then sys_stat source else lstat source) ;;
  match r with
  | inl _ => ret false
  | inr sb =>
      ok <- copy_file_create fuel source target flags sb ;;
      if negb ok then ret false else
      copy_file_attrs source target flags
  end.

(** Both the normal end and the [error:] label restore the mask. *)
Definition copy_file (fuel : nat) (source target : string) (flags : Z)
  : M K bool :=
  old_umask <- umask 0 ;;
  ok <- copy_file_body fuel source target flags ;;
  umask old_umask ;;;
  ret ok.
End CopyFile.

(** ** RecursiveCopier *)

(** The value of a [fmt::format] call or of a string constant assigned to
    [_error_msg]: the format string and its arguments, [strerror(errno)]
    kept as the [errno] it is taken of. *)
Inductive fmt_arg :=
| ArgStr (s : string)
| ArgStrerror (e : Z).

Record message := fmt_format {
  msg_format : string;
  msg_args   : list fmt_arg
}.

Definition no_message : message := fmt_format "" [].

(** What the hooks read of an [FTSENT]. *)
Record ftsent := mkftsent {
  fts_path    : string;
  fts_accpath : string;
  fts_name    : string;
  fts_statp   : stat
}.

(** The members of [RecursiveCopier] and those of its base class that the
    hooks use ([_path], [_error_msg], [_curr], [_root]). *)
Record copier := mkcopier {
  _copyflags  : Z;
  _path       : string;
  _target     : string;
  sb_target   : stat;
  _curtgtpath : string;
  _error_msg  : message;
  _curr       : ftsent;
  _root       : ftsent
}.

Definition set_error_msg (c : copier) (m : message) : copier :=
  mkcopier (_copyflags c) (_path c) (_target c) (sb_target c)
           (_curtgtpath c) m (_curr c) (_root c).

Definition set_curtgtpath (c : copier) (s : string) : copier :=
  mkcopier (_copyflags c) (_path c) (_target c) (sb_target c)
           s (_error_msg c) (_curr c) (_root c).

Definition set_sb_target (c : copier) (sb : stat) : copier :=
  mkcopier (_copyflags c) (_path c) (_target c) sb
           (_curtgtpath c) (_error_msg c) (_curr c) (_root c).

Definition set_curr (c : copier) (e : ftsent) : copier :=
  mkcopier (_copyflags c) (_path c) (_target c) (sb_target c)
           (_curtgtpath c) (_error_msg c) e (_root c).

Definition set_root (c : copier) (e : ftsent) : copier :=
  mkcopier (_copyflags c) (_path c) (_target c) (sb_target c)
           (_curtgtpath c) (_error_msg c) (_curr c) e.

(** Modelled from the spec: the [Action] values belong to the traversal
    engine (util/fts.h), not among the sources. The spec gives OK, FAIL,
    SKIP and STOP, with FAIL, SKIP and STOP combinable bit flags; the hooks
    or FTS_OK into their result, so it is 0. *)
Definition FTS_OK   : Z := 0.
Definition FTS_Fail : Z := 1.
Definition FTS_Skip : Z := 2.
Definition FTS_Stop : Z := 4.

Definition slash : ascii := "/"%char.

(** [on_changed_path]: touches no file, so it is a function of the object.
    [relpath] and [fts_name] are [char *], appended as C strings. *)
Definition on_changed_path (c : copier) : Z * copier :=
  if (st_dev (sb_target c) =? st_dev (fts_statp (_curr c)))
     && (st_ino (sb_target c) =? st_ino (fts_statp (_curr c)))
  then
    (Z.lor FTS_Fail FTS_Stop,
     set_error_msg c (fmt_format "%s: Cannot copy on top of itself"
                                 [ArgStr (fts_path (_curr c))]))
  else
    let relpath := c_str (string_drop (String.length (_path c))
                                      (fts_path (_curr c))) in
    let t0 := _target c in
    let t1 :=
      if negb (flag_set (_copyflags c) MB_COPY_EXCLUDE_TOP_LEVEL) then
        ((if negb (Ascii.eqb (back t0) slash) then t0 ++ "/" else t0)
           ++ c_str (fts_name (_root c)))%string
      else t0 in
    let t2 :=
      if negb (Ascii.eqb (back t1) slash)
         && negb (Ascii.eqb (front relpath) slash)
         && negb (Ascii.eqb (front relpath) NUL)
      then (t1 ++ "/")%string else t1 in
    (FTS_OK, set_curtgtpath c (t2 ++ relpath)%string).

Definition has_flag (action bit : Z) : bool := negb (Z.land action bit =? 0).

Section Hooks.
Context {K : Type} `{Kernel K}.

(** [_error_msg = fmt::format(f, path, strerror(errno))]. *)
Definition fail_with (c : copier) (f path : string) : M K copier :=
  e <- get_errno ;;
  ret (set_error_msg c (fmt_format f [ArgStr path; ArgStrerror e])).

Definition on_pre_execute (c : copier) : M K (bool * copier) :=
  if flag_set (_copyflags c) MB_COPY_FOLLOW_SYMLINKS then
    ret (false,
         set_error_msg c
           (fmt_format
              "MB_COPY_FOLLOW_SYMLINKS not allowed for recursive copies" []))
  else
    r <- mkdir (_target c) (Z.lor S_IRWXU (Z.lor S_IRWXG S_IRWXO)) ;;
    e <- get_errno ;;
    if is_err r && negb (e =? EEXIST) then
      c' <- fail_with c "%s: Failed to create directory: %s" (_target c) ;;
      ret (false, c')
    else
      r <- sys_stat (_target c) ;;
      match r with
      | inl _ =>
          c' <- fail_with c "%s: Failed to stat: %s" (_target c) ;;
          ret (false, c')
      | inr sb =>
          let c := set_sb_target c sb in
          if negb (S_ISDIR (st_mode sb)) then
            ret (false,
                 set_error_msg c
                   (fmt_format "%s: Target exists but is not a directory"
                               [ArgStr (_target c)]))
          else ret (true, c)
      end.

Definition remove_existing_file (c : copier) : M K (bool * copier) :=
  r <- unlink (_curtgtpath c) ;;
  e <- get_errno ;;
  if is_err r && negb (e =? ENOENT) then
    c' <- fail_with c "%s: Failed to remove old path: %s" (_curtgtpath c) ;;
    ret (false, c')
  else ret (true, c).

Definition cp_attrs (c : copier) : M K (bool * copier) :=
  if flag_set (_copyflags c) MB_COPY_ATTRIBUTES then
    ok <- copy_stat (fts_accpath (_curr c)) (_curtgtpath c) ;;
    if negb ok then
      c' <- fail_with c "%s: Failed to copy attributes: %s"
                      (_curtgtpath c) ;;
      ret (false, c')
    else ret (true, c)
  else ret (true, c).

Definition cp_xattrs (c : copier) : M K (bool * copier) :=
  if flag_set (_copyflags c) MB_COPY_XATTRS then
    ok <- copy_xattrs (fts_accpath (_curr c)) (_curtgtpath c) ;;
    if negb ok then
      c' <- fail_with c "%s: Failed to copy xattrs: %s" (_curtgtpath c) ;;
      ret (false, c')
    else ret (true, c)
  else ret (true, c).

(** The common end of the hooks: [cp_attrs], then [cp_xattrs]. *)
Definition finish_node (c : copier) : M K (Z * copier) :=
  '(ok, c) <- cp_attrs c ;;
  if negb ok then ret (FTS_Fail, c) else
  '(ok, c) <- cp_xattrs c ;;
  if negb ok then ret (FTS_Fail, c) else
  ret (FTS_OK, c).

Definition on_reached_directory_pre (c : copier) : M K (Z * copier) :=
  r <- mkdir (_curtgtpath c) (Z.lor S_IRWXU (Z.lor S_IRWXG S_IRWXO)) ;;
  e <- get_errno ;;
  '(skip, success, c) <-
    (if is_err r && negb (e =? EEXIST) then
       c' <- fail_with c "%s: Failed to create directory: %s"
                       (_curtgtpath c) ;;
       ret (true, false, c')
     else ret (false, true, c)) ;;
  '(skip, success, c) <-
    (if negb skip then
       r <- sys_stat (_curtgtpath c) ;;
       match r with
       | inr sb =>
           if negb (S_ISDIR (st_mode sb)) then
             ret (true, false,
                  set_error_msg c
                    (fmt_format "%s: Exists but is not a directory"
                                [ArgStr (_curtgtpath c)]))
           else ret (skip, success, c)
       | inl _ => ret (skip, success, c)
       end
     else ret (skip, success, c)) ;;
  '(success, c) <-
    (if skip then
       '(ok1, c) <- cp_attrs c ;;
       '(ok2, c) <- cp_xattrs c ;;
       ret (success && ok1 && ok2, c)
     else ret (success, c)) ;;
  ret (Z.lor (if skip then FTS_Skip else 0)
             (if success then FTS_OK else FTS_Fail), c).

Definition on_reached_directory_post (c : copier) : M K (Z * copier) :=
  finish_node c.

Definition on_reached_file (fuel : nat) (c : copier) : M K (Z * copier) :=
  '(ok, c) <- remove_existing_file c ;;
  if negb ok then ret (FTS_Fail, c) else
  ok <- copy_data fuel (fts_accpath (_curr c)) (_curtgtpath c) ;;
  if negb ok then
    c' <- fail_with c "%s: Failed to copy data: %s" (_curtgtpath c) ;;
    ret (FTS_Fail, c')
  else finish_node c.

Definition on_reached_symlink (fuel : nat) (c : copier)
  : M K (Z * copier) :=
  '(ok, c) <- remove_existing_file c ;;
  if negb ok then ret (FTS_Fail, c) else
  l <- readlink2 fuel (fts_accpath (_curr c)) ;;
  match l with
  | None =>
      c' <- fail_with c "%s: Failed to read symlink path: %s"
                      (fts_accpath (_curr c)) ;;
      ret (FTS_Fail, c')
  | Some symlink_path =>
      r <- symlink symlink_path (_curtgtpath c) ;;
      if is_err r then
        c' <- fail_with c "%s: Failed to create symlink: %s"
                        (_curtgtpath c) ;;
        ret (FTS_Fail, c')
      else finish_node c
  end.

Definition on_reached_block_device (c : copier) : M K (Z * copier) :=
  '(ok, c) <- remove_existing_file c ;;
  if negb ok then ret (FTS_Fail, c) else
  r <- mknod (_curtgtpath c) (Z.lor S_IFBLK S_IRWXU)
             (st_rdev (fts_statp (_curr c))) ;;
  if is_err r then
    c' <- fail_with c "%s: Failed to create block device: %s"
                    (_curtgtpath c) ;;
    ret (FTS_Fail, c')
  else finish_node c.

Definition on_reached_character_device (c : copier) : M K (Z * copier) :=
  '(ok, c) <- remove_existing_file c ;;
  if negb ok then ret (FTS_Fail, c) else
  r <- mknod (_curtgtpath c) (Z.lor S_IFCHR S_IRWXU)
             (st_rdev (fts_statp (_curr c))) ;;
  if is_err r then
    c' <- fail_with c "%s: Failed to create character device: %s"
                    (_curtgtpath c) ;;
    ret (FTS_Fail, c')
  else finish_node c.

Definition on_reached_fifo (c : copier) : M K (Z * copier) :=
  '(ok, c) <- remove_existing_file c ;;
  if negb ok then ret (FTS_Fail, c) else
  r <- mkfifo (_curtgtpath c) S_IRWXU ;;
  if is_err r then
    c' <- fail_with c "%s: Failed to create FIFO pipe: %s"
                    (_curtgtpath c) ;;
    ret (FTS_Fail, c')
  else finish_node c.

Definition on_reached_socket (c : copier) : M K (Z * copier) :=
  ret (FTS_Skip, c).
End Hooks.

(** ** The traversal engine *)

Inductive node_kind :=
| KFile | KSymlink | KBlockDevice | KCharacterDevice | KFifo | KSocket.

(** What [fts_read] would yield under the source path if nothing were
    skipped: the entries in the order of a depth-first walk. *)
#[warnings="-register-all"]
Inductive fts_tree :=
| FtsNode (kind : node_kind) (ent : ftsent)
| FtsDir (ent : ftsent) (children : list fts_tree).

Definition tree_root (t : fts_tree) : ftsent :=
  match t with
  | FtsNode _ e => e
  | FtsDir e _ => e
  end.

(** The state of a walk: no FAIL seen so far, STOP seen, the object, and
    the entries that were handed to a per-type hook, in order. *)
Record walk := mkwalk {
  w_ok      : bool;
  w_stop    : bool;
  w_copier  : copier;
  w_reached : list ftsent
}.

Section Engine.
Context {K : Type} `{Kernel K}.

Definition dispatch (fuel : nat) (kind : node_kind) (c : copier)
  : M K (Z * copier) :=
  match kind with
  | KFile => on_reached_file fuel c
  | KSymlink => on_reached_symlink fuel c
  | KBlockDevice => on_reached_block_device c
  | KCharacterDevice => on_reached_character_device c
  | KFifo => on_reached_fifo c
  | KSocket => on_reached_socket c
  end.

(** Modelled from the spec: one step of [FTSWrapper::run] (util/fts.cpp
    is not among the sources). The engine makes the entry current, calls
    [on_changed_path], and unless that asked to stop calls the hook of the
    entry's type; FAIL is recorded and the walk goes on, STOP ends the
    walk. The action of the type hook is returned for SKIP. *)
Definition visit (hook : copier -> M K (Z * copier)) (ent : ftsent)
    (w : walk) : M K (Z * walk) :=
  let '(a, c) := on_changed_path (set_curr (w_copier w) ent) in
  let ok := w_ok w && negb (has_flag a FTS_Fail) in
  if has_flag a FTS_Stop then ret (a, mkwalk ok true c (w_reached w))
  else
    '(b, c) <- hook c ;;
    ret (b, mkwalk (ok && negb (has_flag b FTS_Fail))
                   (has_flag b FTS_Stop) c (w_reached w ++ [ent])).

(** Modelled from the spec: the depth-first walk. A directory is visited
    before its children and, unless its pre-order hook asked to skip it,
    again after them. *)
Fixpoint walk_tree (fuel : nat) (t : fts_tree) (w : walk) : M K walk :=
  match t with
  | FtsNode kind ent =>
      '(_, w) <- visit (dispatch fuel kind) ent w ;; ret w
  | FtsDir ent children =>
      '(a, w) <- visit on_reached_directory_pre ent w ;;
      if w_stop w || has_flag a FTS_Skip then ret w else
      w <- (fix walk_list (ts : list fts_tree) (w : walk) : M K walk :=
              match ts with
              | [] => ret w
              | t :: ts' =>
                  w <- walk_tree fuel t w ;;
                  if w_stop w then ret w else walk_list ts' w
              end) children w ;;
      if w_stop w then ret w else
      '(_, w) <- visit on_reached_directory_post ent w ;; ret w
  end.

(** Modelled from the spec: [FTSWrapper::run]. [on_pre_execute] can
    abort before the walk starts; [_root] is the first entry. *)
Definition run (fuel : nat) (tree : fts_tree) (c : copier) : M K walk :=
  '(ok, c) <- on_pre_execute c ;;
  if negb ok then ret (mkwalk false true c [])
  else walk_tree fuel tree (mkwalk true false (set_root c (tree_root tree)) []).

Definition no_stat : stat := mkstat 0 0 0 0 0 0.
Definition no_ftsent : ftsent := mkftsent "" "" "" no_stat.

(** The constructor of [RecursiveCopier]. *)
Definition RecursiveCopier (path target : string) (copyflags : Z) : copier :=
  mkcopier copyflags path target no_stat "" no_message no_ftsent no_ftsent.

(** [copy_dir]; [tree] is what the engine finds under [source]. *)
Definition copy_dir (fuel : nat) (tree : fts_tree)
    (source target : string) (flags : Z) : M K bool :=
  old_umask <- umask 0 ;;
  w <- run fuel tree (RecursiveCopier source target flags) ;;
  umask old_umask ;;;
  ret (w_ok w).
End Engine.

(** ** Two kernels to run the code on *)

(** A scripted kernel: the n-th call is answered by the n-th entry, which
    sees the call; a script that has run out answers [EIO]. *)
Definition script : Type := list (syscall -> sysret).

#[export] Instance script_kernel : Kernel script :=
  fun s _ k =>
    match k with
    | [] => (inl EIO, [])
    | f :: k' => (f s, k')
    end.

(** A small filesystem: a table from paths to nodes; a node is its [stat]
    and, for a symlink, the path it holds. [stat] and [chmod] follow one
    link; [lstat], [lchown], [readlink] and [unlink] do not. [open] honours
    [O_CREAT] and [O_EXCL]; file contents are not kept. Other processes
    share the filesystem: before each call the next of the pending
    arrivals, if any, puts a node of theirs into the table. *)
Record tfs_node := mknode {
  n_stat : stat;
  n_link : string
}.

Definition tfs_table : Type := list (string * tfs_node).

Record tinyfs := mktinyfs {
  tfs_pending : list (option (string * tfs_node));
  tfs_nodes   : tfs_table
}.

Fixpoint tfs_find (path : string) (fs : tfs_table) : option tfs_node :=
  match fs with
  | [] => None
  | (p, n) :: fs' => if String.eqb p path then Some n else tfs_find path fs'
  end.

Fixpoint tfs_update (path : string) (f : tfs_node -> tfs_node)
    (fs : tfs_table) : tfs_table :=
  match fs with
  | [] => []
  | (p, n) :: fs' =>
      if String.eqb p path then (p, f n) :: fs'
      else (p, n) :: tfs_update path f fs'
  end.

Fixpoint tfs_remove (path : string) (fs : tfs_table) : tfs_table :=
  match fs with
  | [] => []
  | (p, n) :: fs' =>
      if String.eqb p path then tfs_remove path fs'
      else (p, n) :: tfs_remove path fs'
  end.

Definition tfs_resolve (path : string) (fs : tfs_table) : string :=
  match tfs_find path fs with
  | Some n => if S_ISLNK (st_mode (n_stat n)) then n_link n else path
  | None => path
  end.

Definition with_owner (uid gid : Z) (n : tfs_node) : tfs_node :=
  let sb := n_stat n in
  mknode (mkstat (st_dev sb) (st_ino sb) (st_mode sb) uid gid (st_rdev sb))
         (n_link n).

Definition with_perms (mode : Z) (n : tfs_node) : tfs_node :=
  let sb := n_stat n in
  mknode (mkstat (st_dev sb) (st_ino sb)
                 (Z.lor (Z.land (st_mode sb) S_IFMT) (Z.land mode 4095))
                 (st_uid sb) (st_gid sb) (st_rdev sb))
         (n_link n).

Definition new_file (mode umask : Z) : tfs_node :=
  mknode (mkstat 1 0 (Z.lor S_IFREG (Z.land mode (Z.lnot umask))) 0 0 0) "".

(** The table once the next arrival, if one is due, has happened. *)
Definition tfs_arrive (fs : tinyfs) : tinyfs :=
  match tfs_pending fs with
  | [] => fs
  | None :: rest => mktinyfs rest (tfs_nodes fs)
  | Some (path, n) :: rest =>
      mktinyfs rest ((path, n) :: tfs_remove path (tfs_nodes fs))
  end.

Definition tfs_call (s : syscall) (umask : Z) (t : tfs_table)
  : sysret * tfs_table :=
  match s with
  | SysLstat path =>
      match tfs_find path t with
      | Some n => (inr (VStat (n_stat n)), t)
      | None => (inl ENOENT, t)
      end
  | SysStat path =>
      match tfs_find (tfs_resolve path t) t with
      | Some n => (inr (VStat (n_stat n)), t)
      | None => (inl ENOENT, t)
      end
  | SysLchown path uid gid =>
      match tfs_find path t with
      | Some _ => (inr VUnit, tfs_update path (with_owner uid gid) t)
      | None => (inl ENOENT, t)
      end
  | SysChmod path mode =>
      match tfs_find (tfs_resolve path t) t with
      | Some _ =>
          (inr VUnit, tfs_update (tfs_resolve path t) (with_perms mode) t)
      | None => (inl ENOENT, t)
      end
  | SysReadlink path _ =>
      match tfs_find path t with
      | Some n => if S_ISLNK (st_mode (n_stat n))
                  then (inr (VStr (n_link n)), t)
                  else (inl EINVAL, t)
      | None => (inl ENOENT, t)
      end
  | SysUnlink path =>
      match tfs_find path t with
      | Some _ => (inr VUnit, tfs_remove path t)
      | None => (inl ENOENT, t)
      end
  | SysOpen path flags mode =>
      match tfs_find path t with
      | Some _ =>
          if Z.testbit flags 6 && Z.testbit flags 7   (* O_CREAT, O_EXCL *)
          then (inl EEXIST, t)
          else (inr (VInt 3), t)
      | None =>
          if Z.testbit flags 6
          then (inr (VInt 3), (path, new_file mode umask) :: t)
          else (inl ENOENT, t)
      end
  | SysClose _ => (inr VUnit, t)
  | _ => (inl EIO, t)
  end.

#[export] Instance tinyfs_kernel : Kernel tinyfs :=
  fun s umask fs =>
    let fs' := tfs_arrive fs in
    let (r, t) := tfs_call s umask (tfs_nodes fs') in
    (r, mktinyfs (tfs_pending fs') t).

(** A process at its start on the kernel [k]: mask 022, no error, no call
    made yet. *)
Definition start {K : Type} (k : K) : proc K := mkproc 18 0 k [].

(** ** Vocabulary of the properties *)

(** [m] leaves the file-creation mask alone, every system call it makes
    satisfies [E] and is made under the mask [m] started with, and what it
    returns satisfies [Q]. *)
Definition traced {K A} (E : syscall -> Prop) (Q : A -> Prop) (m : M K A)
  : Prop :=
  forall p a p', m p = Some (a, p') ->
    Q a /\
    p_umask p' = p_umask p /\
    exists evs, p_trace p' = p_trace p ++ evs /\
      Forall (fun e => E (ev_call e) /\ ev_umask e = p_umask p) evs.

Definition any_call : syscall -> Prop := fun _ => True.
Definition any_result {A} : A -> Prop := fun _ => True.

(** A file-creation mask as the kernel keeps it: nine permission bits. *)
Definition valid_umask (m : Z) : Prop := Z.land m 511 = m.

(** The members of the object that only the constructor and
    [on_pre_execute] set. *)
Definition same_config (c c' : copier) : Prop :=
  _copyflags c' = _copyflags c /\ _path c' = _path c /\
  _target c' = _target c /\ sb_target c' = sb_target c /\
  _root c' = _root c.

(** [c'] is [c] but for [_error_msg]. *)
Definition same_but_msg (c c' : copier) : Prop :=
  c' = set_error_msg c (_error_msg c').

(** The calls that create directories or change ownership, permissions or
    extended attributes; the others are [benign]. *)
Definition benign (s : syscall) : bool :=
  match s with
  | SysMkdir _ _ | SysChmod _ _ | SysLchown _ _ _
  | SysLsetxattr _ _ _ _ => false
  | _ => true
  end.

(** Device and inode agree: the two [stat]s are of one file. *)
Definition same_file (a b : stat) : bool :=
  (st_dev a =? st_dev b) && (st_ino a =? st_ino b).

(** How a walk has moved on from [w] to [w']: the configuration is
    untouched, and each entry that reached a per-type hook in between is
    another file than the recorded target. *)
Definition walk_inv (w w' : walk) : Prop :=
  same_config (w_copier w) (w_copier w') /\
  exists l, w_reached w' = w_reached w ++ l /\
    Forall (fun e => same_file (sb_target (w_copier w)) (fts_statp e) = false)
           l.

(** Induction over a tree and the trees below it. *)
Section FtsTreeInd.
Variable P : fts_tree -> Prop.
Hypothesis P_node : forall kind ent, P (FtsNode kind ent).
Hypothesis P_dir :
  forall ent children, Forall P children -> P (FtsDir ent children).

Fixpoint fts_tree_induction (t : fts_tree) : P t :=
  match t with
  | FtsNode kind ent => P_node kind ent
  | FtsDir ent children =>
      P_dir ent children
        ((fix below (ts : list fts_tree) : Forall P ts :=
            match ts with
            | [] => Forall_nil P
            | t :: ts' => Forall_cons t (fts_tree_induction t) (below ts')
            end) children)
  end.
End FtsTreeInd.

(** The walk over the children of a directory, as [walk_tree] runs it. *)
Fixpoint walk_list {K : Type} `{Kernel K} (fuel : nat) (ts : list fts_tree)
    (w : walk) : M K walk :=
  match ts with
  | [] => ret w
  | t :: ts' =>
      bind (walk_tree fuel t w)
           (fun w => if w_stop w then ret w else walk_list fuel ts' w)
  end.

(** What a hook returns: the object with at most another message. *)
Definition hook_result {A} (c : copier) (r : A * copier) : Prop :=
  same_but_msg c (snd r).

(** A step of a walk whose object carries [flags]. *)
Definition walk_step (flags : Z) (w w' : walk) : Prop :=
  walk_inv w w' /\ _copyflags (w_copier w') = flags.

(** The calls a copy may make under [flags]: directories are asked for
    with all nine permission bits; ownership and permissions are changed
    only under [MB_COPY_ATTRIBUTES], extended attributes only under
    [MB_COPY_XATTRS]. *)
Definition allowed_call (flags : Z) (s : syscall) : Prop :=
  match s with
  | SysMkdir _ mode => mode = 511
  | SysChmod _ _ | SysLchown _ _ _ =>
      flag_set flags MB_COPY_ATTRIBUTES = true
  | SysLsetxattr _ _ _ _ => flag_set flags MB_COPY_XATTRS = true
  | _ => True
  end.

(** The permission bits a node gets that is created with [mode] under the
    file-creation mask [umask]. *)
Definition created_mode (mode umask : Z) : Z :=
  Z.land (Z.land mode (Z.lnot umask)) 511.

(** The entries that reached a per-type hook are all another file than
    the target recorded in the object. *)
Definition target_never_reached (w : walk) : Prop :=
  Forall (fun e => same_file (sb_target (w_copier w)) (fts_statp e) = false)
         (w_reached w).

(** ** A source tree and kernels to try the code on

    The tree [/a] holds a file [f1], a directory [d1] with an empty file
    [f2], and a symlink [link1] to [f1]. *)

Definition answer (r : sysret) : syscall -> sysret := fun _ => r.
Definition ok_unit : syscall -> sysret := answer (inr VUnit).

Definition ex_dir_stat (ino : Z) : stat :=
  mkstat 1 ino (Z.lor S_IFDIR 493) 0 0 0.
Definition ex_file_stat (ino : Z) : stat :=
  mkstat 1 ino (Z.lor S_IFREG 420) 0 0 0.
Definition ex_link_stat (ino : Z) : stat :=
  mkstat 1 ino (Z.lor S_IFLNK 511) 0 0 0.
Definition ex_ent (path name : string) (sb : stat) : ftsent :=
  mkftsent path path name sb.

Definition ex_tree : fts_tree :=
  FtsDir (ex_ent "/a" "a" (ex_dir_stat 10))
    [ FtsNode KFile (ex_ent "/a/f1" "f1" (ex_file_stat 11));
      FtsDir (ex_ent "/a/d1" "d1" (ex_dir_stat 12))
        [ FtsNode KFile (ex_ent "/a/d1/f2" "f2" (ex_file_stat 13)) ];
      FtsNode KSymlink (ex_ent "/a/link1" "link1" (ex_link_stat 14)) ].

(** A kernel on which copying [/a] to [/b] goes through: [/b] is new, the
    two bytes of [f1] are taken one at a time. *)
Definition ex_script : script :=
  [ ok_unit; answer (inr (VStat (ex_dir_stat 20)));   (* mkdir, stat /b *)
    ok_unit; answer (inr (VStat (ex_dir_stat 21)));   (* mkdir, stat /b/a *)
    answer (inl ENOENT);                              (* unlink /b/a/f1 *)
    answer (inr (VInt 3)); answer (inr (VInt 4));     (* open, open *)
    answer (inr (VBytes [x68; x69]%byte));            (* read *)
    answer (inr (VInt 1)); answer (inr (VInt 1));     (* write, write *)
    answer (inr (VBytes [])); ok_unit; ok_unit;       (* read, close, close *)
    ok_unit; answer (inr (VStat (ex_dir_stat 22)));   (* mkdir, stat d1 *)
    answer (inl ENOENT);                              (* unlink f2 *)
    answer (inr (VInt 3)); answer (inr (VInt 4));     (* open, open *)
    answer (inr (VBytes [])); ok_unit; ok_unit;       (* read, close, close *)
    answer (inl ENOENT);                              (* unlink link1 *)
    answer (inr (VStr "f1")); ok_unit ].              (* readlink, symlink *)

(** [/a] copied into its own subdirectory [/a/b], which the walk meets as
    the first child of [/a]. *)
Definition ex_self_tree : fts_tree :=
  FtsDir (ex_ent "/a" "a" (ex_dir_stat 10))
    [ FtsDir (ex_ent "/a/b" "b" (ex_dir_stat 20))
        [ FtsDir (ex_ent "/a/b/a" "a" (ex_dir_stat 21)) [] ];
      FtsNode KFile (ex_ent "/a/f1" "f1" (ex_file_stat 11)) ].

Definition ex_self_script : script :=
  [ answer (inl EEXIST); answer (inr (VStat (ex_dir_stat 20)));
    ok_unit; answer (inr (VStat (ex_dir_stat 21))) ].

(** One regular file copied by [copy_file]. *)
Definition ex_file_script : script :=
  [ answer (inl ENOENT); answer (inr (VStat (ex_file_stat 11)));
    answer (inr (VInt 3)); answer (inr (VInt 4));
    answer (inr (VBytes [x68; x69]%byte)); answer (inr (VInt 2));
    answer (inr (VBytes [])); ok_unit; ok_unit ].

(** ** Path joining, as the spec words it *)

Definition ends_with_slash (s : string) : bool := Ascii.eqb (back s) slash.
Definition starts_with_slash (s : string) : bool :=
  Ascii.eqb (front s) slash.

(** [a] and [b] joined with exactly one separator between them, whether or
    not [a] ends in one or [b] starts with one; nothing is joined to an
    empty [b]. *)
Definition path_join (a b : string) : string :=
  match b with
  | EmptyString => a
  | String ch b' =>
      if ends_with_slash a
      then (if Ascii.eqb ch slash then a ++ b' else a ++ b)%string
      else (if Ascii.eqb ch slash then a ++ b else a ++ "/" ++ b)%string
  end.

(** The path of the current node relative to the source root. *)
Definition relative_path (c : copier) : string :=
  c_str (string_drop (String.length (_path c)) (fts_path (_curr c))).

(** The target path the spec describes for the current node. *)
Definition joined_target_path (c : copier) : string :=
  let base :=
    if flag_set (_copyflags c) MB_COPY_EXCLUDE_TOP_LEVEL then _target c
    else path_join (_target c) (c_str (fts_name (_root c))) in
  path_join base (relative_path c).

(** A base name: not empty, and free of separators and NULs. *)
Fixpoint plain_chars (s : string) : bool :=
  match s with
  | EmptyString => true
  | String ch rest =>
      negb (Ascii.eqb ch slash) && negb (Ascii.eqb ch NUL) && plain_chars rest
  end.

Definition is_base_name (s : string) : bool :=
  negb (String.eqb s EmptyString) && plain_chars s.

(** Two separators in a row somewhere in [s]. *)
Fixpoint has_double_slash (s : string) : bool :=
  match s with
  | EmptyString => false
  | String ch rest =>
      (Ascii.eqb ch slash && starts_with_slash rest) || has_double_slash rest
  end.

(** Copying the contents of [/a] into [/b/], at the node [/a/f1]. *)
Definition ex_exclude_copier : copier :=
  mkcopier MB_COPY_EXCLUDE_TOP_LEVEL "/a" "/b/" (ex_dir_stat 20) ""
           no_message
           (ex_ent "/a/f1" "f1" (ex_file_stat 11))
           (ex_ent "/a" "a" (ex_dir_stat 10)).

(** Copying [/a] itself into [/b/], at the same node. *)
Definition ex_nested_copier : copier :=
  mkcopier 0 "/a" "/b/" (ex_dir_stat 20) "" no_message
           (ex_ent "/a/f1" "f1" (ex_file_stat 11))
           (ex_ent "/a" "a" (ex_dir_stat 10)).

(** ** Ownership and mode, observed *)

(** [path] names a symlink, as [lstat] shows it to the process. *)
Definition is_symlink {K : Type} `{Kernel K} (path : string) (p : proc K)
  : bool :=
  match fst (k_call (SysLstat path) (p_umask p) (p_kernel p)) with
  | inr (VStat sb) => S_ISLNK (st_mode sb)
  | _ => false
  end.

Definition is_chmod_of (path : string) (e : event) : bool :=
  match ev_call e with
  | SysChmod path' _ => String.eqb path' path
  | _ => false
  end.

(** Some call in [evs] sets permission bits through [path]. *)
Definition chmod_issued (path : string) (evs : list event) : bool :=
  existsb (is_chmod_of path) evs.

Definition ret_failed (r : sysret) : bool :=
  match r with inl _ => true | inr _ => false end.

(** The calls of one [copy_stat source target] under the mask [um], and
    its result [ok]: [lstat] of the source; with its answer [sb], [lchown]
    of the target to the owner in [sb]; and, if that went well and [sb] is
    not of a symlink, [chmod] of the target to the permission bits of
    [sb]. *)
Definition copy_stat_calls (source target : string) (um : Z)
    (evs : list event) (ok : bool) : Prop :=
  (exists r1,
      match r1 with inr (VStat _) => False | _ => True end /\
      evs = [mkevent (SysLstat source) um r1] /\ ok = false) \/
  (exists sb r2,
      evs = [mkevent (SysLstat source) um (inr (VStat sb));
             mkevent (SysLchown target (st_uid sb) (st_gid sb)) um r2] /\
      (ret_failed r2 = true \/ S_ISLNK (st_mode sb) = true) /\
      ok = negb (ret_failed r2)) \/
  (exists sb r2 r3,
      evs = [mkevent (SysLstat source) um (inr (VStat sb));
             mkevent (SysLchown target (st_uid sb) (st_gid sb)) um r2;
             mkevent (SysChmod target (Z.land (st_mode sb) PERM_MASK)) um r3]
      /\ ret_failed r2 = false /\ S_ISLNK (st_mode sb) = false /\
      ok = negb (ret_failed r3)).

(** What the source's own [lstat] answered in [evs], if it answered. *)
Definition source_stat (source : string) (evs : list event) : option stat :=
  match evs with
  | e :: _ =>
      match ev_call e, ev_ret e with
      | SysLstat path, inr (VStat sb) =>
          if String.eqb path source then Some sb else None
      | _, _ => None
      end
  | [] => None
  end.

Definition lchown_succeeded (target : string) (evs : list event) : bool :=
  existsb (fun e => match ev_call e with
                    | SysLchown path _ _ =>
                        String.eqb path target && negb (ret_failed (ev_ret e))
                    | _ => false
                    end) evs.

(** A filesystem with a symlink [/l] to the file [/f] and a file [/t] that
    only its owner may read and write. *)
Definition ex_fs : tinyfs :=
  mktinyfs []
    [ ("/l", mknode (mkstat 1 10 (Z.lor S_IFLNK 511) 1000 1000 0) "/f");
      ("/f", mknode (mkstat 1 11 (Z.lor S_IFREG 420) 0 0 0) "");
      ("/t", mknode (mkstat 1 12 (Z.lor S_IFREG 384) 0 0 0) "") ].

(** The permission bits of the node at [path]. *)
Definition tfs_perms (path : string) (fs : tinyfs) : option Z :=
  match tfs_find path (tfs_nodes fs) with
  | Some n => Some (Z.land (st_mode (n_stat n)) PERM_MASK)
  | None => None
  end.

(** The process made the call [s] in state [p], was answered [r] and went
    on in state [p1]. *)
Definition called {K : Type} `{Kernel K} (s : syscall) (p : proc K)
    (r : sysret) (p1 : proc K) : Prop :=
  k_call s (p_umask p) (p_kernel p) = (r, p_kernel p1) /\
  p_umask p1 = p_umask p /\
  p_trace p1 = p_trace p ++ [mkevent s (p_umask p) r].

(** The buffer [llistxattr] fills for a list of names: each name and its
    NUL. *)
Fixpoint names_buffer (names : list string) : string :=
  match names with
  | [] => EmptyString
  | name :: rest => (name ++ String NUL (names_buffer rest))%string
  end.

(** A source with three attributes: the value of [user.a] cannot be
    fetched, and the target refuses [user.b] with [ENOTSUP]. *)
Definition ex_xattr_script : script :=
  [ answer (inr (VInt 21));
    answer (inr (VStr (names_buffer ["user.a"; "user.b"; "user.c"])));
    answer (inl 61);                               (* lgetxattr user.a *)
    answer (inr (VInt 1)); answer (inr (VBytes [x41]%byte));
    answer (inl ENOTSUP);                          (* lsetxattr user.b *)
    answer (inr (VInt 1)); answer (inr (VBytes [x42]%byte)) ].

(** ** The retained error message *)

(** The hooks the engine calls for the nodes of a walk. *)
Definition node_hooks {K : Type} `{Kernel K} (fuel : nat)
  : list (copier -> M K (Z * copier)) :=
  [ on_reached_directory_pre; on_reached_directory_post;
    on_reached_file fuel; on_reached_symlink fuel;
    on_reached_block_device; on_reached_character_device;
    on_reached_fifo; on_reached_socket ].

(** [h] never reads [_error_msg]: started with another message [m0] in the
    object it does the same, and its result carries its own message if it
    [failed] and [m0] if it did not. *)
Definition replaces_msg_on_failure {K R : Type} (failed : R -> bool)
    (h : copier -> M K (R * copier)) : Prop :=
  forall c m0 p r c' p',
    h c p = Some ((r, c'), p') ->
    h (set_error_msg c m0) p =
      Some ((r, if failed r then c' else set_error_msg c' m0), p').

(** A directory [/a] with two files, and a kernel that refuses to remove
    the old [/b/a/f1] (EACCES) and to open [/a/f2] (ENOENT). *)
Definition ex_two_files : fts_tree :=
  FtsDir (ex_ent "/a" "a" (ex_dir_stat 10))
    [ FtsNode KFile (ex_ent "/a/f1" "f1" (ex_file_stat 11));
      FtsNode KFile (ex_ent "/a/f2" "f2" (ex_file_stat 12)) ].

(** The same walk cut after its first file. *)
Definition ex_first_file : fts_tree :=
  FtsDir (ex_ent "/a" "a" (ex_dir_stat 10))
    [ FtsNode KFile (ex_ent "/a/f1" "f1" (ex_file_stat 11)) ].

Definition ex_failing_script : script :=
  [ ok_unit; answer (inr (VStat (ex_dir_stat 20)));   (* mkdir, stat /b *)
    ok_unit; answer (inr (VStat (ex_dir_stat 21)));   (* mkdir, stat /b/a *)
    answer (inl 13);                                  (* unlink /b/a/f1 *)
    answer (inl ENOENT);                              (* unlink /b/a/f2 *)
    answer (inl ENOENT) ].                            (* open /a/f2 *)

(** The pre-order visit of [/a/d1] under [MB_COPY_ATTRIBUTES], on a kernel
    that refuses both the [mkdir] of the target and the [lstat] of the
    source (EACCES). *)
Definition ex_dir_copier : copier :=
  mkcopier MB_COPY_ATTRIBUTES "/a" "/b" (ex_dir_stat 20) "/b/a/d1"
           no_message
           (ex_ent "/a/d1" "d1" (ex_dir_stat 12))
           (ex_ent "/a" "a" (ex_dir_stat 10)).

Definition ex_dir_script : script := [ answer (inl 13); answer (inl 13) ].

Definition ex_first_message : message :=
  fmt_format "%s: Failed to remove old path: %s"
             [ArgStr "/b/a/f1"; ArgStrerror 13].

Definition ex_last_message : message :=
  fmt_format "%s: Failed to copy data: %s"
             [ArgStr "/b/a/f2"; ArgStrerror ENOENT].

(** ** Byte streams, as the spec words them *)

Section Streams.
Context {K : Type} `{Kernel K}.

(** The kernel takes all of [data] on [fd] through a run of writes without
    error, each offered what the writes before it left over. *)
Inductive flushed (fd : Z) : list byte -> proc K -> proc K -> Prop :=
| flushed_all data p n p1 :
    write fd data p = Some (inr n, p1) ->
    skipn (Z.to_nat n) data = [] ->
    flushed fd data p p1
| flushed_part data p n p1 p2 :
    write fd data p = Some (inr n, p1) ->
    skipn (Z.to_nat n) data <> [] ->
    flushed fd (skipn (Z.to_nat n) data) p1 p2 ->
    flushed fd data p p2.

(** Reads on [fd_source] deliver [data] chunk by chunk without error until
    one returns 0, and each chunk is flushed to [fd_target] before the next
    read. *)
Inductive drained (fd_source fd_target : Z)
  : proc K -> list byte -> proc K -> Prop :=
| drained_eof p p1 :
    read fd_source BUF_SIZE p = Some (inr [], p1) ->
    drained fd_source fd_target p [] p1
| drained_chunk p chunk p1 p2 data p3 :
    read fd_source BUF_SIZE p = Some (inr chunk, p1) ->
    chunk <> [] ->
    flushed fd_target chunk p1 p2 ->
    drained fd_source fd_target p2 data p3 ->
    drained fd_source fd_target p (chunk ++ data) p3.
End Streams.

(** The bytes that the reads on [fd] in [evs] delivered, in order. *)
Definition read_bytes (fd : Z) (evs : list event) : list byte :=
  flat_map (fun e => match ev_call e, ev_ret e with
                     | SysRead fd' _, inr (VBytes b) =>
                         if fd' =? fd then b else []
                     | _, _ => []
                     end) evs.

(** The bytes that the writes on [fd] in [evs] got accepted, in order. *)
Definition written_bytes (fd : Z) (evs : list event) : list byte :=
  flat_map (fun e => match ev_call e, ev_ret e with
                     | SysWrite fd' data, inr (VInt n) =>
                         if fd' =? fd then firstn (Z.to_nat n) data else []
                     | _, _ => []
                     end) evs.

(** The wrapper of the call in [e] took its answer for an error. *)
Definition io_error (e : event) : Prop :=
  match ev_call e, ev_ret e with
  | SysRead _ count, inr (VBytes b) => count < Z.of_nat (List.length b)
  | SysWrite _ data, inr (VInt n) =>
      ~ (0 <= n <= Z.of_nat (List.length data))
  | _, _ => True
  end.

(** Five bytes that the kernel takes in two writes. *)
Definition ex_stream_script : script :=
  [ answer (inr (VBytes (repeat x41%byte 5)));
    answer (inr (VInt 2)); answer (inr (VInt 3));
    answer (inr (VBytes [])) ].

(** ** Exclusive creation *)

(** An entry exists at [path], as [lstat] shows it to the process. *)
Definition entry_exists {K : Type} `{Kernel K} (path : string) (p : proc K)
  : Prop :=
  exists sb p1, lstat path p = Some (inr sb, p1).

(** The kernel refuses to create what exists when asked with both
    [O_CREAT] (bit 6) and [O_EXCL] (bit 7). *)
Definition honours_O_EXCL (K : Type) `{Kernel K} : Prop :=
  forall path flags mode (p : proc K),
    entry_exists path p ->
    Z.testbit flags 6 = true -> Z.testbit flags 7 = true ->
    exists e p1, open path flags mode p = Some (inl e, p1).

(** The source types whose copy is a byte copy: a regular file, or a
    symlink under [MB_COPY_FOLLOW_SYMLINKS]. *)
Definition copies_data (flags : Z) (sb : stat) : bool :=
  (Z.land (st_mode sb) S_IFMT =? S_IFREG) ||
  ((Z.land (st_mode sb) S_IFMT =? S_IFLNK) &&
   flag_set flags MB_COPY_FOLLOW_SYMLINKS).

(** The process once [umask(m)] has returned. *)
Definition after_umask {K : Type} (m : Z) (p : proc K) : proc K :=
  mkproc (Z.land m 511) (p_errno p) (p_kernel p) (p_trace p).

(** The flags [copy_data] creates its target with. *)
Definition CREATE_FLAGS : Z := Z.lor O_WRONLY (Z.lor O_CREAT O_EXCL).

(** A filesystem with a file [/s] and no [/t], on which another process
    creates [/t] just before the fourth call. *)
Definition ex_racy_fs : tinyfs :=
  mktinyfs
    [ None; None; None;
      Some ("/t", mknode (mkstat 1 30 (Z.lor S_IFREG 420) 0 0 0) "") ]
    [ ("/s", mknode (mkstat 1 11 (Z.lor S_IFREG 420) 0 0 0) "") ].

(** ** Reading a link *)

(** While [Inv] holds, every [readlink] of [path] finds the link holding
    [contents], whatever the size of the buffer, and [Inv] goes on
    holding. *)
Definition link_holds {K : Type} `{Kernel K} (path contents : string)
    (Inv : proc K -> Prop) : Prop :=
  forall q bufsiz, Inv q ->
    exists q1,
      readlink path bufsiz q
        = Some (inr (string_take (Z.to_nat bufsiz) contents), q1) /\
      Inv q1.

Fixpoint string_repeat (ch : ascii) (n : nat) : string :=
  match n with
  | O => EmptyString
  | S n' => String ch (string_repeat ch n')
  end.

(** A symlink whose contents, 63 characters, fill the first buffer of
    [readlink2] exactly, and one that needs two regrows. *)
Definition ex_link_fs : tinyfs :=
  mktinyfs []
    [ ("/l63", mknode (ex_link_stat 40) (string_repeat "x" 63));
      ("/l200", mknode (ex_link_stat 41) (string_repeat "y" 200)) ].


(** ** The calls a function may make *)

(** Calls on an open descriptor. *)
Definition fd_call (s : syscall) : Prop :=
  match s with
  | SysRead _ _ | SysWrite _ _ | SysClose _ => True
  | _ => False
  end.

(** The calls of a byte copy from [source] to [target]: the source is
    opened read-only, the target with [create_flags] and mode 0666. *)
Definition data_call (source target : string) (create_flags : Z)
    (s : syscall) : Prop :=
  match s with
  | SysOpen path flags mode =>
      (path = source /\ flags = O_RDONLY /\ mode = 0) \/
      (path = target /\ flags = create_flags /\ mode = 438)
  | _ => fd_call s
  end.

(** The calls of [copy_xattrs]: attributes are listed and fetched on the
    source and set, with flags 0, on the target. *)
Definition xattr_call (source target : string) (s : syscall) : Prop :=
  match s with
  | SysLlistxattr path _ | SysLgetxattr path _ _ => path = source
  | SysLsetxattr path _ _ flags => path = target /\ flags = 0
  | _ => False
  end.

(** The calls of [copy_stat]: [chmod] is given permission bits only. *)
Definition owner_call (source target : string) (s : syscall) : Prop :=
  match s with
  | SysLstat path => path = source
  | SysLchown path _ _ => path = target
  | SysChmod path mode => path = target /\ Z.land mode PERM_MASK = mode
  | _ => False
  end.

(** The attribute steps that [flags] ask for. *)
Definition attr_call (flags : Z) (source target : string) (s : syscall)
  : Prop :=
  (flag_set flags MB_COPY_ATTRIBUTES = true /\ owner_call source target s) \/
  (flag_set flags MB_COPY_XATTRS = true /\ xattr_call source target s).

(** The calls that recreate one node: devices and FIFOs are made with
    owner-only permissions, a link is read on the source and made on the
    target, data is copied into an exclusively created file. *)
Definition node_call (source target : string) (s : syscall) : Prop :=
  match s with
  | SysMknod path mode _ =>
      path = target /\
      (mode = Z.lor S_IFBLK S_IRWXU \/ mode = Z.lor S_IFCHR S_IRWXU)
  | SysMkfifo path mode => path = target /\ mode = S_IRWXU
  | SysSymlink _ path => path = target
  | SysReadlink path _ => path = source
  | _ => data_call source target CREATE_FLAGS s
  end.

(** The calls in [evs], in order. *)
Definition calls (evs : list event) : list syscall := map ev_call evs.

(** [O_WRONLY | O_CREAT | O_TRUNC], the flags [copy_contents] opens its
    target with. *)
Definition TRUNC_FLAGS : Z := Z.lor O_WRONLY (Z.lor O_CREAT O_TRUNC).


(** How [copy_file] examines its source: with [stat] under
    [MB_COPY_FOLLOW_SYMLINKS] and with [lstat] otherwise. *)
Definition stat_source (flags : Z) (source : string) : syscall :=
  if flag_set flags MB_COPY_FOLLOW_SYMLINKS
  then SysStat source else SysLstat source.

(** The calls of one [copy_file], in order: the old target is removed;
    the source is examined; then come only calls that recreate the node
    and the attribute steps that [flags] ask for. [ok] is what the call
    returned: it is failure when the run ended with the removal, and when
    the source could not be examined, after which nothing else is
    called. *)
Definition copy_file_run (flags : Z) (source target : string)
    (evs : list event) (ok : bool) : Prop :=
  match evs with
  | [] => False
  | e1 :: rest =>
      ev_call e1 = SysUnlink target /\
      match rest with
      | [] => ok = false
      | e2 :: rest' =>
          ev_call e2 = stat_source flags source /\
          (ret_failed (ev_ret e2) = true -> rest' = [] /\ ok = false) /\
          Forall (fun e => node_call source target (ev_call e) \/
                           attr_call flags source target (ev_call e)) rest'
      end
  end.


(** The type bits of a mode. *)
Definition file_type (sb : stat) : Z := Z.land (st_mode sb) S_IFMT.

(** The process [p1] with the file-creation mask of [p] put back, as the
    last [umask] call of an entry point leaves it. *)
Definition restore_umask {K : Type} (p p1 : proc K) : proc K :=
  mkproc (Z.land (p_umask p) 511) (p_errno p1) (p_kernel p1) (p_trace p1).

(** [copy_file], started in [p], has removed the old target (or found
    none), has examined the source and found [sb], and stands in [p2]
    before its [switch]. *)
Definition copy_file_reaches {K : Type} `{Kernel K} (flags : Z)
    (source target : string) (p : proc K) (sb : stat) (p2 : proc K) : Prop :=
  exists ru p1,
    unlink target (after_umask 0 p) = Some (ru, p1) /\
    (is_err ru = false \/ p_errno p1 = ENOENT) /\
    (if flag_set flags MB_COPY_FOLLOW_SYMLINKS
     then sys_stat source else lstat source) p1 = Some (inr sb, p2).

(** A filesystem with a directory [/d], a socket [/sock] and a symlink
    [/l] to the file [/f]; [/t] exists. *)
Definition ex_kinds_fs : tinyfs :=
  mktinyfs []
    [ ("/d", mknode (ex_dir_stat 50) "");
      ("/sock", mknode (mkstat 1 51 (Z.lor S_IFSOCK 493) 0 0 0) "");
      ("/l", mknode (ex_link_stat 52) "/f");
      ("/f", mknode (ex_file_stat 53) "");
      ("/t", mknode (ex_file_stat 54) "") ].

(** A block device, a character device and a FIFO as [lstat] shows
    them, with device number 2049 and permissions 0660. *)
Definition ex_blk_stat : stat := mkstat 1 60 (Z.lor S_IFBLK 432) 0 6 2049.
Definition ex_chr_stat : stat := mkstat 1 61 (Z.lor S_IFCHR 432) 0 6 2049.
Definition ex_fifo_stat : stat := mkstat 1 62 (Z.lor S_IFIFO 432) 0 6 0.

(** A kernel that has no old target, shows the source as [sb] and lets
    the next call succeed. *)
Definition ex_node_script (sb : stat) : script :=
  [ answer (inl ENOENT); answer (inr (VStat sb)); ok_unit ].


(** The one call with which [copy_file] recreates a device or a FIFO
    whose [lstat] is [sb]; [None] for the other types. *)
Definition special_node_call (target : string) (sb : stat) : option syscall :=
  if file_type sb =? S_IFBLK
  then Some (SysMknod target (Z.lor S_IFBLK S_IRWXU) (st_rdev sb))
  else if file_type sb =? S_IFCHR
  then Some (SysMknod target (Z.lor S_IFCHR S_IRWXU) (st_rdev sb))
  else if file_type sb =? S_IFIFO
  then Some (SysMkfifo target S_IRWXU)
  else None.

(** The small filesystem with [symlink] added: a link is made where
    nothing exists. *)
Record symfs := mksymfs { sym_fs : tinyfs }.

#[export] Instance symfs_kernel : Kernel symfs :=
  fun s umask fs =>
    match s with
    | SysSymlink contents linkpath =>
        match tfs_find linkpath (tfs_nodes (sym_fs fs)) with
        | Some _ => (inl EEXIST, fs)
        | None =>
            (inr VUnit,
             mksymfs (mktinyfs (tfs_pending (sym_fs fs))
                        ((linkpath,
                          mknode (mkstat 1 0 (Z.lor S_IFLNK 511) 0 0 0)
                                 contents)
                         :: tfs_nodes (sym_fs fs))))
        end
    | _ => let (r, t) := tinyfs_kernel s umask (sym_fs fs) in (r, mksymfs t)
    end.

(** The contents of the link at [path], if there is one. *)
Definition sym_link_at (path : string) (fs : symfs) : option string :=
  match tfs_find path (tfs_nodes (sym_fs fs)) with
  | Some n => if S_ISLNK (st_mode (n_stat n)) then Some (n_link n) else None
  | None => None
  end.


(** The seven file types the [switch] of [copy_file] lists. *)
Definition listed_type (ty : Z) : bool :=
  (ty =? S_IFBLK) || (ty =? S_IFCHR) || (ty =? S_IFIFO) || (ty =? S_IFLNK)
  || (ty =? S_IFREG) || (ty =? S_IFSOCK) || (ty =? S_IFDIR).

(** A link [/l] to [/f], and nothing at [/t]. *)
Definition ex_sym_fs : symfs :=
  mksymfs (mktinyfs []
    [ ("/l", mknode (mkstat 1 52 (Z.lor S_IFLNK 511) 0 0 0) "/f") ]).


(** Two more error numbers of Linux. *)
Definition EBADF   : Z := 9.
Definition ENOSPC  : Z := 28.

(** ** The protocol of the byte copies *)

(** The calls of the copy loop: reads of [BUF_SIZE] bytes on the source
    descriptor and writes on the target descriptor. *)
Definition stream_call (fds fdt : Z) (s : syscall) : Prop :=
  match s with
  | SysRead fd n => fd = fds /\ n = BUF_SIZE
  | SysWrite fd _ => fd = fdt
  | _ => False
  end.

(** The [open], [close], [read] or [write] in [e] failed, as its wrapper
    sees it. *)
Definition wrapper_failed (e : event) : Prop :=
  match ev_call e with
  | SysOpen _ _ _ =>
      match ev_ret e with inr (VInt n) => n < 0 | _ => True end
  | SysRead _ count =>
      match ev_ret e with
      | inr (VBytes b) => count < Z.of_nat (List.length b)
      | _ => True
      end
  | SysWrite _ data =>
      match ev_ret e with
      | inr (VInt n) => ~ (0 <= n <= Z.of_nat (List.length data))
      | _ => True
      end
  | SysClose _ => ret_failed (ev_ret e) = true
  | _ => False
  end.

(** The [errno] a failed call leaves. *)
Definition failure_errno (e : event) : Z :=
  match ev_ret e with inl err => err | inr _ => EIO end.

(** [e] is the [open] of [path] that returned the descriptor [fd]. *)
Definition opened (e : event) (path : string) (flags mode fd : Z) : Prop :=
  ev_call e = SysOpen path flags mode /\
  ev_ret e = inr (VInt fd) /\ 0 <= fd.

Definition open_failed (e : event) (path : string) (flags mode : Z) : Prop :=
  ev_call e = SysOpen path flags mode /\ wrapper_failed e.

(** [e] is a [close] of [fd], and went well or not as [ok] says. *)
Definition closing (e : event) (fd : Z) (ok : bool) : Prop :=
  ev_call e = SysClose fd /\ ret_failed (ev_ret e) = negb ok.

(** What [copy_data] does once both descriptors are open: [mid] are the
    calls of the copy loop, [tail] the calls after it. *)
Definition copy_data_tail (fds fdt : Z) (mid tail : list event)
    (ok : bool) (errno : Z) : Prop :=
  (exists mid' e c1 c2,
      mid = mid' ++ [e] /\ wrapper_failed e /\
      tail = [c1; c2] /\
      ev_call c1 = SysClose fds /\ ev_call c2 = SysClose fdt /\
      ok = false /\ errno = failure_errno e) \/
  (read_bytes fds mid = written_bytes fdt mid /\
   ((exists c1 c2,
        tail = [c1; c2] /\
        closing c1 fds false /\ ev_call c2 = SysClose fdt /\
        ok = false /\ errno = failure_errno c1) \/
    (exists c1 c2 c3,
        tail = [c1; c2; c3] /\
        closing c1 fds true /\ closing c2 fdt false /\
        ev_call c3 = SysClose fds /\
        ok = false /\ errno = failure_errno c2) \/
    (exists c1 c2,
        tail = [c1; c2] /\
        closing c1 fds true /\ closing c2 fdt true /\ ok = true))).

(** The calls [evs] of one [copy_data source target], its result [ok]
    and, for a failure, the [errno] it returns with. *)
Definition copy_data_calls (source target : string) (evs : list event)
    (ok : bool) (errno : Z) : Prop :=
  (exists o1,
      evs = [o1] /\ open_failed o1 source O_RDONLY 0 /\
      ok = false /\ errno = failure_errno o1) \/
  (exists o1 fds o2 c1,
      evs = [o1; o2; c1] /\
      opened o1 source O_RDONLY 0 fds /\
      open_failed o2 target CREATE_FLAGS 438 /\
      ev_call c1 = SysClose fds /\
      ok = false /\ errno = failure_errno o2) \/
  (exists o1 fds o2 fdt mid tail,
      evs = o1 :: o2 :: mid ++ tail /\
      opened o1 source O_RDONLY 0 fds /\
      opened o2 target CREATE_FLAGS 438 fdt /\
      Forall (fun e => stream_call fds fdt (ev_call e)) mid /\
      copy_data_tail fds fdt mid tail ok errno).

(** The [errno] that the calls of [close] in [evs], made in this order
    from a process whose [errno] was [e0], leave. *)
Definition errno_after (e0 : Z) (evs : list event) : Z :=
  fold_left (fun e ev => match ev_ret ev with inl err => err | inr _ => e end)
            evs e0.

(** The calls [evs] of one [copy_contents source target], its result
    [ok] and, for a failure, the [errno] it returns with. The descriptors
    are closed as they are, -1 included; what [close] answers is not
    looked at, and the [errno] of the failure is not kept from it. *)
Definition copy_contents_calls (source target : string) (evs : list event)
    (ok : bool) (errno : Z) : Prop :=
  (exists o1 c1 c2,
      evs = [o1; c1; c2] /\ open_failed o1 source O_RDONLY 0 /\
      ev_call c1 = SysClose (-1) /\ ev_call c2 = SysClose (-1) /\
      ok = false /\ errno = errno_after (failure_errno o1) [c1; c2]) \/
  (exists o1 fds o2 c1 c2,
      evs = [o1; o2; c1; c2] /\
      opened o1 source O_RDONLY 0 fds /\
      open_failed o2 target TRUNC_FLAGS 438 /\
      ev_call c1 = SysClose fds /\ ev_call c2 = SysClose (-1) /\
      ok = false /\ errno = errno_after (failure_errno o2) [c1; c2]) \/
  (exists o1 fds o2 fdt mid c1 c2,
      evs = o1 :: o2 :: mid ++ [c1; c2] /\
      opened o1 source O_RDONLY 0 fds /\
      opened o2 target TRUNC_FLAGS 438 fdt /\
      Forall (fun e => stream_call fds fdt (ev_call e)) mid /\
      ev_call c1 = SysClose fds /\ ev_call c2 = SysClose fdt /\
      (ok = true -> read_bytes fds mid = written_bytes fdt mid) /\
      (ok = false ->
       exists mid' e, mid = mid' ++ [e] /\ wrapper_failed e /\
                      errno = errno_after (failure_errno e) [c1; c2])).

(** Each descriptor that an [open] in [evs] returned is the argument of a
    later [close] in [evs]. *)
Fixpoint no_leak (evs : list event) : Prop :=
  match evs with
  | [] => True
  | e :: rest =>
      match ev_call e, ev_ret e with
      | SysOpen _ _ _, inr (VInt fd) =>
          0 <= fd -> In (SysClose fd) (calls rest)
      | _, _ => True
      end /\ no_leak rest
  end.

(** A source of five bytes whose copy goes well until the target is
    closed. *)
Definition ex_close_script : script :=
  [ answer (inr (VInt 3)); answer (inr (VInt 4));
    answer (inr (VBytes (repeat x41%byte 5)));
    answer (inr (VInt 5)); answer (inr (VBytes []));
    ok_unit; answer (inl ENOSPC); answer (inl EBADF) ].


(** ** The hooks that create one node *)

(** The calls a hook may make for the current node of [c] once the old
    target is removed. *)
Definition hook_call (c : copier) (s : syscall) : Prop :=
  node_call (fts_accpath (_curr c)) (_curtgtpath c) s \/
  attr_call (_copyflags c) (fts_accpath (_curr c)) (_curtgtpath c) s.

(** A helper of the hooks leaves the object as it is when it succeeds and
    changes the message only when it fails. *)
Definition step_outcome (c : copier) (r : bool * copier) : Prop :=
  (fst r = true /\ snd r = c) \/ (fst r = false /\ same_but_msg c (snd r)).

(** The same for a hook that answers [FTS_OK] or [FTS_Fail]. *)
Definition hook_outcome (c : copier) (r : Z * copier) : Prop :=
  (fst r = FTS_OK /\ snd r = c) \/
  (fst r = FTS_Fail /\ same_but_msg c (snd r)).

(** The hooks that create something other than a directory. *)
Definition creating_hooks {K : Type} `{Kernel K} (fuel : nat)
  : list (copier -> M K (Z * copier)) :=
  [ on_reached_file fuel; on_reached_symlink fuel;
    on_reached_block_device; on_reached_character_device;
    on_reached_fifo ].

(** The object of a copy from [/a] into [/b] at the file [/a/f1]. *)
Definition ex_hook_copier (flags : Z) : copier :=
  mkcopier flags "/a" "/b" (ex_dir_stat 20) "/b/a/f1" no_message
           (ex_ent "/a/f1" "f1" (ex_file_stat 11))
           (ex_ent "/a" "a" (ex_dir_stat 10)).


(** The calls with which [on_reached_directory_pre] finds that the
    current target path cannot take a directory: a [mkdir] that failed for
    another reason than [EEXIST], or a [mkdir] and then a [stat] that
    shows something else than a directory. *)
Definition directory_refused (c : copier) (head : list event) : Prop :=
  (exists e1 e,
      head = [e1] /\
      ev_call e1 = SysMkdir (_curtgtpath c) 511 /\
      ev_ret e1 = inl e /\ e <> EEXIST) \/
  (exists e1 e2 sb,
      head = [e1; e2] /\
      ev_call e1 = SysMkdir (_curtgtpath c) 511 /\
      (ret_failed (ev_ret e1) = false \/ ev_ret e1 = inl EEXIST) /\
      ev_call e2 = SysStat (_curtgtpath c) /\
      ev_ret e2 = inr (VStat sb) /\ S_ISDIR (st_mode sb) = false).

(** The calls after which [on_reached_directory_pre] lets the walk go
    into the directory: a [mkdir] that went well or found the path
    taken, and a [stat] that failed or shows a directory. *)
Definition directory_accepted (c : copier) (evs : list event) : Prop :=
  exists e1 e2,
    evs = [e1; e2] /\
    ev_call e1 = SysMkdir (_curtgtpath c) 511 /\
    (ret_failed (ev_ret e1) = false \/ ev_ret e1 = inl EEXIST) /\
    ev_call e2 = SysStat (_curtgtpath c) /\
    (forall sb, ev_ret e2 = inr (VStat sb) -> S_ISDIR (st_mode sb) = true).

(** The object of a copy from [/a] into [/b] at the directory [/a/d1],
    without flags. *)
Definition ex_plain_dir_copier : copier :=
  mkcopier 0 "/a" "/b" (ex_dir_stat 20) "/b/a/d1" no_message
           (ex_ent "/a/d1" "d1" (ex_dir_stat 12))
           (ex_ent "/a" "a" (ex_dir_stat 10)).


(** ** Before the walk *)

(** The calls after which [on_pre_execute] lets the walk start: a [mkdir]
    of the target with all nine permission bits that went well or found
    the path taken, and a [stat] of the target that shows the directory
    [sb]. *)
Definition target_ready (c : copier) (evs : list event) (sb : stat) : Prop :=
  exists e1 e2,
    evs = [e1; e2] /\
    ev_call e1 = SysMkdir (_target c) 511 /\
    (ret_failed (ev_ret e1) = false \/ ev_ret e1 = inl EEXIST) /\
    ev_call e2 = SysStat (_target c) /\
    ev_ret e2 = inr (VStat sb) /\
    S_ISDIR (st_mode sb) = true.

(** [c'] is [c] but for [sb_target] and [_error_msg]. *)
Definition same_but_target_stat (c c' : copier) : Prop :=
  c' = set_error_msg (set_sb_target c (sb_target c')) (_error_msg c').

(** A separator or nothing. *)
Definition opt_slash (s : string) : Prop := s = "" \/ s = "/".


(** ** Extended attributes, value by value *)

(** What the source takes for the value of [name] after its two calls of
    [lgetxattr], the probe [g1] and the call [g2] with a buffer of the
    size the probe answered. With a size that is not 0 it is the value
    the kernel wrote, which fits the buffer. With size 0 the second call
    is a probe as well: nothing is fetched, and [value] stands for as many
    bytes behind the empty buffer as that call answered. *)
Definition value_taken (source name : string) (g1 g2 : event)
    (value : list byte) : Prop :=
  exists size,
    ev_call g1 = SysLgetxattr source name 0 /\
    ev_ret g1 = inr (VInt size) /\ 0 <= size /\
    ev_call g2 = SysLgetxattr source name size /\
    ((0 < size /\ ev_ret g2 = inr (VBytes value) /\
      Z.of_nat (List.length value) <= size) \/
     (size = 0 /\
      exists n, ev_ret g2 = inr (VInt n) /\ 0 <= n /\
                Z.of_nat (List.length value) = n)).

(** The same for the list of names and the two calls of [llistxattr]. *)
Definition names_taken (source : string) (e1 e2 : event) (listing : string)
  : Prop :=
  exists size,
    ev_call e1 = SysLlistxattr source 0 /\
    ev_ret e1 = inr (VInt size) /\ 0 <= size /\
    ev_call e2 = SysLlistxattr source size /\
    ((0 < size /\ ev_ret e2 = inr (VStr listing) /\
      Z.of_nat (String.length listing) <= size) \/
     (size = 0 /\
      exists n, ev_ret e2 = inr (VInt n) /\ 0 <= n /\
                Z.of_nat (String.length listing) = n)).

(** Every [lsetxattr] in [evs] is on the target, with flags 0, and comes
    directly after the two calls of [lgetxattr] on the source for the same
    name, with the value taken from them; [prev2] and [prev1] are the two
    events before [evs]. *)
Fixpoint sets_follow_gets (source target : string)
    (prev2 prev1 : option event) (evs : list event) : Prop :=
  match evs with
  | [] => True
  | e :: rest =>
      match ev_call e with
      | SysLsetxattr path name value flags =>
          path = target /\ flags = 0 /\
          exists g1 g2,
            prev2 = Some g1 /\ prev1 = Some g2 /\
            value_taken source name g1 g2 value
      | _ => True
      end /\
      sets_follow_gets source target prev1 (Some e) rest
  end.

(** The names under which [evs] set an attribute, in order. *)
Definition set_names (evs : list event) : list string :=
  flat_map (fun e => match ev_call e with
                     | SysLsetxattr _ name _ _ => [name]
                     | _ => []
                     end) evs.

(** [l1] is [l2] with some elements left out. *)
Inductive subseq {A : Type} : list A -> list A -> Prop :=
| subseq_nil : subseq [] []
| subseq_take x l1 l2 : subseq l1 l2 -> subseq (x :: l1) (x :: l2)
| subseq_drop x l1 l2 : subseq l1 l2 -> subseq l1 (x :: l2).

(** The calls [evs] of one [copy_xattrs source target]: the probe for
    the size of the list of names; the call for the list; and, when that
    went well, the calls of the loop over the [listing] taken, which set
    attributes under names of the listing only, in its order, each with
    the value taken for it. *)
Definition copy_xattrs_calls (source target : string) (evs : list event)
  : Prop :=
  exists e1,
    ev_call e1 = SysLlistxattr source 0 /\
    (evs = [e1] \/
     (exists e2 size,
        evs = [e1; e2] /\ ev_ret e1 = inr (VInt size) /\
        ev_call e2 = SysLlistxattr source size) \/
     (exists e2 rest listing,
        evs = e1 :: e2 :: rest /\
        names_taken source e1 e2 listing /\
        sets_follow_gets source target (Some e1) (Some e2) rest /\
        subseq (set_names rest) (split_names "" listing) /\
        Forall (fun name => name <> "") (set_names rest))).

(** An attribute that the probe finds empty and that holds one byte when
    the source asks again. *)
Definition ex_grown_xattr_script : script :=
  [ answer (inr (VInt 7));
    answer (inr (VStr (names_buffer ["user.a"])));
    answer (inr (VInt 0)); answer (inr (VInt 1)); ok_unit ].


(** A filesystem with a file [/a/f1] and nothing at [/b/a/f1], on which
    another process creates [/b/a/f1] just before the third call. *)
Definition ex_racy_hook_fs : tinyfs :=
  mktinyfs
    [ None; None;
      Some ("/b/a/f1", mknode (mkstat 1 30 (Z.lor S_IFREG 420) 0 0 0) "") ]
    [ ("/a/f1", mknode (mkstat 1 11 (Z.lor S_IFREG 420) 0 0 0) "") ].

(** A link [/a/l] to [/f], nothing at [/b/a/l], and the object of a copy
    from [/a] into [/b] at this link. *)
Definition ex_sym_hook_fs : symfs :=
  mksymfs (mktinyfs []
    [ ("/a/l", mknode (mkstat 1 52 (Z.lor S_IFLNK 511) 0 0 0) "/f") ]).

Definition ex_sym_hook_copier : copier :=
  mkcopier 0 "/a" "/b" (ex_dir_stat 20) "/b/a/l" no_message
           (ex_ent "/a/l" "l" (ex_link_stat 52))
           (ex_ent "/a" "a" (ex_dir_stat 10)).


(** ** Where a tree copy writes *)

(** [path] begins with [target]. *)
Definition under (target path : string) : Prop :=
  exists rest, path = (target ++ rest)%string.

(** A call that removes, creates or changes a file names a path that
    begins with [target], and a file opened otherwise than read-only is
    under [target]; calls that examine or read a file, and calls on
    descriptors, are free. *)
Definition writes_under (target : string) (s : syscall) : Prop :=
  match s with
  | SysUnlink path | SysMkdir path _ | SysMknod path _ _
  | SysMkfifo path _ | SysSymlink _ path | SysLchown path _ _
  | SysChmod path _ | SysLsetxattr path _ _ _ => under target path
  | SysOpen path flags _ => flags = O_RDONLY \/ under target path
  | _ => True
  end.


(** ** Path joining, as the code does it *)

(** [a] with a separator at its end: one is added if there is none. *)
Definition with_separator (a : string) : string :=
  if ends_with_slash a then a else (a ++ "/")%string.

(** [a] and [b] joined by a rule that only adds: nothing is joined to an
    empty [b]; a separator is put between them when [a] does not end in
    one and [b] does not begin with one; none is ever taken away. *)
Definition keep_join (a b : string) : string :=
  match b with
  | EmptyString => a
  | String ch _ =>
      if ends_with_slash a || Ascii.eqb ch slash then (a ++ b)%string
      else (a ++ "/" ++ b)%string
  end.

(** What the relative path of a node is joined to: the target root, and
    unless [MB_COPY_EXCLUDE_TOP_LEVEL] is set the name of the source root
    as the traversal reports it, after a separator. *)
Definition target_base (c : copier) : string :=
  if flag_set (_copyflags c) MB_COPY_EXCLUDE_TOP_LEVEL then _target c
  else (with_separator (_target c) ++ c_str (fts_name (_root c)))%string.

(** Copying [/a/], given with a separator at its end, into [/b]: the
    root has the empty name, and the node is [/a/link1]. *)
Definition ex_trailing_copier : copier :=
  mkcopier 0 "/a/" "/b" (ex_dir_stat 20) "" no_message
           (ex_ent "/a/link1" "link1" (ex_link_stat 14))
           (ex_ent "/a/" "" (ex_dir_stat 10)).

(** Copying [/] into [/b]: the root has the name [/], and the node is
    [/etc]. *)
Definition ex_slash_copier : copier :=
  mkcopier 0 "/" "/b" (ex_dir_stat 20) "" no_message
           (ex_ent "/etc" "etc" (ex_dir_stat 30))
           (ex_ent "/" "/" (ex_dir_stat 2)).


(** ** The visits of a walk, one by one *)

(** The hook the engine calls at a visit: the pre-order or the
    post-order hook of a directory, or the hook of another kind of
    node. *)
Inductive visit_kind :=
| VisitPre
| VisitPost
| VisitNode (kind : node_kind).

Definition hook_of {K : Type} `{Kernel K} (fuel : nat) (k : visit_kind)
  : copier -> M K (Z * copier) :=
  match k with
  | VisitPre => on_reached_directory_pre
  | VisitPost => on_reached_directory_post
  | VisitNode kind => dispatch fuel kind
  end.

(** The record of one visit: which hook, the entry, the action the
    visit answered, the object after the visit, and the system calls made
    during it. *)
Record visited := mkvisited {
  v_kind   : visit_kind;
  v_ent    : ftsent;
  v_action : Z;
  v_copier : copier;
  v_events : list event
}.

(** [visit], returning its record as well. *)
Definition visit_logged {K : Type} `{Kernel K} (fuel : nat) (k : visit_kind)
    (ent : ftsent) (w : walk) : M K (Z * walk * visited) :=
  fun p =>
    match visit (hook_of fuel k) ent w p with
    | Some ((a, w'), p') =>
        Some ((a, w',
               mkvisited k ent a (w_copier w')
                         (skipn (List.length (p_trace p)) (p_trace p'))),
              p')
    | None => None
    end.

(** [walk_tree], returning the records of its visits, in order, as
    well: the same walk ([walk_tree_logged_erase] below). *)
Fixpoint walk_tree_logged {K : Type} `{Kernel K} (fuel : nat) (t : fts_tree)
    (w : walk) : M K (walk * list visited) :=
  match t with
  | FtsNode kind ent =>
      '(_, w, v) <- visit_logged fuel (VisitNode kind) ent w ;; ret (w, [v])
  | FtsDir ent children =>
      '(a, w, v) <- visit_logged fuel VisitPre ent w ;;
      if w_stop w || has_flag a FTS_Skip then ret (w, [v]) else
      '(w, l) <- (fix walk_list (ts : list fts_tree) (w : walk)
                    : M K (walk * list visited) :=
                    match ts with
                    | [] => ret (w, [])
                    | t :: ts' =>
                        '(w, l) <- walk_tree_logged fuel t w ;;
                        if w_stop w then ret (w, l) else
                        '(w, l') <- walk_list ts' w ;;
                        ret (w, l ++ l')
                    end) children w ;;
      if w_stop w then ret (w, v :: l) else
      '(_, w, v') <- visit_logged fuel VisitPost ent w ;;
      ret (w, v :: l ++ [v'])
  end.

(** The walk over the children of a directory, as [walk_tree_logged]
    runs it. *)
Fixpoint walk_list_logged {K : Type} `{Kernel K} (fuel : nat)
    (ts : list fts_tree) (w : walk) : M K (walk * list visited) :=
  match ts with
  | [] => ret (w, [])
  | t :: ts' =>
      bind (walk_tree_logged fuel t w)
           (fun x => match x with
                     | (w, l) =>
                         if w_stop w then ret (w, l) else
                         bind (walk_list_logged fuel ts' w)
                              (fun y => match y with
                                        | (w, l') => ret (w, l ++ l')
                                        end)
                     end)
  end.

(** A visit answered FAIL. *)
Definition visit_failed (v : visited) : bool := has_flag (v_action v) FTS_Fail.

(** The message retained after the visits [log] of a walk that began
    with the message [m0]: that of the last visit that answered FAIL,
    and [m0] if none did. *)
Definition retained (m0 : message) (log : list visited) : message :=
  fold_left (fun m v => if visit_failed v then _error_msg (v_copier v) else m)
            log m0.

(** No visit of [log] answered FAIL. *)
Definition all_fine (log : list visited) : bool :=
  forallb (fun v => negb (visit_failed v)) log.


(** Leaving the records out of a run. *)
Definition erase {K A B : Type} (r : option (A * B * proc K))
  : option (A * proc K) :=
  match r with
  | Some ((a, _), p) => Some (a, p)
  | None => None
  end.


(** ** What a step leaves behind *)

(** Started where [P] holds, [m] returns only with [Q] of its result and
    of the state it returns in. *)
Definition ends {K A : Type} (P : proc K -> Prop) (m : M K A)
    (Q : A -> proc K -> Prop) : Prop :=
  forall p a p', P p -> m p = Some (a, p') -> Q a p'.

Definition anywhere {K : Type} : proc K -> Prop := fun _ => True.

(** The value of [fmt::format(f, path, strerror(errno))] under the
    [errno] [e]. *)
Definition errno_message (f path : string) (e : Z) : message :=
  fmt_format f [ArgStr path; ArgStrerror e].

(** A helper with the one failure message [f] returns true and the
    object as it was, or false and the object with the message formatted
    with the [errno] it returns under. *)
Definition step_sets {K : Type} (f : string) (c : copier)
    (r : bool * copier) (p' : proc K) : Prop :=
  (fst r = true /\ snd r = c) \/
  (fst r = false /\
   snd r = set_error_msg c (errno_message f (_curtgtpath c) (p_errno p'))).

(** The messages the hook of a visit assigns for the node of [c], with
    [strerror] taken of [e]: one for each of its failing steps. *)
Definition own_messages (k : visit_kind) (c : copier) (e : Z)
  : list message :=
  let at_target f := errno_message f (_curtgtpath c) e in
  let removal := at_target "%s: Failed to remove old path: %s" in
  let finish := [ at_target "%s: Failed to copy attributes: %s";
                  at_target "%s: Failed to copy xattrs: %s" ] in
  match k with
  | VisitPre =>
      at_target "%s: Failed to create directory: %s"
      :: fmt_format "%s: Exists but is not a directory"
                    [ArgStr (_curtgtpath c)]
      :: finish
  | VisitPost => finish
  | VisitNode KFile =>
      removal :: at_target "%s: Failed to copy data: %s" :: finish
  | VisitNode KSymlink =>
      removal
      :: errno_message "%s: Failed to read symlink path: %s"
                       (fts_accpath (_curr c)) e
      :: at_target "%s: Failed to create symlink: %s" :: finish
  | VisitNode KBlockDevice =>
      removal :: at_target "%s: Failed to create block device: %s" :: finish
  | VisitNode KCharacterDevice =>
      removal :: at_target "%s: Failed to create character device: %s"
      :: finish
  | VisitNode KFifo =>
      removal :: at_target "%s: Failed to create FIFO pipe: %s" :: finish
  | VisitNode KSocket => []
  end.

(** A hook other than the pre-order hook of a directory answers without
    FAIL and leaves the object as it was, or answers [FTS_Fail] and
    leaves one of its messages, formatted with the [errno] it returns
    under. *)
Definition hook_sets {K : Type} (k : visit_kind) (c : copier)
    (r : Z * copier) (p' : proc K) : Prop :=
  ((fst r = FTS_OK \/ fst r = FTS_Skip) /\ snd r = c) \/
  (fst r = FTS_Fail /\
   exists m, In m (own_messages k c (p_errno p')) /\
             snd r = set_error_msg c m).

(** The message of the self-copy guard for the entry [ent]. *)
Definition guard_message (ent : ftsent) : message :=
  fmt_format "%s: Cannot copy on top of itself" [ArgStr (fts_path ent)].

(** A visit that answered FAIL has assigned the message its object
    carries: the guard has, and ended the walk, or the hook has, with one
    of its own messages for the entry. *)
Definition assigned_by_visit (v : visited) : Prop :=
  visit_failed v = true ->
  (v_action v = Z.lor FTS_Fail FTS_Stop /\
   _error_msg (v_copier v) = guard_message (v_ent v)) \/
  (has_flag (v_action v) FTS_Stop = false /\
   _curr (v_copier v) = v_ent v /\
   exists e,
     In (_error_msg (v_copier v)) (own_messages (v_kind v) (v_copier v) e)).

(** [m] begins with the call [s], made under the mask it was started
    with. *)
Definition begins_with {K A : Type} (s : syscall) (m : M K A) : Prop :=
  forall p a p', m p = Some (a, p') ->
    exists e rest,
      p_trace p' = p_trace p ++ e :: rest /\
      ev_call e = s /\ ev_umask e = p_umask p.

(** The target path [on_changed_path] computes for the entry [ent] in a
    walk configured as [c]. *)
Definition target_path_of (c : copier) (ent : ftsent) : string :=
  _curtgtpath (snd (on_changed_path (set_curr c ent))).

(** The pre-order visit of a directory that passed the self-copy guard
    begins with the [mkdir] of the directory's target path, asked for
    with all nine permission bits under the mask [umask]. *)
Definition creates_directory (c : copier) (umask : Z) (v : visited)
  : Prop :=
  v_kind v = VisitPre -> has_flag (v_action v) FTS_Stop = false ->
  same_file (sb_target c) (fts_statp (v_ent v)) = false /\
  _curtgtpath (v_copier v) = target_path_of c (v_ent v) /\
  exists e rest,
    v_events v = e :: rest /\
    ev_call e = SysMkdir (target_path_of c (v_ent v)) 511 /\
    ev_umask e = umask.

(** The visits of a walk in which no hook fails or skips: a directory
    before and after what is below it. *)
Fixpoint full_visits (t : fts_tree) : list (visit_kind * ftsent) :=
  match t with
  | FtsNode kind ent => [(VisitNode kind, ent)]
  | FtsDir ent children =>
      (VisitPre, ent) :: flat_map full_visits children ++ [(VisitPost, ent)]
  end.

Definition visit_key (v : visited) : visit_kind * ftsent :=
  (v_kind v, v_ent v).

(** No call that changes ownership, permission bits or an extended
    attribute. *)
Definition changes_nothing (s : syscall) : Prop :=
  match s with
  | SysChmod _ _ | SysLchown _ _ _ | SysLsetxattr _ _ _ _ => False
  | _ => True
  end.


(** The account of a stretch of a walk that went from [w] in [p] to [w']
    in [p'] through the visits [log]: the calls made are those of the
    visits, in order; the mask and the configuration stay; the message is
    the one retained from the visits; the walk is still fine if it was and
    every visit was; every visit that failed assigned its message, and
    every pre-order visit of a directory that passed the guard begins
    with the [mkdir] of its target path. *)
Definition walk_account {K : Type} (w : walk) (p : proc K)
    (log : list visited) (w' : walk) (p' : proc K) : Prop :=
  p_trace p' = p_trace p ++ List.concat (map v_events log) /\
  p_umask p' = p_umask p /\
  same_config (w_copier w) (w_copier w') /\
  _error_msg (w_copier w') = retained (_error_msg (w_copier w)) log /\
  w_ok w' = w_ok w && all_fine log /\
  Forall assigned_by_visit log /\
  Forall (creates_directory (w_copier w) (p_umask p)) log.


(** The messages [on_pre_execute] assigns when it refuses to start the
    walk, with [strerror] taken of [e]. *)
Definition pre_execute_messages (c : copier) (e : Z) : list message :=
  [ fmt_format "MB_COPY_FOLLOW_SYMLINKS not allowed for recursive copies" [];
    errno_message "%s: Failed to create directory: %s" (_target c) e;
    errno_message "%s: Failed to stat: %s" (_target c) e;
    fmt_format "%s: Target exists but is not a directory"
               [ArgStr (_target c)] ].


(** ** A kernel with access control lists

    A filesystem whose nodes carry extended attributes. As on Linux, the
    access ACL of a node is its attribute [system.posix_acl_access], in the
    layout of <linux/posix_acl_xattr.h>: a 32-bit version 2, then entries
    of a 16-bit tag, 16-bit permissions and a 32-bit id, little-endian.
    Setting it rewrites the permission bits of the node: the owner's from
    the entry of the owning user, the group's from the mask entry, or from
    the entry of the owning group when there is no mask, the others' from
    the entry for others. [mkdir] gives a new directory the requested mode
    without the bits of the file-creation mask. *)
Definition ENODATA : Z := 61.
Definition ENOSYS  : Z := 38.

Record acl_node := mkaclnode {
  a_stat   : stat;
  a_xattrs : list (string * list byte)
}.

Definition aclfs : Type := list (string * acl_node).

Definition le16 (lo hi : byte) : Z :=
  Z.of_N (Byte.to_N lo) + 256 * Z.of_N (Byte.to_N hi).

(** The entries of an ACL, tag and permissions of each. *)
Fixpoint acl_entries (b : list byte) : option (list (Z * Z)) :=
  match b with
  | [] => Some []
  | t0 :: t1 :: p0 :: p1 :: _ :: _ :: _ :: _ :: rest =>
      option_map (cons (le16 t0 t1, le16 p0 p1)) (acl_entries rest)
  | _ => None
  end.

Definition ACL_USER_OBJ  : Z := 1.
Definition ACL_GROUP_OBJ : Z := 4.
Definition ACL_MASK      : Z := 16.
Definition ACL_OTHER     : Z := 32.

(** One entry's part in the permission bits; entries come sorted by tag,
    so the mask, when there is one, replaces the owning group's bits. *)
Definition acl_apply (mode : Z) (entry : Z * Z) : Z :=
  let (tag, perm) := entry in
  let perm := Z.land perm 7 in
  if tag =? ACL_USER_OBJ then Z.lor mode (Z.shiftl perm 6)
  else if tag =? ACL_GROUP_OBJ then Z.lor mode (Z.shiftl perm 3)
  else if tag =? ACL_MASK then
    Z.lor (Z.land mode (Z.lnot S_IRWXG)) (Z.shiftl perm 3)
  else if tag =? ACL_OTHER then Z.lor mode perm
  else mode.

(** The permission bits an access ACL stands for. *)
Definition acl_mode (value : list byte) : option Z :=
  match value with
  | v0 :: v1 :: v2 :: v3 :: rest =>
      if (le16 v0 v1 =? 2) && (le16 v2 v3 =? 0) then
        match acl_entries rest with
        | Some entries => Some (fold_left acl_apply entries 0)
        | None => None
        end
      else None
  | _ => None
  end.

Fixpoint acl_find (path : string) (fs : aclfs) : option acl_node :=
  match fs with
  | [] => None
  | (p, n) :: fs' => if String.eqb p path then Some n else acl_find path fs'
  end.

Fixpoint acl_update (path : string) (f : acl_node -> acl_node) (fs : aclfs)
  : aclfs :=
  match fs with
  | [] => []
  | (p, n) :: fs' =>
      if String.eqb p path then (p, f n) :: fs'
      else (p, n) :: acl_update path f fs'
  end.

Fixpoint xattr_find (name : string) (l : list (string * list byte))
  : option (list byte) :=
  match l with
  | [] => None
  | (k, v) :: l' => if String.eqb k name then Some v else xattr_find name l'
  end.

Fixpoint xattr_set (name : string) (value : list byte)
    (l : list (string * list byte)) : list (string * list byte) :=
  match l with
  | [] => [(name, value)]
  | (k, v) :: l' =>
      if String.eqb k name then (k, value) :: l'
      else (k, v) :: xattr_set name value l'
  end.

Definition acl_with_perms (perms : Z) (n : acl_node) : acl_node :=
  let sb := a_stat n in
  mkaclnode (mkstat (st_dev sb) (st_ino sb)
                    (Z.lor (Z.land (st_mode sb) (Z.lnot 511)) perms)
                    (st_uid sb) (st_gid sb) (st_rdev sb))
            (a_xattrs n).

Definition acl_with_xattr (name : string) (value : list byte)
    (n : acl_node) : acl_node :=
  mkaclnode (a_stat n) (xattr_set name value (a_xattrs n)).

#[export] Instance aclfs_kernel : Kernel aclfs :=
  fun s umask fs =>
    match s with
    | SysMkdir path mode =>
        match acl_find path fs with
        | Some _ => (inl EEXIST, fs)
        | None =>
            (inr VUnit,
             fs ++ [(path,
                     mkaclnode
                       (mkstat 1 (100 + Z.of_nat (List.length fs))
                               (Z.lor S_IFDIR (created_mode mode umask))
                               0 0 0)
                       [])])
        end
    | SysStat path | SysLstat path =>
        match acl_find path fs with
        | Some n => (inr (VStat (a_stat n)), fs)
        | None => (inl ENOENT, fs)
        end
    | SysLlistxattr path size =>
        match acl_find path fs with
        | Some n =>
            let names := names_buffer (map fst (a_xattrs n)) in
            let len := Z.of_nat (String.length names) in
            if size =? 0 then (inr (VInt len), fs)
            else if size <? len then (inl ERANGE, fs)
            else (inr (VStr names), fs)
        | None => (inl ENOENT, fs)
        end
    | SysLgetxattr path name size =>
        match acl_find path fs with
        | Some n =>
            match xattr_find name (a_xattrs n) with
            | Some value =>
                let len := Z.of_nat (List.length value) in
                if size =? 0 then (inr (VInt len), fs)
                else if size <? len then (inl ERANGE, fs)
                else (inr (VBytes value), fs)
            | None => (inl ENODATA, fs)
            end
        | None => (inl ENOENT, fs)
        end
    | SysLsetxattr path name value _ =>
        match acl_find path fs with
        | Some _ =>
            if String.eqb name "system.posix_acl_access" then
              match acl_mode value with
              | Some perms =>
                  (inr VUnit,
                   acl_update path
                     (fun n => acl_with_perms perms
                                 (acl_with_xattr name value n)) fs)
              | None => (inl EINVAL, fs)
              end
            else (inr VUnit, acl_update path (acl_with_xattr name value) fs)
        | None => (inl ENOENT, fs)
        end
    | _ => (inl ENOSYS, fs)
    end.

(** The access ACL rwx for the owner, r-x for the user 1000, r-x for the
    owning group and for the mask, nothing for the others. *)
Definition ex_acl : list byte :=
  [ x02; x00; x00; x00;
    x01; x00; x07; x00; xff; xff; xff; xff;
    x02; x00; x05; x00; xe8; x03; x00; x00;
    x04; x00; x05; x00; xff; xff; xff; xff;
    x10; x00; x05; x00; xff; xff; xff; xff;
    x20; x00; x00; x00; xff; xff; xff; xff ]%byte.

(** The source [/a]: an empty directory rwxr-x--- with that ACL. *)
Definition ex_acl_stat : stat := mkstat 1 10 (Z.lor S_IFDIR 488) 0 0 0.

Definition ex_acl_fs : aclfs :=
  [ ("/a", mkaclnode ex_acl_stat [("system.posix_acl_access", ex_acl)]) ].

Definition ex_acl_tree : fts_tree := FtsDir (ex_ent "/a" "a" ex_acl_stat) [].

(** The permission bits of the node at [path], if there is one. *)
Definition acl_perms (path : string) (fs : aclfs) : option Z :=
  option_map (fun n => Z.land (st_mode (a_stat n)) 511) (acl_find path fs).


(** * Properties *)

(** ** Reasoning about the monad *)

Lemma bind_Some {K A B} (m : M K A) (f : A -> M K B) p b p' :
  bind m f p = Some (b, p') ->
  exists a p1, m p = Some (a, p1) /\ f a p1 = Some (b, p').
Proof.
  unfold bind. destruct (m p) as [[a p1]|]; [|discriminate].
  intros Hf. exists a, p1. auto.
Qed.

Lemma bind_eq {K A B} (m : M K A) (f : A -> M K B) p a p1 :
  m p = Some (a, p1) -> bind m f p = f a p1.
Proof. unfold bind. intros ->. reflexivity. Qed.

Section Traced.
Context {K : Type} `{Kernel K}.
Variable E : syscall -> Prop.

Lemma traced_ret {A} (Q : A -> Prop) (a : A) :
  Q a -> traced E Q (ret a : M K A).
Proof.
  intros Hq p a' p' Hr. inversion Hr; subst. split; [assumption|].
  split; [reflexivity|]. exists []. rewrite app_nil_r. auto.
Qed.

Lemma traced_none {A} (Q : A -> Prop) :
  traced E Q (fun _ => None : option (A * proc K)).
Proof. intros p a p' Hr. discriminate. Qed.

Lemma traced_bind {A B} (Q1 : A -> Prop) (Q : B -> Prop)
    (m : M K A) (f : A -> M K B) :
  traced E Q1 m -> (forall a, Q1 a -> traced E Q (f a)) ->
  traced E Q (bind m f).
Proof.
  intros Hm Hf p b p' Hr.
  apply bind_Some in Hr. destruct Hr as (a & p1 & H1 & H2).
  apply Hm in H1. destruct H1 as (Hq1 & Hu1 & evs1 & Ht1 & Hall1).
  apply (Hf a Hq1) in H2. destruct H2 as (Hq & Hu2 & evs2 & Ht2 & Hall2).
  split; [assumption|]. split; [congruence|].
  exists (evs1 ++ evs2). split.
  - rewrite Ht2, Ht1, app_assoc. reflexivity.
  - apply Forall_app. split; [assumption|].
    rewrite Hu1 in Hall2. assumption.
Qed.

Lemma traced_weaken {A} (Q Q' : A -> Prop) (m : M K A) :
  traced E Q m -> (forall a, Q a -> Q' a) -> traced E Q' m.
Proof.
  intros Hm Hq p a p' Hr. apply Hm in Hr.
  destruct Hr as (Ha & Hr). split; auto.
Qed.

Lemma traced_syscall_raw s : E s -> traced E any_result (syscall_raw s).
Proof.
  intros Hs p r p' Hr. unfold syscall_raw in Hr.
  destruct (k_call s (p_umask p) (p_kernel p)) as [r0 k'].
  inversion Hr; subst; simpl. split; [exact I|]. split; [reflexivity|].
  eexists. split; [reflexivity|]. repeat constructor; assumption.
Qed.

Lemma traced_set_errno e : traced E any_result (set_errno e : M K unit).
Proof.
  intros p a p' Hr. inversion Hr; subst; simpl. split; [exact I|].
  split; [reflexivity|]. exists []. rewrite app_nil_r. auto.
Qed.

Lemma traced_get_errno : traced E any_result (get_errno : M K Z).
Proof.
  intros p a p' Hr. inversion Hr; subst; simpl. split; [exact I|].
  split; [reflexivity|]. exists []. rewrite app_nil_r. auto.
Qed.
End Traced.

(** Walks through a computation built from [bind], [ret], the plain system
    calls and case distinctions, when any result will do. *)
Ltac traced_step :=
  match goal with
  | |- traced _ _ (ret _) => apply traced_ret; try exact I
  | |- traced _ _ (fun _ => None) => apply traced_none
  | |- traced _ _ (set_errno _) => apply traced_set_errno
  | |- traced _ _ get_errno => apply traced_get_errno
  | |- traced _ _ (syscall_raw _) => apply traced_syscall_raw
  | |- traced _ _ (bind _ _) =>
      apply (traced_bind _ any_result); [|intros ? _]
  | |- traced _ _ (match ?x with _ => _ end) => destruct x
  | |- traced _ _ (if ?b then _ else _) => destruct b
  end.

Ltac traced_tac := repeat traced_step.

Section TracedCalls.
Context {K : Type} `{Kernel K}.
Variable E : syscall -> Prop.

Lemma traced_fail_eio {A} : traced E any_result (fail_eio : M K (Z + A)).
Proof. unfold fail_eio. traced_tac. Qed.

Lemma traced_sys_status s : E s -> traced E any_result (sys_status s).
Proof. intros. unfold sys_status. traced_tac. assumption. Qed.

Lemma traced_sys_stat_like s : E s -> traced E any_result (sys_stat_like s).
Proof.
  intros. unfold sys_stat_like. traced_tac;
    try apply traced_fail_eio; assumption.
Qed.

Lemma traced_sys_int s : E s -> traced E any_result (sys_int s).
Proof.
  intros. unfold sys_int. traced_tac; try apply traced_fail_eio; assumption.
Qed.

Lemma traced_read fd n : E (SysRead fd n) -> traced E any_result (read fd n).
Proof.
  intros. unfold read. traced_tac; try apply traced_fail_eio; assumption.
Qed.

Lemma traced_write fd d :
  E (SysWrite fd d) -> traced E any_result (write fd d).
Proof.
  intros. unfold write. traced_tac; try apply traced_fail_eio; assumption.
Qed.

Lemma traced_readlink path n :
  E (SysReadlink path n) -> traced E any_result (readlink path n).
Proof.
  intros. unfold readlink. traced_tac;
    try apply traced_fail_eio; assumption.
Qed.

Lemma traced_llistxattr path n :
  E (SysLlistxattr path n) -> traced E any_result (llistxattr path n).
Proof.
  intros. unfold llistxattr. traced_tac;
    try apply traced_fail_eio; assumption.
Qed.

Lemma traced_lgetxattr path name n :
  E (SysLgetxattr path name n) -> traced E any_result (lgetxattr path name n).
Proof.
  intros. unfold lgetxattr. traced_tac;
    try apply traced_fail_eio; assumption.
Qed.
End TracedCalls.

(** ** The system calls each function makes *)

Section TracedCode.
Context {K : Type} `{Kernel K}.
Variable E : syscall -> Prop.
Hypothesis E_benign : forall s, benign s = true -> E s.

Ltac benign_tac := try (apply E_benign; reflexivity).

Lemma traced_write_chunk fuel fd out :
  traced E any_result (write_chunk fuel fd out).
Proof.
  revert out. induction fuel as [|fuel IH]; intros out; simpl.
  - apply traced_none.
  - apply (traced_bind _ any_result);
      [apply traced_write; benign_tac | intros r _].
    destruct r as [e|n]; [traced_tac|].
    destruct (0 <? _); [apply IH | traced_tac].
Qed.

Lemma traced_copy_data_fd fuel fds fdt :
  traced E any_result (copy_data_fd fuel fds fdt).
Proof.
  induction fuel as [|fuel IH]; simpl.
  - apply traced_none.
  - apply (traced_bind _ any_result);
      [apply traced_read; benign_tac | intros r _].
    destruct r as [e|[|b buf]]; [traced_tac | traced_tac |].
    apply (traced_bind _ any_result);
      [apply traced_write_chunk | intros ok _].
    destruct ok; [apply IH | traced_tac].
Qed.

Lemma traced_close fd : traced E any_result (close fd).
Proof. apply traced_sys_status. benign_tac. Qed.

Lemma traced_open path flags mode :
  traced E any_result (open path flags mode).
Proof. apply traced_sys_int. benign_tac. Qed.

Lemma traced_copy_data_error fds fdt :
  traced E any_result (copy_data_error fds fdt).
Proof.
  unfold copy_data_error.
  repeat first [ apply traced_close | traced_step ].
Qed.

Lemma traced_copy_data fuel source target :
  traced E any_result (copy_data fuel source target).
Proof.
  unfold copy_data.
  repeat first [ apply traced_close | apply traced_open
               | apply traced_copy_data_error | apply traced_copy_data_fd
               | traced_step ].
Qed.

Lemma traced_copy_contents fuel source target :
  traced E any_result (copy_contents fuel source target).
Proof.
  unfold copy_contents.
  repeat first [ apply traced_close | apply traced_open
               | apply traced_copy_data_fd | traced_step ].
Qed.

Lemma traced_readlink2 fuel path :
  traced E any_result (readlink2 fuel path).
Proof.
  unfold readlink2. generalize 64 as bufsize.
  induction fuel as [|fuel IH]; intros bufsize; simpl.
  - apply traced_none.
  - apply (traced_bind _ any_result);
      [apply traced_readlink; benign_tac | intros r _].
    destruct r as [e|buf]; [traced_tac|].
    destruct (_ =? _); [apply IH | traced_tac].
Qed.

Lemma traced_copy_xattrs_loop source target names :
  (forall name value, E (SysLsetxattr target name value 0)) ->
  traced E any_result (copy_xattrs_loop source target names).
Proof.
  intros Hset. induction names as [|name rest IH]; simpl.
  - traced_tac.
  - destruct (String.eqb name ""); [exact IH|].
    unfold lgetxattr_size, lsetxattr.
    repeat first [ exact IH | apply traced_sys_int; benign_tac
                 | apply traced_lgetxattr; benign_tac
                 | apply traced_sys_status; apply Hset
                 | traced_step ].
Qed.

Lemma traced_copy_xattrs source target :
  (forall name value, E (SysLsetxattr target name value 0)) ->
  traced E any_result (copy_xattrs source target).
Proof.
  intros Hset. unfold copy_xattrs, llistxattr_size.
  repeat first [ apply traced_copy_xattrs_loop; exact Hset
               | apply traced_sys_int; benign_tac
               | apply traced_llistxattr; benign_tac
               | traced_step ].
Qed.

Lemma traced_copy_stat source target :
  (forall uid gid, E (SysLchown target uid gid)) ->
  (forall mode, E (SysChmod target mode)) ->
  traced E any_result (copy_stat source target).
Proof.
  intros Hown Hmod. unfold copy_stat, lstat, lchown, chmod.
  repeat first [ apply traced_sys_stat_like; benign_tac
               | apply traced_sys_status; first [apply Hown | apply Hmod]
               | traced_step ].
Qed.
End TracedCode.

(** ** What the hooks do to the object *)

Lemma same_but_msg_refl c : same_but_msg c c.
Proof. destruct c; reflexivity. Qed.

Lemma same_but_msg_set c m : same_but_msg c (set_error_msg c m).
Proof. destruct c; reflexivity. Qed.

Lemma same_but_msg_trans c1 c2 c3 :
  same_but_msg c1 c2 -> same_but_msg c2 c3 -> same_but_msg c1 c3.
Proof.
  unfold same_but_msg. intros H12 H23. rewrite H23, H12.
  destruct c1; reflexivity.
Qed.

Lemma same_but_msg_config c c' : same_but_msg c c' -> same_config c c'.
Proof.
  unfold same_but_msg, same_config. intros ->. destruct c; simpl. auto.
Qed.

Lemma same_but_msg_fields c c' :
  same_but_msg c c' ->
  _copyflags c' = _copyflags c /\ _curtgtpath c' = _curtgtpath c /\
  _curr c' = _curr c.
Proof. unfold same_but_msg. intros ->. destruct c; simpl. auto. Qed.

Section TracedHooks.
Context {K : Type} `{Kernel K}.
Variable E : syscall -> Prop.
Variable flags : Z.
Hypothesis E_benign : forall s, benign s = true -> E s.
Hypothesis E_mkdir : forall path, E (SysMkdir path 511).
Hypothesis E_chown :
  flag_set flags MB_COPY_ATTRIBUTES = true ->
  forall path uid gid, E (SysLchown path uid gid).
Hypothesis E_chmod :
  flag_set flags MB_COPY_ATTRIBUTES = true ->
  forall path mode, E (SysChmod path mode).
Hypothesis E_setxattr :
  flag_set flags MB_COPY_XATTRS = true ->
  forall path name value, E (SysLsetxattr path name value 0).

Lemma traced_fail_with c f path :
  traced (K:=K) E (same_but_msg c) (fail_with c f path).
Proof.
  unfold fail_with. apply (traced_bind _ any_result);
    [apply traced_get_errno | intros e _].
  apply traced_ret. apply same_but_msg_set.
Qed.

(** A failure path: set the message, return [r]. *)
Lemma traced_fail_ret {A} c0 c f path (r : A) :
  same_but_msg c0 c ->
  traced (K:=K) E (hook_result c0)
         (bind (fail_with c f path) (fun c' => ret (r, c'))).
Proof.
  intros Hc. apply (traced_bind _ (same_but_msg c));
    [apply traced_fail_with | intros c' Hc'].
  apply traced_ret. unfold hook_result; simpl.
  eapply same_but_msg_trans; eassumption.
Qed.

Lemma traced_remove_existing_file c :
  traced E (hook_result c) (remove_existing_file c).
Proof.
  unfold remove_existing_file, unlink.
  apply (traced_bind _ any_result);
    [apply traced_sys_status, E_benign; reflexivity | intros r _].
  apply (traced_bind _ any_result); [apply traced_get_errno | intros e _].
  destruct (_ && _).
  - apply traced_fail_ret, same_but_msg_refl.
  - apply traced_ret, same_but_msg_refl.
Qed.

Lemma traced_cp_attrs c :
  _copyflags c = flags -> traced E (hook_result c) (cp_attrs c).
Proof.
  intros Hf. unfold cp_attrs. rewrite Hf.
  destruct (flag_set flags MB_COPY_ATTRIBUTES) eqn:Ha.
  - apply (traced_bind _ any_result);
      [apply traced_copy_stat; auto | intros ok _].
    destruct ok; simpl.
    + apply traced_ret, same_but_msg_refl.
    + apply traced_fail_ret, same_but_msg_refl.
  - apply traced_ret, same_but_msg_refl.
Qed.

Lemma traced_cp_xattrs c :
  _copyflags c = flags -> traced E (hook_result c) (cp_xattrs c).
Proof.
  intros Hf. unfold cp_xattrs. rewrite Hf.
  destruct (flag_set flags MB_COPY_XATTRS) eqn:Ha.
  - apply (traced_bind _ any_result);
      [apply traced_copy_xattrs; auto | intros ok _].
    destruct ok; simpl.
    + apply traced_ret, same_but_msg_refl.
    + apply traced_fail_ret, same_but_msg_refl.
  - apply traced_ret, same_but_msg_refl.
Qed.

Lemma hook_result_flags {A} c (r : A * copier) :
  _copyflags c = flags -> hook_result c r -> _copyflags (snd r) = flags.
Proof.
  intros Hf Hr. apply same_but_msg_fields in Hr.
  destruct Hr as (Hr & _). congruence.
Qed.

Lemma traced_finish_node c0 c :
  _copyflags c = flags -> same_but_msg c0 c ->
  traced E (hook_result c0) (finish_node c).
Proof.
  intros Hf Hc. unfold finish_node.
  apply (traced_bind _ (hook_result c));
    [apply traced_cp_attrs, Hf | intros [ok c1] H1].
  pose proof (hook_result_flags _ _ Hf H1) as Hf1.
  unfold hook_result in H1; simpl in H1, Hf1.
  assert (H01 : same_but_msg c0 c1)
    by (eapply same_but_msg_trans; eassumption).
  destruct ok; simpl; [|apply traced_ret; exact H01].
  apply (traced_bind _ (hook_result c1));
    [apply traced_cp_xattrs, Hf1 | intros [ok c2] H2].
  unfold hook_result in H2; simpl in H2.
  assert (H02 : same_but_msg c0 c2)
    by (eapply same_but_msg_trans; eassumption).
  destruct ok; simpl; apply traced_ret; exact H02.
Qed.

(** The shape shared by the hooks that create one node: remove what is
    there, create, finish. *)
Lemma traced_create_node c (create : copier -> M K (Z * copier)) :
  _copyflags c = flags ->
  (forall c1, _copyflags c1 = flags -> same_but_msg c c1 ->
              traced E (hook_result c) (create c1)) ->
  traced E (hook_result c)
    (bind (remove_existing_file c)
          (fun x => match x with
                    | (ok, c1) => if negb ok then ret (FTS_Fail, c1)
                                  else create c1
                    end)).
Proof.
  intros Hf Hcreate.
  apply (traced_bind _ (hook_result c));
    [apply traced_remove_existing_file | intros [ok c1] H1].
  pose proof (hook_result_flags _ _ Hf H1) as Hf1.
  unfold hook_result in H1; simpl in H1, Hf1.
  destruct ok; simpl; [auto | apply traced_ret; exact H1].
Qed.

Lemma traced_on_reached_file fuel c :
  _copyflags c = flags ->
  traced E (hook_result c) (on_reached_file fuel c).
Proof.
  intros Hf. unfold on_reached_file.
  apply traced_create_node; [exact Hf | intros c1 Hf1 H1].
  apply (traced_bind _ any_result);
    [apply traced_copy_data, E_benign | intros ok _].
  destruct ok; simpl.
  - apply traced_finish_node; assumption.
  - apply traced_fail_ret; assumption.
Qed.

Lemma traced_on_reached_symlink fuel c :
  _copyflags c = flags ->
  traced E (hook_result c) (on_reached_symlink fuel c).
Proof.
  intros Hf. unfold on_reached_symlink.
  apply traced_create_node; [exact Hf | intros c1 Hf1 H1].
  apply (traced_bind _ any_result);
    [apply traced_readlink2, E_benign | intros l _].
  destruct l as [symlink_path|].
  - apply (traced_bind _ any_result);
      [apply traced_sys_status, E_benign; reflexivity | intros r _].
    destruct (is_err r).
    + apply traced_fail_ret; assumption.
    + apply traced_finish_node; assumption.
  - apply traced_fail_ret; assumption.
Qed.

Lemma traced_on_reached_block_device c :
  _copyflags c = flags ->
  traced E (hook_result c) (on_reached_block_device c).
Proof.
  intros Hf. unfold on_reached_block_device.
  apply traced_create_node; [exact Hf | intros c1 Hf1 H1].
  apply (traced_bind _ any_result);
    [apply traced_sys_status, E_benign; reflexivity | intros r _].
  destruct (is_err r).
  - apply traced_fail_ret; assumption.
  - apply traced_finish_node; assumption.
Qed.

Lemma traced_on_reached_character_device c :
  _copyflags c = flags ->
  traced E (hook_result c) (on_reached_character_device c).
Proof.
  intros Hf. unfold on_reached_character_device.
  apply traced_create_node; [exact Hf | intros c1 Hf1 H1].
  apply (traced_bind _ any_result);
    [apply traced_sys_status, E_benign; reflexivity | intros r _].
  destruct (is_err r).
  - apply traced_fail_ret; assumption.
  - apply traced_finish_node; assumption.
Qed.

Lemma traced_on_reached_fifo c :
  _copyflags c = flags ->
  traced E (hook_result c) (on_reached_fifo c).
Proof.
  intros Hf. unfold on_reached_fifo.
  apply traced_create_node; [exact Hf | intros c1 Hf1 H1].
  apply (traced_bind _ any_result);
    [apply traced_sys_status, E_benign; reflexivity | intros r _].
  destruct (is_err r).
  - apply traced_fail_ret; assumption.
  - apply traced_finish_node; assumption.
Qed.

Lemma traced_on_reached_socket c :
  traced (K:=K) E (hook_result c) (on_reached_socket c).
Proof. apply traced_ret, same_but_msg_refl. Qed.

Lemma traced_on_reached_directory_post c :
  _copyflags c = flags ->
  traced E (hook_result c) (on_reached_directory_post c).
Proof.
  intros Hf. apply traced_finish_node; [exact Hf|].
  apply same_but_msg_refl.
Qed.
End TracedHooks.

(** ** The walk *)

Lemma same_config_refl c : same_config c c.
Proof. unfold same_config. auto. Qed.

Lemma same_config_trans c1 c2 c3 :
  same_config c1 c2 -> same_config c2 c3 -> same_config c1 c3.
Proof.
  unfold same_config. intros (?&?&?&?&?) (?&?&?&?&?).
  repeat split; congruence.
Qed.

Lemma same_config_set_curr c e : same_config c (set_curr c e).
Proof. unfold same_config. destruct c; simpl. auto. Qed.

Lemma on_changed_path_config c :
  same_config c (snd (on_changed_path c)).
Proof.
  unfold on_changed_path, same_config.
  destruct (_ && _); destruct c; simpl; auto.
Qed.

Lemma on_changed_path_action c :
  (same_file (sb_target c) (fts_statp (_curr c)) = true /\
   fst (on_changed_path c) = Z.lor FTS_Fail FTS_Stop) \/
  (same_file (sb_target c) (fts_statp (_curr c)) = false /\
   fst (on_changed_path c) = FTS_OK).
Proof.
  unfold on_changed_path, same_file.
  destruct (_ && _); simpl; auto.
Qed.

Lemma walk_inv_refl w : walk_inv w w.
Proof.
  split; [apply same_config_refl|]. exists []. rewrite app_nil_r. auto.
Qed.

Lemma walk_inv_trans w1 w2 w3 :
  walk_inv w1 w2 -> walk_inv w2 w3 -> walk_inv w1 w3.
Proof.
  intros (Hc12 & l1 & Hl1 & Ha1) (Hc23 & l2 & Hl2 & Ha2). split.
  - eapply same_config_trans; eassumption.
  - exists (l1 ++ l2). split.
    + rewrite Hl2, Hl1, app_assoc. reflexivity.
    + apply Forall_app. split; [assumption|].
      destruct Hc12 as (_ & _ & _ & Hsb & _). rewrite Hsb in Ha2. assumption.
Qed.
Lemma walk_tree_dir {K : Type} `{Kernel K} fuel ent children w p :
  walk_tree fuel (FtsDir ent children) w p =
  bind (visit on_reached_directory_pre ent w)
       (fun x => match x with
                 | (a, w) =>
                     if w_stop w || has_flag a FTS_Skip then ret w else
                     bind (walk_list fuel children w)
                          (fun w => if w_stop w then ret w else
                             bind (visit on_reached_directory_post ent w)
                                  (fun x => match x with (_, w) => ret w end))
                 end) p.
Proof.
  cbn [walk_tree].
  match goal with
  | |- context [bind (?f children _) _] =>
      assert (Hl : forall ts w0 p0, f ts w0 p0 = walk_list fuel ts w0 p0)
  end.
  { induction ts as [|t ts IH]; intros w0 p0; [reflexivity|].
    simpl. unfold bind.
    destruct (walk_tree fuel t w0 p0) as [[w1 p1]|]; [|reflexivity].
    destruct (w_stop w1); [reflexivity | apply IH]. }
  unfold bind.
  destruct (visit on_reached_directory_pre ent w p) as [[[a w1] p1]|];
    [|reflexivity].
  destruct (w_stop w1 || has_flag a FTS_Skip); [reflexivity|].
  rewrite Hl. reflexivity.
Qed.

Lemma traced_ext {K A} E (Q : A -> Prop) (m m' : M K A) :
  (forall p, m p = m' p) -> traced E Q m' -> traced E Q m.
Proof. intros Heq Hm p a p' Hr. rewrite Heq in Hr. apply Hm, Hr. Qed.

Section TracedWalk.
Context {K : Type} `{Kernel K}.
Variable E : syscall -> Prop.
Variable flags : Z.
Hypothesis E_benign : forall s, benign s = true -> E s.
Hypothesis E_mkdir : forall path, E (SysMkdir path 511).
Hypothesis E_chown :
  flag_set flags MB_COPY_ATTRIBUTES = true ->
  forall path uid gid, E (SysLchown path uid gid).
Hypothesis E_chmod :
  flag_set flags MB_COPY_ATTRIBUTES = true ->
  forall path mode, E (SysChmod path mode).
Hypothesis E_setxattr :
  flag_set flags MB_COPY_XATTRS = true ->
  forall path name value, E (SysLsetxattr path name value 0).

Lemma traced_on_reached_directory_pre c :
  _copyflags c = flags ->
  traced E (hook_result c) (on_reached_directory_pre c).
Proof.
  intros Hf. unfold on_reached_directory_pre, mkdir, sys_stat.
  apply (traced_bind _ any_result);
    [apply traced_sys_status, E_mkdir | intros r _].
  apply (traced_bind _ any_result); [apply traced_get_errno | intros e _].
  apply (traced_bind _ (hook_result c)).
  { destruct (_ && _).
    - apply traced_fail_ret, same_but_msg_refl.
    - apply traced_ret, same_but_msg_refl. }
  intros [[skip success] c1] H1. unfold hook_result in H1; simpl in H1.
  apply (traced_bind _ (hook_result c)).
  { destruct (negb skip); [|apply traced_ret; exact H1].
    apply (traced_bind _ any_result);
      [apply traced_sys_stat_like, E_benign; reflexivity | intros r2 _].
    destruct r2 as [e2|sb]; [apply traced_ret; exact H1|].
    destruct (negb _); apply traced_ret; unfold hook_result; simpl.
    - eapply same_but_msg_trans; [exact H1 | apply same_but_msg_set].
    - exact H1. }
  intros [[skip2 success2] c2] H2. unfold hook_result in H2; simpl in H2.
  assert (Hf2 : _copyflags c2 = flags).
  { apply same_but_msg_fields in H2. destruct H2 as (H2 & _). congruence. }
  apply (traced_bind _ (hook_result c)).
  { destruct skip2; [|apply traced_ret; exact H2].
    apply (traced_bind _ (hook_result c2));
      [apply traced_cp_attrs with (flags := flags); auto
      | intros [ok1 c3] H3].
    pose proof (hook_result_flags flags _ _ Hf2 H3) as Hf3.
    unfold hook_result in H3; simpl in H3, Hf3.
    apply (traced_bind _ (hook_result c3));
      [apply traced_cp_xattrs with (flags := flags); auto
      | intros [ok2 c4] H4].
    unfold hook_result in H4; simpl in H4.
    apply traced_ret. unfold hook_result; simpl.
    eapply same_but_msg_trans; [exact H2|].
    eapply same_but_msg_trans; eassumption. }
  intros [success3 c3] H3. apply traced_ret. exact H3.
Qed.

Lemma traced_on_pre_execute c :
  traced E (fun r => _copyflags (snd r) = _copyflags c) (on_pre_execute c).
Proof.
  unfold on_pre_execute, mkdir, sys_stat.
  destruct (flag_set (_copyflags c) MB_COPY_FOLLOW_SYMLINKS);
    [apply traced_ret; destruct c; reflexivity|].
  apply (traced_bind _ any_result);
    [apply traced_sys_status, E_mkdir | intros r _].
  apply (traced_bind _ any_result); [apply traced_get_errno | intros e _].
  assert (Hfail : forall f,
    traced (K:=K) E (fun r : bool * copier => _copyflags (snd r) = _copyflags c)
           (bind (fail_with c f (_target c)) (fun c' => ret (false, c')))).
  { intros f. eapply traced_weaken;
      [apply traced_fail_ret, same_but_msg_refl|].
    intros x Hx. apply same_but_msg_fields in Hx. apply Hx. }
  destruct (_ && _); [apply Hfail|].
  apply (traced_bind _ any_result);
    [apply traced_sys_stat_like, E_benign; reflexivity | intros r2 _].
  destruct r2 as [e2|sb]; [apply Hfail|].
  destruct (negb _); apply traced_ret; destruct c; reflexivity.
Qed.

Lemma traced_dispatch fuel kind c :
  _copyflags c = flags ->
  traced E (hook_result c) (dispatch fuel kind c).
Proof.
  intros Hf. destruct kind; simpl.
  - apply traced_on_reached_file with (flags := flags); auto.
  - apply traced_on_reached_symlink with (flags := flags); auto.
  - apply traced_on_reached_block_device with (flags := flags); auto.
  - apply traced_on_reached_character_device with (flags := flags); auto.
  - apply traced_on_reached_fifo with (flags := flags); auto.
  - apply traced_on_reached_socket.
Qed.

Lemma traced_visit (hook : copier -> M K (Z * copier)) ent w :
  _copyflags (w_copier w) = flags ->
  (forall c, _copyflags c = flags -> traced E (hook_result c) (hook c)) ->
  traced E (fun r => walk_step flags w (snd r)) (visit hook ent w).
Proof.
  intros Hf Hhook. unfold visit.
  pose proof (on_changed_path_config (set_curr (w_copier w) ent)) as Hcfg.
  pose proof (on_changed_path_action (set_curr (w_copier w) ent)) as Hact.
  destruct (on_changed_path (set_curr (w_copier w) ent)) as [a c1].
  simpl in Hcfg, Hact.
  assert (Hcfg1 : same_config (w_copier w) c1).
  { eapply same_config_trans; [apply same_config_set_curr | exact Hcfg]. }
  assert (Hf1 : _copyflags c1 = flags).
  { destruct Hcfg1 as (Hc & _). congruence. }
  destruct Hact as [(Hsame & ->) | (Hdiff & ->)].
  - simpl. apply traced_ret. split; [|exact Hf1]. split; [exact Hcfg1|].
    exists []. simpl. rewrite app_nil_r. auto.
  - simpl. apply (traced_bind _ (hook_result c1));
      [apply Hhook, Hf1 | intros [b c2] H2].
    pose proof (hook_result_flags flags _ _ Hf1 H2) as Hf2.
    unfold hook_result in H2; simpl in H2, Hf2.
    apply traced_ret. split; [|exact Hf2]. simpl. split.
    + eapply same_config_trans; [exact Hcfg1|].
      apply same_but_msg_config, H2.
    + exists [ent]. split; [reflexivity|]. constructor; [|constructor].
      destruct (w_copier w); exact Hdiff.
Qed.

Lemma walk_step_trans w1 w2 w3 :
  walk_step flags w1 w2 -> walk_step flags w2 w3 -> walk_step flags w1 w3.
Proof.
  intros (H12 & _) (H23 & Hf). split; [|exact Hf].
  eapply walk_inv_trans; eassumption.
Qed.

Lemma traced_walk_tree fuel t :
  forall w, _copyflags (w_copier w) = flags ->
  traced E (walk_step flags w) (walk_tree fuel t w).
Proof.
  induction t as [kind ent | ent children IH] using fts_tree_induction;
    intros w Hf.
  - simpl. apply (traced_bind _ (fun r => walk_step flags w (snd r))).
    + apply traced_visit; [exact Hf|]. intros c Hc.
      apply traced_dispatch, Hc.
    + intros [a w1] H1. apply traced_ret. exact H1.
  - eapply traced_ext; [intros p; apply walk_tree_dir|].
    apply (traced_bind _ (fun r => walk_step flags w (snd r))).
    { apply traced_visit; [exact Hf|]. intros c Hc.
      apply traced_on_reached_directory_pre, Hc. }
    intros [a w1] H1. simpl in H1.
    destruct (_ || _); [apply traced_ret; exact H1|].
    assert (Hlist : forall w0, _copyflags (w_copier w0) = flags ->
              traced E (walk_step flags w0) (walk_list fuel children w0)).
    { clear w Hf w1 H1 a. induction IH as [|t ts Ht _ IHts]; intros w0 Hf0.
      - simpl. apply traced_ret. split; [apply walk_inv_refl | exact Hf0].
      - simpl. apply (traced_bind _ (walk_step flags w0)); [apply Ht, Hf0|].
        intros w1 H1. destruct (w_stop w1); [apply traced_ret; exact H1|].
        eapply traced_weaken; [apply IHts; apply H1|].
        intros w2 H2. eapply walk_step_trans; eassumption. }
    apply (traced_bind _ (walk_step flags w1)); [apply Hlist, H1|].
    intros w2 H2.
    assert (H02 : walk_step flags w w2) by (eapply walk_step_trans; eassumption).
    destruct (w_stop w2); [apply traced_ret; exact H02|].
    apply (traced_bind _ (fun r => walk_step flags w2 (snd r))).
    { apply traced_visit; [apply H2|]. intros c Hc.
      apply traced_on_reached_directory_post with (flags := flags); auto. }
    intros [b w3] H3. apply traced_ret.
    eapply walk_step_trans; eassumption.
Qed.
End TracedWalk.

Section TracedEntry.
Context {K : Type} `{Kernel K}.
Variable E : syscall -> Prop.
Variable flags : Z.
Hypothesis E_benign : forall s, benign s = true -> E s.
Hypothesis E_mkdir : forall path, E (SysMkdir path 511).
Hypothesis E_chown :
  flag_set flags MB_COPY_ATTRIBUTES = true ->
  forall path uid gid, E (SysLchown path uid gid).
Hypothesis E_chmod :
  flag_set flags MB_COPY_ATTRIBUTES = true ->
  forall path mode, E (SysChmod path mode).
Hypothesis E_setxattr :
  flag_set flags MB_COPY_XATTRS = true ->
  forall path name value, E (SysLsetxattr path name value 0).

Lemma traced_run fuel tree c :
  _copyflags c = flags ->
  traced E target_never_reached (run fuel tree c).
Proof.
  intros Hf. unfold run.
  apply (traced_bind _ (fun r => _copyflags (snd r) = _copyflags c));
    [apply traced_on_pre_execute; auto | intros [ok c1] H1].
  simpl in H1. destruct ok; simpl.
  - eapply traced_weaken.
    + apply traced_walk_tree with (flags := flags); auto.
      simpl. destruct c1; simpl in *. congruence.
    + intros w ((Hcfg & l & Hl & Hall) & _). unfold target_never_reached.
      simpl in Hl. rewrite Hl.
      destruct Hcfg as (_ & _ & _ & Hsb & _). rewrite Hsb. exact Hall.
  - apply traced_ret. constructor.
Qed.

Lemma traced_copy_file_create fuel source target sb :
  traced E any_result (copy_file_create fuel source target flags sb).
Proof.
  unfold copy_file_create, mknod, mkfifo, symlink.
  repeat first [ apply traced_sys_status, E_benign; reflexivity
               | apply traced_readlink2, E_benign
               | apply traced_copy_data, E_benign
               | traced_step ].
Qed.

Lemma traced_copy_file_attrs source target :
  traced E any_result (copy_file_attrs source target flags).
Proof.
  unfold copy_file_attrs.
  apply (traced_bind _ any_result).
  { destruct (flag_set flags MB_COPY_ATTRIBUTES) eqn:Ha;
      [apply traced_copy_stat; auto | traced_tac]. }
  intros ok _. destruct ok; simpl; [|traced_tac].
  apply (traced_bind _ any_result).
  { destruct (flag_set flags MB_COPY_XATTRS) eqn:Hx;
      [apply traced_copy_xattrs; auto | traced_tac]. }
  intros ok _. destruct ok; simpl; traced_tac.
Qed.

Lemma traced_copy_file_body fuel source target :
  traced E any_result (copy_file_body fuel source target flags).
Proof.
  unfold copy_file_body, unlink, sys_stat, lstat.
  apply (traced_bind _ any_result);
    [apply traced_sys_status, E_benign; reflexivity | intros r _].
  apply (traced_bind _ any_result); [apply traced_get_errno | intros e _].
  destruct (_ && _); [traced_tac|].
  apply (traced_bind _ any_result).
  { destruct (flag_set flags MB_COPY_FOLLOW_SYMLINKS);
      apply traced_sys_stat_like, E_benign; reflexivity. }
  intros r2 _. destruct r2 as [e2|sb]; [traced_tac|].
  apply (traced_bind _ any_result);
    [apply traced_copy_file_create | intros ok _].
  destruct ok; simpl; [apply traced_copy_file_attrs | traced_tac].
Qed.

(** A computation run between [umask(0)] and [umask(old_umask)]. *)
Lemma umask_scope {A B} (Q : A -> Prop) (m : M K A) (f : A -> B) p r p' :
  traced E Q m ->
  bind (umask 0) (fun old_umask =>
    bind m (fun x => bind (umask old_umask) (fun _ => ret (f x)))) p
    = Some (r, p') ->
  p_umask p' = Z.land (p_umask p) 511 /\
  exists evs, p_trace p' = p_trace p ++ evs /\
    Forall (fun e => E (ev_call e) /\ ev_umask e = 0) evs.
Proof.
  intros Hm Hrun. unfold bind at 1 in Hrun. simpl in Hrun.
  apply bind_Some in Hrun. destruct Hrun as (x & p1 & H1 & H2).
  apply Hm in H1. simpl in H1. destruct H1 as (_ & Hu & evs & Ht & Hall).
  unfold bind, umask, ret in H2. inversion H2; subst; simpl.
  split; [reflexivity|]. exists evs. split; assumption.
Qed.
End TracedEntry.

Lemma allowed_benign flags s : benign s = true -> allowed_call flags s.
Proof. destruct s; simpl; intros; (discriminate || exact I). Qed.

(** ** The file-creation mask (C8) *)

(** C8: both entry points, [copy_file] and [copy_dir], save the
    file-creation mask on entry, run under mask 0 and restore the saved
    value on every path out, the error paths included: whenever either
    call returns, with success or failure, the mask is the one the process
    had before, and every system call in between was made under mask 0. *)
Theorem umask_saved_and_restored {K : Type} `{Kernel K}
    (fuel : nat) (tree : fts_tree) (source target : string) (flags : Z)
    (p : proc K) :
  valid_umask (p_umask p) ->
  (forall r p', copy_file fuel source target flags p = Some (r, p') ->
     p_umask p' = p_umask p /\
     exists evs, p_trace p' = p_trace p ++ evs /\
                 Forall (fun e => ev_umask e = 0) evs) /\
  (forall r p', copy_dir fuel tree source target flags p = Some (r, p') ->
     p_umask p' = p_umask p /\
     exists evs, p_trace p' = p_trace p ++ evs /\
                 Forall (fun e => ev_umask e = 0) evs).
Proof.
  intros Hvalid.
  assert (Hweak : forall evs : list event,
            Forall (fun e => any_call (ev_call e) /\ ev_umask e = 0) evs ->
            Forall (fun e => ev_umask e = 0) evs).
  { intros evs. apply Forall_impl. intros e (_ & He). exact He. }
  split; intros r p' Hrun.
  - eapply (umask_scope any_call) in Hrun;
      [| apply traced_copy_file_body; intros; exact I].
    destruct Hrun as (Hu & evs & Ht & Hall).
    split; [rewrite Hu; exact Hvalid|]. exists evs. auto.
  - eapply (umask_scope any_call) in Hrun;
      [| apply traced_run with (flags := flags);
         intros; (exact I || reflexivity)].
    destruct Hrun as (Hu & evs & Ht & Hall).
    split; [rewrite Hu; exact Hvalid|]. exists evs. auto.
Qed.

Lemma umask_saved_and_restored_witness :
  (exists r p', copy_file 10 "/a/f1" "/b/f1" 0 (start ex_file_script)
                = Some (r, p') /\ p_umask p' = 18) /\
  (exists r p', copy_dir 10 ex_tree "/a" "/b" 0 (start ex_script)
                = Some (r, p') /\ p_umask p' = 18).
Proof.
  assert (Hvalid : valid_umask (p_umask (start ex_file_script)))
    by reflexivity.
  assert (Hvalid' : valid_umask (p_umask (start ex_script))) by reflexivity.
  split.
  - destruct (copy_file 10 "/a/f1" "/b/f1" 0 (start ex_file_script))
      as [[r p']|] eqn:Hrun; [|vm_compute in Hrun; discriminate].
    exists r, p'. split; [reflexivity|].
    apply (proj1 (umask_saved_and_restored 10 ex_tree "/a/f1" "/b/f1" 0
                    (start ex_file_script) Hvalid) r p' Hrun).
  - destruct (copy_dir 10 ex_tree "/a" "/b" 0 (start ex_script))
      as [[r p']|] eqn:Hrun; [|vm_compute in Hrun; discriminate].
    exists r, p'. split; [reflexivity|].
    apply (proj2 (umask_saved_and_restored 10 ex_tree "/a" "/b" 0
                    (start ex_script) Hvalid') r p' Hrun).
Defined.

(** ** The self-copy guard (C1) *)

(** C1: for a visited node whose device and inode are those of the target
    root recorded at the start of the walk, [on_changed_path] returns
    FAIL and STOP together and sets the error; the engine then ends the
    walk at once as failed, without calling the hook of the node's type
    and without a system call; so in every walk, none of the nodes that
    reached a copy hook is the target root. *)
Theorem self_copy_guard {K : Type} `{Kernel K} :
  (forall c,
     same_file (sb_target c) (fts_statp (_curr c)) = true ->
     on_changed_path c =
       (Z.lor FTS_Fail FTS_Stop,
        set_error_msg c (fmt_format "%s: Cannot copy on top of itself"
                                    [ArgStr (fts_path (_curr c))])) /\
     has_flag (fst (on_changed_path c)) FTS_Fail = true /\
     has_flag (fst (on_changed_path c)) FTS_Stop = true) /\
  (forall (hook : copier -> M K (Z * copier)) ent w p,
     same_file (sb_target (w_copier w)) (fts_statp ent) = true ->
     exists c',
       visit hook ent w p =
         Some ((Z.lor FTS_Fail FTS_Stop,
                mkwalk false true c' (w_reached w)), p)) /\
  (forall fuel tree c (p : proc K) w p',
     run fuel tree c p = Some (w, p') -> target_never_reached w).
Proof.
  split; [|split].
  - intros c Hsame. unfold same_file in Hsame. unfold on_changed_path.
    rewrite Hsame. simpl. auto.
  - intros hook ent w p Hsame. unfold visit, on_changed_path.
    replace (sb_target (set_curr (w_copier w) ent))
      with (sb_target (w_copier w)) by (destruct (w_copier w); reflexivity).
    replace (_curr (set_curr (w_copier w) ent)) with ent
      by (destruct (w_copier w); reflexivity).
    unfold same_file in Hsame. rewrite Hsame. simpl.
    rewrite andb_false_r. eexists. reflexivity.
  - intros fuel tree c p w p' Hrun.
    assert (Htr : traced (K:=K) any_call target_never_reached
                         (run fuel tree c)).
    { apply traced_run with (flags := _copyflags c);
        intros; (exact I || reflexivity). }
    apply Htr in Hrun. apply Hrun.
Qed.

Lemma self_copy_guard_witness :
  exists w p',
    run 10 ex_self_tree (RecursiveCopier "/a" "/a/b" 0)
        (start ex_self_script) = Some (w, p') /\
    w_ok w = false /\ w_stop w = true /\
    map fts_path (w_reached w) = ["/a"] /\
    target_never_reached w.
Proof.
  destruct (run 10 ex_self_tree (RecursiveCopier "/a" "/a/b" 0)
                (start ex_self_script)) as [[w p']|] eqn:Hrun;
    [|vm_compute in Hrun; discriminate].
  exists w, p'. split; [reflexivity|].
  pose proof (proj2 (proj2 (@self_copy_guard script script_kernel))
                    10%nat ex_self_tree _ _ w p' Hrun) as Hnever.
  vm_compute in Hrun. inversion Hrun; subst w p'.
  repeat split; try reflexivity. exact Hnever.
Defined.

(** ** The target path of a node (C2) *)

Lemma str_app_assoc (a b c : string) :
  ((a ++ b) ++ c = a ++ (b ++ c))%string.
Proof. induction a as [|ch a IH]; simpl; [reflexivity | now rewrite IH]. Qed.

Lemma str_app_nil_r (a : string) : (a ++ "" = a)%string.
Proof. induction a as [|ch a IH]; simpl; [reflexivity | now rewrite IH]. Qed.

Lemma back_app (a b : string) : b <> "" -> back (a ++ b) = back b.
Proof.
  intros Hb. induction a as [|ch a IH]; [reflexivity|].
  simpl. rewrite IH.
  destruct (a ++ b)%string eqn:Hab; [|reflexivity].
  destruct a; simpl in Hab; [contradiction | discriminate].
Qed.

Lemma back_plain (s : string) :
  is_base_name s = true -> Ascii.eqb (back s) slash = false.
Proof.
  unfold is_base_name. destruct s as [|ch s]; [discriminate|].
  simpl String.eqb. simpl negb. rewrite andb_true_l. revert ch.
  induction s as [|ch' s IH]; intros ch Hp; simpl in Hp.
  - simpl. destruct (Ascii.eqb ch slash); [discriminate | reflexivity].
  - apply andb_prop in Hp. destruct Hp as (_ & Hp).
    change (back (String ch (String ch' s))) with (back (String ch' s)).
    apply IH. exact Hp.
Qed.

Lemma c_str_plain (s : string) : plain_chars s = true -> c_str s = s.
Proof.
  induction s as [|ch s IH]; [reflexivity|]. simpl. intros Hp.
  apply andb_prop in Hp. destruct Hp as (Hch & Hp).
  apply andb_prop in Hch. destruct Hch as (_ & Hnul).
  destruct (Ascii.eqb ch NUL); [discriminate|]. now rewrite IH.
Qed.

Lemma c_str_front (s : string) ch rest :
  c_str s = String ch rest -> Ascii.eqb ch NUL = false.
Proof.
  destruct s as [|ch0 s]; [discriminate|]. simpl.
  destruct (Ascii.eqb ch0 NUL) eqn:Hnul; [discriminate|].
  intros Heq. inversion Heq; subst. exact Hnul.
Qed.

Lemma ends_with_separator a : ends_with_slash (with_separator a) = true.
Proof.
  unfold with_separator. destruct (ends_with_slash a) eqn:Ha; [exact Ha|].
  unfold ends_with_slash. rewrite back_app by discriminate. reflexivity.
Qed.

Lemma keep_join_as_spec a b :
  ends_with_slash a && starts_with_slash b = false ->
  keep_join a b = path_join a b.
Proof.
  unfold keep_join, path_join, starts_with_slash.
  destruct b as [|ch b]; [reflexivity|]. simpl.
  destruct (ends_with_slash a); destruct (Ascii.eqb ch slash); simpl;
    (discriminate || reflexivity).
Qed.

Lemma keep_join_keeps_both a b :
  ends_with_slash a && starts_with_slash b = true ->
  keep_join a b = (a ++ b)%string.
Proof.
  unfold keep_join, starts_with_slash.
  destruct b as [|ch b]; [rewrite andb_false_r; discriminate|]. simpl.
  destruct (ends_with_slash a); [reflexivity | discriminate].
Qed.

(** The path [on_changed_path] computes is the base joined with the
    relative path by the rule that only adds. *)
Lemma on_changed_path_keep_join c :
  same_file (sb_target c) (fts_statp (_curr c)) = false ->
  _curtgtpath (snd (on_changed_path c))
  = keep_join (target_base c) (relative_path c).
Proof.
  unfold same_file, on_changed_path. intros ->. cbn [snd].
  cbn [_curtgtpath set_curtgtpath]. fold (relative_path c).
  assert (Hbase :
    (if negb (flag_set (_copyflags c) MB_COPY_EXCLUDE_TOP_LEVEL)
     then ((if negb (Ascii.eqb (back (_target c)) slash)
            then _target c ++ "/" else _target c)
           ++ c_str (fts_name (_root c)))%string
     else _target c) = target_base c).
  { unfold target_base, with_separator, ends_with_slash.
    destruct (flag_set _ _); simpl; [reflexivity|].
    destruct (Ascii.eqb (back (_target c)) slash); reflexivity. }
  rewrite Hbase. unfold keep_join. fold (ends_with_slash (target_base c)).
  destruct (relative_path c) as [|ch rest] eqn:Erel.
  - simpl. rewrite !andb_false_r. apply str_app_nil_r.
  - assert (Hch : Ascii.eqb ch NUL = false).
    { unfold relative_path in Erel. eapply c_str_front, Erel. }
    simpl front. rewrite Hch.
    destruct (ends_with_slash (target_base c));
      destruct (Ascii.eqb ch slash); simpl;
      rewrite ?str_app_assoc; reflexivity.
Qed.




(** ** What the system-call wrappers return *)

Section Wrappers.
Context {K : Type} `{Kernel K}.

Ltac wrapper_tac Hrun :=
  unfold bind, syscall_raw, fail_eio, set_errno, ret in Hrun;
  match type of Hrun with
  | context [k_call ?s ?u ?k] =>
      let r := fresh "r" in let k' := fresh "k" in let Hk := fresh "Hk" in
      destruct (k_call s u k) as [r k'] eqn:Hk; exists r
  end.

Lemma syscall_raw_spec s (p : proc K) r p1 :
  syscall_raw s p = Some (r, p1) ->
  called s p r p1 /\
  p_errno p1 = match r with inl e => e | inr _ => p_errno p end.
Proof.
  unfold syscall_raw, called. intros Hrun.
  destruct (k_call s (p_umask p) (p_kernel p)) as [r0 k'].
  inversion Hrun; subst; simpl. auto.
Qed.

Lemma sys_status_spec s (p : proc K) x p1 :
  sys_status s p = Some (x, p1) ->
  exists r, called s p r p1 /\
    match x with
    | inl e => r = inl e /\ p_errno p1 = e
    | inr _ => ret_failed r = false
    end.
Proof.
  unfold sys_status, called. intros Hrun. wrapper_tac Hrun.
  destruct r as [e|v]; inversion Hrun; subst; simpl; auto.
Qed.

Lemma sys_stat_like_spec s (p : proc K) x p1 :
  sys_stat_like s p = Some (x, p1) ->
  exists r, called s p r p1 /\
    match x with
    | inl e => match r with inr (VStat _) => False | _ => True end /\
               p_errno p1 = e
    | inr sb => r = inr (VStat sb)
    end.
Proof.
  unfold sys_stat_like, called. intros Hrun. wrapper_tac Hrun.
  destruct r as [e|[]]; inversion Hrun; subst; simpl; auto.
Qed.

Lemma sys_int_spec s (p : proc K) x p1 :
  sys_int s p = Some (x, p1) ->
  exists r, called s p r p1 /\
    match x with
    | inl e => (forall n, r = inr (VInt n) -> n < 0) /\ p_errno p1 = e
    | inr n => r = inr (VInt n) /\ 0 <= n
    end.
Proof.
  unfold sys_int, called. intros Hrun. wrapper_tac Hrun.
  destruct r as [e|[]]; try destruct (0 <=? n) eqn:Hn;
    inversion Hrun; subst; simpl; repeat split; auto;
    try (intros; discriminate).
  - apply Z.leb_le, Hn.
  - intros n0 Hr. inversion Hr; subst. apply Z.leb_gt, Hn.
Qed.

Lemma read_spec fd count (p : proc K) x p1 :
  read fd count p = Some (x, p1) ->
  exists r, called (SysRead fd count) p r p1 /\
    match x with
    | inl e => (forall b, r = inr (VBytes b) ->
                          count < Z.of_nat (List.length b)) /\
               p_errno p1 = e
    | inr b => r = inr (VBytes b) /\ Z.of_nat (List.length b) <= count
    end.
Proof.
  unfold read, called. intros Hrun. wrapper_tac Hrun.
  destruct r as [e|[]];
    try destruct (Z.of_nat (List.length b) <=? count) eqn:Hn;
    inversion Hrun; subst; simpl; repeat split; auto;
    try (intros; discriminate).
  - apply Z.leb_le, Hn.
  - intros b0 Hr. inversion Hr; subst. apply Z.leb_gt, Hn.
Qed.

Lemma write_spec fd data (p : proc K) x p1 :
  write fd data p = Some (x, p1) ->
  exists r, called (SysWrite fd data) p r p1 /\
    match x with
    | inl e => (forall n, r = inr (VInt n) ->
                          ~ (0 <= n <= Z.of_nat (List.length data))) /\
               p_errno p1 = e
    | inr n => r = inr (VInt n) /\ 0 <= n <= Z.of_nat (List.length data)
    end.
Proof.
  unfold write, called. intros Hrun. wrapper_tac Hrun.
  destruct r as [e|[]];
    try destruct ((0 <=? n) && (n <=? Z.of_nat (List.length data))) eqn:Hn;
    inversion Hrun; subst; simpl; repeat split; auto;
    try (intros; discriminate).
  - apply andb_prop in Hn. apply Z.leb_le, Hn.
  - apply andb_prop in Hn. apply Z.leb_le, Hn.
  - intros n0 Hr. inversion Hr; subst. intros (Hlo & Hhi).
    apply Z.leb_le in Hlo, Hhi. rewrite Hlo, Hhi in Hn. discriminate.
Qed.

Lemma readlink_spec path bufsiz (p : proc K) x p1 :
  readlink path bufsiz p = Some (x, p1) ->
  exists r, called (SysReadlink path bufsiz) p r p1 /\
    match x with
    | inl e => (forall s, r <> inr (VStr s)) /\ p_errno p1 = e
    | inr buf => exists s, r = inr (VStr s) /\
                           buf = string_take (Z.to_nat bufsiz) s
    end.
Proof.
  unfold readlink, called. intros Hrun. wrapper_tac Hrun.
  destruct r as [e|[]]; inversion Hrun; subst; simpl; repeat split; auto;
    try (intros; discriminate).
  eexists. split; reflexivity.
Qed.

Lemma llistxattr_spec path size (p : proc K) x p1 :
  llistxattr path size p = Some (x, p1) ->
  exists r, called (SysLlistxattr path size) p r p1 /\
    match x with
    | inl e => p_errno p1 = e
    | inr names =>
        (size = 0 /\ exists n, r = inr (VInt n) /\ 0 <= n /\
                               names = unfilled_names n) \/
        (size <> 0 /\ r = inr (VStr names) /\
         Z.of_nat (String.length names) <= size)
    end.
Proof.
  unfold llistxattr, called. intros Hrun. wrapper_tac Hrun.
  destruct (size =? 0) eqn:Hsize.
  - apply Z.eqb_eq in Hsize.
    destruct r as [e|[]]; try destruct (0 <=? n) eqn:Hn;
      inversion Hrun; subst; simpl; repeat split; auto.
    left. split; [reflexivity|]. exists n. repeat split.
    apply Z.leb_le, Hn.
  - apply Z.eqb_neq in Hsize.
    destruct r as [e|[]];
      try destruct (Z.of_nat (String.length s) <=? size) eqn:Hn;
      inversion Hrun; subst; simpl; repeat split; auto.
    right. repeat split; auto. apply Z.leb_le, Hn.
Qed.

Lemma lgetxattr_spec path name size (p : proc K) x p1 :
  lgetxattr path name size p = Some (x, p1) ->
  exists r, called (SysLgetxattr path name size) p r p1 /\
    match x with
    | inl e => p_errno p1 = e
    | inr value =>
        (size = 0 /\ exists n, r = inr (VInt n) /\ 0 <= n /\
                               value = unfilled_value n) \/
        (size <> 0 /\ r = inr (VBytes value) /\
         Z.of_nat (List.length value) <= size)
    end.
Proof.
  unfold lgetxattr, called. intros Hrun. wrapper_tac Hrun.
  destruct (size =? 0) eqn:Hsize.
  - apply Z.eqb_eq in Hsize.
    destruct r as [e|[]]; try destruct (0 <=? n) eqn:Hn;
      inversion Hrun; subst; simpl; repeat split; auto.
    left. split; [reflexivity|]. exists n. repeat split.
    apply Z.leb_le, Hn.
  - apply Z.eqb_neq in Hsize.
    destruct r as [e|[]];
      try destruct (Z.of_nat (List.length b) <=? size) eqn:Hn;
      inversion Hrun; subst; simpl; repeat split; auto.
    right. repeat split; auto. apply Z.leb_le, Hn.
Qed.

Lemma get_errno_spec (p : proc K) e p1 :
  get_errno p = Some (e, p1) -> p1 = p /\ e = p_errno p.
Proof. unfold get_errno. intros Hrun. inversion Hrun; auto. Qed.

Lemma ret_spec {A} (a : A) (p : proc K) b p1 :
  ret a p = Some (b, p1) -> b = a /\ p1 = p.
Proof. unfold ret. intros Hrun. inversion Hrun; auto. Qed.
End Wrappers.

(** ** copy_stat (C3) *)

(** Takes the first action of a run apart. *)
Ltac first_step H x p1 H1 :=
  apply bind_Some in H; destruct H as (x & p1 & H1 & H).

Ltac end_run H :=
  apply ret_spec in H; destruct H as (? & ?); subst.

Lemma copy_stat_trace {K : Type} `{Kernel K} source target (p : proc K)
    ok p' :
  copy_stat source target p = Some (ok, p') ->
  exists evs, p_trace p' = p_trace p ++ evs /\
              copy_stat_calls source target (p_umask p) evs ok.
Proof.
  intros Hrun. unfold copy_stat, lstat, lchown, chmod in Hrun.
  first_step Hrun x1 p1 H1.
  apply sys_stat_like_spec in H1. destruct H1 as (r1 & (_ & Hu1 & Ht1) & Hx1).
  destruct x1 as [e1|sb].
  { end_run Hrun. eexists. split; [exact Ht1|]. left. exists r1.
    destruct Hx1 as (Hx1 & _). auto. }
  subst r1. first_step Hrun x2 p2 H2.
  apply sys_status_spec in H2. destruct H2 as (r2 & (_ & Hu2 & Ht2) & Hx2).
  rewrite Ht1, Hu1, <- app_assoc in Ht2. simpl in Ht2.
  destruct x2 as [e2|[]].
  { end_run Hrun. eexists. split; [exact Ht2|]. right; left.
    exists sb, r2. destruct Hx2 as (-> & _). simpl. auto. }
  destruct (S_ISLNK (st_mode sb)) eqn:Hlnk; simpl in Hrun.
  { end_run Hrun. eexists. split; [exact Ht2|]. right; left.
    exists sb, r2. rewrite Hx2. simpl. auto. }
  first_step Hrun x3 p3 H3.
  apply sys_status_spec in H3. destruct H3 as (r3 & (_ & Hu3 & Ht3) & Hx3).
  rewrite Ht2, Hu2, Hu1, <- app_assoc in Ht3. simpl in Ht3.
  exists [mkevent (SysLstat source) (p_umask p) (inr (VStat sb));
          mkevent (SysLchown target (st_uid sb) (st_gid sb)) (p_umask p) r2;
          mkevent (SysChmod target (Z.land (st_mode sb) PERM_MASK))
                  (p_umask p) r3].
  destruct x3 as [e3|[]]; end_run Hrun; (split; [exact Ht3|]);
    right; right; exists sb, r2, r3; repeat split; auto.
  - destruct Hx3 as (-> & _). reflexivity.
  - rewrite Hx3. reflexivity.
Qed.

(** C3 (as amended): for every source and target path, [copy_stat] reads
    the source's own ownership and mode with [lstat], without following a
    link; applies that ownership to the target with [lchown], without
    following a link; and applies the permission bits, set-uid, set-gid
    and sticky included, to the target if and only if the SOURCE is not a
    symlink (and the two calls before went well). Whether the target is a
    symlink plays no part. *)
Theorem copy_stat_by_source_kind {K : Type} `{Kernel K}
    (source target : string) (p : proc K) (ok : bool) (p' : proc K) :
  copy_stat source target p = Some (ok, p') ->
  exists evs,
    p_trace p' = p_trace p ++ evs /\
    copy_stat_calls source target (p_umask p) evs ok /\
    (chmod_issued target evs = true <->
     exists sb, source_stat source evs = Some sb /\
                lchown_succeeded target evs = true /\
                S_ISLNK (st_mode sb) = false) /\
    PERM_MASK = 4095.
Proof.
  intros Hrun. apply copy_stat_trace in Hrun.
  destruct Hrun as (evs & Ht & Hcalls). exists evs.
  split; [exact Ht|]. split; [exact Hcalls|]. split; [|reflexivity].
  destruct Hcalls as [(r1 & Hr1 & -> & _)
                     | [(sb & r2 & -> & Hwhy & _)
                       | (sb & r2 & r3 & -> & Hr2 & Hlnk & _)]].
  - split; [discriminate|]. intros (sb & Hsb & _). simpl in Hsb.
    destruct r1 as [e|[]]; try discriminate. contradiction.
  - split; [discriminate|]. intros (sb' & Hsb & Hown & Hlnk).
    simpl in Hsb, Hown. rewrite String.eqb_refl in Hsb, Hown.
    inversion Hsb; subst sb'. simpl in Hown. rewrite orb_false_r in Hown.
    destruct Hwhy as [Hfail|Hl]; [|congruence].
    rewrite Hfail in Hown. discriminate.
  - split; intros _.
    + exists sb. simpl. rewrite !String.eqb_refl, Hr2. simpl. auto.
    + unfold chmod_issued, is_chmod_of. simpl. rewrite String.eqb_refl.
      reflexivity.
Qed.

Lemma copy_stat_by_source_kind_witness :
  exists p', copy_stat "/f" "/t" (start ex_fs) = Some (true, p') /\
             chmod_issued "/t" (p_trace p') = true /\
             tfs_perms "/t" (p_kernel p') = Some 420.
Proof.
  destruct (copy_stat "/f" "/t" (start ex_fs)) as [[ok p']|] eqn:Hrun;
    [|vm_compute in Hrun; discriminate].
  destruct (copy_stat_by_source_kind "/f" "/t" (start ex_fs) ok p' Hrun)
    as (evs & Ht & _ & Hiff & _).
  vm_compute in Hrun. inversion Hrun; subst ok p'.
  simpl in Ht. subst evs.
  eexists. split; [reflexivity|]. split; [|reflexivity].
  apply Hiff. eexists. repeat split; reflexivity.
Defined.

(** C3 as stated fails in both directions. The source [/l] is a symlink
    and the target [/t] is a regular file: [copy_stat] succeeds, yet it
    issues no [chmod] and [/t] keeps its mode 0600. The source [/f] is a
    regular file and the target [/l] is a symlink: the permission bits are
    applied all the same, through the link. *)
Lemma copy_stat_ignores_target_kind :
  (exists p', copy_stat "/l" "/t" (start ex_fs) = Some (true, p') /\
              is_symlink "/t" (start ex_fs) = false /\
              is_symlink "/l" (start ex_fs) = true /\
              chmod_issued "/t" (p_trace p') = false /\
              tfs_perms "/t" (p_kernel p') = Some 384) /\
  (exists p', copy_stat "/f" "/l" (start ex_fs) = Some (true, p') /\
              is_symlink "/l" (start ex_fs) = true /\
              chmod_issued "/l" (p_trace p') = true).
Proof.
  split; eexists; (split; [vm_compute; reflexivity|]);
    repeat split; reflexivity.
Qed.

(** ** copy_xattrs (C5) *)

(** C5: [copy_xattrs] returns success without a further call when listing
    the source's attributes fails with [ENOTSUP], and failure when it fails
    otherwise; it then steps through the names of the list. For each
    name, a failure to fetch the value, at either [lgetxattr] call, skips
    that name only and goes on with the rest; a failure to set the value
    on the target with [ENOTSUP] ends the loop at once with success; any
    other failure to set it ends the operation with failure; a value that
    was set is followed by the rest of the names. *)
Theorem copy_xattrs_failures {K : Type} `{Kernel K}
    (source target : string) :
  (* listing is not supported: success, nothing else is called *)
  (forall (p p1 : proc K),
     llistxattr_size source p = Some (inl ENOTSUP, p1) ->
     copy_xattrs source target p = Some (true, p1)) /\
  (* listing fails otherwise: failure *)
  (forall (p p1 : proc K) e,
     llistxattr_size source p = Some (inl e, p1) -> e <> ENOTSUP ->
     copy_xattrs source target p = Some (false, p1)) /\
  (forall (p p1 p2 : proc K) size e,
     llistxattr_size source p = Some (inr size, p1) ->
     llistxattr source size p1 = Some (inl e, p2) ->
     copy_xattrs source target p = Some (false, p2)) /\
  (* the list is there: the loop runs over its names *)
  (forall (p p1 p2 : proc K) size names,
     llistxattr_size source p = Some (inr size, p1) ->
     llistxattr source size p1 = Some (inr names, p2) ->
     copy_xattrs source target p =
       copy_xattrs_loop source target (split_names "" names) p2) /\
  (* no names left: success *)
  (forall p : proc K,
     copy_xattrs_loop source target [] p = Some (true, p)) /\
  (* an empty name is stepped over *)
  (forall (p : proc K) rest,
     copy_xattrs_loop source target ("" :: rest) p =
       copy_xattrs_loop source target rest p) /\
  (* the size of the value cannot be fetched: this name is skipped *)
  (forall (p p1 : proc K) name rest e,
     name <> "" ->
     lgetxattr_size source name p = Some (inl e, p1) ->
     copy_xattrs_loop source target (name :: rest) p =
       copy_xattrs_loop source target rest p1) /\
  (* the value cannot be fetched: this name is skipped *)
  (forall (p p1 p2 : proc K) name rest size e,
     name <> "" ->
     lgetxattr_size source name p = Some (inr size, p1) ->
     lgetxattr source name size p1 = Some (inl e, p2) ->
     copy_xattrs_loop source target (name :: rest) p =
       copy_xattrs_loop source target rest p2) /\
  (* the target does not support attributes: the loop ends, success *)
  (forall (p p1 p2 p3 : proc K) name rest size value,
     name <> "" ->
     lgetxattr_size source name p = Some (inr size, p1) ->
     lgetxattr source name size p1 = Some (inr value, p2) ->
     lsetxattr target name value 0 p2 = Some (inl ENOTSUP, p3) ->
     copy_xattrs_loop source target (name :: rest) p = Some (true, p3)) /\
  (* the value cannot be set for another reason: failure *)
  (forall (p p1 p2 p3 : proc K) name rest size value e,
     name <> "" ->
     lgetxattr_size source name p = Some (inr size, p1) ->
     lgetxattr source name size p1 = Some (inr value, p2) ->
     lsetxattr target name value 0 p2 = Some (inl e, p3) ->
     e <> ENOTSUP ->
     copy_xattrs_loop source target (name :: rest) p = Some (false, p3)) /\
  (* the value is set: on to the rest *)
  (forall (p p1 p2 p3 : proc K) name rest size value,
     name <> "" ->
     lgetxattr_size source name p = Some (inr size, p1) ->
     lgetxattr source name size p1 = Some (inr value, p2) ->
     lsetxattr target name value 0 p2 = Some (inr tt, p3) ->
     copy_xattrs_loop source target (name :: rest) p =
       copy_xattrs_loop source target rest p3).
Proof.
  assert (Herrno_int : forall s (p p1 : proc K) e,
            sys_int s p = Some (inl e, p1) -> p_errno p1 = e).
  { intros s p p1 e Hs. apply sys_int_spec in Hs.
    destruct Hs as (r & _ & _ & He). exact He. }
  assert (Herrno_status : forall s (p p1 : proc K) e,
            sys_status s p = Some (inl e, p1) -> p_errno p1 = e).
  { intros s p p1 e Hs. apply sys_status_spec in Hs.
    destruct Hs as (r & _ & _ & He). exact He. }
  assert (Hname : forall name, name <> "" -> String.eqb name "" = false).
  { intros name Hn. apply String.eqb_neq, Hn. }
  repeat split.
  - intros p p1 Hl. unfold copy_xattrs. rewrite (bind_eq _ _ _ _ _ Hl).
    unfold bind, get_errno. rewrite (Herrno_int _ _ _ _ Hl). reflexivity.
  - intros p p1 e Hl He. unfold copy_xattrs. rewrite (bind_eq _ _ _ _ _ Hl).
    unfold bind, get_errno. rewrite (Herrno_int _ _ _ _ Hl).
    apply Z.eqb_neq in He. rewrite He. reflexivity.
  - intros p p1 p2 size e Hl Hl2. unfold copy_xattrs.
    rewrite (bind_eq _ _ _ _ _ Hl), (bind_eq _ _ _ _ _ Hl2). reflexivity.
  - intros p p1 p2 size names Hl Hl2. unfold copy_xattrs.
    rewrite (bind_eq _ _ _ _ _ Hl), (bind_eq _ _ _ _ _ Hl2). reflexivity.
  - intros p p1 name rest e Hn Hg. simpl. rewrite (Hname _ Hn).
    rewrite (bind_eq _ _ _ _ _ Hg). reflexivity.
  - intros p p1 p2 name rest size e Hn Hg Hg2. simpl. rewrite (Hname _ Hn).
    rewrite (bind_eq _ _ _ _ _ Hg), (bind_eq _ _ _ _ _ Hg2). reflexivity.
  - intros p p1 p2 p3 name rest size value Hn Hg Hg2 Hs. simpl.
    rewrite (Hname _ Hn).
    rewrite (bind_eq _ _ _ _ _ Hg), (bind_eq _ _ _ _ _ Hg2),
      (bind_eq _ _ _ _ _ Hs).
    unfold bind, get_errno. rewrite (Herrno_status _ _ _ _ Hs). reflexivity.
  - intros p p1 p2 p3 name rest size value e Hn Hg Hg2 Hs He. simpl.
    rewrite (Hname _ Hn).
    rewrite (bind_eq _ _ _ _ _ Hg), (bind_eq _ _ _ _ _ Hg2),
      (bind_eq _ _ _ _ _ Hs).
    unfold bind, get_errno. rewrite (Herrno_status _ _ _ _ Hs).
    apply Z.eqb_neq in He. rewrite He. reflexivity.
  - intros p p1 p2 p3 name rest size value Hn Hg Hg2 Hs. simpl.
    rewrite (Hname _ Hn).
    rewrite (bind_eq _ _ _ _ _ Hg), (bind_eq _ _ _ _ _ Hg2),
      (bind_eq _ _ _ _ _ Hs). reflexivity.
Qed.

Lemma copy_xattrs_failures_witness :
  (exists p',
     copy_xattrs "/s" "/t" (start ex_xattr_script) = Some (true, p') /\
     map ev_call (p_trace p') =
       [ SysLlistxattr "/s" 0; SysLlistxattr "/s" 21;
         SysLgetxattr "/s" "user.a" 0;
         SysLgetxattr "/s" "user.b" 0; SysLgetxattr "/s" "user.b" 1;
         SysLsetxattr "/t" "user.b" [x41]%byte 0 ]) /\
  (exists p',
     copy_xattrs "/s" "/t" (start [answer (inl ENOTSUP)]) = Some (true, p') /\
     map ev_call (p_trace p') = [SysLlistxattr "/s" 0]) /\
  (exists p',
     copy_xattrs_loop "/s" "/t" ["user.a"; "user.b"]
       (start [answer (inr (VInt 1)); answer (inr (VBytes [x41]%byte));
               answer (inl 13)])
       = Some (false, p')).
Proof.
  destruct (copy_xattrs_failures (K:=script) "/s" "/t")
    as (Hunsup & _ & _ & Hlist & _ & _ & Hskip & _ & Hstop & Hfail & _).
  split; [|split].
  - eexists. split.
    + eapply eq_trans; [eapply Hlist; vm_compute; reflexivity|].
      eapply eq_trans;
        [eapply (Hskip _ _ "user.a" ["user.b"; "user.c"]);
         [discriminate | vm_compute; reflexivity]|].
      eapply (Hstop _ _ _ _ "user.b" ["user.c"]);
        [discriminate | vm_compute; reflexivity ..].
    + reflexivity.
  - eexists. split; [apply Hunsup; vm_compute; reflexivity | reflexivity].
  - eexists. eapply (Hfail _ _ _ _ "user.a" ["user.b"]);
      [discriminate | vm_compute; reflexivity .. | discriminate].
Defined.

(** ** What a hook does with the message it is given *)

Section ErrorMsg.
Context {K : Type} `{Kernel K}.

Lemma bind_intro {A B} (m : M K A) (f : A -> M K B) p a p1 r :
  m p = Some (a, p1) -> f a p1 = r -> bind m f p = r.
Proof. intros Hm Hf. rewrite (bind_eq _ _ _ _ _ Hm). exact Hf. Qed.

Lemma fail_with_eq c f path (p : proc K) :
  fail_with c f path p =
    Some (set_error_msg c (fmt_format f [ArgStr path; ArgStrerror (p_errno p)]),
          p).
Proof. reflexivity. Qed.

(** Follows a run recorded in [H] through the same first action in the
    goal. *)
Ltac lockstep H :=
  let x := fresh "x" in
  let p1 := fresh "p" in
  let H1 := fresh "H" in
  apply bind_Some in H; destruct H as (x & p1 & H1 & H);
  rewrite (bind_eq _ _ _ _ _ H1).

Ltac finish H :=
  unfold ret in H |- *; inversion H; subst; reflexivity.

Lemma remove_existing_file_msg :
  replaces_msg_on_failure (K:=K) negb remove_existing_file.
Proof.
  intros c m0 p r c' p' Hrun. unfold remove_existing_file in *.
  simpl. lockstep Hrun. lockstep Hrun.
  destruct (is_err x && negb (x0 =? ENOENT)).
  - rewrite (bind_eq _ _ _ _ _ (fail_with_eq _ _ _ _)) in *. finish Hrun.
  - finish Hrun.
Qed.

Lemma cp_attrs_msg : replaces_msg_on_failure (K:=K) negb cp_attrs.
Proof.
  intros c m0 p r c' p' Hrun. unfold cp_attrs in *. simpl.
  destruct (flag_set (_copyflags c) MB_COPY_ATTRIBUTES); [|finish Hrun].
  lockstep Hrun. destruct x; simpl in *; [finish Hrun|].
  rewrite (bind_eq _ _ _ _ _ (fail_with_eq _ _ _ _)) in *. finish Hrun.
Qed.

Lemma cp_xattrs_msg : replaces_msg_on_failure (K:=K) negb cp_xattrs.
Proof.
  intros c m0 p r c' p' Hrun. unfold cp_xattrs in *. simpl.
  destruct (flag_set (_copyflags c) MB_COPY_XATTRS); [|finish Hrun].
  lockstep Hrun. destruct x; simpl in *; [finish Hrun|].
  rewrite (bind_eq _ _ _ _ _ (fail_with_eq _ _ _ _)) in *. finish Hrun.
Qed.

(** Follows a run through a helper that itself replaces the message on
    failure. *)
Ltac lockstep_with L H ok c1 :=
  let p1 := fresh "p" in
  let H1 := fresh "H" in
  apply bind_Some in H; destruct H as ([ok c1] & p1 & H1 & H);
  rewrite (bind_eq _ _ _ _ _ (L _ _ _ _ _ _ H1)).

Lemma finish_node_msg :
  replaces_msg_on_failure (K:=K) (fun a => has_flag a FTS_Fail) finish_node.
Proof.
  intros c m0 p r c' p' Hrun. unfold finish_node in *.
  lockstep_with cp_attrs_msg Hrun ok c1.
  destruct ok; simpl in *; [|finish Hrun].
  lockstep_with cp_xattrs_msg Hrun ok c2.
  destruct ok; simpl in *; finish Hrun.
Qed.

Lemma on_reached_file_msg fuel :
  replaces_msg_on_failure (K:=K) (fun a => has_flag a FTS_Fail)
                          (on_reached_file fuel).
Proof.
  intros c m0 p r c' p' Hrun. unfold on_reached_file in *.
  lockstep_with remove_existing_file_msg Hrun ok c1.
  destruct ok; simpl in *; [|finish Hrun].
  lockstep Hrun. destruct x; simpl in *.
  - apply finish_node_msg, Hrun.
  - rewrite (bind_eq _ _ _ _ _ (fail_with_eq _ _ _ _)) in *. finish Hrun.
Qed.

Lemma on_reached_symlink_msg fuel :
  replaces_msg_on_failure (K:=K) (fun a => has_flag a FTS_Fail)
                          (on_reached_symlink fuel).
Proof.
  intros c m0 p r c' p' Hrun. unfold on_reached_symlink in *.
  lockstep_with remove_existing_file_msg Hrun ok c1.
  destruct ok; simpl in *; [|finish Hrun].
  lockstep Hrun. destruct x as [symlink_path|].
  - lockstep Hrun. destruct (is_err x).
    + rewrite (bind_eq _ _ _ _ _ (fail_with_eq _ _ _ _)) in *. finish Hrun.
    + apply finish_node_msg, Hrun.
  - rewrite (bind_eq _ _ _ _ _ (fail_with_eq _ _ _ _)) in *. finish Hrun.
Qed.

Lemma on_reached_block_device_msg :
  replaces_msg_on_failure (K:=K) (fun a => has_flag a FTS_Fail)
                          on_reached_block_device.
Proof.
  intros c m0 p r c' p' Hrun. unfold on_reached_block_device in *.
  lockstep_with remove_existing_file_msg Hrun ok c1.
  destruct ok; simpl in *; [|finish Hrun].
  lockstep Hrun. destruct (is_err x).
  - rewrite (bind_eq _ _ _ _ _ (fail_with_eq _ _ _ _)) in *. finish Hrun.
  - apply finish_node_msg, Hrun.
Qed.

Lemma on_reached_character_device_msg :
  replaces_msg_on_failure (K:=K) (fun a => has_flag a FTS_Fail)
                          on_reached_character_device.
Proof.
  intros c m0 p r c' p' Hrun. unfold on_reached_character_device in *.
  lockstep_with remove_existing_file_msg Hrun ok c1.
  destruct ok; simpl in *; [|finish Hrun].
  lockstep Hrun. destruct (is_err x).
  - rewrite (bind_eq _ _ _ _ _ (fail_with_eq _ _ _ _)) in *. finish Hrun.
  - apply finish_node_msg, Hrun.
Qed.

Lemma on_reached_fifo_msg :
  replaces_msg_on_failure (K:=K) (fun a => has_flag a FTS_Fail)
                          on_reached_fifo.
Proof.
  intros c m0 p r c' p' Hrun. unfold on_reached_fifo in *.
  lockstep_with remove_existing_file_msg Hrun ok c1.
  destruct ok; simpl in *; [|finish Hrun].
  lockstep Hrun. destruct (is_err x).
  - rewrite (bind_eq _ _ _ _ _ (fail_with_eq _ _ _ _)) in *. finish Hrun.
  - apply finish_node_msg, Hrun.
Qed.

Lemma on_reached_socket_msg :
  replaces_msg_on_failure (K:=K) (fun a => has_flag a FTS_Fail)
                          on_reached_socket.
Proof. intros c m0 p r c' p' Hrun. unfold on_reached_socket in *. finish Hrun. Qed.

Lemma on_reached_directory_pre_msg :
  replaces_msg_on_failure (K:=K) (fun a => has_flag a FTS_Fail)
                          on_reached_directory_pre.
Proof.
  intros c m0 p r c' p' Hrun. unfold on_reached_directory_pre in *.
  simpl. lockstep Hrun. lockstep Hrun.
  destruct (is_err x && negb (x0 =? EEXIST)).
  - (* mkdir failed: skip, with the attributes copied now *)
    apply bind_Some in Hrun. destruct Hrun as (s1 & q1 & Hs1 & Hrun).
    cbv in Hs1. inversion Hs1; subst s1 q1.
    eapply bind_intro; [reflexivity|].
    apply bind_Some in Hrun. destruct Hrun as (s2 & q2 & Hs2 & Hrun).
    cbv in Hs2. inversion Hs2; subst s2 q2.
    eapply bind_intro; [reflexivity|]. cbv beta iota in Hrun |- *.
    apply bind_Some in Hrun. destruct Hrun as (s3 & q3 & Hs3 & Hrun).
    apply bind_Some in Hs3. destruct Hs3 as ([ok1 c1] & q4 & Ha & Hs3).
    apply bind_Some in Hs3. destruct Hs3 as ([ok2 c2] & q5 & Hb & Hs3).
    apply ret_spec in Hs3. destruct Hs3 as (-> & ->).
    eapply bind_intro;
      [eapply bind_intro; [exact Ha|];
       eapply bind_intro; [exact Hb | reflexivity]|].
    apply ret_spec in Hrun. destruct Hrun as (Hr & ->).
    inversion Hr; subst. reflexivity.
  - apply bind_Some in Hrun. destruct Hrun as (s1 & q1 & Hs1 & Hrun).
    cbv in Hs1. inversion Hs1; subst s1 q1.
    eapply bind_intro; [reflexivity|]. cbv beta iota in Hrun |- *.
    apply bind_Some in Hrun. destruct Hrun as (s2 & q2 & Hs2 & Hrun).
    simpl negb in Hs2 |- *. cbv iota in Hs2 |- *.
    apply bind_Some in Hs2. destruct Hs2 as (r2 & q3 & Hstat & Hs2).
    destruct r2 as [e|sb]; [|destruct (negb (S_ISDIR (st_mode sb))) eqn:Hd].
    + apply ret_spec in Hs2. destruct Hs2 as (-> & ->).
      eapply bind_intro;
        [eapply bind_intro; [exact Hstat | reflexivity]|].
      cbv beta iota in Hrun |- *.
      apply bind_Some in Hrun. destruct Hrun as (s3 & q4 & Hs3 & Hrun).
      apply ret_spec in Hs3. destruct Hs3 as (-> & ->).
      eapply bind_intro; [reflexivity|].
      apply ret_spec in Hrun. destruct Hrun as (Hr & ->).
      inversion Hr; subst. reflexivity.
    + (* not a directory: skip *)
      apply ret_spec in Hs2. destruct Hs2 as (-> & ->).
      eapply bind_intro;
        [eapply bind_intro; [exact Hstat | cbv beta iota; rewrite Hd;
                                           reflexivity]|].
      cbv beta iota in Hrun |- *.
      apply bind_Some in Hrun. destruct Hrun as (s3 & q4 & Hs3 & Hrun).
      apply bind_Some in Hs3. destruct Hs3 as ([ok1 c1] & q5 & Ha & Hs3).
      apply bind_Some in Hs3. destruct Hs3 as ([ok2 c2] & q6 & Hb & Hs3).
      apply ret_spec in Hs3. destruct Hs3 as (-> & ->).
      eapply bind_intro;
        [eapply bind_intro; [exact Ha|];
         eapply bind_intro; [exact Hb | reflexivity]|].
      apply ret_spec in Hrun. destruct Hrun as (Hr & ->).
      inversion Hr; subst. reflexivity.
    + apply ret_spec in Hs2. destruct Hs2 as (-> & ->).
      eapply bind_intro;
        [eapply bind_intro; [exact Hstat | cbv beta iota; rewrite Hd;
                                           reflexivity]|].
      cbv beta iota in Hrun |- *.
      apply bind_Some in Hrun. destruct Hrun as (s3 & q4 & Hs3 & Hrun).
      apply ret_spec in Hs3. destruct Hs3 as (-> & ->).
      eapply bind_intro; [reflexivity|].
      apply ret_spec in Hrun. destruct Hrun as (Hr & ->).
      inversion Hr; subst. reflexivity.
Qed.

Lemma on_reached_directory_post_msg :
  replaces_msg_on_failure (K:=K) (fun a => has_flag a FTS_Fail)
                          on_reached_directory_post.
Proof. exact finish_node_msg. Qed.
End ErrorMsg.

(** ** copy_data_fd (C6) *)

Section CopyDataFd.
Context {K : Type} `{Kernel K}.

Lemma write_chunk_more_fuel fuel fd out (p : proc K) x :
  write_chunk fuel fd out p = Some x ->
  forall fuel', (fuel <= fuel')%nat -> write_chunk fuel' fd out p = Some x.
Proof.
  revert out p. induction fuel as [|fuel IH]; intros out p Hrun fuel' Hle;
    [discriminate|].
  destruct fuel' as [|fuel']; [lia|]. simpl in *.
  unfold bind in *. destruct (write fd out p) as [[[e|n] p1]|];
    [exact Hrun | | discriminate].
  destruct (0 <? _); [|exact Hrun]. apply IH; [exact Hrun | lia].
Qed.

Lemma copy_data_fd_more_fuel fuel fds fdt (p : proc K) x :
  copy_data_fd fuel fds fdt p = Some x ->
  forall fuel', (fuel <= fuel')%nat -> copy_data_fd fuel' fds fdt p = Some x.
Proof.
  revert p. induction fuel as [|fuel IH]; intros p Hrun fuel' Hle;
    [discriminate|].
  destruct fuel' as [|fuel']; [lia|]. simpl in *.
  unfold bind in *.
  destruct (read fds BUF_SIZE p) as [[[e|[|b buf]] p1]|];
    [exact Hrun | exact Hrun | | discriminate].
  destruct (write_chunk fuel fdt (b :: buf) p1) as [[ok p2]|] eqn:Hw;
    [|discriminate].
  rewrite (write_chunk_more_fuel _ _ _ _ _ Hw fuel') by lia.
  destruct ok; [|exact Hrun]. apply IH; [exact Hrun | lia].
Qed.

Lemma skipn_nil_length {A} n (l : list A) :
  (0 <? Z.of_nat (List.length (skipn n l))) = false <-> skipn n l = [].
Proof.
  destruct (skipn n l) as [|a l']; simpl; split; intros Hs;
    try reflexivity; try discriminate.
Qed.

Lemma write_chunk_flushed fuel fd out (p p' : proc K) :
  write_chunk fuel fd out p = Some (true, p') -> flushed fd out p p'.
Proof.
  revert out p. induction fuel as [|fuel IH]; intros out p Hrun;
    [discriminate|].
  simpl in Hrun. apply bind_Some in Hrun.
  destruct Hrun as ([e|n] & p1 & Hw & Hrun);
    [apply ret_spec in Hrun; destruct Hrun; discriminate|].
  destruct (0 <? _) eqn:Hleft.
  - eapply flushed_part; [exact Hw | | apply IH, Hrun].
    intros Hnil. apply skipn_nil_length in Hnil. congruence.
  - apply ret_spec in Hrun. destruct Hrun as (_ & ->).
    eapply flushed_all; [exact Hw|]. apply skipn_nil_length, Hleft.
Qed.

Lemma flushed_write_chunk fd out (p p' : proc K) :
  flushed fd out p p' ->
  exists fuel, write_chunk fuel fd out p = Some (true, p').
Proof.
  induction 1 as [data p n p1 Hw Hnil | data p n p1 p2 Hw Hleft _ IH].
  - exists 1%nat. simpl. rewrite (bind_eq _ _ _ _ _ Hw).
    apply skipn_nil_length in Hnil. rewrite Hnil. reflexivity.
  - destruct IH as (fuel & IH). exists (S fuel). simpl.
    rewrite (bind_eq _ _ _ _ _ Hw).
    destruct (0 <? _) eqn:Hl; [exact IH|].
    apply skipn_nil_length in Hl. contradiction.
Qed.

Lemma copy_data_fd_drained fuel fds fdt (p p' : proc K) :
  copy_data_fd fuel fds fdt p = Some (true, p') ->
  exists data, drained fds fdt p data p'.
Proof.
  revert p. induction fuel as [|fuel IH]; intros p Hrun; [discriminate|].
  simpl in Hrun. apply bind_Some in Hrun.
  destruct Hrun as ([e|[|b buf]] & p1 & Hr & Hrun).
  - apply ret_spec in Hrun. destruct Hrun; discriminate.
  - apply ret_spec in Hrun. destruct Hrun as (_ & ->).
    exists []. apply drained_eof, Hr.
  - apply bind_Some in Hrun. destruct Hrun as ([|] & p2 & Hw & Hrun);
      [|apply ret_spec in Hrun; destruct Hrun; discriminate].
    apply IH in Hrun. destruct Hrun as (data & Hd).
    exists ((b :: buf) ++ data).
    eapply drained_chunk; [exact Hr | discriminate | | exact Hd].
    eapply write_chunk_flushed, Hw.
Qed.

Lemma drained_copy_data_fd fds fdt (p p' : proc K) data :
  drained fds fdt p data p' ->
  exists fuel, copy_data_fd fuel fds fdt p = Some (true, p').
Proof.
  induction 1 as [p p1 Hr | p chunk p1 p2 data p3 Hr Hne Hfl _ IH].
  - exists 1%nat. simpl. rewrite (bind_eq _ _ _ _ _ Hr). reflexivity.
  - destruct IH as (f2 & IH).
    apply flushed_write_chunk in Hfl. destruct Hfl as (f1 & Hfl).
    exists (S (Nat.max f1 f2)). simpl. rewrite (bind_eq _ _ _ _ _ Hr).
    destruct chunk as [|b buf]; [contradiction|].
    rewrite (bind_eq _ _ _ _ _
               (write_chunk_more_fuel _ _ _ _ _ Hfl _ (Nat.le_max_l f1 f2))).
    apply (copy_data_fd_more_fuel _ _ _ _ _ IH). apply Nat.le_max_r.
Qed.

Lemma flushed_bytes fds fd out (p p' : proc K) :
  flushed fd out p p' ->
  exists evs, p_trace p' = p_trace p ++ evs /\
              written_bytes fd evs = out /\ read_bytes fds evs = [].
Proof.
  induction 1 as [data p n p1 Hw Hnil | data p n p1 p2 Hw Hleft _ IH];
    apply write_spec in Hw; destruct Hw as (r & (_ & _ & Ht) & -> & Hn).
  - eexists. split; [exact Ht|]. unfold written_bytes, read_bytes. simpl.
    rewrite Z.eqb_refl, app_nil_r. split; [|reflexivity].
    rewrite <- (firstn_skipn (Z.to_nat n) data) at 2.
    rewrite Hnil, app_nil_r. reflexivity.
  - destruct IH as (evs & Ht2 & Hwb & Hrb).
    eexists. split; [rewrite Ht2, Ht, <- app_assoc; reflexivity|].
    unfold written_bytes, read_bytes in *. simpl.
    rewrite Z.eqb_refl, Hwb, Hrb. split; [|reflexivity].
    apply firstn_skipn.
Qed.

Lemma drained_bytes fds fdt (p p' : proc K) data :
  drained fds fdt p data p' ->
  exists evs, p_trace p' = p_trace p ++ evs /\
              read_bytes fds evs = data /\ written_bytes fdt evs = data.
Proof.
  induction 1 as [p p1 Hr | p chunk p1 p2 data p3 Hr Hne Hfl _ IH];
    apply read_spec in Hr; destruct Hr as (r & (_ & _ & Ht) & -> & Hn).
  - eexists. split; [exact Ht|]. unfold read_bytes. simpl.
    rewrite Z.eqb_refl. split; reflexivity.
  - destruct IH as (evs3 & Ht3 & Hrb3 & Hwb3).
    apply (flushed_bytes fds) in Hfl.
    destruct Hfl as (evs2 & Ht2 & Hwb2 & Hrb2).
    exists ([mkevent (SysRead fds BUF_SIZE) (p_umask p) (inr (VBytes chunk))]
            ++ evs2 ++ evs3).
    split; [rewrite Ht3, Ht2, Ht, <- !app_assoc; reflexivity|].
    unfold read_bytes, written_bytes in *.
    rewrite !flat_map_app, Hrb2, Hrb3, Hwb2, Hwb3. simpl.
    rewrite Z.eqb_refl, !app_nil_r. split; reflexivity.
Qed.

Lemma write_chunk_failed fuel fd out (p p' : proc K) :
  write_chunk fuel fd out p = Some (false, p') ->
  exists evs e, p_trace p' = p_trace p ++ evs ++ [e] /\ io_error e.
Proof.
  revert out p. induction fuel as [|fuel IH]; intros out p Hrun;
    [discriminate|].
  simpl in Hrun. apply bind_Some in Hrun.
  destruct Hrun as (x & p1 & Hw & Hrun).
  apply write_spec in Hw. destruct Hw as (r & (_ & _ & Ht) & Hx).
  destruct x as [e|n].
  - apply ret_spec in Hrun. destruct Hrun as (_ & ->).
    exists [], (mkevent (SysWrite fd out) (p_umask p) r).
    split; [exact Ht|]. unfold io_error. simpl.
    destruct r as [e0|[]]; try exact I. apply Hx. reflexivity.
  - destruct (0 <? _); [|apply ret_spec in Hrun; destruct Hrun; discriminate].
    apply IH in Hrun. destruct Hrun as (evs & e & Ht2 & He).
    exists (mkevent (SysWrite fd out) (p_umask p) r :: evs), e.
    split; [|exact He]. rewrite Ht2, Ht, <- app_assoc. reflexivity.
Qed.

Lemma prefix_trace fuel fd out (p p' : proc K) ok :
  write_chunk fuel fd out p = Some (ok, p') ->
  exists evs, p_trace p' = p_trace p ++ evs.
Proof.
  intros Hrun.
  pose proof (traced_write_chunk any_call (fun _ _ => I) fuel fd out) as Htr.
  apply Htr in Hrun. destruct Hrun as (_ & _ & evs & Ht & _). eauto.
Qed.

Lemma copy_data_fd_failed fuel fds fdt (p p' : proc K) :
  copy_data_fd fuel fds fdt p = Some (false, p') ->
  exists evs e, p_trace p' = p_trace p ++ evs ++ [e] /\ io_error e.
Proof.
  revert p. induction fuel as [|fuel IH]; intros p Hrun; [discriminate|].
  simpl in Hrun. apply bind_Some in Hrun.
  destruct Hrun as (x & p1 & Hr & Hrun).
  apply read_spec in Hr. destruct Hr as (r & (_ & _ & Ht) & Hx).
  destruct x as [e|[|b buf]].
  - apply ret_spec in Hrun. destruct Hrun as (_ & ->).
    exists [], (mkevent (SysRead fds BUF_SIZE) (p_umask p) r).
    split; [exact Ht|]. unfold io_error. simpl.
    destruct r as [e0|[]]; try exact I. apply Hx. reflexivity.
  - apply ret_spec in Hrun. destruct Hrun; discriminate.
  - apply bind_Some in Hrun. destruct Hrun as ([|] & p2 & Hw & Hrun).
    + apply prefix_trace in Hw. destruct Hw as (evs2 & Ht2).
      apply IH in Hrun. destruct Hrun as (evs & e & Ht3 & He).
      exists ((mkevent (SysRead fds BUF_SIZE) (p_umask p) r :: evs2) ++ evs),
        e.
      split; [|exact He].
      rewrite Ht3, Ht2, Ht, <- !app_assoc. reflexivity.
    + apply ret_spec in Hrun. destruct Hrun as (_ & ->).
      apply write_chunk_failed in Hw. destruct Hw as (evs & e & Ht2 & He).
      exists (mkevent (SysRead fds BUF_SIZE) (p_umask p) r :: evs), e.
      split; [|exact He]. rewrite Ht2, Ht, <- app_assoc. reflexivity.
Qed.
End CopyDataFd.

(** C6: [copy_data_fd] returns success exactly when the reads on the
    source deliver chunk after chunk without error until one returns 0,
    each chunk being flushed to the destination, through as many writes as
    its partial acceptance takes and without error, before the next read;
    the destination has then been given exactly the bytes read from the
    source, in order. It returns failure only after a read or a write that
    failed. A result does not depend on the fuel of the model. *)
Theorem copy_data_fd_exhausts_source {K : Type} `{Kernel K}
    (fd_source fd_target : Z) (p p' : proc K) :
  ((exists fuel, copy_data_fd fuel fd_source fd_target p = Some (true, p'))
   <-> exists data, drained fd_source fd_target p data p') /\
  (forall data,
     drained fd_source fd_target p data p' ->
     exists evs, p_trace p' = p_trace p ++ evs /\
                 read_bytes fd_source evs = data /\
                 written_bytes fd_target evs = data) /\
  (forall fuel,
     copy_data_fd fuel fd_source fd_target p = Some (false, p') ->
     exists evs e, p_trace p' = p_trace p ++ evs ++ [e] /\ io_error e) /\
  (forall fuel x,
     copy_data_fd fuel fd_source fd_target p = Some x ->
     forall fuel', (fuel <= fuel')%nat ->
                   copy_data_fd fuel' fd_source fd_target p = Some x).
Proof.
  repeat split.
  - intros (fuel & Hrun). eapply copy_data_fd_drained, Hrun.
  - intros (data & Hd). eapply drained_copy_data_fd, Hd.
  - intros data. apply drained_bytes.
  - intros fuel. apply copy_data_fd_failed.
  - intros fuel x. apply copy_data_fd_more_fuel.
Qed.

Lemma copy_data_fd_exhausts_source_witness :
  exists p',
    copy_data_fd 10 3 4 (start ex_stream_script) = Some (true, p') /\
    written_bytes 4 (p_trace p') = read_bytes 3 (p_trace p') /\
    read_bytes 3 (p_trace p') = repeat x41%byte 5.
Proof.
  destruct (copy_data_fd 10 3 4 (start ex_stream_script))
    as [[ok p']|] eqn:Hrun; [|vm_compute in Hrun; discriminate].
  assert (Hok : ok = true)
    by (vm_compute in Hrun; inversion Hrun; reflexivity).
  subst ok. exists p'. split; [reflexivity|].
  destruct (copy_data_fd_exhausts_source 3 4 (start ex_stream_script) p')
    as (Hiff & Hbytes & _).
  destruct (proj1 Hiff (ex_intro _ 10%nat Hrun)) as (data & Hd).
  destruct (Hbytes data Hd) as (evs & Ht & Hr & Hw).
  simpl in Ht. subst evs. split; [rewrite Hr, Hw; reflexivity|].
  vm_compute in Hrun. inversion Hrun; subst p'. reflexivity.
Defined.

(** ** Exclusive creation of the target (C7) *)

Section ExclusiveCreate.
Context {K : Type} `{Kernel K}.
Hypothesis kernel_honours_O_EXCL : honours_O_EXCL K.

Lemma create_flags_exclusive :
  Z.testbit CREATE_FLAGS 6 = true /\ Z.testbit CREATE_FLAGS 7 = true /\
  Z.land CREATE_FLAGS O_TRUNC = 0.
Proof. repeat split. Qed.

Lemma copy_data_refused fuel source target (p p1 : proc K) fd_source :
  open source O_RDONLY 0 p = Some (inr fd_source, p1) ->
  entry_exists target p1 ->
  exists e p2 p',
    open target CREATE_FLAGS 438 p1 = Some (inl e, p2) /\
    copy_data fuel source target p = Some (false, p') /\
    p_umask p' = p_umask p /\
    map ev_call (skipn (List.length (p_trace p)) (p_trace p')) =
      [SysOpen source O_RDONLY 0; SysOpen target CREATE_FLAGS 438;
       SysClose fd_source].
Proof.
  intros Hsrc Hexists.
  destruct (kernel_honours_O_EXCL target CREATE_FLAGS 438 p1 Hexists)
    as (e & p2 & Hopen); [reflexivity | reflexivity |].
  exists e, p2.
  unfold copy_data. fold CREATE_FLAGS.
  rewrite (bind_eq _ _ _ _ _ Hsrc), (bind_eq _ _ _ _ _ Hopen).
  unfold copy_data_error.
  pose proof Hsrc as Hsrc'. apply sys_int_spec in Hsrc'.
  destruct Hsrc' as (r1 & (_ & Hu1 & Ht1) & _ & Hfd).
  apply Z.leb_le in Hfd. rewrite Hfd. simpl.
  pose proof Hopen as Hopen'. apply sys_int_spec in Hopen'.
  destruct Hopen' as (r2 & (_ & Hu2 & Ht2) & _).
  unfold bind at 1. unfold get_errno at 1.
  unfold bind at 1. unfold bind at 1.
  destruct (close fd_source p2) as [[rc p3]|] eqn:Hclose.
  2:{ unfold close, sys_status, bind, syscall_raw in Hclose.
      destruct (k_call _ _ _) in Hclose. destruct s; discriminate. }
  apply sys_status_spec in Hclose.
  destruct Hclose as (r3 & (_ & Hu3 & Ht3) & _).
  eexists. split; [exact Hopen|]. split; [reflexivity|]. simpl.
  split; [congruence|].
  rewrite Ht3, Ht2, Ht1, <- !app_assoc.
  rewrite skipn_app, skipn_all, Nat.sub_diag. reflexivity.
Qed.

Lemma copy_file_create_data fuel source target flags sb :
  copies_data flags sb = true ->
  copy_file_create fuel source target flags sb =
    copy_data fuel source target.
Proof.
  unfold copies_data, copy_file_create. intros Hty.
  apply orb_prop in Hty. destruct Hty as [Hreg | Hlnk].
  - apply Z.eqb_eq in Hreg. rewrite Hreg. reflexivity.
  - apply andb_prop in Hlnk. destruct Hlnk as (Hlnk & Hfollow).
    apply Z.eqb_eq in Hlnk. rewrite Hlnk, Hfollow. reflexivity.
Qed.
End ExclusiveCreate.

Lemma tinyfs_honours_O_EXCL : honours_O_EXCL tinyfs.
Proof.
  intros path flags mode p (sb & p1 & Hlstat) Hcreat Hexcl.
  unfold lstat, sys_stat_like, open, sys_int, bind, syscall_raw in *.
  unfold k_call, tinyfs_kernel in *. simpl in *.
  destruct (tfs_find path (tfs_nodes (tfs_arrive (p_kernel p)))) as [n|].
  - rewrite Hcreat, Hexcl. simpl. eexists _, _. reflexivity.
  - discriminate.
Qed.

(** C7: in a single-entry copy of a regular file, or of a symlink under
    [MB_COPY_FOLLOW_SYMLINKS], the target is created by [open] with
    [O_CREAT] and [O_EXCL] and without [O_TRUNC]. When an entry exists at
    the target path at the moment of that call, after the removal of step
    1, on a kernel that honours [O_EXCL], the call fails and [copy_file]
    returns failure: it has opened the source and then only closed it
    again, nothing is written and the entry is left as it is. *)
Theorem exclusive_create_fails_on_existing {K : Type} `{Kernel K}
    (fuel : nat) (source target : string) (flags : Z)
    (p p1 p2 p3 : proc K) (ru : Z + unit) (sb : stat) (fd_source : Z) :
  honours_O_EXCL K ->
  unlink target (after_umask 0 p) = Some (ru, p1) ->
  is_err ru = false \/ p_errno p1 = ENOENT ->
  (if flag_set flags MB_COPY_FOLLOW_SYMLINKS
   then sys_stat source else lstat source) p1 = Some (inr sb, p2) ->
  copies_data flags sb = true ->
  open source O_RDONLY 0 p2 = Some (inr fd_source, p3) ->
  entry_exists target p3 ->
  Z.testbit CREATE_FLAGS 6 = true /\ Z.testbit CREATE_FLAGS 7 = true /\
  Z.land CREATE_FLAGS O_TRUNC = 0 /\
  exists e p4 p',
    open target CREATE_FLAGS 438 p3 = Some (inl e, p4) /\
    copy_file fuel source target flags p = Some (false, p') /\
    p_umask p' = Z.land (p_umask p) 511 /\
    map ev_call (skipn (List.length (p_trace p)) (p_trace p')) =
      [ SysUnlink target;
        (if flag_set flags MB_COPY_FOLLOW_SYMLINKS
         then SysStat source else SysLstat source);
        SysOpen source O_RDONLY 0;
        SysOpen target CREATE_FLAGS 438;
        SysClose fd_source ].
Proof.
  intros Hexcl Hunlink Hru Hstat Hty Hsrc Hexists.
  repeat (split; [reflexivity|]).
  destruct (copy_data_refused Hexcl fuel source target p2 p3 fd_source
              Hsrc Hexists) as (e & p4 & p5 & Hopen & Hcopy & Hu5 & Ht5).
  exists e, p4.
  assert (Hbody : copy_file_body fuel source target flags (after_umask 0 p)
                  = Some (false, p5)).
  { unfold copy_file_body. rewrite (bind_eq _ _ _ _ _ Hunlink).
    unfold bind at 1. unfold get_errno at 1.
    assert (Hcond : is_err ru && negb (p_errno p1 =? ENOENT) = false).
    { destruct Hru as [-> | ->]; [reflexivity|].
      rewrite Z.eqb_refl. apply andb_false_r. }
    rewrite Hcond, (bind_eq _ _ _ _ _ Hstat).
    rewrite (copy_file_create_data _ _ _ _ _ Hty).
    rewrite (bind_eq _ _ _ _ _ Hcopy). reflexivity. }
  unfold copy_file. unfold bind at 1. unfold umask at 1.
  fold (after_umask 0 p). rewrite (bind_eq _ _ _ _ _ Hbody).
  eexists. split; [exact Hopen|]. split; [reflexivity|]. simpl.
  split; [reflexivity|].
  apply sys_status_spec in Hunlink.
  destruct Hunlink as (r1 & (_ & Hu1 & Ht1) & _). simpl in Ht1, Hu1.
  assert (Ht2 : exists r2,
            p_trace p2 = p_trace p1 ++
              [mkevent (if flag_set flags MB_COPY_FOLLOW_SYMLINKS
                        then SysStat source else SysLstat source)
                       (p_umask p1) r2]).
  { destruct (flag_set flags MB_COPY_FOLLOW_SYMLINKS);
      apply sys_stat_like_spec in Hstat;
      destruct Hstat as (r2 & (_ & _ & Ht2) & _); eauto. }
  destruct Ht2 as (r2 & Ht2).
  assert (Hlen : exists rest,
            p_trace p5 = p_trace p2 ++ rest /\
            map ev_call rest =
              [SysOpen source O_RDONLY 0; SysOpen target CREATE_FLAGS 438;
               SysClose fd_source]).
  { pose proof (traced_copy_data any_call (fun _ _ => I) fuel source target)
      as Htr.
    apply Htr in Hcopy. destruct Hcopy as (_ & _ & rest & Hrest & _).
    exists rest. split; [exact Hrest|].
    rewrite Hrest, skipn_app, skipn_all, Nat.sub_diag in Ht5. exact Ht5. }
  destruct Hlen as (rest & Ht5' & Hrest).
  rewrite Ht5', Ht2, Ht1, <- !app_assoc.
  rewrite skipn_app, skipn_all, Nat.sub_diag. simpl. rewrite Hrest.
  reflexivity.
Qed.

Lemma exclusive_create_fails_on_existing_witness :
  exists p',
    copy_file 10 "/s" "/t" 0 (start ex_racy_fs) = Some (false, p') /\
    map ev_call (p_trace p') =
      [ SysUnlink "/t"; SysLstat "/s"; SysOpen "/s" O_RDONLY 0;
        SysOpen "/t" CREATE_FLAGS 438; SysClose 3 ].
Proof.
  edestruct (exclusive_create_fails_on_existing (K:=tinyfs) 10 "/s" "/t" 0
               (start ex_racy_fs))
    as (_ & _ & _ & e & p4 & p' & _ & Hrun & _ & Hcalls).
  - exact tinyfs_honours_O_EXCL.
  - vm_compute. reflexivity.
  - right. reflexivity.
  - vm_compute. reflexivity.
  - reflexivity.
  - vm_compute. reflexivity.
  - eexists _, _. vm_compute. reflexivity.
  - exists p'. split; [exact Hrun | exact Hcalls].
Defined.

(** ** readlink2 (C9) *)

Lemma string_take_length n s :
  String.length (string_take n s) = Nat.min n (String.length s).
Proof.
  revert s. induction n as [|n IH]; intros [|ch s]; simpl; auto.
Qed.

Lemma string_take_all n s :
  (String.length s <= n)%nat -> string_take n s = s.
Proof.
  revert s. induction n as [|n IH]; intros [|ch s]; simpl; intros Hlen;
    try reflexivity; try lia.
  rewrite IH by lia. reflexivity.
Qed.

Lemma size_t_small n : 0 <= n < SIZE_MOD -> size_t n = n.
Proof. intros Hn. unfold size_t. apply Z.mod_small, Hn. Qed.

Section Readlink2.
Context {K : Type} `{Kernel K}.
Variable path contents : string.
Variable Inv : proc K -> Prop.
Hypothesis link_stable : link_holds path contents Inv.
Hypothesis contents_plain : c_str contents = contents.
Hypothesis contents_fit : Z.of_nat (String.length contents) < 2 ^ 62.

Lemma readlink2_loop_complete fuel :
  forall bufsize (p : proc K),
    Inv p -> 1 <= bufsize < SIZE_MOD ->
    Z.of_nat (String.length contents) + 1 < bufsize * 2 ^ Z.of_nat fuel ->
    exists p', readlink2_loop (S fuel) path bufsize p
                 = Some (Some contents, p') /\ Inv p'.
Proof.
  induction fuel as [|fuel IH]; intros bufsize p Hinv Hsize Hfuel.
  - (* the buffer is large enough *)
    simpl in Hfuel. rewrite Z.mul_1_r in Hfuel.
    cbn [readlink2_loop]. rewrite size_t_small by lia.
    destruct (link_stable p (bufsize - 1) Hinv) as (q1 & Hread & Hinv1).
    rewrite (bind_eq _ _ _ _ _ Hread).
    rewrite string_take_all by lia.
    destruct (Z.of_nat (String.length contents) =? bufsize - 1) eqn:Hfill;
      [apply Z.eqb_eq in Hfill; lia|].
    rewrite contents_plain. exists q1. auto.
  - cbn [readlink2_loop]. rewrite size_t_small by lia.
    destruct (link_stable p (bufsize - 1) Hinv) as (q1 & Hread & Hinv1).
    rewrite (bind_eq _ _ _ _ _ Hread).
    destruct (Z_lt_le_dec (Z.of_nat (String.length contents)) (bufsize - 1))
      as [Hfits | Hfull].
    + rewrite string_take_all by lia.
      destruct (Z.of_nat (String.length contents) =? bufsize - 1) eqn:Hfill;
        [apply Z.eqb_eq in Hfill; lia|].
      rewrite contents_plain. exists q1. auto.
    + rewrite string_take_length.
      replace (Z.of_nat (Nat.min (Z.to_nat (bufsize - 1))
                                 (String.length contents)))
        with (bufsize - 1) by lia.
      rewrite Z.eqb_refl.
      assert (Hdouble : size_t (Z.shiftl bufsize 1) = 2 * bufsize).
      { rewrite Z.shiftl_mul_pow2 by lia. change (2 ^ 1) with 2.
        rewrite size_t_small; [lia|].
        change SIZE_MOD with (2 ^ 64). change (2 ^ 62) with
          4611686018427387904 in contents_fit.
        change (2 ^ 64) with 18446744073709551616. lia. }
      rewrite Hdouble. apply IH; [exact Hinv1 | |].
      * change SIZE_MOD with 18446744073709551616.
        change (2 ^ 62) with 4611686018427387904 in contents_fit. lia.
      * rewrite Nat2Z.inj_succ, Z.pow_succ_r in Hfuel by lia. lia.
Qed.

Lemma readlink2_whole fuel (p : proc K) :
  Inv p -> (64 <= fuel)%nat ->
  exists p', readlink2 fuel path p = Some (Some contents, p') /\ Inv p'.
Proof.
  intros Hinv Hfuel. unfold readlink2.
  destruct fuel as [|fuel]; [lia|].
  apply readlink2_loop_complete; [exact Hinv | |].
  - change SIZE_MOD with 18446744073709551616. lia.
  - assert (Hpow : 2 ^ 63 <= 2 ^ Z.of_nat fuel)
      by (apply Z.pow_le_mono_r; lia).
    change (2 ^ 62) with 4611686018427387904 in contents_fit.
    change (2 ^ 63) with 9223372036854775808 in Hpow. lia.
Qed.
End Readlink2.

(** C9: [readlink2] returns the complete contents of a symlink whose reads
    succeed: it starts with a buffer of 64 bytes, of which [readlink] may
    fill 63; a read that fills all the space it was given is not accepted
    but followed by a read into a buffer of twice the size; a read that
    leaves space ends the loop with what was read; so for a link of any
    length (below 2^62, far beyond what a path can be) the loop ends, after
    at most 64 reads, with the whole contents. An error of any read makes
    it return failure. *)
Theorem readlink2_reads_whole_link {K : Type} `{Kernel K} (path : string) :
  (forall contents (Inv : proc K -> Prop) fuel p,
     link_holds path contents Inv ->
     c_str contents = contents ->
     Z.of_nat (String.length contents) < 2 ^ 62 ->
     Inv p -> (64 <= fuel)%nat ->
     exists p', readlink2 fuel path p = Some (Some contents, p') /\ Inv p') /\
  (forall fuel (p : proc K),
     readlink2 fuel path p = readlink2_loop fuel path 64 p) /\
  (forall fuel bufsize (p p1 : proc K) buf,
     readlink path (size_t (bufsize - 1)) p = Some (inr buf, p1) ->
     Z.of_nat (String.length buf) = size_t (bufsize - 1) ->
     readlink2_loop (S fuel) path bufsize p =
       readlink2_loop fuel path (size_t (Z.shiftl bufsize 1)) p1) /\
  (forall bufsize, 0 <= bufsize < 2 ^ 63 ->
     size_t (Z.shiftl bufsize 1) = 2 * bufsize) /\
  (forall fuel bufsize (p p1 : proc K) buf,
     readlink path (size_t (bufsize - 1)) p = Some (inr buf, p1) ->
     Z.of_nat (String.length buf) <> size_t (bufsize - 1) ->
     readlink2_loop (S fuel) path bufsize p = Some (Some (c_str buf), p1)) /\
  (forall fuel bufsize (p p1 : proc K) e,
     readlink path (size_t (bufsize - 1)) p = Some (inl e, p1) ->
     readlink2_loop (S fuel) path bufsize p = Some (None, p1)).
Proof.
  repeat split.
  - intros contents Inv fuel p Hlink Hplain Hfit Hinv Hfuel.
    eapply readlink2_whole; eassumption.
  - intros fuel bufsize p p1 buf Hread Hfill. cbn [readlink2_loop].
    rewrite (bind_eq _ _ _ _ _ Hread). rewrite Hfill, Z.eqb_refl.
    reflexivity.
  - intros bufsize Hb. rewrite Z.shiftl_mul_pow2 by lia.
    change (2 ^ 1) with 2. rewrite Z.mul_comm. apply size_t_small.
    change SIZE_MOD with 18446744073709551616.
    change (2 ^ 63) with 9223372036854775808 in Hb. lia.
  - intros fuel bufsize p p1 buf Hread Hfill. cbn [readlink2_loop].
    rewrite (bind_eq _ _ _ _ _ Hread). apply Z.eqb_neq in Hfill.
    rewrite Hfill. reflexivity.
  - intros fuel bufsize p p1 e Hread. cbn [readlink2_loop].
    rewrite (bind_eq _ _ _ _ _ Hread). reflexivity.
Qed.

Lemma ex_link_fs_holds :
  link_holds "/l63" (string_repeat "x" 63)
             (fun q : proc tinyfs => p_kernel q = ex_link_fs).
Proof.
  intros q bufsiz Hq. unfold readlink, bind, syscall_raw. rewrite Hq.
  eexists. split; reflexivity.
Qed.

Lemma readlink2_reads_whole_link_witness :
  exists p',
    readlink2 64 "/l63" (start ex_link_fs)
      = Some (Some (string_repeat "x" 63), p') /\
    map ev_call (p_trace p') =
      [SysReadlink "/l63" 63; SysReadlink "/l63" 127].
Proof.
  destruct (proj1 (readlink2_reads_whole_link (K:=tinyfs) "/l63")
              (string_repeat "x" 63)
              (fun q : proc tinyfs => p_kernel q = ex_link_fs)
              64%nat (start ex_link_fs))
    as (p' & Hrun & _).
  - exact ex_link_fs_holds.
  - reflexivity.
  - vm_compute. reflexivity.
  - reflexivity.
  - lia.
  - exists p'. split; [exact Hrun|].
    vm_compute in Hrun. inversion Hrun. reflexivity.
Defined.

(** * More of the code *)

(** ** The calls each function makes, path by path *)

Lemma traced_mono {K A} (E E' : syscall -> Prop) (Q : A -> Prop)
    (m : M K A) :
  (forall s, E s -> E' s) -> traced E Q m -> traced E' Q m.
Proof.
  intros Hsub Hm p a p' Hrun. apply Hm in Hrun.
  destruct Hrun as (Hq & Hu & evs & Ht & Hall).
  split; [exact Hq|]. split; [exact Hu|]. exists evs. split; [exact Ht|].
  revert Hall. apply Forall_impl. intros e (He & Hue). auto.
Qed.

(** Two descriptions of the calls of one computation hold together. *)
Lemma traced_both {K A} (E1 E2 : syscall -> Prop) (Q : A -> Prop)
    (m : M K A) :
  traced E1 Q m -> traced E2 Q m -> traced (fun s => E1 s /\ E2 s) Q m.
Proof.
  intros H1 H2 p a p' Hrun.
  destruct (H1 _ _ _ Hrun) as (Hq & Hu & evs1 & Ht1 & Hall1).
  destruct (H2 _ _ _ Hrun) as (_ & _ & evs2 & Ht2 & Hall2).
  rewrite Ht1 in Ht2. apply app_inv_head in Ht2. subst evs2.
  split; [exact Hq|]. split; [exact Hu|]. exists evs1. split; [exact Ht1|].
  rewrite Forall_forall in *. intros e He.
  destruct (Hall1 e He) as (He1 & Hue). destruct (Hall2 e He) as (He2 & _).
  auto.
Qed.

Section Calls.
Context {K : Type} `{Kernel K}.

Lemma calls_write_chunk fuel fd out :
  traced fd_call any_result (write_chunk fuel fd out).
Proof.
  revert out. induction fuel as [|fuel IH]; intros out; simpl.
  - apply traced_none.
  - apply (traced_bind _ any_result);
      [apply traced_write; exact I | intros r _].
    destruct r as [e|n]; [traced_tac|].
    destruct (0 <? _); [apply IH | traced_tac].
Qed.

Lemma calls_copy_data_fd fuel fds fdt :
  traced fd_call any_result (copy_data_fd fuel fds fdt).
Proof.
  induction fuel as [|fuel IH]; simpl.
  - apply traced_none.
  - apply (traced_bind _ any_result);
      [apply traced_read; exact I | intros r _].
    destruct r as [e|[|b buf]]; [traced_tac | traced_tac |].
    apply (traced_bind _ any_result);
      [apply calls_write_chunk | intros ok _].
    destruct ok; [apply IH | traced_tac].
Qed.

Lemma data_call_fd source target cf s : fd_call s -> data_call source target cf s.
Proof. destruct s; simpl; intros []; exact I. Qed.

Ltac data_tac :=
  repeat first
    [ apply traced_sys_status; simpl; auto
    | apply traced_sys_int; simpl; auto
    | eapply traced_mono; [apply data_call_fd | apply calls_copy_data_fd]
    | traced_step ].

Lemma calls_copy_data_error source target cf fds fdt :
  traced (data_call source target cf) any_result (copy_data_error fds fdt).
Proof. unfold copy_data_error, close. data_tac. Qed.

Lemma calls_copy_data fuel source target :
  traced (data_call source target CREATE_FLAGS) any_result
         (copy_data fuel source target).
Proof.
  unfold copy_data, open, close. fold CREATE_FLAGS.
  repeat first [ apply calls_copy_data_error | data_tac ].
Qed.

Lemma calls_copy_contents fuel source target :
  traced (data_call source target TRUNC_FLAGS) any_result
         (copy_contents fuel source target).
Proof. unfold copy_contents, open, close. fold TRUNC_FLAGS. data_tac. Qed.

Lemma calls_readlink2 fuel path target :
  traced (node_call path target) any_result (readlink2 fuel path).
Proof.
  unfold readlink2. generalize 64 as bufsize.
  induction fuel as [|fuel IH]; intros bufsize; simpl.
  - apply traced_none.
  - apply (traced_bind _ any_result);
      [apply traced_readlink; reflexivity | intros r _].
    destruct r as [e|buf]; [traced_tac|].
    destruct (_ =? _); [apply IH | traced_tac].
Qed.

Lemma calls_copy_xattrs_loop source target names :
  traced (xattr_call source target) any_result
         (copy_xattrs_loop source target names).
Proof.
  induction names as [|name rest IH]; simpl.
  - traced_tac.
  - destruct (String.eqb name ""); [exact IH|].
    unfold lgetxattr_size, lsetxattr.
    repeat first [ exact IH | apply traced_sys_int; reflexivity
                 | apply traced_lgetxattr; reflexivity
                 | apply traced_sys_status; simpl; auto
                 | traced_step ].
Qed.

Lemma calls_copy_xattrs source target :
  traced (xattr_call source target) any_result (copy_xattrs source target).
Proof.
  unfold copy_xattrs, llistxattr_size.
  repeat first [ apply calls_copy_xattrs_loop
               | apply traced_sys_int; reflexivity
               | apply traced_llistxattr; reflexivity
               | traced_step ].
Qed.

Lemma perm_mask_idem m : Z.land (Z.land m PERM_MASK) PERM_MASK = Z.land m PERM_MASK.
Proof. rewrite <- Z.land_assoc, Z.land_diag. reflexivity. Qed.

Lemma calls_copy_stat source target :
  traced (owner_call source target) any_result (copy_stat source target).
Proof.
  unfold copy_stat, lstat, lchown, chmod.
  repeat first [ apply traced_sys_stat_like; reflexivity
               | apply traced_sys_status; simpl; auto using perm_mask_idem
               | traced_step ].
Qed.

Lemma calls_copy_file_create fuel source target flags sb :
  traced (node_call source target) any_result
         (copy_file_create fuel source target flags sb).
Proof.
  unfold copy_file_create, mknod, mkfifo, symlink.
  repeat first [ apply traced_sys_status; simpl; auto
               | apply calls_readlink2
               | eapply traced_mono; [|apply calls_copy_data];
                 intros s Hs; destruct s; simpl in *; tauto
               | traced_step ].
Qed.

Lemma calls_attr_steps flags source target
    (stat_step xattr_step : M K bool) :
  traced (owner_call source target) any_result stat_step ->
  traced (xattr_call source target) any_result xattr_step ->
  traced (attr_call flags source target) any_result
    (bind (if flag_set flags MB_COPY_ATTRIBUTES then stat_step else ret true)
       (fun ok => if negb ok then ret false else
          bind (if flag_set flags MB_COPY_XATTRS then xattr_step
                else ret true)
               (fun ok => if negb ok then ret false else ret true))).
Proof.
  intros Hstat Hxattr.
  apply (traced_bind _ any_result).
  { destruct (flag_set flags MB_COPY_ATTRIBUTES) eqn:Ha; [|traced_tac].
    eapply traced_mono; [|exact Hstat]. intros s Hs. left. auto. }
  intros ok _. destruct ok; simpl; [|traced_tac].
  apply (traced_bind _ any_result).
  { destruct (flag_set flags MB_COPY_XATTRS) eqn:Hx; [|traced_tac].
    eapply traced_mono; [|exact Hxattr]. intros s Hs. right. auto. }
  intros ok _. destruct ok; simpl; traced_tac.
Qed.

Lemma calls_copy_file_attrs source target flags :
  traced (attr_call flags source target) any_result
         (copy_file_attrs source target flags).
Proof.
  apply calls_attr_steps; [apply calls_copy_stat | apply calls_copy_xattrs].
Qed.
End Calls.

(** ** copy_file, step by step *)

Section CopyFileSteps.
Context {K : Type} `{Kernel K}.

(** [copy_file] is its body run under mask 0, with the mask put back. *)
Lemma copy_file_unfold fuel source target flags (p : proc K) ok p' :
  copy_file fuel source target flags p = Some (ok, p') ->
  exists p1,
    copy_file_body fuel source target flags (after_umask 0 p)
      = Some (ok, p1) /\
    p' = mkproc (Z.land (p_umask p) 511) (p_errno p1) (p_kernel p1)
                (p_trace p1).
Proof.
  unfold copy_file. intros Hrun. unfold bind at 1 in Hrun.
  unfold umask at 1 in Hrun. fold (after_umask 0 p) in Hrun.
  apply bind_Some in Hrun. destruct Hrun as (ok1 & p1 & Hbody & Hrun).
  exists p1. unfold bind, umask, ret in Hrun. inversion Hrun; subst.
  auto.
Qed.

Lemma copy_file_fold fuel source target flags (p : proc K) ok p1 :
  copy_file_body fuel source target flags (after_umask 0 p) = Some (ok, p1) ->
  copy_file fuel source target flags p =
    Some (ok, mkproc (Z.land (p_umask p) 511) (p_errno p1) (p_kernel p1)
                     (p_trace p1)).
Proof.
  intros Hbody. unfold copy_file. unfold bind at 1. unfold umask at 1.
  fold (after_umask 0 p). rewrite (bind_eq _ _ _ _ _ Hbody). reflexivity.
Qed.

Lemma stat_source_spec flags source (p : proc K) x p1 :
  (if flag_set flags MB_COPY_FOLLOW_SYMLINKS
   then sys_stat source else lstat source) p = Some (x, p1) ->
  exists r, called (stat_source flags source) p r p1 /\
    match x with
    | inl e => match r with inr (VStat _) => False | _ => True end /\
               p_errno p1 = e
    | inr sb => r = inr (VStat sb)
    end.
Proof.
  unfold stat_source, sys_stat, lstat.
  destruct (flag_set flags MB_COPY_FOLLOW_SYMLINKS);
    apply sys_stat_like_spec.
Qed.
End CopyFileSteps.

(** X1: the calls of [copy_file] follow one discipline, whatever the
    kernel answers: first the old target is removed, then the source is
    examined (with [stat] under [MB_COPY_FOLLOW_SYMLINKS], with [lstat]
    otherwise), and after that it only recreates the node and applies the
    attribute steps asked for. So the source is only ever read; every
    changing call is on the target; the target is never removed again
    after a later step failed; no directory is made; devices and FIFOs are
    made with owner-only permissions; [chmod] gets permission bits only;
    ownership and permissions are touched only under
    [MB_COPY_ATTRIBUTES] and extended attributes only under
    [MB_COPY_XATTRS]. All of it runs under file-creation mask 0. *)
Theorem copy_file_call_discipline {K : Type} `{Kernel K}
    (fuel : nat) (source target : string) (flags : Z) (p : proc K)
    (ok : bool) (p' : proc K) :
  copy_file fuel source target flags p = Some (ok, p') ->
  exists evs,
    p_trace p' = p_trace p ++ evs /\
    Forall (fun e => ev_umask e = 0) evs /\
    copy_file_run flags source target evs ok.
Proof.
  intros Hrun. apply copy_file_unfold in Hrun.
  destruct Hrun as (pe & Hbody & ->). simpl.
  assert (Hmask : exists evs, p_trace pe = p_trace p ++ evs /\
                              Forall (fun e => ev_umask e = 0) evs).
  { pose proof (traced_copy_file_body any_call flags (fun _ _ => I)
                  (fun _ _ _ _ => I) (fun _ _ _ => I) (fun _ _ _ _ => I)
                  fuel source target) as Htr.
    apply Htr in Hbody. destruct Hbody as (_ & _ & evs & Ht & Hall).
    exists evs. split; [exact Ht|]. revert Hall. apply Forall_impl.
    intros e (_ & He). exact He. }
  destruct Hmask as (evs & Ht & Hmask). exists evs.
  split; [exact Ht|]. split; [exact Hmask|]. clear Hmask.
  unfold copy_file_body in Hbody.
  apply bind_Some in Hbody. destruct Hbody as (ru & p1 & Hunlink & Hbody).
  apply sys_status_spec in Hunlink.
  destruct Hunlink as (r1 & (_ & Hu1 & Ht1) & _). simpl in Ht1.
  apply bind_Some in Hbody. destruct Hbody as (e & p1' & Herr & Hbody).
  apply get_errno_spec in Herr. destruct Herr as (-> & _).
  destruct (is_err ru && negb (e =? ENOENT)).
  { apply ret_spec in Hbody. destruct Hbody as (-> & ->).
    rewrite Ht1 in Ht. apply app_inv_head in Ht. subst evs.
    simpl. auto. }
  apply bind_Some in Hbody. destruct Hbody as (x & p2 & Hstat & Hbody).
  apply stat_source_spec in Hstat.
  destruct Hstat as (r2 & (_ & Hu2 & Ht2) & Hx).
  destruct x as [e2|sb].
  { apply ret_spec in Hbody. destruct Hbody as (-> & ->).
    rewrite Ht2, Ht1, <- app_assoc in Ht. apply app_inv_head in Ht.
    subst evs. simpl. repeat split; auto. }
  apply bind_Some in Hbody. destruct Hbody as (created & p3 & Hcreate & Hbody).
  apply (calls_copy_file_create fuel source target flags sb) in Hcreate.
  destruct Hcreate as (_ & Hu3 & evs3 & Ht3 & Hall3).
  assert (Hrest : exists evs4,
            p_trace pe = p_trace p3 ++ evs4 /\
            Forall (fun e => attr_call flags source target (ev_call e)) evs4).
  { destruct created; simpl in Hbody.
    - apply (calls_copy_file_attrs source target flags) in Hbody.
      destruct Hbody as (_ & _ & evs4 & Ht4 & Hall4). exists evs4.
      split; [exact Ht4|]. revert Hall4. apply Forall_impl.
      intros ev (Hev & _). exact Hev.
    - apply ret_spec in Hbody. destruct Hbody as (_ & ->).
      exists []. rewrite app_nil_r. auto. }
  destruct Hrest as (evs4 & Ht4 & Hall4).
  rewrite Ht4, Ht3, Ht2, Ht1, <- !app_assoc in Ht.
  apply app_inv_head in Ht. subst evs. simpl.
  split; [reflexivity|]. split; [reflexivity|].
  split.
  { subst r2. simpl. discriminate. }
  apply Forall_app. split.
  - revert Hall3. apply Forall_impl. intros ev (Hev & _). left. exact Hev.
  - revert Hall4. apply Forall_impl. intros ev Hev. right. exact Hev.
Qed.

Lemma copy_file_call_discipline_witness :
  exists ok p',
    copy_file 10 "/a/f1" "/b/f1" 0 (start ex_file_script) = Some (ok, p') /\
    copy_file_run 0 "/a/f1" "/b/f1" (p_trace p') ok.
Proof.
  destruct (copy_file 10 "/a/f1" "/b/f1" 0 (start ex_file_script))
    as [[ok p']|] eqn:Hrun; [|vm_compute in Hrun; discriminate].
  exists ok, p'. split; [reflexivity|].
  destruct (copy_file_call_discipline 10 "/a/f1" "/b/f1" 0
              (start ex_file_script) ok p' Hrun) as (evs & Ht & _ & Hcalls).
  simpl in Ht. rewrite Ht. exact Hcalls.
Defined.

Section CopyFileOutcomes.
Context {K : Type} `{Kernel K}.

(** From the [switch] on, [copy_file] is the creation of the node, then
    the attribute steps. *)
Lemma copy_file_from_switch fuel source target flags (p : proc K) sb p2 :
  copy_file_reaches flags source target p sb p2 ->
  forall ok p3,
    bind (copy_file_create fuel source target flags sb)
         (fun created => if negb created then ret false
                         else copy_file_attrs source target flags) p2
      = Some (ok, p3) ->
    copy_file fuel source target flags p = Some (ok, restore_umask p p3).
Proof.
  intros (ru & p1 & Hunlink & Hru & Hstat) ok p3 Hrest.
  apply copy_file_fold. unfold copy_file_body.
  rewrite (bind_eq _ _ _ _ _ Hunlink).
  unfold bind at 1. unfold get_errno at 1.
  assert (Hcond : is_err ru && negb (p_errno p1 =? ENOENT) = false).
  { destruct Hru as [-> | ->]; [reflexivity|].
    rewrite Z.eqb_refl. apply andb_false_r. }
  rewrite Hcond, (bind_eq _ _ _ _ _ Hstat). exact Hrest.
Qed.

Lemma copy_file_reaches_trace flags source target (p : proc K) sb p2 :
  copy_file_reaches flags source target p sb p2 ->
  p_umask p2 = 0 /\
  exists e1 e2,
    p_trace p2 = p_trace p ++ [e1; e2] /\
    ev_call e1 = SysUnlink target /\
    ev_call e2 = stat_source flags source /\
    ev_ret e2 = inr (VStat sb).
Proof.
  intros (ru & p1 & Hunlink & _ & Hstat).
  apply sys_status_spec in Hunlink.
  destruct Hunlink as (r1 & (_ & Hu1 & Ht1) & _). simpl in Ht1, Hu1.
  apply stat_source_spec in Hstat.
  destruct Hstat as (r2 & (_ & Hu2 & Ht2) & ->).
  split; [congruence|].
  eexists _, _. split; [rewrite Ht2, Ht1, <- app_assoc; reflexivity|].
  simpl. auto.
Qed.
End CopyFileOutcomes.

(** X2: [copy_file] refuses a source that is a socket or a directory: it
    returns failure with [errno] set to [EINVAL] and creates nothing.
    It finds out only after it has removed the old target: the calls it
    has made are the [unlink] of the target and the examination of the
    source, and no other. *)
Theorem copy_file_rejects_socket_and_directory {K : Type} `{Kernel K}
    (fuel : nat) (source target : string) (flags : Z)
    (p : proc K) (sb : stat) (p2 : proc K) :
  copy_file_reaches flags source target p sb p2 ->
  file_type sb = S_IFSOCK \/ file_type sb = S_IFDIR ->
  exists p',
    copy_file fuel source target flags p = Some (false, p') /\
    p_errno p' = EINVAL /\
    p_umask p' = Z.land (p_umask p) 511 /\
    exists e1 e2,
      p_trace p' = p_trace p ++ [e1; e2] /\
      ev_call e1 = SysUnlink target /\
      ev_call e2 = stat_source flags source.
Proof.
  intros Hreach Hty.
  destruct (copy_file_reaches_trace _ _ _ _ _ _ Hreach)
    as (_ & e1 & e2 & Ht & He1 & He2 & _).
  eexists. split.
  - eapply copy_file_from_switch; [exact Hreach|].
    unfold copy_file_create. fold (file_type sb).
    destruct Hty as [-> | ->]; reflexivity.
  - simpl. split; [reflexivity|]. split; [reflexivity|].
    exists e1, e2. auto.
Qed.

Lemma copy_file_rejects_socket_and_directory_witness :
  (exists p', copy_file 10 "/d" "/t" 0 (start ex_kinds_fs) = Some (false, p')
              /\ p_errno p' = EINVAL
              /\ tfs_find "/t" (tfs_nodes (p_kernel p')) = None) /\
  (exists p', copy_file 10 "/sock" "/t" 0 (start ex_kinds_fs)
                = Some (false, p')
              /\ p_errno p' = EINVAL).
Proof.
  split.
  - edestruct (copy_file_rejects_socket_and_directory (K:=tinyfs) 10
                "/d" "/t" 0 (start ex_kinds_fs))
      as (p' & Hrun & Herr & _).
    + eexists _, _. split; [vm_compute; reflexivity|].
      split; [left; reflexivity | vm_compute; reflexivity].
    + right. reflexivity.
    + exists p'. split; [exact Hrun|]. split; [exact Herr|].
      vm_compute in Hrun. inversion Hrun. reflexivity.
  - edestruct (copy_file_rejects_socket_and_directory (K:=tinyfs) 10
                "/sock" "/t" 0 (start ex_kinds_fs))
      as (p' & Hrun & Herr & _).
    + eexists _, _. split; [vm_compute; reflexivity|].
      split; [left; reflexivity | vm_compute; reflexivity].
    + left. reflexivity.
    + exists p'. split; [exact Hrun | exact Herr].
Defined.

(** X3: when the old target cannot be removed and the reason is not that
    there is none ([ENOENT]), [copy_file] gives up at once: it returns
    failure with the [errno] of the [unlink], has made no other call, and
    has not looked at the source. When there is no old target, it goes on
    to examine the source. *)
Theorem copy_file_stops_when_unlink_fails {K : Type} `{Kernel K}
    (fuel : nat) (source target : string) (flags : Z) (p : proc K) :
  (forall e p1,
     unlink target (after_umask 0 p) = Some (inl e, p1) ->
     e <> ENOENT ->
     copy_file fuel source target flags p = Some (false, restore_umask p p1)
     /\ p_errno (restore_umask p p1) = e
     /\ calls (skipn (List.length (p_trace p)) (p_trace p1))
        = [SysUnlink target]) /\
  (forall p1 ok p',
     unlink target (after_umask 0 p) = Some (inl ENOENT, p1) ->
     copy_file fuel source target flags p = Some (ok, p') ->
     exists e2 rest,
       p_trace p' = p_trace p1 ++ e2 :: rest /\
       ev_call e2 = stat_source flags source).
Proof.
  split.
  - intros e p1 Hunlink He. split; [|split].
    + apply copy_file_fold. unfold copy_file_body.
      rewrite (bind_eq _ _ _ _ _ Hunlink).
      unfold bind at 1. unfold get_errno at 1.
      apply sys_status_spec in Hunlink.
      destruct Hunlink as (r & _ & _ & ->). simpl.
      apply Z.eqb_neq in He. rewrite He. reflexivity.
    + apply sys_status_spec in Hunlink.
      destruct Hunlink as (r & _ & _ & Herr). exact Herr.
    + apply sys_status_spec in Hunlink.
      destruct Hunlink as (r & (_ & _ & Ht) & _). simpl in Ht.
      rewrite Ht, skipn_app, skipn_all, Nat.sub_diag. reflexivity.
  - intros p1 ok p' Hunlink Hrun.
    apply copy_file_unfold in Hrun. destruct Hrun as (pe & Hbody & ->).
    simpl. unfold copy_file_body in Hbody.
    rewrite (bind_eq _ _ _ _ _ Hunlink) in Hbody.
    unfold bind at 1 in Hbody. unfold get_errno at 1 in Hbody.
    apply sys_status_spec in Hunlink.
    destruct Hunlink as (r & _ & _ & Herr). rewrite Herr in Hbody.
    simpl in Hbody.
    apply bind_Some in Hbody. destruct Hbody as (x & p2 & Hstat & Hbody).
    apply stat_source_spec in Hstat.
    destruct Hstat as (r2 & (_ & _ & Ht2) & _).
    assert (Hrest : exists rest, p_trace pe = p_trace p2 ++ rest).
    { destruct x as [e2|sb].
      - apply ret_spec in Hbody. destruct Hbody as (_ & ->).
        exists []. rewrite app_nil_r. reflexivity.
      - apply bind_Some in Hbody.
        destruct Hbody as (created & p3 & Hcreate & Hbody).
        apply (calls_copy_file_create fuel source target flags sb)
          in Hcreate.
        destruct Hcreate as (_ & _ & evs3 & Ht3 & _).
        destruct created; simpl in Hbody.
        + apply (calls_copy_file_attrs source target flags) in Hbody.
          destruct Hbody as (_ & _ & evs4 & Ht4 & _).
          exists (evs3 ++ evs4). rewrite Ht4, Ht3, app_assoc. reflexivity.
        + apply ret_spec in Hbody. destruct Hbody as (_ & ->).
          exists evs3. exact Ht3. }
    destruct Hrest as (rest & Hrest).
    exists (mkevent (stat_source flags source) (p_umask p1) r2), rest.
    split; [|reflexivity].
    rewrite Hrest, Ht2, <- app_assoc. reflexivity.
Qed.

Lemma copy_file_stops_when_unlink_fails_witness :
  copy_file 10 "/a/f1" "/b/f1" 0 (start [answer (inl 13)])
    = Some (false,
            restore_umask (start [answer (inl 13)])
              (mkproc 0 13 []
                 [mkevent (SysUnlink "/b/f1") 0 (inl 13)])) /\
  (exists e2 rest,
     [mkevent (SysUnlink "/b/f1") 0 (inl ENOENT);
      mkevent (SysLstat "/a/f1") 0 (inl EIO)]
       = [mkevent (SysUnlink "/b/f1") 0 (inl ENOENT)] ++ e2 :: rest /\
     ev_call e2 = stat_source 0 "/a/f1").
Proof.
  destruct (copy_file_stops_when_unlink_fails (K:=script) 10
              "/a/f1" "/b/f1" 0 (start [answer (inl 13)]))
    as (Hstop & _).
  destruct (copy_file_stops_when_unlink_fails (K:=script) 10
              "/a/f1" "/b/f1" 0 (start [answer (inl ENOENT)]))
    as (_ & Hgoes).
  split.
  - apply (Hstop 13 (mkproc 0 13 []
                       [mkevent (SysUnlink "/b/f1") 0 (inl 13)]));
      [reflexivity | discriminate].
  - apply (Hgoes (mkproc 0 ENOENT []
                    [mkevent (SysUnlink "/b/f1") 0 (inl ENOENT)])
                 false
                 (mkproc 18 EIO []
                    [mkevent (SysUnlink "/b/f1") 0 (inl ENOENT);
                     mkevent (SysLstat "/a/f1") 0 (inl EIO)]));
      reflexivity.
Defined.

Section CopyFileNodes.
Context {K : Type} `{Kernel K}.

(** How [copy_file] ends once the call that creates the node has
    answered [r]. *)
Lemma copy_file_after_create fuel source target flags (p : proc K) sb p2
    (r : Z + unit) p3 :
  copy_file_reaches flags source target p sb p2 ->
  copy_file_create fuel source target flags sb p2
    = Some (negb (is_err r), p3) ->
  (is_err r = true ->
   copy_file fuel source target flags p = Some (false, restore_umask p p3)) /\
  (is_err r = false ->
   forall ok p4,
     copy_file_attrs source target flags p3 = Some (ok, p4) ->
     copy_file fuel source target flags p = Some (ok, restore_umask p p4)).
Proof.
  intros Hreach Hcreate. split.
  - intros Hr. apply (copy_file_from_switch fuel _ _ _ _ _ _ Hreach).
    rewrite (bind_eq _ _ _ _ _ Hcreate), Hr. reflexivity.
  - intros Hr ok p4 Hattrs.
    apply (copy_file_from_switch fuel _ _ _ _ _ _ Hreach).
    rewrite (bind_eq _ _ _ _ _ Hcreate), Hr. exact Hattrs.
Qed.

Lemma status_run (s : syscall) (p2 : proc K) (r : Z + unit) p3 :
  sys_status s p2 = Some (r, p3) ->
  bind (sys_status s)
       (fun r => ret (match r with inl _ => false | inr _ => true end)) p2
    = Some (negb (is_err r), p3).
Proof.
  intros Hrun. rewrite (bind_eq _ _ _ _ _ Hrun). destruct r; reflexivity.
Qed.
End CopyFileNodes.

(** X4: a block device, a character device or a FIFO is recreated with
    one call: [mknod] of the target with the type of the source, the
    device number of the source and the permissions [S_IRWXU], or
    [mkfifo] of the target with [S_IRWXU]; the permission bits of the
    source are not used. If the call fails, [copy_file] fails and calls
    nothing more; if not, its result is that of the attribute steps. *)
Theorem copy_file_recreates_special_node {K : Type} `{Kernel K}
    (fuel : nat) (source target : string) (flags : Z)
    (p : proc K) (sb : stat) (p2 : proc K) (call : syscall) :
  copy_file_reaches flags source target p sb p2 ->
  special_node_call target sb = Some call ->
  match call with
  | SysMknod path mode dev =>
      path = target /\ mode = Z.lor (file_type sb) 448 /\ dev = st_rdev sb /\
      (file_type sb = S_IFBLK \/ file_type sb = S_IFCHR)
  | SysMkfifo path mode =>
      path = target /\ mode = 448 /\ file_type sb = S_IFIFO
  | _ => False
  end /\
  forall r p3,
    sys_status call p2 = Some (r, p3) ->
    (is_err r = true ->
     copy_file fuel source target flags p
       = Some (false, restore_umask p p3)) /\
    (is_err r = false ->
     forall ok p4,
       copy_file_attrs source target flags p3 = Some (ok, p4) ->
       copy_file fuel source target flags p
         = Some (ok, restore_umask p p4)).
Proof.
  intros Hreach Hcall. unfold special_node_call in Hcall.
  destruct (file_type sb =? S_IFBLK) eqn:Hblk;
    [|destruct (file_type sb =? S_IFCHR) eqn:Hchr;
      [|destruct (file_type sb =? S_IFIFO) eqn:Hfifo; [|discriminate]]];
    inversion Hcall; subst call; clear Hcall.
  - apply Z.eqb_eq in Hblk as Hty. split.
    + rewrite Hty. auto.
    + intros r p3 Hrun.
      apply (copy_file_after_create fuel _ _ _ _ _ _ _ _ Hreach).
      unfold copy_file_create. fold (file_type sb). rewrite Hblk.
      apply status_run, Hrun.
  - apply Z.eqb_eq in Hchr as Hty. split.
    + rewrite Hty. auto.
    + intros r p3 Hrun.
      apply (copy_file_after_create fuel _ _ _ _ _ _ _ _ Hreach).
      unfold copy_file_create. fold (file_type sb). rewrite Hblk, Hchr.
      apply status_run, Hrun.
  - apply Z.eqb_eq in Hfifo as Hty. split.
    + auto.
    + intros r p3 Hrun.
      apply (copy_file_after_create fuel _ _ _ _ _ _ _ _ Hreach).
      unfold copy_file_create. fold (file_type sb).
      rewrite Hblk, Hchr, Hfifo.
      apply status_run, Hrun.
Qed.

Lemma copy_file_recreates_special_node_witness :
  copy_file 10 "/dev/sda1" "/t/sda1" 0 (start (ex_node_script ex_blk_stat))
    = Some (true,
            restore_umask (start (ex_node_script ex_blk_stat))
              (mkproc 0 ENOENT []
                 [mkevent (SysUnlink "/t/sda1") 0 (inl ENOENT);
                  mkevent (SysLstat "/dev/sda1") 0 (inr (VStat ex_blk_stat));
                  mkevent (SysMknod "/t/sda1" (Z.lor S_IFBLK 448) 2049) 0
                          (inr VUnit)])).
Proof.
  edestruct (copy_file_recreates_special_node (K:=script) 10
               "/dev/sda1" "/t/sda1" 0 (start (ex_node_script ex_blk_stat))
               ex_blk_stat) as (_ & Hrun).
  - eexists _, _. split; [reflexivity|]. split; [right; reflexivity|].
    reflexivity.
  - reflexivity.
  - edestruct Hrun as (_ & Hok); [reflexivity|].
    apply Hok; reflexivity.
Defined.

(** X5: the [switch] of [copy_file] has no default case. For a source
    whose type is none of the seven listed, nothing is created, and the
    result is that of the attribute steps: with neither
    [MB_COPY_ATTRIBUTES] nor [MB_COPY_XATTRS], [copy_file] reports success
    although no target exists. *)
Theorem copy_file_unlisted_type_creates_nothing {K : Type} `{Kernel K}
    (fuel : nat) (source target : string) (flags : Z)
    (p : proc K) (sb : stat) (p2 : proc K) :
  copy_file_reaches flags source target p sb p2 ->
  listed_type (file_type sb) = false ->
  (forall ok p4,
     copy_file_attrs source target flags p2 = Some (ok, p4) ->
     copy_file fuel source target flags p = Some (ok, restore_umask p p4)) /\
  (flag_set flags MB_COPY_ATTRIBUTES = false ->
   flag_set flags MB_COPY_XATTRS = false ->
   copy_file fuel source target flags p = Some (true, restore_umask p p2)).
Proof.
  intros Hreach Hty. unfold listed_type in Hty.
  repeat (apply orb_false_elim in Hty; destruct Hty as (Hty & ?)).
  assert (Hcreate : copy_file_create fuel source target flags sb p2
                    = Some (true, p2)).
  { unfold copy_file_create. fold (file_type sb).
    repeat match goal with
           | Heq : (_ =? _) = false |- _ => rewrite Heq; clear Heq
           end.
    reflexivity. }
  assert (Hall : forall ok p4,
     copy_file_attrs source target flags p2 = Some (ok, p4) ->
     copy_file fuel source target flags p = Some (ok, restore_umask p p4)).
  { intros ok p4 Hattrs.
    apply (copy_file_from_switch fuel _ _ _ _ _ _ Hreach).
    rewrite (bind_eq _ _ _ _ _ Hcreate). exact Hattrs. }
  split; [exact Hall|].
  intros Hattr Hxattr. apply Hall. unfold copy_file_attrs.
  rewrite Hattr, Hxattr. reflexivity.
Qed.

Lemma copy_file_unlisted_type_creates_nothing_witness :
  copy_file 10 "/w" "/t" 0
            (start [answer (inl ENOENT);
                    answer (inr (VStat (mkstat 1 7 420 0 0 0)))])
    = Some (true,
            restore_umask (K:=script) (start [])
              (mkproc 0 ENOENT []
                 [mkevent (SysUnlink "/t") 0 (inl ENOENT);
                  mkevent (SysLstat "/w") 0
                          (inr (VStat (mkstat 1 7 420 0 0 0)))])).
Proof.
  edestruct (copy_file_unlisted_type_creates_nothing (K:=script) 10
               "/w" "/t" 0
               (start [answer (inl ENOENT);
                       answer (inr (VStat (mkstat 1 7 420 0 0 0)))])
               (mkstat 1 7 420 0 0 0)) as (_ & Hrun).
  - eexists _, _. split; [reflexivity|]. split; [right; reflexivity|].
    reflexivity.
  - reflexivity.
  - apply Hrun; reflexivity.
Defined.

(** X6: unless [MB_COPY_FOLLOW_SYMLINKS] is set, a symbolic link is
    copied as a link: [copy_file] reads the whole of its contents, however
    long (below 2^62 characters), and calls [symlink] with exactly these
    contents for the target. If [symlink] fails, [copy_file] fails and
    calls nothing more; if not, its result is that of the attribute
    steps. *)
Theorem copy_file_recreates_symlink {K : Type} `{Kernel K}
    (fuel : nat) (source target : string) (flags : Z)
    (p : proc K) (sb : stat) (p2 : proc K)
    (contents : string) (Inv : proc K -> Prop) :
  copy_file_reaches flags source target p sb p2 ->
  file_type sb = S_IFLNK ->
  flag_set flags MB_COPY_FOLLOW_SYMLINKS = false ->
  link_holds source contents Inv ->
  c_str contents = contents ->
  Z.of_nat (String.length contents) < 2 ^ 62 ->
  Inv p2 -> (64 <= fuel)%nat ->
  exists p3,
    readlink2 fuel source p2 = Some (Some contents, p3) /\
    forall r p4,
      symlink contents target p3 = Some (r, p4) ->
      (is_err r = true ->
       copy_file fuel source target flags p
         = Some (false, restore_umask p p4)) /\
      (is_err r = false ->
       forall ok p5,
         copy_file_attrs source target flags p4 = Some (ok, p5) ->
         copy_file fuel source target flags p
           = Some (ok, restore_umask p p5)).
Proof.
  intros Hreach Hty Hflag Hlink Hplain Hfit Hinv Hfuel.
  destruct (readlink2_whole source contents Inv Hlink Hplain Hfit fuel p2
              Hinv Hfuel) as (p3 & Hread & _).
  exists p3. split; [exact Hread|].
  intros r p4 Hsym.
  apply (copy_file_after_create fuel _ _ _ _ _ _ _ _ Hreach).
  unfold copy_file_create. fold (file_type sb). rewrite Hty, Hflag.
  change (S_IFLNK =? S_IFBLK) with false.
  change (S_IFLNK =? S_IFCHR) with false.
  change (S_IFLNK =? S_IFIFO) with false.
  change (S_IFLNK =? S_IFLNK) with true. cbn [andb negb].
  rewrite (bind_eq _ _ _ _ _ Hread).
  apply status_run, Hsym.
Qed.

Lemma ex_sym_fs_holds :
  link_holds "/l" "/f" (fun q : proc symfs => p_kernel q = ex_sym_fs).
Proof.
  intros q bufsiz Hq. unfold readlink, bind, syscall_raw. rewrite Hq.
  eexists. split; reflexivity.
Qed.

Lemma copy_file_recreates_symlink_witness :
  exists p',
    copy_file 64 "/l" "/t" 0 (start ex_sym_fs) = Some (true, p') /\
    sym_link_at "/t" (p_kernel p') = Some "/f".
Proof.
  edestruct (copy_file_recreates_symlink (K:=symfs) 64 "/l" "/t" 0
               (start ex_sym_fs) (mkstat 1 52 (Z.lor S_IFLNK 511) 0 0 0)
               (mkproc 0 ENOENT ex_sym_fs
                  [mkevent (SysUnlink "/t") 0 (inl ENOENT);
                   mkevent (SysLstat "/l") 0
                     (inr (VStat (mkstat 1 52 (Z.lor S_IFLNK 511) 0 0 0)))])
               "/f" (fun q : proc symfs => p_kernel q = ex_sym_fs))
    as (p3 & Hread & Hrun).
  - eexists _, _. split; [reflexivity|]. split; [right; reflexivity|].
    reflexivity.
  - reflexivity.
  - reflexivity.
  - exact ex_sym_fs_holds.
  - reflexivity.
  - vm_compute. reflexivity.
  - reflexivity.
  - lia.
  - vm_compute in Hread. inversion Hread; subst p3; clear Hread.
    edestruct Hrun as (_ & Hok); [reflexivity|].
    eexists. split; [apply Hok; reflexivity|]. reflexivity.
Defined.

(** ** The protocol of the byte copies *)

Section Protocol.
Context {K : Type} `{Kernel K}.

Lemma errno_of_call s (p : proc K) r p1 :
  syscall_raw s p = Some (r, p1) ->
  called s p r p1 /\
  p_errno p1 = match r with inl e => e | inr _ => p_errno p end.
Proof.
  unfold syscall_raw, called.
  destruct (k_call s (p_umask p) (p_kernel p)) as [r0 k'] eqn:Hk.
  intros Hrun. inversion Hrun; subst. simpl. auto.
Qed.

(** A wrapper that reports an error has left the [errno] of its call. *)
Lemma write_failed fd data (p : proc K) e p1 :
  write fd data p = Some (inl e, p1) ->
  exists ev, p_trace p1 = p_trace p ++ [ev] /\
    ev_call ev = SysWrite fd data /\ wrapper_failed ev /\
    p_errno p1 = failure_errno ev.
Proof.
  unfold write. intros Hrun. apply bind_Some in Hrun.
  destruct Hrun as (r & p0 & Hcall & Hrun).
  apply errno_of_call in Hcall. destruct Hcall as ((_ & _ & Ht) & He).
  exists (mkevent (SysWrite fd data) (p_umask p) r).
  unfold wrapper_failed, failure_errno. simpl.
  destruct r as [e0|[]];
    try (destruct ((0 <=? n) && (n <=? Z.of_nat (List.length data)))
           eqn:Hn);
    cbv [fail_eio bind set_errno ret] in Hrun; inversion Hrun; subst;
    simpl; repeat split; auto.
  intros (Hlo & Hhi). apply Z.leb_le in Hlo, Hhi.
  rewrite Hlo, Hhi in Hn. discriminate.
Qed.

Lemma read_failed fd count (p : proc K) e p1 :
  read fd count p = Some (inl e, p1) ->
  exists ev, p_trace p1 = p_trace p ++ [ev] /\
    ev_call ev = SysRead fd count /\ wrapper_failed ev /\
    p_errno p1 = failure_errno ev.
Proof.
  unfold read. intros Hrun. apply bind_Some in Hrun.
  destruct Hrun as (r & p0 & Hcall & Hrun).
  apply errno_of_call in Hcall. destruct Hcall as ((_ & _ & Ht) & He).
  exists (mkevent (SysRead fd count) (p_umask p) r).
  unfold wrapper_failed, failure_errno. simpl.
  destruct r as [e0|[]];
    try (destruct (Z.of_nat (List.length b) <=? count) eqn:Hn);
    cbv [fail_eio bind set_errno ret] in Hrun; inversion Hrun; subst;
    simpl; repeat split; auto.
  apply Z.leb_gt, Hn.
Qed.

Lemma open_outcome path flags mode (p : proc K) x p1 :
  open path flags mode p = Some (x, p1) ->
  exists ev, p_trace p1 = p_trace p ++ [ev] /\
    match x with
    | inl _ => open_failed ev path flags mode /\
               p_errno p1 = failure_errno ev
    | inr fd => opened ev path flags mode fd
    end.
Proof.
  unfold open, sys_int. intros Hrun. apply bind_Some in Hrun.
  destruct Hrun as (r & p0 & Hcall & Hrun).
  apply errno_of_call in Hcall. destruct Hcall as ((_ & _ & Ht) & He).
  exists (mkevent (SysOpen path flags mode) (p_umask p) r).
  unfold open_failed, opened, wrapper_failed, failure_errno. simpl.
  destruct r as [e0|[]]; try (destruct (0 <=? n) eqn:Hn);
    cbv [fail_eio bind set_errno ret] in Hrun; inversion Hrun; subst;
    simpl; repeat split; auto.
  - apply Z.leb_le, Hn.
  - apply Z.leb_gt, Hn.
Qed.

Lemma close_outcome fd (p : proc K) x p1 :
  close fd p = Some (x, p1) ->
  exists ev, p_trace p1 = p_trace p ++ [ev] /\
    closing ev fd (negb (is_err x)) /\
    p_errno p1 = errno_after (p_errno p) [ev] /\
    (is_err x = true -> p_errno p1 = failure_errno ev).
Proof.
  unfold close, sys_status. intros Hrun. apply bind_Some in Hrun.
  destruct Hrun as (r & p0 & Hcall & Hrun).
  apply errno_of_call in Hcall. destruct Hcall as ((_ & _ & Ht) & He).
  exists (mkevent (SysClose fd) (p_umask p) r).
  unfold closing, failure_errno, errno_after. simpl.
  destruct r as [e0|v]; apply ret_spec in Hrun; destruct Hrun as (-> & ->);
    simpl; repeat split; auto; discriminate.
Qed.

Lemma write_chunk_stream fuel fd out (p : proc K) ok p' :
  write_chunk fuel fd out p = Some (ok, p') ->
  exists evs rest,
    p_trace p' = p_trace p ++ evs /\
    Forall (fun e => exists d, ev_call e = SysWrite fd d) evs /\
    out = written_bytes fd evs ++ rest /\
    (ok = true -> rest = []) /\
    (ok = false ->
     exists evs' e, evs = evs' ++ [e] /\ wrapper_failed e /\
                    p_errno p' = failure_errno e).
Proof.
  revert out p. induction fuel as [|fuel IH]; intros out p Hrun;
    [discriminate|].
  simpl in Hrun. apply bind_Some in Hrun.
  destruct Hrun as (x & p1 & Hw & Hrun).
  destruct x as [e|n].
  - apply ret_spec in Hrun. destruct Hrun as (-> & ->).
    apply write_failed in Hw.
    destruct Hw as (ev & Ht & Hcall & Hfail & Herr).
    exists [ev], (skipn (List.length (written_bytes fd [ev])) out).
    split; [exact Ht|]. split; [repeat constructor; eauto|].
    split.
    + unfold written_bytes. simpl. rewrite Hcall, app_nil_r.
      destruct (ev_ret ev) as [e0|[]]; try reflexivity.
      rewrite Z.eqb_refl.
      rewrite <- (firstn_skipn (Z.to_nat n) out) at 1.
      f_equal. rewrite length_firstn.
      destruct (Nat.le_gt_cases (Z.to_nat n) (List.length out)) as [Hle|Hgt].
      * rewrite Nat.min_l by exact Hle. reflexivity.
      * rewrite Nat.min_r by lia.
        rewrite !skipn_all2 by lia. reflexivity.
    + split; [discriminate|]. intros _. exists [], ev. auto.
  - apply write_spec in Hw.
    destruct Hw as (r & (_ & _ & Ht) & -> & Hn).
    set (ev := mkevent (SysWrite fd out) (p_umask p) (inr (VInt n))) in *.
    assert (Hev : written_bytes fd [ev] = firstn (Z.to_nat n) out).
    { unfold written_bytes. simpl. rewrite Z.eqb_refl. apply app_nil_r. }
    destruct (0 <? _) eqn:Hleft.
    + apply IH in Hrun.
      destruct Hrun as (evs & rest & Ht2 & Hall & Hout & Hok & Hbad).
      exists (ev :: evs), rest.
      split; [rewrite Ht2, Ht, <- app_assoc; reflexivity|].
      split; [constructor; [exists out; reflexivity | exact Hall]|].
      split.
      * change (ev :: evs) with ([ev] ++ evs).
        unfold written_bytes in *. rewrite flat_map_app, Hev, <- app_assoc.
        rewrite <- Hout. symmetry. apply firstn_skipn.
      * split; [exact Hok|]. intros Hf.
        destruct (Hbad Hf) as (evs' & e & -> & He).
        exists (ev :: evs'), e. auto.
    + apply ret_spec in Hrun. destruct Hrun as (-> & ->).
      exists [ev], [].
      split; [exact Ht|]. split; [repeat constructor; exists out; reflexivity|].
      split.
      * rewrite Hev, app_nil_r.
        rewrite <- (firstn_skipn (Z.to_nat n) out) at 1.
        apply Z.ltb_ge in Hleft.
        destruct (skipn (Z.to_nat n) out); [apply app_nil_r|].
        simpl in Hleft. lia.
      * split; [reflexivity | discriminate].
Qed.

Lemma read_bytes_app fd evs1 evs2 :
  read_bytes fd (evs1 ++ evs2) = read_bytes fd evs1 ++ read_bytes fd evs2.
Proof. apply flat_map_app. Qed.

Lemma written_bytes_app fd evs1 evs2 :
  written_bytes fd (evs1 ++ evs2)
  = written_bytes fd evs1 ++ written_bytes fd evs2.
Proof. apply flat_map_app. Qed.

Lemma written_of_reads fds fdt evs :
  Forall (fun e => exists n, ev_call e = SysRead fds n) evs ->
  written_bytes fdt evs = [].
Proof.
  induction 1 as [|e evs (n & He) _ IH]; [reflexivity|].
  unfold written_bytes in *. simpl. rewrite He, IH. reflexivity.
Qed.

Lemma read_of_writes fds fdt evs :
  Forall (fun e => exists d, ev_call e = SysWrite fdt d) evs ->
  read_bytes fds evs = [].
Proof.
  induction 1 as [|e evs (n & He) _ IH]; [reflexivity|].
  unfold read_bytes in *. simpl. rewrite He, IH. reflexivity.
Qed.

Lemma stream_of_writes fds fdt evs :
  Forall (fun e => exists d, ev_call e = SysWrite fdt d) evs ->
  Forall (fun e => stream_call fds fdt (ev_call e)) evs.
Proof.
  apply Forall_impl. intros e (d & ->). reflexivity.
Qed.

Lemma copy_data_fd_stream fuel fds fdt (p : proc K) ok p' :
  copy_data_fd fuel fds fdt p = Some (ok, p') ->
  exists evs rest,
    p_trace p' = p_trace p ++ evs /\
    Forall (fun e => stream_call fds fdt (ev_call e)) evs /\
    read_bytes fds evs = written_bytes fdt evs ++ rest /\
    (ok = true -> rest = []) /\
    (ok = false ->
     exists evs' e, evs = evs' ++ [e] /\ wrapper_failed e /\
                    p_errno p' = failure_errno e).
Proof.
  revert p. induction fuel as [|fuel IH]; intros p Hrun; [discriminate|].
  simpl in Hrun. apply bind_Some in Hrun.
  destruct Hrun as (x & p1 & Hr & Hrun).
  destruct x as [e|chunk].
  - apply ret_spec in Hrun. destruct Hrun as (-> & ->).
    apply read_failed in Hr.
    destruct Hr as (ev & Ht & Hcall & Hfail & Herr).
    exists [ev], (read_bytes fds [ev]).
    split; [exact Ht|].
    split; [repeat constructor; rewrite Hcall; simpl; auto|].
    split.
    + rewrite (written_of_reads fds fdt); [reflexivity|].
      repeat constructor. eauto.
    + split; [discriminate|]. intros _. exists [], ev. auto.
  - apply read_spec in Hr.
    destruct Hr as (r & (_ & _ & Ht) & -> & Hn).
    set (ev := mkevent (SysRead fds BUF_SIZE) (p_umask p)
                       (inr (VBytes chunk))) in *.
    assert (Hev : Forall (fun e => exists n, ev_call e = SysRead fds n) [ev])
      by (constructor; [exists BUF_SIZE; reflexivity | constructor]).
    assert (Hrd : read_bytes fds [ev] = chunk).
    { unfold read_bytes. simpl. rewrite Z.eqb_refl. apply app_nil_r. }
    assert (Hst : stream_call fds fdt (ev_call ev)) by (simpl; auto).
    destruct chunk as [|b buf].
    + apply ret_spec in Hrun. destruct Hrun as (-> & ->).
      exists [ev], []. split; [exact Ht|]. split; [auto|].
      split; [|split; [reflexivity | discriminate]].
      rewrite Hrd, (written_of_reads fds fdt) by exact Hev. reflexivity.
    + apply bind_Some in Hrun. destruct Hrun as (okw & p2 & Hw & Hrun).
      apply write_chunk_stream in Hw.
      destruct Hw as (evs2 & rest2 & Ht2 & Hall2 & Hout2 & Hok2 & Hbad2).
      destruct okw.
      * apply IH in Hrun.
        destruct Hrun as (evs3 & rest & Ht3 & Hall3 & Hbytes & Hok & Hbad).
        exists ([ev] ++ evs2 ++ evs3), rest.
        split; [rewrite Ht3, Ht2, Ht, <- !app_assoc; reflexivity|].
        split.
        { apply Forall_app. split; [auto|]. apply Forall_app.
          split; [apply stream_of_writes, Hall2 | exact Hall3]. }
        split.
        { rewrite !read_bytes_app, !written_bytes_app.
          rewrite Hrd, (read_of_writes fds fdt evs2 Hall2),
            (written_of_reads fds fdt [ev] Hev), Hbytes.
          rewrite (Hok2 eq_refl), app_nil_r in Hout2. rewrite Hout2.
          simpl. rewrite <- ?app_assoc. reflexivity. }
        split; [exact Hok|]. intros Hf.
        destruct (Hbad Hf) as (evs' & e & -> & He).
        exists ([ev] ++ evs2 ++ evs'), e.
        rewrite <- !app_assoc. auto.
      * apply ret_spec in Hrun. destruct Hrun as (-> & ->).
        exists ([ev] ++ evs2), rest2.
        split; [rewrite Ht2, Ht, <- !app_assoc; reflexivity|].
        split.
        { apply Forall_app. split; [auto|].
          apply stream_of_writes, Hall2. }
        split.
        { rewrite !read_bytes_app, !written_bytes_app.
          rewrite Hrd, (read_of_writes fds fdt evs2 Hall2),
            (written_of_reads fds fdt [ev] Hev).
          rewrite Hout2. simpl. rewrite app_nil_r. reflexivity. }
        split; [discriminate|]. intros _.
        destruct (Hbad2 eq_refl) as (evs' & e & -> & He).
        exists ([ev] ++ evs'), e. rewrite <- app_assoc. auto.
Qed.
End Protocol.

Section DataProtocol.
Context {K : Type} `{Kernel K}.

Lemma close_call fd (p : proc K) x p1 :
  close fd p = Some (x, p1) ->
  exists c, p_trace p1 = p_trace p ++ [c] /\ ev_call c = SysClose fd.
Proof.
  intros Hrun. apply close_outcome in Hrun.
  destruct Hrun as (c & Ht & (Hc & _) & _). eauto.
Qed.

(** The [error:] label of [copy_data] closes what is open and returns
    with the [errno] it was entered with. *)
Lemma copy_data_error_outcome fds fdt (p : proc K) b p' :
  copy_data_error fds fdt p = Some (b, p') ->
  b = false /\ p_errno p' = p_errno p /\
  exists closes,
    p_trace p' = p_trace p ++ closes /\
    calls closes = (if 0 <=? fds then [SysClose fds] else [])
                   ++ (if 0 <=? fdt then [SysClose fdt] else []).
Proof.
  unfold copy_data_error. intros Hrun.
  apply bind_Some in Hrun. destruct Hrun as (e & p0 & Hget & Hrun).
  apply get_errno_spec in Hget. destruct Hget as (-> & ->).
  apply bind_Some in Hrun. destruct Hrun as ([] & p1 & Hc1 & Hrun).
  apply bind_Some in Hrun. destruct Hrun as ([] & p2 & Hc2 & Hrun).
  apply bind_Some in Hrun. destruct Hrun as ([] & p3 & Hset & Hrun).
  apply ret_spec in Hrun. destruct Hrun as (-> & ->).
  unfold set_errno in Hset. inversion Hset; subst p3; clear Hset. simpl.
  split; [reflexivity|]. split; [reflexivity|].
  assert (H1 : exists l1, p_trace p1 = p_trace p ++ l1 /\
             calls l1 = if 0 <=? fds then [SysClose fds] else []).
  { destruct (0 <=? fds).
    - apply bind_Some in Hc1. destruct Hc1 as (x & q & Hc & Hr).
      apply ret_spec in Hr. destruct Hr as (_ & ->).
      apply close_call in Hc. destruct Hc as (c & Ht & Hc).
      exists [c]. split; [exact Ht|]. unfold calls. simpl. rewrite Hc.
      reflexivity.
    - apply ret_spec in Hc1. destruct Hc1 as (_ & ->).
      exists []. rewrite app_nil_r. auto. }
  assert (H2 : exists l2, p_trace p2 = p_trace p1 ++ l2 /\
             calls l2 = if 0 <=? fdt then [SysClose fdt] else []).
  { destruct (0 <=? fdt).
    - apply bind_Some in Hc2. destruct Hc2 as (x & q & Hc & Hr).
      apply ret_spec in Hr. destruct Hr as (_ & ->).
      apply close_call in Hc. destruct Hc as (c & Ht & Hc).
      exists [c]. split; [exact Ht|]. unfold calls. simpl. rewrite Hc.
      reflexivity.
    - apply ret_spec in Hc2. destruct Hc2 as (_ & ->).
      exists []. rewrite app_nil_r. auto. }
  destruct H1 as (l1 & Ht1 & Hl1). destruct H2 as (l2 & Ht2 & Hl2).
  exists (l1 ++ l2). split; [rewrite Ht2, Ht1, app_assoc; reflexivity|].
  unfold calls in *. rewrite map_app, Hl1, Hl2. reflexivity.
Qed.

Lemma calls_one (l : list event) s :
  calls l = [s] -> exists c, l = [c] /\ ev_call c = s.
Proof.
  destruct l as [|c [|c' l]]; try discriminate.
  unfold calls. simpl. intros Hc. inversion Hc. eauto.
Qed.

Lemma calls_two (l : list event) s1 s2 :
  calls l = [s1; s2] ->
  exists c1 c2, l = [c1; c2] /\ ev_call c1 = s1 /\ ev_call c2 = s2.
Proof.
  destruct l as [|c1 [|c2 [|c3 l]]]; try discriminate.
  unfold calls. simpl. intros Hc. inversion Hc. eauto 6.
Qed.

Lemma copy_data_protocol fuel source target (p : proc K) ok p' :
  copy_data fuel source target p = Some (ok, p') ->
  exists evs, p_trace p' = p_trace p ++ evs /\
              copy_data_calls source target evs ok (p_errno p').
Proof.
  unfold copy_data. fold CREATE_FLAGS. intros Hrun.
  apply bind_Some in Hrun. destruct Hrun as (x1 & p1 & Ho1 & Hrun).
  apply open_outcome in Ho1. destruct Ho1 as (o1 & Ht1 & Ho1).
  destruct x1 as [e1|fds].
  { (* the source cannot be opened *)
    destruct Ho1 as (Hfail & Herr).
    apply copy_data_error_outcome in Hrun.
    destruct Hrun as (-> & Herr' & closes & Ht & Hcl).
    change (0 <=? -1) with false in Hcl. destruct closes; [|discriminate].
    exists [o1]. rewrite Ht, app_nil_r. split; [exact Ht1|].
    left. exists o1. rewrite Herr', Herr. auto. }
  pose proof Ho1 as (_ & _ & Hfds). apply Z.leb_le in Hfds.
  apply bind_Some in Hrun. destruct Hrun as (x2 & p2 & Ho2 & Hrun).
  apply open_outcome in Ho2. destruct Ho2 as (o2 & Ht2 & Ho2).
  destruct x2 as [e2|fdt].
  { (* the target cannot be created *)
    destruct Ho2 as (Hfail & Herr).
    apply copy_data_error_outcome in Hrun.
    destruct Hrun as (-> & Herr' & closes & Ht & Hcl).
    rewrite Hfds in Hcl. change (0 <=? -1) with false in Hcl.
    apply calls_one in Hcl. destruct Hcl as (c1 & -> & Hc1).
    exists [o1; o2; c1].
    split; [rewrite Ht, Ht2, Ht1, <- !app_assoc; reflexivity|].
    right; left. exists o1, fds, o2, c1. rewrite Herr', Herr. auto 8. }
  pose proof Ho2 as (_ & _ & Hfdt). apply Z.leb_le in Hfdt.
  apply bind_Some in Hrun. destruct Hrun as (okc & p3 & Hcopy & Hrun).
  apply copy_data_fd_stream in Hcopy.
  destruct Hcopy as (mid & rest & Ht3 & Hmid & Hbytes & Hok & Hbad).
  assert (Hshape : forall tail,
            p_trace p' = p_trace p3 ++ tail ->
            copy_data_tail fds fdt mid tail ok (p_errno p') ->
            exists evs, p_trace p' = p_trace p ++ evs /\
              copy_data_calls source target evs ok (p_errno p')).
  { intros tail Ht Htail. exists (o1 :: o2 :: mid ++ tail).
    split; [rewrite Ht, Ht3, Ht2, Ht1, <- !app_assoc; reflexivity|].
    right; right. exists o1, fds, o2, fdt, mid, tail. auto 8. }
  destruct okc; simpl in Hrun.
  2: { (* the copy loop failed *)
    apply copy_data_error_outcome in Hrun.
    destruct Hrun as (-> & Herr' & closes & Ht & Hcl).
    rewrite Hfds, Hfdt in Hcl.
    apply calls_two in Hcl. destruct Hcl as (c1 & c2 & -> & Hc1 & Hc2).
    destruct (Hbad eq_refl) as (mid' & e & Hm & Hfail & Herr).
    apply (Hshape _ Ht). left. exists mid', e, c1, c2.
    rewrite Herr', Herr. auto 10. }
  rewrite (Hok eq_refl), app_nil_r in Hbytes.
  apply bind_Some in Hrun. destruct Hrun as (r1 & p4 & Hc1 & Hrun).
  apply close_outcome in Hc1.
  destruct Hc1 as (c1 & Ht4 & Hcl1 & _ & Herr1).
  destruct r1 as [e|[]]; simpl in Hcl1, Herr1.
  { (* closing the source failed *)
    apply copy_data_error_outcome in Hrun.
    destruct Hrun as (-> & Herr' & closes & Ht & Hcl).
    rewrite Hfdt in Hcl. change (0 <=? -1) with false in Hcl.
    apply calls_one in Hcl. destruct Hcl as (c2 & -> & Hc2).
    apply (Hshape [c1; c2]);
      [rewrite Ht, Ht4, <- app_assoc; reflexivity|].
    right. split; [exact Hbytes|]. left. exists c1, c2.
    rewrite Herr', (Herr1 eq_refl). auto 8. }
  apply bind_Some in Hrun. destruct Hrun as (r2 & p5 & Hc2 & Hrun).
  apply close_outcome in Hc2.
  destruct Hc2 as (c2 & Ht5 & Hcl2 & _ & Herr2).
  destruct r2 as [e|[]]; simpl in Hcl2, Herr2.
  { (* closing the target failed: the source is closed once more *)
    apply copy_data_error_outcome in Hrun.
    destruct Hrun as (-> & Herr' & closes & Ht & Hcl).
    rewrite Hfds in Hcl. change (0 <=? -1) with false in Hcl.
    apply calls_one in Hcl. destruct Hcl as (c3 & -> & Hc3).
    apply (Hshape [c1; c2; c3]);
      [rewrite Ht, Ht5, Ht4, <- !app_assoc; reflexivity|].
    right. split; [exact Hbytes|]. right; left. exists c1, c2, c3.
    rewrite Herr', (Herr2 eq_refl). auto 8. }
  apply ret_spec in Hrun. destruct Hrun as (-> & ->).
  apply (Hshape [c1; c2]);
    [rewrite Ht5, Ht4, <- !app_assoc; reflexivity|].
  right. split; [exact Hbytes|]. right; right. exists c1, c2. auto 8.
Qed.

Lemma two_closes fd1 fd2 (b : bool) (p : proc K) x p' :
  bind (close fd1) (fun _ => bind (close fd2) (fun _ => ret b)) p
    = Some (x, p') ->
  x = b /\
  exists c1 c2,
    p_trace p' = p_trace p ++ [c1; c2] /\
    ev_call c1 = SysClose fd1 /\ ev_call c2 = SysClose fd2 /\
    p_errno p' = errno_after (p_errno p) [c1; c2].
Proof.
  intros Hrun.
  apply bind_Some in Hrun. destruct Hrun as (r1 & p1 & Hc1 & Hrun).
  apply bind_Some in Hrun. destruct Hrun as (r2 & p2 & Hc2 & Hrun).
  apply ret_spec in Hrun. destruct Hrun as (-> & ->).
  apply close_outcome in Hc1. destruct Hc1 as (c1 & Ht1 & (Hc1 & _) & He1 & _).
  apply close_outcome in Hc2. destruct Hc2 as (c2 & Ht2 & (Hc2 & _) & He2 & _).
  split; [reflexivity|]. exists c1, c2.
  split; [rewrite Ht2, Ht1, <- app_assoc; reflexivity|].
  split; [exact Hc1|]. split; [exact Hc2|].
  rewrite He2, He1. reflexivity.
Qed.

Lemma copy_contents_protocol fuel source target (p : proc K) ok p' :
  copy_contents fuel source target p = Some (ok, p') ->
  exists evs, p_trace p' = p_trace p ++ evs /\
              copy_contents_calls source target evs ok (p_errno p').
Proof.
  unfold copy_contents. fold TRUNC_FLAGS. intros Hrun.
  apply bind_Some in Hrun. destruct Hrun as (x1 & p1 & Ho1 & Hrun).
  apply open_outcome in Ho1. destruct Ho1 as (o1 & Ht1 & Ho1).
  destruct x1 as [e1|fds].
  { destruct Ho1 as (Hfail & Herr).
    apply two_closes in Hrun.
    destruct Hrun as (-> & c1 & c2 & Ht & Hc1 & Hc2 & He).
    exists [o1; c1; c2].
    split; [rewrite Ht, Ht1, <- app_assoc; reflexivity|].
    left. exists o1, c1, c2. rewrite He, Herr. auto 8. }
  apply bind_Some in Hrun. destruct Hrun as (x2 & p2 & Ho2 & Hrun).
  apply open_outcome in Ho2. destruct Ho2 as (o2 & Ht2 & Ho2).
  destruct x2 as [e2|fdt].
  { destruct Ho2 as (Hfail & Herr).
    apply two_closes in Hrun.
    destruct Hrun as (-> & c1 & c2 & Ht & Hc1 & Hc2 & He).
    exists [o1; o2; c1; c2].
    split; [rewrite Ht, Ht2, Ht1, <- !app_assoc; reflexivity|].
    right; left. exists o1, fds, o2, c1, c2. rewrite He, Herr. auto 10. }
  apply bind_Some in Hrun. destruct Hrun as (okc & p3 & Hcopy & Hrun).
  apply copy_data_fd_stream in Hcopy.
  destruct Hcopy as (mid & rest & Ht3 & Hmid & Hbytes & Hok & Hbad).
  apply two_closes in Hrun.
  destruct Hrun as (-> & c1 & c2 & Ht & Hc1 & Hc2 & He).
  exists (o1 :: o2 :: mid ++ [c1; c2]).
  split; [rewrite Ht, Ht3, Ht2, Ht1, <- !app_assoc; reflexivity|].
  right; right. exists o1, fds, o2, fdt, mid, c1, c2.
  repeat (split; [auto; fail|]). split.
  - intros Hy. rewrite (Hok Hy), app_nil_r in Hbytes. exact Hbytes.
  - intros Hn. destruct (Hbad Hn) as (mid' & e & Hm & Hf & Herr).
    exists mid', e. rewrite He, Herr. auto.
Qed.

Lemma no_leak_app evs1 evs2 :
  no_leak evs1 -> no_leak evs2 -> no_leak (evs1 ++ evs2).
Proof.
  induction evs1 as [|e evs1 IH]; [auto|].
  simpl. intros (He & Hrest) H2. split; [|auto].
  destruct (ev_call e); auto. destruct (ev_ret e) as [|[]]; auto.
  intros Hfd. unfold calls. rewrite map_app. apply in_or_app. left.
  apply He, Hfd.
Qed.

Lemma no_leak_stream fds fdt mid :
  Forall (fun e => stream_call fds fdt (ev_call e)) mid -> no_leak mid.
Proof.
  induction 1 as [|e mid He _ IH]; [exact I|].
  simpl. split; [|exact IH]. destruct (ev_call e); try exact I.
  destruct He.
Qed.

Lemma no_leak_closes (l : list event) :
  Forall (fun c => exists fd, ev_call c = SysClose fd) l -> no_leak l.
Proof.
  induction 1 as [|c l (fd & Hc) _ IH]; [exact I|].
  simpl. rewrite Hc. auto.
Qed.

Lemma no_leak_failed o path flags mode rest :
  open_failed o path flags mode -> no_leak rest -> no_leak (o :: rest).
Proof.
  intros (Hc & Hf) Hrest. simpl. split; [|exact Hrest].
  unfold wrapper_failed in Hf. rewrite Hc in *.
  destruct (ev_ret o) as [|[]]; auto. lia.
Qed.

Lemma no_leak_opened o path flags mode fd rest :
  opened o path flags mode fd -> In (SysClose fd) (calls rest) ->
  no_leak rest -> no_leak (o :: rest).
Proof.
  intros (Hc & Hr & _) Hin Hrest. simpl. rewrite Hc, Hr. auto.
Qed.
End DataProtocol.

Ltac closes_tac :=
  repeat match goal with
         | |- Forall _ [] => constructor
         | |- Forall _ (_ :: _) => constructor; [eexists; eassumption|]
         end.

Ltac in_calls_tac :=
  unfold calls; rewrite ?map_app; simpl;
  repeat match goal with
         | Hc : ev_call _ = SysClose _ |- _ => rewrite Hc; clear Hc
         end;
  rewrite ?in_app_iff; simpl; auto 8.

(** X7: [copy_data] follows one protocol, whatever the kernel answers.
    It opens the source read-only and creates the target exclusively with
    mode 0666; between the two [open]s and the [close]s there are only
    reads of 10240 bytes on the source and writes on the target. It
    returns success only when the bytes written are the bytes read and
    both descriptors were closed without error. On a failure it returns
    with the [errno] of the call that failed, although it closes the
    open descriptors afterwards. When closing the target fails, the
    source, already closed, is closed a second time. *)
Theorem copy_data_follows_protocol {K : Type} `{Kernel K}
    (fuel : nat) (source target : string) (p : proc K)
    (ok : bool) (p' : proc K) :
  copy_data fuel source target p = Some (ok, p') ->
  exists evs, p_trace p' = p_trace p ++ evs /\
              copy_data_calls source target evs ok (p_errno p').
Proof. apply copy_data_protocol. Qed.

Lemma copy_data_follows_protocol_witness :
  exists evs,
    [mkevent (SysOpen "/s" O_RDONLY 0) 18 (inr (VInt 3));
     mkevent (SysOpen "/t" CREATE_FLAGS 438) 18 (inr (VInt 4));
     mkevent (SysRead 3 BUF_SIZE) 18 (inr (VBytes (repeat x41%byte 5)));
     mkevent (SysWrite 4 (repeat x41%byte 5)) 18 (inr (VInt 5));
     mkevent (SysRead 3 BUF_SIZE) 18 (inr (VBytes []));
     mkevent (SysClose 3) 18 (inr VUnit);
     mkevent (SysClose 4) 18 (inl ENOSPC);
     mkevent (SysClose 3) 18 (inl EBADF)] = [] ++ evs /\
    copy_data_calls "/s" "/t" evs false ENOSPC.
Proof.
  apply (copy_data_follows_protocol (K:=script) 10 "/s" "/t"
           (start ex_close_script) false
           (mkproc 18 ENOSPC []
              [mkevent (SysOpen "/s" O_RDONLY 0) 18 (inr (VInt 3));
               mkevent (SysOpen "/t" CREATE_FLAGS 438) 18 (inr (VInt 4));
               mkevent (SysRead 3 BUF_SIZE) 18
                       (inr (VBytes (repeat x41%byte 5)));
               mkevent (SysWrite 4 (repeat x41%byte 5)) 18 (inr (VInt 5));
               mkevent (SysRead 3 BUF_SIZE) 18 (inr (VBytes []));
               mkevent (SysClose 3) 18 (inr VUnit);
               mkevent (SysClose 4) 18 (inl ENOSPC);
               mkevent (SysClose 3) 18 (inl EBADF)])).
  reflexivity.
Defined.

(** X8: [copy_contents] follows one protocol: it opens the source
    read-only and opens the target with [O_WRONLY|O_CREAT|O_TRUNC] and
    mode 0666, so that an existing target is overwritten; it always ends
    with two calls of [close], on -1 where an [open] failed; its result is
    that of the copy loop alone, whatever the [close]s answer; and after a
    failure [errno] is that of the failed call only if neither [close]
    failed, otherwise that of the last [close] that did. *)
Theorem copy_contents_follows_protocol {K : Type} `{Kernel K}
    (fuel : nat) (source target : string) (p : proc K)
    (ok : bool) (p' : proc K) :
  copy_contents fuel source target p = Some (ok, p') ->
  exists evs, p_trace p' = p_trace p ++ evs /\
              copy_contents_calls source target evs ok (p_errno p').
Proof. apply copy_contents_protocol. Qed.

Lemma copy_contents_follows_protocol_witness :
  exists evs,
    [mkevent (SysOpen "/s" O_RDONLY 0) 18 (inl ENOENT);
     mkevent (SysClose (-1)) 18 (inl EBADF);
     mkevent (SysClose (-1)) 18 (inl EBADF)] = [] ++ evs /\
    copy_contents_calls "/s" "/t" evs false EBADF.
Proof.
  apply (copy_contents_follows_protocol (K:=script) 10 "/s" "/t"
           (start [answer (inl ENOENT); answer (inl EBADF);
                   answer (inl EBADF)])
           false
           (mkproc 18 EBADF []
              [mkevent (SysOpen "/s" O_RDONLY 0) 18 (inl ENOENT);
               mkevent (SysClose (-1)) 18 (inl EBADF);
               mkevent (SysClose (-1)) 18 (inl EBADF)])).
  reflexivity.
Defined.

(** X9: neither [copy_data] nor [copy_contents] leaks a descriptor: for
    each descriptor that one of their [open]s returned, they call [close]
    on it before they return, whether they succeed or fail. *)
Theorem data_copies_close_what_they_open {K : Type} `{Kernel K}
    (fuel : nat) (source target : string) (p : proc K)
    (ok : bool) (p' : proc K) :
  copy_data fuel source target p = Some (ok, p') \/
  copy_contents fuel source target p = Some (ok, p') ->
  exists evs, p_trace p' = p_trace p ++ evs /\ no_leak evs.
Proof.
  intros [Hrun|Hrun].
  - apply copy_data_protocol in Hrun. destruct Hrun as (evs & Ht & Hcalls).
    exists evs. split; [exact Ht|].
    destruct Hcalls as [(o1 & -> & Hf & _)
      | [(o1 & fds & o2 & c1 & -> & Ho1 & Hf2 & Hc1 & _)
        | (o1 & fds & o2 & fdt & mid & tail & -> & Ho1 & Ho2 & Hmid
           & Htail)]].
    + eapply no_leak_failed; [exact Hf | exact I].
    + eapply no_leak_opened; [exact Ho1 | in_calls_tac |].
      eapply no_leak_failed; [exact Hf2|].
      apply no_leak_closes. closes_tac.
    + assert (Hcl : In (SysClose fds) (calls tail) /\
                    In (SysClose fdt) (calls tail) /\
                    Forall (fun c => exists fd, ev_call c = SysClose fd)
                           tail).
      { destruct Htail as [(mid' & e & c1 & c2 & _ & _ & -> & Hc1 & Hc2 & _)
          | (_ & [(c1 & c2 & -> & (Hc1 & _) & Hc2 & _)
              | [(c1 & c2 & c3 & -> & (Hc1 & _) & (Hc2 & _) & Hc3 & _)
                | (c1 & c2 & -> & (Hc1 & _) & (Hc2 & _) & _)]])];
          (split; [|split]); try closes_tac;
          unfold calls; simpl; rewrite ?Hc1, ?Hc2; auto. }
      destruct Hcl as (Hin1 & Hin2 & Hcl).
      assert (Hrest : no_leak (mid ++ tail)).
      { apply no_leak_app;
          [eapply no_leak_stream, Hmid | apply no_leak_closes, Hcl]. }
      eapply no_leak_opened; [exact Ho1 | |].
      * unfold calls in *. simpl. right. rewrite map_app.
        apply in_or_app. right. exact Hin1.
      * eapply no_leak_opened; [exact Ho2 | | exact Hrest].
        unfold calls in *. rewrite map_app. apply in_or_app. right.
        exact Hin2.
  - apply copy_contents_protocol in Hrun.
    destruct Hrun as (evs & Ht & Hcalls).
    exists evs. split; [exact Ht|].
    destruct Hcalls as [(o1 & c1 & c2 & -> & Hf & Hc1 & Hc2 & _)
      | [(o1 & fds & o2 & c1 & c2 & -> & Ho1 & Hf2 & Hc1 & Hc2 & _)
        | (o1 & fds & o2 & fdt & mid & c1 & c2 & -> & Ho1 & Ho2 & Hmid
           & Hc1 & Hc2 & _)]].
    + eapply no_leak_failed; [exact Hf|]. apply no_leak_closes. closes_tac.
    + eapply no_leak_opened; [exact Ho1 | |].
      * unfold calls. simpl. rewrite Hc1. auto.
      * eapply no_leak_failed; [exact Hf2|].
        apply no_leak_closes. closes_tac.
    + assert (Hrest : no_leak (mid ++ [c1; c2])).
      { apply no_leak_app; [eapply no_leak_stream, Hmid|].
        apply no_leak_closes. closes_tac. }
      eapply no_leak_opened; [exact Ho1 | |].
      * unfold calls. simpl. right. rewrite map_app. apply in_or_app.
        right. simpl. rewrite Hc1. auto.
      * eapply no_leak_opened; [exact Ho2 | | exact Hrest].
        unfold calls. rewrite map_app. apply in_or_app.
        right. simpl. rewrite Hc2. auto.
Qed.

Lemma data_copies_close_what_they_open_witness :
  exists evs,
    [mkevent (SysOpen "/s" O_RDONLY 0) 18 (inr (VInt 3));
     mkevent (SysOpen "/t" CREATE_FLAGS 438) 18 (inl EEXIST);
     mkevent (SysClose 3) 18 (inr VUnit)] = [] ++ evs /\
    no_leak evs.
Proof.
  apply (data_copies_close_what_they_open (K:=script) 10 "/s" "/t"
           (start [answer (inr (VInt 3)); answer (inl EEXIST); ok_unit])
           false
           (mkproc 18 EEXIST []
              [mkevent (SysOpen "/s" O_RDONLY 0) 18 (inr (VInt 3));
               mkevent (SysOpen "/t" CREATE_FLAGS 438) 18 (inl EEXIST);
               mkevent (SysClose 3) 18 (inr VUnit)])).
  left. reflexivity.
Defined.

(** X10: [copy_data_fd] writes nothing that it has not read: whenever it
    returns, with success or not, the bytes the target has accepted are a
    prefix of the bytes read from the source, and they are all of them
    when it returns success. It calls nothing but [read] with a buffer of
    10240 bytes on the source and [write] on the target, and after a
    failure [errno] is that of its last call, the one that failed. *)
Theorem copy_data_fd_writes_prefix_of_read {K : Type} `{Kernel K}
    (fuel : nat) (fd_source fd_target : Z) (p : proc K)
    (ok : bool) (p' : proc K) :
  copy_data_fd fuel fd_source fd_target p = Some (ok, p') ->
  exists evs rest,
    p_trace p' = p_trace p ++ evs /\
    Forall (fun e => stream_call fd_source fd_target (ev_call e)) evs /\
    read_bytes fd_source evs = written_bytes fd_target evs ++ rest /\
    (ok = true -> rest = []) /\
    (ok = false ->
     exists evs' e, evs = evs' ++ [e] /\ wrapper_failed e /\
                    p_errno p' = failure_errno e).
Proof. apply copy_data_fd_stream. Qed.

Lemma copy_data_fd_writes_prefix_of_read_witness :
  exists evs rest,
    [mkevent (SysRead 3 BUF_SIZE) 18 (inr (VBytes (repeat x41%byte 5)));
     mkevent (SysWrite 4 (repeat x41%byte 5)) 18 (inr (VInt 2));
     mkevent (SysWrite 4 (repeat x41%byte 3)) 18 (inl ENOSPC)]
      = [] ++ evs /\
    Forall (fun e => stream_call 3 4 (ev_call e)) evs /\
    read_bytes 3 evs = written_bytes 4 evs ++ rest /\
    (false = true -> rest = []) /\
    (false = false ->
     exists evs' e, evs = evs' ++ [e] /\ wrapper_failed e /\
                    ENOSPC = failure_errno e).
Proof.
  apply (copy_data_fd_writes_prefix_of_read (K:=script) 10 3 4
           (start [answer (inr (VBytes (repeat x41%byte 5)));
                   answer (inr (VInt 2)); answer (inl ENOSPC)])
           false
           (mkproc 18 ENOSPC []
              [mkevent (SysRead 3 BUF_SIZE) 18
                       (inr (VBytes (repeat x41%byte 5)));
               mkevent (SysWrite 4 (repeat x41%byte 5)) 18 (inr (VInt 2));
               mkevent (SysWrite 4 (repeat x41%byte 3)) 18 (inl ENOSPC)])).
  reflexivity.
Defined.

(** ** The hooks, call by call *)

Section HookCalls.
Context {K : Type} `{Kernel K}.
Variable c : copier.

Lemma step_fail (E : syscall -> Prop) f path :
  traced (K:=K) E (step_outcome c)
         (bind (fail_with c f path) (fun c' => ret (false, c'))).
Proof.
  apply (traced_bind _ (same_but_msg c));
    [apply traced_fail_with | intros c' Hc'].
  apply traced_ret. right. auto.
Qed.

Lemma hook_fail (E : syscall -> Prop) f path :
  traced (K:=K) E (hook_outcome c)
         (bind (fail_with c f path) (fun c' => ret (FTS_Fail, c'))).
Proof.
  apply (traced_bind _ (same_but_msg c));
    [apply traced_fail_with | intros c' Hc'].
  apply traced_ret. right. auto.
Qed.

Lemma calls_cp_attrs :
  traced (attr_call (_copyflags c) (fts_accpath (_curr c)) (_curtgtpath c))
         (step_outcome c) (cp_attrs c).
Proof.
  unfold cp_attrs.
  destruct (flag_set (_copyflags c) MB_COPY_ATTRIBUTES) eqn:Ha;
    [|apply traced_ret; left; auto].
  apply (traced_bind _ any_result).
  - eapply traced_mono; [|apply calls_copy_stat].
    intros s Hs. left. auto.
  - intros ok _. destruct ok; simpl;
      [apply traced_ret; left; auto | apply step_fail].
Qed.

Lemma calls_cp_xattrs :
  traced (attr_call (_copyflags c) (fts_accpath (_curr c)) (_curtgtpath c))
         (step_outcome c) (cp_xattrs c).
Proof.
  unfold cp_xattrs.
  destruct (flag_set (_copyflags c) MB_COPY_XATTRS) eqn:Ha;
    [|apply traced_ret; left; auto].
  apply (traced_bind _ any_result).
  - eapply traced_mono; [|apply calls_copy_xattrs].
    intros s Hs. right. auto.
  - intros ok _. destruct ok; simpl;
      [apply traced_ret; left; auto | apply step_fail].
Qed.

Lemma calls_attr_finish :
  traced (attr_call (_copyflags c) (fts_accpath (_curr c)) (_curtgtpath c))
         (hook_outcome c) (finish_node c).
Proof.
  unfold finish_node.
  apply (traced_bind _ (step_outcome c)); [apply calls_cp_attrs|].
  intros [ok c1] [(Hok & Hc) | (Hok & Hc)]; simpl in Hok, Hc; subst;
    simpl; [|apply traced_ret; right; auto].
  apply (traced_bind _ (step_outcome c)); [apply calls_cp_xattrs|].
  intros [ok c1] [(Hok & Hc) | (Hok & Hc)]; simpl in Hok, Hc; subst;
    simpl; apply traced_ret; [left | right]; auto.
Qed.

Lemma calls_finish_node :
  traced (hook_call c) (hook_outcome c) (finish_node c).
Proof.
  eapply traced_mono; [|apply calls_attr_finish].
  intros s Hs. right. exact Hs.
Qed.

Lemma node_call_hook s :
  node_call (fts_accpath (_curr c)) (_curtgtpath c) s -> hook_call c s.
Proof. left. assumption. Qed.

Lemma status_then_finish s f path :
  hook_call c s ->
  traced (hook_call c) (hook_outcome c)
    (bind (sys_status s)
          (fun r => if is_err r
                    then bind (fail_with c f path)
                              (fun c' => ret (FTS_Fail, c'))
                    else finish_node c)).
Proof.
  intros Hs. apply (traced_bind _ any_result);
    [apply traced_sys_status, Hs | intros r _].
  destruct (is_err r); [apply hook_fail | apply calls_finish_node].
Qed.

Lemma calls_file_tail fuel :
  traced (hook_call c) (hook_outcome c)
    (bind (copy_data fuel (fts_accpath (_curr c)) (_curtgtpath c))
          (fun ok => if negb ok
                     then bind (fail_with c "%s: Failed to copy data: %s"
                                          (_curtgtpath c))
                               (fun c' => ret (FTS_Fail, c'))
                     else finish_node c)).
Proof.
  apply (traced_bind _ any_result).
  - eapply traced_mono; [|apply calls_copy_data].
    intros s Hs. left. destruct s; simpl in *; tauto.
  - intros ok _. destruct ok; simpl;
      [apply calls_finish_node | apply hook_fail].
Qed.

Lemma calls_symlink_tail fuel :
  traced (hook_call c) (hook_outcome c)
    (bind (readlink2 fuel (fts_accpath (_curr c)))
          (fun l =>
             match l with
             | None =>
                 bind (fail_with c "%s: Failed to read symlink path: %s"
                                 (fts_accpath (_curr c)))
                      (fun c' => ret (FTS_Fail, c'))
             | Some symlink_path =>
                 bind (symlink symlink_path (_curtgtpath c))
                      (fun r =>
                         if is_err r
                         then bind (fail_with c
                                      "%s: Failed to create symlink: %s"
                                      (_curtgtpath c))
                                   (fun c' => ret (FTS_Fail, c'))
                         else finish_node c)
             end)).
Proof.
  apply (traced_bind _ any_result).
  - eapply traced_mono; [apply node_call_hook | apply calls_readlink2].
  - intros l _. destruct l as [symlink_path|]; [|apply hook_fail].
    apply status_then_finish. left. reflexivity.
Qed.

(** Each of the five hooks is the removal of the old target followed by a
    tail whose calls are those of the node and of the attribute steps. *)
Lemma creating_hook_tail fuel hook :
  In hook (creating_hooks fuel) ->
  exists tail : copier -> M K (Z * copier),
    (forall p,
       hook c p =
       bind (remove_existing_file c)
            (fun x => match x with
                      | (ok, c1) => if negb ok then ret (FTS_Fail, c1)
                                    else tail c1
                      end) p) /\
    traced (hook_call c) (hook_outcome c) (tail c).
Proof.
  simpl. intros [<- | [<- | [<- | [<- | [<- | []]]]]].
  - exists (fun c1 =>
      bind (copy_data fuel (fts_accpath (_curr c1)) (_curtgtpath c1))
           (fun ok => if negb ok
                      then bind (fail_with c1 "%s: Failed to copy data: %s"
                                           (_curtgtpath c1))
                                (fun c' => ret (FTS_Fail, c'))
                      else finish_node c1)).
    split; [intros p; reflexivity | apply calls_file_tail].
  - exists (fun c1 =>
      bind (readlink2 fuel (fts_accpath (_curr c1)))
           (fun l =>
              match l with
              | None =>
                  bind (fail_with c1 "%s: Failed to read symlink path: %s"
                                  (fts_accpath (_curr c1)))
                       (fun c' => ret (FTS_Fail, c'))
              | Some symlink_path =>
                  bind (symlink symlink_path (_curtgtpath c1))
                       (fun r =>
                          if is_err r
                          then bind (fail_with c1
                                       "%s: Failed to create symlink: %s"
                                       (_curtgtpath c1))
                                    (fun c' => ret (FTS_Fail, c'))
                          else finish_node c1)
              end)).
    split; [intros p; reflexivity | apply calls_symlink_tail].
  - exists (fun c1 =>
      bind (mknod (_curtgtpath c1) (Z.lor S_IFBLK S_IRWXU)
                  (st_rdev (fts_statp (_curr c1))))
           (fun r =>
              if is_err r
              then bind (fail_with c1
                           "%s: Failed to create block device: %s"
                           (_curtgtpath c1))
                        (fun c' => ret (FTS_Fail, c'))
              else finish_node c1)).
    split; [intros p; reflexivity|].
    apply status_then_finish. left. simpl. auto.
  - exists (fun c1 =>
      bind (mknod (_curtgtpath c1) (Z.lor S_IFCHR S_IRWXU)
                  (st_rdev (fts_statp (_curr c1))))
           (fun r =>
              if is_err r
              then bind (fail_with c1
                           "%s: Failed to create character device: %s"
                           (_curtgtpath c1))
                        (fun c' => ret (FTS_Fail, c'))
              else finish_node c1)).
    split; [intros p; reflexivity|].
    apply status_then_finish. left. simpl. auto.
  - exists (fun c1 =>
      bind (mkfifo (_curtgtpath c1) S_IRWXU)
           (fun r =>
              if is_err r
              then bind (fail_with c1 "%s: Failed to create FIFO pipe: %s"
                                   (_curtgtpath c1))
                        (fun c' => ret (FTS_Fail, c'))
              else finish_node c1)).
    split; [intros p; reflexivity|].
    apply status_then_finish. left. simpl. auto.
Qed.

(** [remove_existing_file]: one [unlink] of the current target path. *)
Lemma remove_existing_file_outcome (p : proc K) ok c1 p1 :
  remove_existing_file c p = Some ((ok, c1), p1) ->
  p_umask p1 = p_umask p /\
  exists e1,
    p_trace p1 = p_trace p ++ [e1] /\
    ev_call e1 = SysUnlink (_curtgtpath c) /\
    ev_umask e1 = p_umask p /\
    (ok = true ->
     c1 = c /\ (ret_failed (ev_ret e1) = false \/ ev_ret e1 = inl ENOENT)) /\
    (ok = false ->
     same_but_msg c c1 /\
     exists e, ev_ret e1 = inl e /\ e <> ENOENT).
Proof.
  unfold remove_existing_file. intros Hrun.
  apply bind_Some in Hrun. destruct Hrun as (r & p0 & Hunlink & Hrun).
  apply bind_Some in Hrun. destruct Hrun as (e & p0' & Hget & Hrun).
  apply get_errno_spec in Hget. destruct Hget as (-> & ->).
  apply sys_status_spec in Hunlink.
  destruct Hunlink as (r0 & (_ & Hu & Ht) & Hr).
  destruct r as [e|[]]; simpl in Hrun.
  - destruct Hr as (-> & Herr). rewrite Herr in Hrun. clear Herr.
    destruct (e =? ENOENT) eqn:He; simpl in Hrun.
    + apply ret_spec in Hrun. destruct Hrun as (Hx & ->).
      inversion Hx; subst. apply Z.eqb_eq in He. subst e.
      split; [exact Hu|]. eexists. split; [exact Ht|]. simpl.
      repeat split; auto; discriminate.
    + apply bind_Some in Hrun. destruct Hrun as (c' & p2 & Hfail & Hrun).
      apply ret_spec in Hrun. destruct Hrun as (Hx & ->).
      inversion Hx; subst.
      rewrite fail_with_eq in Hfail. inversion Hfail; subst.
      split; [exact Hu|]. eexists. split; [exact Ht|]. simpl.
      split; [reflexivity|]. split; [reflexivity|].
      split; [discriminate|]. intros _.
      split; [apply same_but_msg_set|].
      exists e. split; [reflexivity|]. apply Z.eqb_neq, He.
  - apply ret_spec in Hrun. destruct Hrun as (Hx & ->).
    inversion Hx; subst.
    split; [exact Hu|]. eexists. split; [exact Ht|]. simpl.
    repeat split; auto; discriminate.
Qed.
End HookCalls.

(** X11: each hook that creates a file, a link, a device or a FIFO
    follows one discipline. Its first call is the [unlink] of the current
    target path; if that fails for another reason than [ENOENT], the hook
    answers [FTS_Fail] and calls nothing else. Every later call is one
    that recreates the node at the current target path from the current
    source, or one of the attribute steps that the flags ask for. The
    answer is [FTS_OK] or [FTS_Fail], never a skip or a stop; with
    [FTS_OK] the object is as it was, with [FTS_Fail] only its message
    has changed. *)
Theorem creating_hooks_discipline {K : Type} `{Kernel K}
    (fuel : nat) (hook : copier -> M K (Z * copier))
    (c : copier) (p : proc K) (a : Z) (c' : copier) (p' : proc K) :
  In hook (creating_hooks fuel) ->
  hook c p = Some ((a, c'), p') ->
  p_umask p' = p_umask p /\
  hook_outcome c (a, c') /\
  exists e1 rest,
    p_trace p' = p_trace p ++ e1 :: rest /\
    ev_call e1 = SysUnlink (_curtgtpath c) /\
    (forall e, ev_ret e1 = inl e -> e <> ENOENT ->
               rest = [] /\ a = FTS_Fail) /\
    Forall (fun e => hook_call c (ev_call e)) rest /\
    Forall (fun e => ev_umask e = p_umask p) (e1 :: rest).
Proof.
  intros Hin Hrun.
  destruct (creating_hook_tail c fuel hook Hin) as (tail & Hshape & Htail).
  rewrite Hshape in Hrun.
  apply bind_Some in Hrun. destruct Hrun as ([ok c1] & p1 & Hrm & Hrun).
  apply remove_existing_file_outcome in Hrm.
  destruct Hrm as (Hu1 & e1 & Ht1 & Hc1 & Hm1 & Hyes & Hno).
  destruct ok; simpl in Hrun.
  - destruct (Hyes eq_refl) as (-> & Hret).
    apply Htail in Hrun. destruct Hrun as (Hq & Hu & rest & Ht & Hall).
    split; [congruence|]. split; [exact Hq|].
    exists e1, rest. split; [rewrite Ht, Ht1, <- app_assoc; reflexivity|].
    split; [exact Hc1|]. split.
    + intros e He Hne. destruct Hret as [Hret | Hret]; rewrite He in Hret;
        [discriminate | congruence].
    + split.
      * eapply Forall_impl; [|exact Hall]. intros ev (Hev & _). exact Hev.
      * constructor; [exact Hm1|].
        eapply Forall_impl; [|exact Hall]. intros ev (_ & Hev). congruence.
  - destruct (Hno eq_refl) as (Hsame & e & He & Hne).
    apply ret_spec in Hrun. destruct Hrun as (Hx & ->).
    inversion Hx; subst.
    split; [exact Hu1|]. split; [right; auto|].
    exists e1, []. split; [exact Ht1|]. split; [exact Hc1|].
    repeat split; auto.
Qed.

Lemma creating_hooks_discipline_witness :
  exists e1 rest,
    [mkevent (SysUnlink "/b/a/f1") 18 (inl 13)] = [] ++ e1 :: rest /\
    ev_call e1 = SysUnlink "/b/a/f1" /\ rest = [].
Proof.
  destruct (creating_hooks_discipline (K:=script) 10
              (on_reached_file 10) (ex_hook_copier 0)
              (start [answer (inl 13)]) FTS_Fail
              (set_error_msg (ex_hook_copier 0)
                 (fmt_format "%s: Failed to remove old path: %s"
                    [ArgStr "/b/a/f1"; ArgStrerror 13]))
              (mkproc 18 13 [] [mkevent (SysUnlink "/b/a/f1") 18 (inl 13)]))
    as (_ & _ & e1 & rest & Ht & Hc & Hstop & _).
  - left. reflexivity.
  - reflexivity.
  - exists e1, rest. split; [exact Ht|]. split; [exact Hc|].
    simpl in Ht. inversion Ht; subst. apply (Hstop 13); [reflexivity|].
    discriminate.
Defined.

Section DirectoryHooks.
Context {K : Type} `{Kernel K}.

(** [mkdir] of a directory that may exist: the call, and whether the hook
    goes on. *)
Lemma mkdir_outcome path (p : proc K) r p1 :
  mkdir path 511 p = Some (r, p1) ->
  exists e1,
    p_trace p1 = p_trace p ++ [e1] /\
    ev_call e1 = SysMkdir path 511 /\
    (is_err r && negb (p_errno p1 =? EEXIST) = true ->
     exists e, ev_ret e1 = inl e /\ e <> EEXIST) /\
    (is_err r && negb (p_errno p1 =? EEXIST) = false ->
     ret_failed (ev_ret e1) = false \/ ev_ret e1 = inl EEXIST).
Proof.
  intros Hrun. apply sys_status_spec in Hrun.
  destruct Hrun as (r0 & (_ & _ & Ht) & Hr).
  exists (mkevent (SysMkdir path 511) (p_umask p) r0).
  split; [exact Ht|]. split; [reflexivity|]. simpl.
  destruct r as [e|[]]; simpl.
  - destruct Hr as (-> & ->). split.
    + intros Hne. exists e. split; [reflexivity|].
      apply Z.eqb_neq. destruct (e =? EEXIST); [discriminate | reflexivity].
    + intros He. right. destruct (e =? EEXIST) eqn:Heq; [|discriminate].
      apply Z.eqb_eq in Heq. congruence.
  - split; [discriminate | auto].
Qed.

Lemma stat_outcome path (p : proc K) x p1 :
  sys_stat path p = Some (x, p1) ->
  exists e2,
    p_trace p1 = p_trace p ++ [e2] /\
    ev_call e2 = SysStat path /\
    match x with
    | inl _ => forall sb, ev_ret e2 <> inr (VStat sb)
    | inr sb => ev_ret e2 = inr (VStat sb)
    end.
Proof.
  intros Hrun. apply sys_stat_like_spec in Hrun.
  destruct Hrun as (r0 & (_ & _ & Ht) & Hr).
  exists (mkevent (SysStat path) (p_umask p) r0).
  split; [exact Ht|]. split; [reflexivity|]. simpl.
  destruct x as [e|sb]; [|exact Hr].
  intros sb Heq. subst r0. destruct Hr as (Hr & _). exact Hr.
Qed.

End DirectoryHooks.

(** The two ways the pre-order hook of a directory ends. *)
Lemma directory_pre_outcome {K : Type} `{Kernel K}
    (c : copier) (p : proc K) (a : Z) (c' : copier) (p' : proc K) :
  on_reached_directory_pre c p = Some ((a, c'), p') ->
  (a = FTS_OK /\ c' = c /\
   exists evs, p_trace p' = p_trace p ++ evs /\ directory_accepted c evs) \/
  (a = Z.lor FTS_Skip FTS_Fail /\
   exists head cm pm ok1 c1 p1 ok2,
     p_trace pm = p_trace p ++ head /\ directory_refused c head /\
     same_but_msg c cm /\
     cp_attrs cm pm = Some ((ok1, c1), p1) /\
     cp_xattrs c1 p1 = Some ((ok2, c'), p')).
Proof.
  unfold on_reached_directory_pre. intros Hrun.
  change (Z.lor S_IRWXU (Z.lor S_IRWXG S_IRWXO)) with 511 in Hrun.
  apply bind_Some in Hrun. destruct Hrun as (r & p1 & Hmk & Hrun).
  apply bind_Some in Hrun. destruct Hrun as (e & p1' & Hget & Hrun).
  apply get_errno_spec in Hget. destruct Hget as (-> & ->).
  apply mkdir_outcome in Hmk.
  destruct Hmk as (e1 & Ht1 & Hc1 & Hbad & Hgood).
  destruct (is_err r && negb (p_errno p1 =? EEXIST)) eqn:Hcond.
  - destruct (Hbad eq_refl) as (e & He & Hne). clear Hbad Hgood.
    apply bind_Some in Hrun. destruct Hrun as (x & p2 & Hx & Hrun).
    apply bind_Some in Hx. destruct Hx as (cm & p2' & Hfail & Hx).
    apply ret_spec in Hx. destruct Hx as (-> & ->).
    rewrite fail_with_eq in Hfail. inversion Hfail; subst cm p2'.
    clear Hfail. cbn [negb] in Hrun.
    apply bind_Some in Hrun. destruct Hrun as (x & p3 & Hx & Hrun).
    apply ret_spec in Hx. destruct Hx as (-> & ->).
    apply bind_Some in Hrun.
    destruct Hrun as ([success c3] & p4 & Hx & Hrun).
    apply ret_spec in Hrun. destruct Hrun as (Hy & ->).
    apply bind_Some in Hx. destruct Hx as ([ok1 c1] & q1 & Hattrs & Hx).
    apply bind_Some in Hx. destruct Hx as ([ok2 c2] & q2 & Hxattrs & Hx).
    apply ret_spec in Hx. destruct Hx as (Hz & ->).
    inversion Hz; subst. inversion Hy; subst.
    right. split; [reflexivity|].
    eexists [e1], _, p1, ok1, c1, q1, ok2.
    split; [exact Ht1|]. split; [left; exists e1, e; auto|].
    split; [apply same_but_msg_set|].
    split; [exact Hattrs | exact Hxattrs].
  - pose proof (Hgood eq_refl) as Hfine. clear Hbad Hgood.
    apply bind_Some in Hrun. destruct Hrun as (x & p2 & Hx & Hrun).
    apply ret_spec in Hx. destruct Hx as (-> & ->). cbn [negb] in Hrun.
    apply bind_Some in Hrun. destruct Hrun as (x & p3 & Hx & Hrun).
    apply bind_Some in Hx. destruct Hx as (r2 & p2' & Hstat & Hx).
    apply stat_outcome in Hstat. destruct Hstat as (e2 & Ht2 & Hc2 & Hr2).
    assert (Haccept : forall a0,
              (forall sb, ev_ret e2 = inr (VStat sb) ->
                          S_ISDIR (st_mode sb) = true) ->
              x = (false, true, c) -> p3 = p2' ->
              (a0, c') = (Z.lor 0 FTS_OK, c) -> p' = p3 ->
              a0 = FTS_OK /\ c' = c /\
              exists evs, p_trace p' = p_trace p ++ evs /\
                          directory_accepted c evs).
    { intros a0 Hdir -> -> Heq ->. inversion Heq; subst.
      split; [reflexivity|]. split; [reflexivity|].
      exists [e1; e2]. split; [rewrite Ht2, Ht1, <- app_assoc; reflexivity|].
      exists e1, e2. auto 8. }
    destruct r2 as [e|sb].
    + apply ret_spec in Hx. destruct Hx as (-> & ->).
      apply bind_Some in Hrun.
      destruct Hrun as ([success c3] & p4 & Hx & Hrun).
      apply ret_spec in Hx. destruct Hx as (Hy & ->).
      apply ret_spec in Hrun. destruct Hrun as (Hz & ->).
      inversion Hy; subst. left. apply (Haccept a); auto.
      intros sb Hsb. destruct (Hr2 sb Hsb).
    + destruct (S_ISDIR (st_mode sb)) eqn:Hdir; cbn [negb] in Hx.
      * apply ret_spec in Hx. destruct Hx as (-> & ->).
        apply bind_Some in Hrun.
        destruct Hrun as ([success c3] & p4 & Hx & Hrun).
        apply ret_spec in Hx. destruct Hx as (Hy & ->).
        apply ret_spec in Hrun. destruct Hrun as (Hz & ->).
        inversion Hy; subst. left. apply (Haccept a); auto.
        intros sb' Hsb. rewrite Hr2 in Hsb. inversion Hsb; subst.
        exact Hdir.
      * apply ret_spec in Hx. destruct Hx as (-> & ->).
        apply bind_Some in Hrun.
        destruct Hrun as ([success c3] & p4 & Hx & Hrun).
        apply ret_spec in Hrun. destruct Hrun as (Hy & ->).
        apply bind_Some in Hx. destruct Hx as ([ok1 c1] & q1 & Hattrs & Hx).
        apply bind_Some in Hx.
        destruct Hx as ([ok2 c2] & q2 & Hxattrs & Hx).
        apply ret_spec in Hx. destruct Hx as (Hz & ->).
        inversion Hz; subst. inversion Hy; subst.
        right. split; [reflexivity|].
        eexists [e1; e2], _, p2', ok1, c1, q1, ok2.
        split; [rewrite Ht2, Ht1, <- app_assoc; reflexivity|].
        split; [right; exists e1, e2, sb; auto 8|].
        split; [apply same_but_msg_set|].
        split; [exact Hattrs | exact Hxattrs].
Qed.

(** X12: the pre-order hook of a directory answers either [FTS_OK] or
    skip and fail together, nothing else. It answers [FTS_OK], leaving the
    object as it was, after a [mkdir] of the current target path that went
    well or found the path taken, and a [stat] of it that shows a
    directory or fails: a target that cannot be examined is taken for a
    directory. Otherwise it has set the message, and it runs both
    attribute steps on the current target path although no directory is
    there, the second whatever the first returned. *)
Theorem directory_pre_accepts_or_skips {K : Type} `{Kernel K}
    (c : copier) (p : proc K) (a : Z) (c' : copier) (p' : proc K) :
  on_reached_directory_pre c p = Some ((a, c'), p') ->
  (a = FTS_OK /\ c' = c /\
   exists evs, p_trace p' = p_trace p ++ evs /\ directory_accepted c evs) \/
  (a = Z.lor FTS_Skip FTS_Fail /\
   exists head cm pm ok1 c1 p1 ok2,
     p_trace pm = p_trace p ++ head /\ directory_refused c head /\
     same_but_msg c cm /\
     cp_attrs cm pm = Some ((ok1, c1), p1) /\
     cp_xattrs c1 p1 = Some ((ok2, c'), p')).
Proof. apply directory_pre_outcome. Qed.

Lemma directory_pre_accepts_or_skips_witness :
  (3 = FTS_OK /\
   set_error_msg ex_plain_dir_copier
     (fmt_format "%s: Exists but is not a directory" [ArgStr "/b/a/d1"])
   = ex_plain_dir_copier /\
   exists evs,
     [mkevent (SysMkdir "/b/a/d1" 511) 18 (inl EEXIST);
      mkevent (SysStat "/b/a/d1") 18 (inr (VStat (ex_file_stat 30)))]
       = [] ++ evs /\
     directory_accepted ex_plain_dir_copier evs) \/
  (3 = Z.lor FTS_Skip FTS_Fail /\
   exists head cm pm ok1 c1 p1 ok2,
     p_trace pm = [] ++ head /\
     directory_refused ex_plain_dir_copier head /\
     same_but_msg ex_plain_dir_copier cm /\
     cp_attrs cm pm = Some ((ok1, c1), p1) /\
     cp_xattrs c1 p1
       = Some ((ok2,
                set_error_msg ex_plain_dir_copier
                  (fmt_format "%s: Exists but is not a directory"
                              [ArgStr "/b/a/d1"])),
               mkproc (K:=script) 18 EEXIST []
                 [mkevent (SysMkdir "/b/a/d1" 511) 18 (inl EEXIST);
                  mkevent (SysStat "/b/a/d1") 18
                          (inr (VStat (ex_file_stat 30)))])).
Proof.
  apply (directory_pre_accepts_or_skips (K:=script) ex_plain_dir_copier
           (start [answer (inl EEXIST);
                   answer (inr (VStat (ex_file_stat 30)))])
           3
           (set_error_msg ex_plain_dir_copier
              (fmt_format "%s: Exists but is not a directory"
                          [ArgStr "/b/a/d1"]))
           (mkproc 18 EEXIST []
              [mkevent (SysMkdir "/b/a/d1" 511) 18 (inl EEXIST);
               mkevent (SysStat "/b/a/d1") 18
                       (inr (VStat (ex_file_stat 30)))])).
  reflexivity.
Defined.

(** X13: the post-order hook of a directory makes no call but those of
    the attribute steps that the flags ask for, on the current source and
    target paths; it answers [FTS_OK], leaving the object as it was, or
    [FTS_Fail], having changed the message only. Unlike the pre-order
    hook it stops at the first step that fails: when [cp_attrs] fails,
    [cp_xattrs] is not run. *)
Theorem directory_post_applies_attributes {K : Type} `{Kernel K}
    (c : copier) (p : proc K) (a : Z) (c' : copier) (p' : proc K) :
  on_reached_directory_post c p = Some ((a, c'), p') ->
  p_umask p' = p_umask p /\
  hook_outcome c (a, c') /\
  (exists evs,
     p_trace p' = p_trace p ++ evs /\
     Forall (fun e => attr_call (_copyflags c) (fts_accpath (_curr c))
                                (_curtgtpath c) (ev_call e)) evs) /\
  (forall c1 p1,
     cp_attrs c p = Some ((false, c1), p1) ->
     a = FTS_Fail /\ c' = c1 /\ p' = p1).
Proof.
  unfold on_reached_directory_post. intros Hrun.
  pose proof (calls_attr_finish c p (a, c') p' Hrun)
    as (Hq & Hu & evs & Ht & Hall).
  split; [exact Hu|]. split; [exact Hq|]. split.
  - exists evs. split; [exact Ht|].
    eapply Forall_impl; [|exact Hall]. intros e (He & _). exact He.
  - intros c1 p1 Hattrs. unfold finish_node in Hrun.
    rewrite (bind_eq _ _ _ _ _ Hattrs) in Hrun. simpl in Hrun.
    apply ret_spec in Hrun. destruct Hrun as (Hx & ->).
    inversion Hx; subst. auto.
Qed.

Lemma directory_post_applies_attributes_witness :
  exists evs,
    [mkevent (SysLstat "/a/d1") 18 (inl 13)] = [] ++ evs /\
    Forall (fun e => attr_call 3 "/a/d1" "/b/a/d1" (ev_call e)) evs.
Proof.
  destruct (directory_post_applies_attributes (K:=script)
              (mkcopier 3 "/a" "/b" (ex_dir_stat 20) "/b/a/d1" no_message
                        (ex_ent "/a/d1" "d1" (ex_dir_stat 12))
                        (ex_ent "/a" "a" (ex_dir_stat 10)))
              (start [answer (inl 13)]) FTS_Fail
              (set_error_msg
                 (mkcopier 3 "/a" "/b" (ex_dir_stat 20) "/b/a/d1" no_message
                           (ex_ent "/a/d1" "d1" (ex_dir_stat 12))
                           (ex_ent "/a" "a" (ex_dir_stat 10)))
                 (fmt_format "%s: Failed to copy attributes: %s"
                             [ArgStr "/b/a/d1"; ArgStrerror 13]))
              (mkproc 18 13 [] [mkevent (SysLstat "/a/d1") 18 (inl 13)]))
    as (_ & _ & Hcalls & _).
  - reflexivity.
  - exact Hcalls.
Defined.

(** X14: no per-type hook asks the walk to stop: whatever the kernel
    answers, each of the eight hooks returns [FTS_OK], [FTS_Fail],
    [FTS_Skip], or skip and fail together, and leaves the mask and the
    object, but for its message, as they were. *)
Theorem hooks_never_stop {K : Type} `{Kernel K}
    (fuel : nat) (hook : copier -> M K (Z * copier))
    (c : copier) (p : proc K) (a : Z) (c' : copier) (p' : proc K) :
  In hook (node_hooks fuel) ->
  hook c p = Some ((a, c'), p') ->
  (a = FTS_OK \/ a = FTS_Fail \/ a = FTS_Skip \/
   a = Z.lor FTS_Skip FTS_Fail) /\
  has_flag a FTS_Stop = false /\
  same_but_msg c c'.
Proof.
  intros Hin Hrun.
  assert (Hout : forall b, hook_outcome c (b, c') ->
            (b = FTS_OK \/ b = FTS_Fail \/ b = FTS_Skip \/
             b = Z.lor FTS_Skip FTS_Fail) /\
            has_flag b FTS_Stop = false /\ same_but_msg c c').
  { intros b [(Hb & Hc) | (Hb & Hc)]; simpl in Hb, Hc; subst.
    - repeat split; auto. apply same_but_msg_refl.
    - repeat split; auto. }
  assert (Hcreate : In hook (creating_hooks fuel) ->
            hook_outcome c (a, c')).
  { intros Hin'.
    destruct (creating_hook_tail c fuel hook Hin') as (tail & Hshape & Htail).
    rewrite Hshape in Hrun.
    apply bind_Some in Hrun. destruct Hrun as ([ok c1] & p1 & Hrm & Hrun).
    apply remove_existing_file_outcome in Hrm.
    destruct Hrm as (_ & e1 & _ & _ & _ & Hyes & Hno).
    destruct ok; simpl in Hrun.
    - destruct (Hyes eq_refl) as (-> & _).
      apply Htail in Hrun. destruct Hrun as (Hq & _). exact Hq.
    - destruct (Hno eq_refl) as (Hsame & _).
      apply ret_spec in Hrun. destruct Hrun as (Hx & _).
      inversion Hx; subst. right. auto. }
  simpl in Hin.
  destruct Hin as [<- | [<- | [<- | [<- | [<- | [<- | [<- | [<- | []]]]]]]]].
  - apply directory_pre_outcome in Hrun.
    destruct Hrun as [(-> & -> & _)
      | (-> & head & cm & pm & ok1 & c1 & p1 & ok2 & _ & _ & Hcm & Ha & Hx)].
    + repeat split; auto. apply same_but_msg_refl.
    + repeat split; auto.
      apply (calls_cp_attrs cm) in Ha. destruct Ha as (Ha & _).
      assert (H1 : same_but_msg cm c1).
      { destruct Ha as [(_ & Hc) | (_ & Hc)]; simpl in Hc;
          [subst; apply same_but_msg_refl | exact Hc]. }
      apply (calls_cp_xattrs c1) in Hx. destruct Hx as (Hx & _).
      assert (H2 : same_but_msg c1 c').
      { destruct Hx as [(_ & Hc) | (_ & Hc)]; simpl in Hc;
          [subst; apply same_but_msg_refl | exact Hc]. }
      eapply same_but_msg_trans; [exact Hcm|].
      eapply same_but_msg_trans; eassumption.
  - apply Hout. apply (calls_attr_finish c p (a, c') p' Hrun).
  - apply Hout, Hcreate. simpl. auto.
  - apply Hout, Hcreate. simpl. auto.
  - apply Hout, Hcreate. simpl. auto.
  - apply Hout, Hcreate. simpl. auto.
  - apply Hout, Hcreate. simpl. auto 6.
  - unfold on_reached_socket in Hrun. apply ret_spec in Hrun.
    destruct Hrun as (Hx & _). inversion Hx; subst.
    repeat split; auto. apply same_but_msg_refl.
Qed.

Lemma hooks_never_stop_witness :
  (FTS_Skip = FTS_OK \/ FTS_Skip = FTS_Fail \/ FTS_Skip = FTS_Skip \/
   FTS_Skip = Z.lor FTS_Skip FTS_Fail) /\
  has_flag FTS_Skip FTS_Stop = false /\
  same_but_msg ex_plain_dir_copier ex_plain_dir_copier.
Proof.
  apply (hooks_never_stop (K:=script) 10 on_reached_socket
           ex_plain_dir_copier (start []) FTS_Skip ex_plain_dir_copier
           (start [])).
  - simpl. auto 10.
  - reflexivity.
Defined.

(** ** Before the walk, and between the nodes *)

(** X15: [on_pre_execute] refuses [MB_COPY_FOLLOW_SYMLINKS] before it
    calls anything. Otherwise it calls nothing but [mkdir] of the target,
    with all nine permission bits, and [stat] of the target, once each at
    most and in this order. It returns success only when the [mkdir] went
    well or found the path taken and the [stat] shows a directory, whose
    [stat] is then recorded in [sb_target]. Whatever it returns, it has
    changed nothing of the object but [sb_target] and the message. *)
Theorem on_pre_execute_prepares_target {K : Type} `{Kernel K}
    (c : copier) (p : proc K) (ok : bool) (c' : copier) (p' : proc K) :
  on_pre_execute c p = Some ((ok, c'), p') ->
  same_but_target_stat c c' /\
  p_umask p' = p_umask p /\
  (flag_set (_copyflags c) MB_COPY_FOLLOW_SYMLINKS = true ->
   ok = false /\ p' = p) /\
  exists evs,
    p_trace p' = p_trace p ++ evs /\
    (ok = true ->
     flag_set (_copyflags c) MB_COPY_FOLLOW_SYMLINKS = false /\
     target_ready c evs (sb_target c') /\
     c' = set_sb_target c (sb_target c')) /\
    (ok = false ->
     evs = [] \/
     (exists e1, evs = [e1] /\ ev_call e1 = SysMkdir (_target c) 511) \/
     (exists e1 e2, evs = [e1; e2] /\
        ev_call e1 = SysMkdir (_target c) 511 /\
        ev_call e2 = SysStat (_target c))).
Proof.
  unfold on_pre_execute. intros Hrun.
  destruct (flag_set (_copyflags c) MB_COPY_FOLLOW_SYMLINKS) eqn:Hflag.
  { apply ret_spec in Hrun. destruct Hrun as (Hx & ->).
    inversion Hx; subst.
    split; [destruct c; reflexivity|]. split; [reflexivity|].
    split; [auto|]. exists []. rewrite app_nil_r.
    split; [reflexivity|]. split; [discriminate | auto]. }
  change (Z.lor S_IRWXU (Z.lor S_IRWXG S_IRWXO)) with 511 in Hrun.
  apply bind_Some in Hrun. destruct Hrun as (r & p1 & Hmk & Hrun).
  apply bind_Some in Hrun. destruct Hrun as (e & p1' & Hget & Hrun).
  apply get_errno_spec in Hget. destruct Hget as (-> & ->).
  pose proof Hmk as Hmk'. apply sys_status_spec in Hmk'.
  destruct Hmk' as (r0 & (_ & Hu1 & _) & _).
  apply mkdir_outcome in Hmk.
  destruct Hmk as (e1 & Ht1 & Hc1 & Hbad & Hgood).
  destruct (is_err r && negb (p_errno p1 =? EEXIST)) eqn:Hcond.
  { apply bind_Some in Hrun. destruct Hrun as (cm & p2 & Hfail & Hrun).
    apply ret_spec in Hrun. destruct Hrun as (Hx & ->).
    rewrite fail_with_eq in Hfail. inversion Hfail; subst cm p2.
    inversion Hx; subst.
    split; [destruct c; reflexivity|]. split; [exact Hu1|].
    split; [discriminate|]. exists [e1].
    split; [exact Ht1|]. split; [discriminate|].
    intros _. right; left. eauto. }
  pose proof (Hgood eq_refl) as Hfine. clear Hbad Hgood.
  apply bind_Some in Hrun. destruct Hrun as (r2 & p2 & Hstat & Hrun).
  pose proof Hstat as Hstat'. apply sys_stat_like_spec in Hstat'.
  destruct Hstat' as (r3 & (_ & Hu2 & _) & _).
  apply stat_outcome in Hstat. destruct Hstat as (e2 & Ht2 & Hc2 & Hr2).
  assert (Htrace : p_trace p2 = p_trace p ++ [e1; e2])
    by (rewrite Ht2, Ht1, <- app_assoc; reflexivity).
  destruct r2 as [e|sb].
  { apply bind_Some in Hrun. destruct Hrun as (cm & p3 & Hfail & Hrun).
    apply ret_spec in Hrun. destruct Hrun as (Hx & ->).
    rewrite fail_with_eq in Hfail. inversion Hfail; subst cm p3.
    inversion Hx; subst.
    split; [destruct c; reflexivity|]. split; [congruence|].
    split; [discriminate|]. exists [e1; e2].
    split; [exact Htrace|]. split; [discriminate|].
    intros _. right; right. eauto. }
  destruct (S_ISDIR (st_mode sb)) eqn:Hdir; cbn [negb] in Hrun;
    apply ret_spec in Hrun; destruct Hrun as (Hx & ->);
    inversion Hx; subst.
  - split; [destruct c; reflexivity|]. split; [congruence|].
    split; [discriminate|]. exists [e1; e2].
    split; [exact Htrace|]. split; [|discriminate].
    intros _. split; [reflexivity|]. split; [|reflexivity].
    exists e1, e2. simpl. auto 8.
  - split; [destruct c; reflexivity|]. split; [congruence|].
    split; [discriminate|]. exists [e1; e2].
    split; [exact Htrace|]. split; [discriminate|].
    intros _. right; right. eauto.
Qed.

Lemma on_pre_execute_prepares_target_witness :
  exists evs,
    [mkevent (SysMkdir "/b" 511) 18 (inl EEXIST);
     mkevent (SysStat "/b") 18 (inr (VStat (ex_dir_stat 20)))]
      = [] ++ evs /\
    target_ready ex_plain_dir_copier evs (ex_dir_stat 20).
Proof.
  destruct (on_pre_execute_prepares_target (K:=script)
              (set_sb_target ex_plain_dir_copier (mkstat 0 0 0 0 0 0))
              (start [answer (inl EEXIST);
                      answer (inr (VStat (ex_dir_stat 20)))])
              true ex_plain_dir_copier
              (mkproc 18 EEXIST []
                 [mkevent (SysMkdir "/b" 511) 18 (inl EEXIST);
                  mkevent (SysStat "/b") 18
                          (inr (VStat (ex_dir_stat 20)))]))
    as (_ & _ & _ & evs & Ht & Hok & _).
  - reflexivity.
  - exists evs. split; [exact Ht|]. apply Hok. reflexivity.
Defined.

Lemma string_app_assoc (a b d : string) :
  ((a ++ b) ++ d = a ++ b ++ d)%string.
Proof. induction a as [|ch a IH]; simpl; [|rewrite IH]; reflexivity. Qed.

Lemma string_app_nil_r (a : string) : (a ++ "" = a)%string.
Proof. induction a as [|ch a IH]; simpl; [|rewrite IH]; reflexivity. Qed.

(** X16: when the current node is not the recorded target,
    [on_changed_path] answers [FTS_OK] and sets the current target path
    to the target, then a separator or nothing, then (unless
    [MB_COPY_EXCLUDE_TOP_LEVEL] is set) the name of the root and a
    separator or nothing, then the path of the node relative to the
    source: every path the hooks write to begins with the target. It
    changes nothing else of the object, and the path it computes does not
    depend on the path or the message of the node before. *)
Theorem on_changed_path_stays_under_target (c : copier) :
  same_file (sb_target c) (fts_statp (_curr c)) = false ->
  fst (on_changed_path c) = FTS_OK /\
  snd (on_changed_path c)
    = set_curtgtpath c (_curtgtpath (snd (on_changed_path c))) /\
  (exists s1 s2,
     opt_slash s1 /\ opt_slash s2 /\
     _curtgtpath (snd (on_changed_path c))
     = (_target c
        ++ (if flag_set (_copyflags c) MB_COPY_EXCLUDE_TOP_LEVEL then ""
            else s1 ++ c_str (fts_name (_root c)))
        ++ s2 ++ relative_path c)%string) /\
  (forall path m,
     _curtgtpath (snd (on_changed_path (set_curtgtpath (set_error_msg c m)
                                                       path)))
     = _curtgtpath (snd (on_changed_path c))).
Proof.
  intros Hsame. unfold same_file in Hsame. unfold on_changed_path.
  assert (Hsame' : forall path m,
            (st_dev (sb_target (set_curtgtpath (set_error_msg c m) path))
               =? st_dev (fts_statp (_curr (set_curtgtpath
                                              (set_error_msg c m) path))))
            && (st_ino (sb_target (set_curtgtpath (set_error_msg c m) path))
                  =? st_ino (fts_statp (_curr (set_curtgtpath
                                                 (set_error_msg c m) path))))
            = false) by (intros; exact Hsame).
  rewrite Hsame. cbn [fst snd].
  split; [reflexivity|]. split; [destruct c; reflexivity|]. split.
  - fold (relative_path c).
    destruct (flag_set (_copyflags c) MB_COPY_EXCLUDE_TOP_LEVEL);
      cbn [negb].
    + destruct (negb (Ascii.eqb (back (_target c)) slash)
                && negb (Ascii.eqb (front (relative_path c)) slash)
                && negb (Ascii.eqb (front (relative_path c)) NUL)).
      * exists "", "/". split; [left; reflexivity|].
        split; [right; reflexivity|]. cbn [_curtgtpath set_curtgtpath].
        rewrite string_app_assoc. reflexivity.
      * exists "", "". split; [left; reflexivity|].
        split; [left; reflexivity|]. reflexivity.
    + destruct (negb (Ascii.eqb (back (_target c)) slash));
        match goal with
        | |- context [if ?b then _ else _] => destruct b
        end; cbn [_curtgtpath set_curtgtpath].
      * exists "/", "/". split; [right; reflexivity|].
        split; [right; reflexivity|].
        rewrite !string_app_assoc. reflexivity.
      * exists "/", "". split; [right; reflexivity|].
        split; [left; reflexivity|].
        rewrite !string_app_assoc. reflexivity.
      * exists "", "/". split; [left; reflexivity|].
        split; [right; reflexivity|].
        rewrite !string_app_assoc. reflexivity.
      * exists "", "". split; [left; reflexivity|].
        split; [left; reflexivity|].
        rewrite !string_app_assoc. reflexivity.
  - intros path m. rewrite Hsame'. destruct c; reflexivity.
Qed.

Lemma on_changed_path_stays_under_target_witness :
  _curtgtpath (snd (on_changed_path (ex_hook_copier 0))) = "/b/a/f1" /\
  _curtgtpath
    (snd (on_changed_path (set_curtgtpath
                             (set_error_msg (ex_hook_copier 0) no_message)
                             "/elsewhere")))
    = _curtgtpath (snd (on_changed_path (ex_hook_copier 0))).
Proof.
  destruct (on_changed_path_stays_under_target (ex_hook_copier 0))
    as (_ & _ & _ & Hindep); [reflexivity|].
  split; [reflexivity | apply Hindep].
Defined.

(** ** Extended attributes, value by value *)

Lemma subseq_refl_nil {A} (l : list A) : subseq [] l.
Proof. induction l; constructor; assumption. Qed.

Lemma unfilled_value_length n :
  0 <= n -> Z.of_nat (List.length (unfilled_value n)) = n.
Proof.
  intros Hn. unfold unfilled_value. rewrite repeat_length. lia.
Qed.

Lemma nul_string_length n : String.length (nul_string n) = n.
Proof. induction n as [|n IH]; simpl; congruence. Qed.

Lemma unfilled_names_length n :
  0 <= n -> Z.of_nat (String.length (unfilled_names n)) = n.
Proof.
  intros Hn. unfold unfilled_names. rewrite nul_string_length. lia.
Qed.

Section XattrValues.
Context {K : Type} `{Kernel K}.

Lemma copy_xattrs_loop_values source target names :
  forall (p : proc K) ok p' prev2 prev1,
    copy_xattrs_loop source target names p = Some (ok, p') ->
    exists evs,
      p_trace p' = p_trace p ++ evs /\
      sets_follow_gets source target prev2 prev1 evs /\
      subseq (set_names evs) names /\
      Forall (fun name => name <> "") (set_names evs).
Proof.
  induction names as [|name rest IH]; intros p ok p' prev2 prev1 Hrun.
  - apply ret_spec in Hrun. destruct Hrun as (_ & ->).
    exists []. rewrite app_nil_r. repeat split; constructor.
  - simpl in Hrun. destruct (String.eqb name "") eqn:Hname.
    { destruct (IH _ _ _ prev2 prev1 Hrun) as (evs & Ht & Hsf & Hsub & Hne).
      exists evs. repeat split; auto. constructor. exact Hsub. }
    apply String.eqb_neq in Hname.
    apply bind_Some in Hrun. destruct Hrun as (r1 & p1 & Hgs & Hrun).
    apply sys_int_spec in Hgs. destruct Hgs as (a1 & (_ & _ & Ht1) & Hr1).
    set (e1 := mkevent (SysLgetxattr source name 0) (p_umask p) a1) in *.
    destruct r1 as [err|size].
    { destruct (IH _ _ _ prev1 (Some e1) Hrun)
        as (evs & Ht & Hsf & Hsub & Hne).
      exists (e1 :: evs).
      split; [rewrite Ht, Ht1, <- app_assoc; reflexivity|].
      split; [simpl; auto|]. split; [constructor; exact Hsub | exact Hne]. }
    destruct Hr1 as (Ha1 & Hsize).
    apply bind_Some in Hrun. destruct Hrun as (r2 & p2 & Hg & Hrun).
    apply lgetxattr_spec in Hg. destruct Hg as (a2 & (_ & Hu2 & Ht2) & Hr2).
    set (e2 := mkevent (SysLgetxattr source name size) (p_umask p1) a2) in *.
    destruct r2 as [err|value].
    { destruct (IH _ _ _ (Some e1) (Some e2) Hrun)
        as (evs & Ht & Hsf & Hsub & Hne).
      exists (e1 :: e2 :: evs).
      split; [rewrite Ht, Ht2, Ht1, <- !app_assoc; reflexivity|].
      split; [simpl; auto|]. split; [constructor; exact Hsub | exact Hne]. }
    assert (Htaken : value_taken source name e1 e2 value).
    { exists size. split; [reflexivity|]. split; [exact Ha1|].
      split; [exact Hsize|]. split; [reflexivity|].
      destruct Hr2 as [(Hz & n & Ha2 & Hn & Hv) | (Hnz & Ha2 & Hfit)].
      - right. split; [exact Hz|]. exists n.
        split; [exact Ha2|]. split; [exact Hn|].
        rewrite Hv. apply unfilled_value_length, Hn.
      - left. split; [lia|]. split; [exact Ha2 | exact Hfit]. }
    apply bind_Some in Hrun. destruct Hrun as (r3 & p3 & Hs & Hrun).
    apply sys_status_spec in Hs. destruct Hs as (a3 & (_ & _ & Ht3) & _).
    set (e3 := mkevent (SysLsetxattr target name value 0) (p_umask p2) a3)
      in *.
    assert (Hset : match ev_call e3 with
                   | SysLsetxattr path name0 value0 flags =>
                       path = target /\ flags = 0 /\
                       exists g1 g2,
                         Some e1 = Some g1 /\ Some e2 = Some g2 /\
                         value_taken source name0 g1 g2 value0
                   | _ => True
                   end).
    { simpl. split; [reflexivity|]. split; [reflexivity|].
      exists e1, e2. auto. }
    assert (Hend : p' = p3 ->
              exists evs,
                p_trace p' = p_trace p ++ evs /\
                sets_follow_gets source target prev2 prev1 evs /\
                subseq (set_names evs) (name :: rest) /\
                Forall (fun name0 => name0 <> "") (set_names evs)).
    { intros ->. exists [e1; e2; e3].
      split; [rewrite Ht3, Ht2, Ht1, <- !app_assoc; reflexivity|].
      split; [simpl; auto|].
      split; [constructor; apply subseq_refl_nil|].
      repeat constructor. exact Hname. }
    destruct r3 as [err|[]].
    + apply bind_Some in Hrun. destruct Hrun as (e & p4 & Hget & Hrun).
      apply get_errno_spec in Hget. destruct Hget as (-> & ->).
      destruct (_ =? _); apply ret_spec in Hrun; destruct Hrun as (_ & Hp);
        apply Hend, Hp.
    + destruct (IH _ _ _ (Some e2) (Some e3) Hrun)
        as (evs & Ht & Hsf & Hsub & Hne).
      exists (e1 :: e2 :: e3 :: evs).
      split; [rewrite Ht, Ht3, Ht2, Ht1, <- !app_assoc; reflexivity|].
      split; [simpl; auto|].
      split; [constructor; exact Hsub | constructor; assumption].
Qed.

Lemma copy_xattrs_values source target (p : proc K) ok p' :
  copy_xattrs source target p = Some (ok, p') ->
  exists evs, p_trace p' = p_trace p ++ evs /\
              copy_xattrs_calls source target evs.
Proof.
  unfold copy_xattrs. intros Hrun.
  apply bind_Some in Hrun. destruct Hrun as (r1 & p1 & Hl1 & Hrun).
  apply sys_int_spec in Hl1. destruct Hl1 as (a1 & (_ & _ & Ht1) & Hr1).
  set (e1 := mkevent (SysLlistxattr source 0) (p_umask p) a1) in *.
  destruct r1 as [err|size].
  { apply bind_Some in Hrun. destruct Hrun as (e & p2 & Hget & Hrun).
    apply get_errno_spec in Hget. destruct Hget as (-> & ->).
    exists [e1]. split.
    - destruct (_ =? _); apply ret_spec in Hrun; destruct Hrun as (_ & ->);
        exact Ht1.
    - exists e1. split; [reflexivity | left; reflexivity]. }
  destruct Hr1 as (Ha1 & Hsize).
  apply bind_Some in Hrun. destruct Hrun as (r2 & p2 & Hl2 & Hrun).
  apply llistxattr_spec in Hl2. destruct Hl2 as (a2 & (_ & _ & Ht2) & Hr2).
  set (e2 := mkevent (SysLlistxattr source size) (p_umask p1) a2) in *.
  destruct r2 as [err|listing].
  { apply ret_spec in Hrun. destruct Hrun as (_ & ->).
    exists [e1; e2]. split; [rewrite Ht2, Ht1, <- app_assoc; reflexivity|].
    exists e1. split; [reflexivity|]. right; left. exists e2, size. auto. }
  destruct (copy_xattrs_loop_values _ _ _ _ _ _ (Some e1) (Some e2) Hrun)
    as (evs & Ht & Hsf & Hsub & Hne).
  exists (e1 :: e2 :: evs).
  split; [rewrite Ht, Ht2, Ht1, <- !app_assoc; reflexivity|].
  exists e1. split; [reflexivity|]. right; right. exists e2, evs, listing.
  split; [reflexivity|]. split; [|auto].
  exists size. split; [reflexivity|]. split; [exact Ha1|].
  split; [exact Hsize|]. split; [reflexivity|].
  destruct Hr2 as [(Hz & n & Ha2 & Hn & Hv) | (Hnz & Ha2 & Hfit)].
  - right. split; [exact Hz|]. exists n.
    split; [exact Ha2|]. split; [exact Hn|].
    rewrite Hv. apply unfilled_names_length, Hn.
  - left. split; [lia|]. split; [exact Ha2 | exact Hfit].
Qed.
End XattrValues.

(** X17: where the values that [copy_xattrs] sets come from. It probes
    for the size of the list of names, then asks for the list with a
    buffer of that size. Every [lsetxattr] it then makes is on the
    target, with flags 0, under a name of the list taken that is not
    empty, in the order of the list, and directly after the two calls of
    [lgetxattr] on the source for this name. When the probe answered a
    size that is not 0, the value set is exactly the value the second
    call fetched, and it fits. When the probe answered 0, the second
    call has no buffer and is a probe again: the value set has the length
    this call answered but was never fetched, so that an attribute that
    has grown in between is set from bytes behind an empty buffer. The
    same holds of the list of names after a probe that answered 0. *)
Theorem copy_xattrs_value_provenance {K : Type} `{Kernel K}
    (source target : string) (p : proc K) (ok : bool) (p' : proc K) :
  copy_xattrs source target p = Some (ok, p') ->
  exists evs, p_trace p' = p_trace p ++ evs /\
              copy_xattrs_calls source target evs.
Proof. apply copy_xattrs_values. Qed.

Lemma copy_xattrs_value_provenance_witness :
  exists ok p' evs,
    copy_xattrs "/s" "/t" (start ex_grown_xattr_script) = Some (ok, p') /\
    p_trace p' = [] ++ evs /\
    calls evs =
      [ SysLlistxattr "/s" 0; SysLlistxattr "/s" 7;
        SysLgetxattr "/s" "user.a" 0; SysLgetxattr "/s" "user.a" 0;
        SysLsetxattr "/t" "user.a" (unfilled_value 1) 0 ] /\
    copy_xattrs_calls "/s" "/t" evs.
Proof.
  destruct (copy_xattrs "/s" "/t" (start ex_grown_xattr_script))
    as [[ok p']|] eqn:Hrun; [|vm_compute in Hrun; discriminate].
  destruct (copy_xattrs_value_provenance (K:=script) _ _ _ _ _ Hrun)
    as (evs & Ht & Hcalls).
  exists ok, p', evs. split; [reflexivity|]. split; [exact Ht|].
  split; [|exact Hcalls].
  vm_compute in Hrun. inversion Hrun; subst. simpl in Ht.
  inversion Ht; subst. reflexivity.
Defined.

Lemma c_str_fixed_cons ch n :
  c_str (String ch n) = String ch n ->
  Ascii.eqb ch NUL = false /\ c_str n = n.
Proof.
  simpl. destruct (Ascii.eqb ch NUL); [discriminate|].
  intros Heq. inversion Heq as [Hn]. rewrite Hn. auto.
Qed.

Lemma split_names_plain n :
  c_str n = n ->
  forall cur rest,
    split_names cur (n ++ rest) = split_names (cur ++ n) rest.
Proof.
  induction n as [|ch n IH]; intros Hplain cur rest.
  - rewrite string_app_nil_r. reflexivity.
  - apply c_str_fixed_cons in Hplain. destruct Hplain as (Hch & Hn).
    simpl. rewrite Hch, (IH Hn), string_app_assoc. reflexivity.
Qed.

(** X18: the loop of [copy_xattrs] steps through exactly the names that
    the kernel listed, in the order listed: cutting the buffer that holds
    each name followed by its NUL gives the names back, the empty ones
    (which the loop then steps over) included. *)
Theorem split_names_round_trip (names : list string) :
  Forall (fun name => c_str name = name) names ->
  split_names "" (names_buffer names) = names.
Proof.
  induction 1 as [|name rest Hname _ IH]; [reflexivity|].
  simpl. rewrite (split_names_plain name Hname). simpl.
  rewrite ?Ascii.eqb_refl, IH. reflexivity.
Qed.

Lemma split_names_round_trip_witness :
  split_names "" (names_buffer ["user.a"; ""; "security.selinux"])
  = ["user.a"; ""; "security.selinux"].
Proof.
  apply (split_names_round_trip ["user.a"; ""; "security.selinux"]).
  repeat constructor.
Defined.

(** ** What the hooks create *)

(** X19: a recursive copy does not write into a file it did not create.
    On a kernel that honours [O_EXCL], if something is at the current
    target path when [on_reached_file] comes to create the target (put
    there after the hook removed the old one), the hook opens nothing
    there: it closes the source, answers [FTS_Fail] with the message that
    the data could not be copied, and runs no attribute step. *)
Theorem recursive_copy_never_overwrites {K : Type} `{Kernel K}
    (fuel : nat) (c : copier) (p p1 p2 : proc K) (fd_source : Z) :
  honours_O_EXCL K ->
  remove_existing_file c p = Some ((true, c), p1) ->
  open (fts_accpath (_curr c)) O_RDONLY 0 p1 = Some (inr fd_source, p2) ->
  entry_exists (_curtgtpath c) p2 ->
  exists p',
    on_reached_file fuel c p
      = Some ((FTS_Fail,
               set_error_msg c
                 (fmt_format "%s: Failed to copy data: %s"
                    [ArgStr (_curtgtpath c); ArgStrerror (p_errno p')])),
              p') /\
    calls (skipn (List.length (p_trace p)) (p_trace p'))
    = [ SysUnlink (_curtgtpath c);
        SysOpen (fts_accpath (_curr c)) O_RDONLY 0;
        SysOpen (_curtgtpath c) CREATE_FLAGS 438;
        SysClose fd_source ].
Proof.
  intros Hexcl Hrm Hsrc Hexists.
  destruct (copy_data_refused Hexcl fuel _ _ p1 p2 fd_source Hsrc Hexists)
    as (e & p3 & p' & _ & Hcopy & _ & Hcalls).
  exists p'. split.
  - unfold on_reached_file. rewrite (bind_eq _ _ _ _ _ Hrm). cbn [negb].
    rewrite (bind_eq _ _ _ _ _ Hcopy). cbn [negb].
    unfold bind. rewrite fail_with_eq. reflexivity.
  - apply remove_existing_file_outcome in Hrm.
    destruct Hrm as (_ & e1 & Ht1 & Hc1 & _).
    pose proof (calls_copy_data fuel _ _ p1 false p' Hcopy)
      as (_ & _ & evs & Ht & _).
    rewrite Ht, skipn_app, skipn_all, Nat.sub_diag in Hcalls.
    simpl in Hcalls.
    rewrite Ht, Ht1, <- app_assoc, skipn_app, skipn_all, Nat.sub_diag.
    unfold calls. simpl. rewrite Hc1, Hcalls. reflexivity.
Qed.

Lemma recursive_copy_never_overwrites_witness :
  exists p',
    on_reached_file 10 (ex_hook_copier 0) (start ex_racy_hook_fs)
      = Some ((FTS_Fail,
               set_error_msg (ex_hook_copier 0)
                 (fmt_format "%s: Failed to copy data: %s"
                    [ArgStr "/b/a/f1"; ArgStrerror EEXIST])),
              p') /\
    calls (p_trace p')
    = [ SysUnlink "/b/a/f1"; SysOpen "/a/f1" O_RDONLY 0;
        SysOpen "/b/a/f1" CREATE_FLAGS 438; SysClose 3 ].
Proof.
  edestruct (recursive_copy_never_overwrites (K:=tinyfs) 10
               (ex_hook_copier 0) (start ex_racy_hook_fs))
    as (p' & Hrun & Hcalls).
  - exact tinyfs_honours_O_EXCL.
  - vm_compute. reflexivity.
  - vm_compute. reflexivity.
  - eexists _, _. vm_compute. reflexivity.
  - exists p'. split; [|exact Hcalls].
    rewrite Hrun. vm_compute in Hrun. inversion Hrun. reflexivity.
Defined.

(** X20: [on_reached_symlink] recreates a link with the contents of the
    source link. Once the old target is removed, it reads the whole of
    the contents, however long (below 2^62 characters), and calls
    [symlink] with exactly these contents for the current target path.
    If [symlink] fails, the hook answers [FTS_Fail] with its message and
    calls nothing more; if not, it goes on with the attribute steps. *)
Theorem on_reached_symlink_copies_contents {K : Type} `{Kernel K}
    (fuel : nat) (c : copier) (p p1 : proc K)
    (contents : string) (Inv : proc K -> Prop) :
  remove_existing_file c p = Some ((true, c), p1) ->
  link_holds (fts_accpath (_curr c)) contents Inv ->
  c_str contents = contents ->
  Z.of_nat (String.length contents) < 2 ^ 62 ->
  Inv p1 -> (64 <= fuel)%nat ->
  exists p2,
    readlink2 fuel (fts_accpath (_curr c)) p1 = Some (Some contents, p2) /\
    forall r p3,
      symlink contents (_curtgtpath c) p2 = Some (r, p3) ->
      (is_err r = true ->
       on_reached_symlink fuel c p
       = Some ((FTS_Fail,
                set_error_msg c
                  (fmt_format "%s: Failed to create symlink: %s"
                     [ArgStr (_curtgtpath c); ArgStrerror (p_errno p3)])),
               p3)) /\
      (is_err r = false ->
       on_reached_symlink fuel c p = finish_node c p3).
Proof.
  intros Hrm Hlink Hplain Hfit Hinv Hfuel.
  destruct (readlink2_whole _ contents Inv Hlink Hplain Hfit fuel p1
              Hinv Hfuel) as (p2 & Hread & _).
  exists p2. split; [exact Hread|].
  intros r p3 Hsym.
  assert (Hhook : on_reached_symlink fuel c p =
            (if is_err r
             then bind (fail_with c "%s: Failed to create symlink: %s"
                                  (_curtgtpath c))
                       (fun c' => ret (FTS_Fail, c'))
             else finish_node c) p3).
  { unfold on_reached_symlink. rewrite (bind_eq _ _ _ _ _ Hrm). cbn [negb].
    rewrite (bind_eq _ _ _ _ _ Hread), (bind_eq _ _ _ _ _ Hsym).
    reflexivity. }
  split; intros Hr; rewrite Hhook, Hr; [|reflexivity].
  unfold bind. rewrite fail_with_eq. reflexivity.
Qed.

Lemma ex_sym_hook_fs_holds :
  link_holds "/a/l" "/f" (fun q : proc symfs => p_kernel q = ex_sym_hook_fs).
Proof.
  intros q bufsiz Hq. unfold readlink, bind, syscall_raw. rewrite Hq.
  eexists. split; reflexivity.
Qed.

Lemma on_reached_symlink_copies_contents_witness :
  exists p',
    on_reached_symlink 64 ex_sym_hook_copier (start ex_sym_hook_fs)
      = Some ((FTS_OK, ex_sym_hook_copier), p') /\
    sym_link_at "/b/a/l" (p_kernel p') = Some "/f".
Proof.
  edestruct (on_reached_symlink_copies_contents (K:=symfs) 64
               ex_sym_hook_copier (start ex_sym_hook_fs)
               (mkproc 18 ENOENT ex_sym_hook_fs
                  [mkevent (SysUnlink "/b/a/l") 18 (inl ENOENT)])
               "/f" (fun q : proc symfs => p_kernel q = ex_sym_hook_fs))
    as (p2 & Hread & Hrun).
  - reflexivity.
  - exact ex_sym_hook_fs_holds.
  - reflexivity.
  - vm_compute. reflexivity.
  - reflexivity.
  - lia.
  - vm_compute in Hread. inversion Hread; subst p2; clear Hread.
    edestruct Hrun as (_ & Hok); [reflexivity|].
    eexists. split; [rewrite Hok; reflexivity | reflexivity].
Defined.

(** ** Where a tree copy writes *)

Lemma under_refl target : under target target.
Proof. exists "". symmetry. apply string_app_nil_r. Qed.

Lemma under_app target a rest : under target a -> under target (a ++ rest).
Proof.
  intros (r & ->). exists (r ++ rest)%string. apply string_app_assoc.
Qed.

(** The path [on_changed_path] computes begins with the target. *)
Lemma on_changed_path_under c :
  same_file (sb_target c) (fts_statp (_curr c)) = false ->
  under (_target c) (_curtgtpath (snd (on_changed_path c))).
Proof.
  unfold same_file, on_changed_path. intros ->. cbn [snd].
  cbn [_curtgtpath set_curtgtpath]. apply under_app.
  match goal with
  | |- context [if ?b then (?t ++ "/")%string else _] =>
      destruct b; [apply under_app|]
  end;
    (destruct (negb (flag_set (_copyflags c) MB_COPY_EXCLUDE_TOP_LEVEL));
     [apply under_app;
      destruct (negb (Ascii.eqb (back (_target c)) slash));
      [apply under_app|]; apply under_refl
     | apply under_refl]).
Qed.

Section Footprint.
Context {K : Type} `{Kernel K}.
Variable target : string.

Lemma hook_call_under c s :
  under target (_curtgtpath c) -> hook_call c s -> writes_under target s.
Proof.
  intros Hu [Hn | [(_ & Ho) | (_ & Hx)]]; destruct s; simpl in *;
    try exact I; try tauto;
    try (destruct Hn as [Hn | Hn]; [left; tauto | right]);
    try (destruct Hn as (-> & _)); try (destruct Ho as (-> & _));
    try (destruct Hx as (-> & _)); subst; auto.
Qed.

Lemma footprint_remove c :
  under target (_curtgtpath c) ->
  traced (writes_under target) (step_outcome c) (remove_existing_file c).
Proof.
  intros Hu. unfold remove_existing_file, unlink.
  apply (traced_bind _ any_result);
    [apply traced_sys_status; exact Hu | intros r _].
  apply (traced_bind _ any_result); [apply traced_get_errno | intros e _].
  destruct (_ && _); [apply step_fail | apply traced_ret; left; auto].
Qed.

Lemma step_outcome_result c (r : bool * copier) :
  step_outcome c r -> hook_result c r.
Proof.
  unfold hook_result. intros [(_ & ->) | (_ & Hs)];
    [apply same_but_msg_refl | exact Hs].
Qed.

Lemma hook_outcome_result c (r : Z * copier) :
  hook_outcome c r -> hook_result c r.
Proof.
  unfold hook_result. intros [(_ & ->) | (_ & Hs)];
    [apply same_but_msg_refl | exact Hs].
Qed.

Lemma attr_call_under c s :
  under target (_curtgtpath c) ->
  attr_call (_copyflags c) (fts_accpath (_curr c)) (_curtgtpath c) s ->
  writes_under target s.
Proof. intros Hu Hs. apply (hook_call_under c); [exact Hu | right; exact Hs]. Qed.

Lemma footprint_cp_attrs c :
  under target (_curtgtpath c) ->
  traced (writes_under target) (hook_result c) (cp_attrs c).
Proof.
  intros Hu. eapply traced_mono; [intros s; apply attr_call_under, Hu|].
  eapply traced_weaken; [apply calls_cp_attrs | apply step_outcome_result].
Qed.

Lemma footprint_cp_xattrs c :
  under target (_curtgtpath c) ->
  traced (writes_under target) (hook_result c) (cp_xattrs c).
Proof.
  intros Hu. eapply traced_mono; [intros s; apply attr_call_under, Hu|].
  eapply traced_weaken; [apply calls_cp_xattrs | apply step_outcome_result].
Qed.

Lemma footprint_creating fuel hook c :
  In hook (creating_hooks fuel) ->
  under target (_curtgtpath c) ->
  traced (writes_under target) (hook_result c) (hook c).
Proof.
  intros Hin Hu.
  destruct (creating_hook_tail c fuel hook Hin) as (tail & Hshape & Htail).
  eapply traced_ext; [exact Hshape|].
  apply (traced_bind _ (step_outcome c)); [apply footprint_remove, Hu|].
  intros [ok c1] [(Hok & Hc) | (Hok & Hc)]; simpl in Hok, Hc; subst; simpl.
  - eapply traced_mono; [intros s; apply hook_call_under, Hu|].
    eapply traced_weaken; [exact Htail | apply hook_outcome_result].
  - apply traced_ret. exact Hc.
Qed.

Lemma footprint_directory_pre c :
  under target (_curtgtpath c) ->
  traced (writes_under target) (hook_result c) (on_reached_directory_pre c).
Proof.
  intros Hu. unfold on_reached_directory_pre, mkdir, sys_stat.
  apply (traced_bind _ any_result);
    [apply traced_sys_status; exact Hu | intros r _].
  apply (traced_bind _ any_result); [apply traced_get_errno | intros e _].
  apply (traced_bind _ (hook_result c)).
  { destruct (_ && _).
    - apply traced_fail_ret, same_but_msg_refl.
    - apply traced_ret, same_but_msg_refl. }
  intros [[skip success] c1] H1. unfold hook_result in H1; simpl in H1.
  apply (traced_bind _ (hook_result c)).
  { destruct (negb skip); [|apply traced_ret; exact H1].
    apply (traced_bind _ any_result);
      [apply traced_sys_stat_like; exact I | intros r2 _].
    destruct r2 as [e2|sb]; [apply traced_ret; exact H1|].
    destruct (negb _); apply traced_ret; unfold hook_result; simpl.
    - eapply same_but_msg_trans; [exact H1 | apply same_but_msg_set].
    - exact H1. }
  intros [[skip2 success2] c2] H2. unfold hook_result in H2; simpl in H2.
  assert (Hu2 : under target (_curtgtpath c2)).
  { apply same_but_msg_fields in H2. destruct H2 as (_ & H2 & _).
    rewrite H2. exact Hu. }
  apply (traced_bind _ (hook_result c)).
  { destruct skip2; [|apply traced_ret; exact H2].
    apply (traced_bind _ (hook_result c2));
      [apply footprint_cp_attrs, Hu2 | intros [ok1 c3] H3].
    unfold hook_result in H3; simpl in H3.
    assert (Hu3 : under target (_curtgtpath c3)).
    { apply same_but_msg_fields in H3. destruct H3 as (_ & H3 & _).
      rewrite H3. exact Hu2. }
    apply (traced_bind _ (hook_result c3));
      [apply footprint_cp_xattrs, Hu3 | intros [ok2 c4] H4].
    unfold hook_result in H4; simpl in H4.
    apply traced_ret. unfold hook_result; simpl.
    eapply same_but_msg_trans; [exact H2|].
    eapply same_but_msg_trans; eassumption. }
  intros [success3 c3] H3. apply traced_ret. exact H3.
Qed.

Lemma footprint_directory_post c :
  under target (_curtgtpath c) ->
  traced (writes_under target) (hook_result c) (on_reached_directory_post c).
Proof.
  intros Hu. unfold on_reached_directory_post.
  eapply traced_mono; [intros s; apply attr_call_under, Hu|].
  eapply traced_weaken; [apply calls_attr_finish | apply hook_outcome_result].
Qed.

Lemma footprint_dispatch fuel kind c :
  under target (_curtgtpath c) ->
  traced (writes_under target) (hook_result c) (dispatch fuel kind c).
Proof.
  intros Hu. destruct kind; simpl.
  - apply (footprint_creating fuel); [simpl; auto | exact Hu].
  - apply (footprint_creating fuel); [simpl; auto | exact Hu].
  - apply (footprint_creating fuel); [simpl; auto | exact Hu].
  - apply (footprint_creating fuel); [simpl; auto | exact Hu].
  - apply (footprint_creating fuel); [simpl; auto 6 | exact Hu].
  - apply traced_ret. apply same_but_msg_refl.
Qed.

Lemma footprint_on_pre_execute c :
  _target c = target ->
  traced (writes_under target) (fun r => _target (snd r) = target)
         (on_pre_execute c).
Proof.
  intros Ht. unfold on_pre_execute, mkdir, sys_stat.
  destruct (flag_set (_copyflags c) MB_COPY_FOLLOW_SYMLINKS);
    [apply traced_ret; destruct c; exact Ht|].
  apply (traced_bind _ any_result).
  { apply traced_sys_status. simpl. rewrite Ht. apply under_refl. }
  intros r _.
  apply (traced_bind _ any_result); [apply traced_get_errno | intros e _].
  assert (Hfail : forall f,
    traced (K:=K) (writes_under target)
           (fun r : bool * copier => _target (snd r) = target)
           (bind (fail_with c f (_target c)) (fun c' => ret (false, c')))).
  { intros f. eapply traced_weaken;
      [apply traced_fail_ret, same_but_msg_refl|].
    intros x Hx. apply same_but_msg_config in Hx.
    destruct Hx as (_ & _ & Hx & _). congruence. }
  destruct (_ && _); [apply Hfail|].
  apply (traced_bind _ any_result);
    [apply traced_sys_stat_like; exact I | intros r2 _].
  destruct r2 as [e2|sb]; [apply Hfail|].
  destruct (negb _); apply traced_ret; destruct c; exact Ht.
Qed.

Lemma footprint_visit (hook : copier -> M K (Z * copier)) ent w :
  _target (w_copier w) = target ->
  (forall c, under target (_curtgtpath c) ->
             traced (writes_under target) (hook_result c) (hook c)) ->
  traced (writes_under target)
         (fun r => _target (w_copier (snd r)) = target) (visit hook ent w).
Proof.
  intros Ht Hhook. unfold visit.
  pose proof (on_changed_path_config (set_curr (w_copier w) ent)) as Hcfg.
  pose proof (on_changed_path_action (set_curr (w_copier w) ent)) as Hact.
  pose proof (on_changed_path_under (set_curr (w_copier w) ent)) as Hunder.
  destruct (on_changed_path (set_curr (w_copier w) ent)) as [a c1].
  simpl in Hcfg, Hact, Hunder.
  assert (Ht1 : _target c1 = target).
  { destruct Hcfg as (_ & _ & Hc & _). rewrite Hc.
    destruct (w_copier w); exact Ht. }
  destruct Hact as [(Hsame & ->) | (Hdiff & ->)].
  - simpl. apply traced_ret. exact Ht1.
  - simpl. specialize (Hunder Hdiff).
    assert (Hu1 : under target (_curtgtpath c1)).
    { destruct (w_copier w); simpl in *. rewrite <- Ht. exact Hunder. }
    apply (traced_bind _ (hook_result c1)); [apply Hhook, Hu1|].
    intros [b c2] H2. unfold hook_result in H2; simpl in H2.
    apply traced_ret. simpl.
    apply same_but_msg_config in H2. destruct H2 as (_ & _ & H2 & _).
    congruence.
Qed.

Lemma footprint_walk_tree fuel t :
  forall w, _target (w_copier w) = target ->
  traced (writes_under target) (fun w' => _target (w_copier w') = target)
         (walk_tree fuel t w).
Proof.
  induction t as [kind ent | ent children IH] using fts_tree_induction;
    intros w Ht.
  - simpl.
    apply (traced_bind _ (fun r => _target (w_copier (snd r)) = target)).
    + apply footprint_visit; [exact Ht|]. intros c Hc.
      apply footprint_dispatch, Hc.
    + intros [a w1] H1. apply traced_ret. exact H1.
  - eapply traced_ext; [intros p; apply walk_tree_dir|].
    apply (traced_bind _ (fun r => _target (w_copier (snd r)) = target)).
    { apply footprint_visit; [exact Ht|]. intros c Hc.
      apply footprint_directory_pre, Hc. }
    intros [a w1] H1. simpl in H1.
    destruct (_ || _); [apply traced_ret; exact H1|].
    assert (Hlist : forall w0, _target (w_copier w0) = target ->
              traced (writes_under target)
                     (fun w' => _target (w_copier w') = target)
                     (walk_list fuel children w0)).
    { clear w Ht w1 H1 a. induction IH as [|t ts Hw _ IHts]; intros w0 Ht0.
      - simpl. apply traced_ret. exact Ht0.
      - simpl.
        apply (traced_bind _ (fun w' => _target (w_copier w') = target));
          [apply Hw, Ht0|].
        intros w1 H1. destruct (w_stop w1); [apply traced_ret; exact H1|].
        apply IHts, H1. }
    apply (traced_bind _ (fun w' => _target (w_copier w') = target));
      [apply Hlist, H1|].
    intros w2 H2. destruct (w_stop w2); [apply traced_ret; exact H2|].
    apply (traced_bind _ (fun r => _target (w_copier (snd r)) = target)).
    { apply footprint_visit; [exact H2|]. intros c Hc.
      apply footprint_directory_post, Hc. }
    intros [b w3] H3. apply traced_ret. exact H3.
Qed.

Lemma footprint_run fuel tree c :
  _target c = target ->
  traced (writes_under target) any_result (run fuel tree c).
Proof.
  intros Ht. unfold run.
  apply (traced_bind _ (fun r => _target (snd r) = target));
    [apply footprint_on_pre_execute, Ht | intros [ok c1] H1].
  simpl in H1. destruct ok; simpl; [|apply traced_ret; exact I].
  eapply traced_weaken;
    [apply footprint_walk_tree; destruct c1; exact H1 | intros; exact I].
Qed.
End Footprint.



(** * The walk as a whole *)

Section StepEnds.
Context {K : Type} `{Kernel K}.

Lemma ends_bind {A B} (P : proc K -> Prop) (Q1 : A -> proc K -> Prop)
    (Q : B -> proc K -> Prop) (m : M K A) (f : A -> M K B) :
  ends P m Q1 -> (forall a, ends (Q1 a) (f a) Q) -> ends P (bind m f) Q.
Proof.
  intros Hm Hf p b p' HP Hrun.
  apply bind_Some in Hrun. destruct Hrun as (a & p1 & H1 & H2).
  exact (Hf a p1 b p' (Hm p a p1 HP H1) H2).
Qed.

Lemma ends_skip {A B} (P : proc K -> Prop) (Q : B -> proc K -> Prop)
    (m : M K A) (f : A -> M K B) :
  (forall a, ends anywhere (f a) Q) -> ends P (bind m f) Q.
Proof.
  intros Hf p b p' _ Hrun.
  apply bind_Some in Hrun. destruct Hrun as (a & p1 & _ & H2).
  exact (Hf a p1 b p' I H2).
Qed.

Lemma ends_ret {A} (P : proc K -> Prop) (Q : A -> proc K -> Prop) (a : A) :
  (forall p, P p -> Q a p) -> ends P (ret a) Q.
Proof.
  intros HQ p b p' HP Hrun. apply ret_spec in Hrun.
  destruct Hrun as (-> & ->). apply HQ, HP.
Qed.

Lemma ends_pre {A} (P : proc K -> Prop) (Q : A -> proc K -> Prop)
    (m : M K A) :
  (forall p, P p -> ends anywhere m Q) -> ends P m Q.
Proof. intros Hm p a p' HP Hrun. exact (Hm p HP p a p' I Hrun). Qed.

Lemma ends_weaken {A} (P : proc K -> Prop) (Q Q' : A -> proc K -> Prop)
    (m : M K A) :
  ends P m Q -> (forall a p, Q a p -> Q' a p) -> ends P m Q'.
Proof. intros Hm HQ p a p' HP Hrun. apply HQ, (Hm p a p' HP Hrun). Qed.

Lemma ends_fail_ret {A} (P : proc K -> Prop) (Q : A -> proc K -> Prop)
    c f path (g : copier -> A) :
  (forall p, Q (g (set_error_msg c (errno_message f path (p_errno p)))) p) ->
  ends P (bind (fail_with c f path) (fun c' => ret (g c'))) Q.
Proof.
  intros HQ p a p' _ Hrun.
  rewrite (bind_eq _ _ _ _ _ (fail_with_eq _ _ _ _)) in Hrun.
  apply ret_spec in Hrun. destruct Hrun as (-> & ->). apply HQ.
Qed.

Lemma remove_existing_file_sets c :
  ends anywhere (remove_existing_file c)
       (step_sets "%s: Failed to remove old path: %s" c).
Proof.
  unfold remove_existing_file.
  apply ends_skip; intros r. apply ends_skip; intros e.
  destruct (_ && _).
  - apply ends_fail_ret. intros p. right. split; reflexivity.
  - apply ends_ret. intros p _. left. split; reflexivity.
Qed.

Lemma cp_attrs_sets c :
  ends anywhere (cp_attrs c) (step_sets "%s: Failed to copy attributes: %s" c).
Proof.
  unfold cp_attrs.
  destruct (flag_set _ _);
    [|apply ends_ret; intros p _; left; split; reflexivity].
  apply ends_skip; intros ok. destruct (negb ok).
  - apply ends_fail_ret. intros p. right. split; reflexivity.
  - apply ends_ret. intros p _. left. split; reflexivity.
Qed.

Lemma cp_xattrs_sets c :
  ends anywhere (cp_xattrs c) (step_sets "%s: Failed to copy xattrs: %s" c).
Proof.
  unfold cp_xattrs.
  destruct (flag_set _ _);
    [|apply ends_ret; intros p _; left; split; reflexivity].
  apply ends_skip; intros ok. destruct (negb ok).
  - apply ends_fail_ret. intros p. right. split; reflexivity.
  - apply ends_ret. intros p _. left. split; reflexivity.
Qed.

Lemma finish_node_sets c : ends anywhere (finish_node c) (hook_sets VisitPost c).
Proof.
  unfold finish_node.
  eapply ends_bind; [apply cp_attrs_sets|]. intros [ok c1].
  destruct ok; simpl.
  - apply ends_pre. intros p [(_ & Hc) | (Hf & _)]; [|discriminate].
    simpl in Hc. subst c1.
    eapply ends_bind; [apply cp_xattrs_sets|]. intros [ok2 c2].
    destruct ok2; simpl; apply ends_ret.
    + intros q [(_ & Hc) | (Hf & _)]; [|discriminate].
      left. simpl in *. auto.
    + intros q [(Hf & _) | (_ & Hc)]; [discriminate|].
      right. split; [reflexivity|]. eexists. split; [|exact Hc].
      simpl. auto.
  - apply ends_ret. intros q [(Hf & _) | (_ & Hc)]; [discriminate|].
    right. split; [reflexivity|]. eexists. split; [|exact Hc]. simpl. auto.
Qed.

Lemma hook_sets_incl k k' c (r : Z * copier) (p : proc K) :
  (forall e, incl (own_messages k c e) (own_messages k' c e)) ->
  hook_sets k c r p -> hook_sets k' c r p.
Proof.
  intros Hincl [Hok | (Hf & m & Hin & Hc)]; [left; exact Hok|].
  right. split; [exact Hf|]. exists m. split; [apply Hincl, Hin | exact Hc].
Qed.

Lemma finish_node_sets_for kind c :
  kind <> KSocket ->
  ends anywhere (finish_node c) (hook_sets (VisitNode kind) c).
Proof.
  intros Hk. eapply ends_weaken; [apply finish_node_sets|].
  intros r p. apply hook_sets_incl. intros e m Hin.
  destruct kind; try congruence; simpl in *; tauto.
Qed.

(** The hooks that remove the old target, create the node and finish. *)
Lemma creating_hook_sets kind c (create : copier -> M K (Z * copier)) :
  (forall e, In (errno_message "%s: Failed to remove old path: %s"
                               (_curtgtpath c) e)
                (own_messages (VisitNode kind) c e)) ->
  ends anywhere (create c) (hook_sets (VisitNode kind) c) ->
  ends anywhere
       (bind (remove_existing_file c)
             (fun x => match x with
                       | (ok, c1) =>
                           if negb ok then ret (FTS_Fail, c1) else create c1
                       end))
       (hook_sets (VisitNode kind) c).
Proof.
  intros Hin Hcreate.
  eapply ends_bind; [apply remove_existing_file_sets|]. intros [ok c1].
  destruct ok; simpl.
  - apply ends_pre. intros p [(_ & Hc) | (Hf & _)]; [|discriminate].
    simpl in Hc. subst c1. exact Hcreate.
  - apply ends_ret. intros q [(Hf & _) | (_ & Hc)]; [discriminate|].
    right. split; [reflexivity|]. eexists. split; [apply Hin | exact Hc].
Qed.

Ltac own_failure :=
  apply ends_fail_ret; intros ?; right; split; [reflexivity|];
  eexists; split; [|reflexivity]; simpl; auto 6.

Lemma dispatch_sets fuel kind c :
  ends anywhere (dispatch fuel kind c) (hook_sets (VisitNode kind) c).
Proof.
  destruct kind; simpl.
  - apply (creating_hook_sets KFile c
             (fun c => bind (copy_data fuel (fts_accpath (_curr c))
                                       (_curtgtpath c)) _));
      [intros; simpl; auto|].
    apply ends_skip; intros ok. destruct (negb ok); [own_failure|].
    apply finish_node_sets_for; discriminate.
  - apply (creating_hook_sets KSymlink c
             (fun c => bind (readlink2 fuel (fts_accpath (_curr c))) _));
      [intros; simpl; auto|].
    apply ends_skip; intros l. destruct l as [symlink_path|]; [|own_failure].
    apply ends_skip; intros r. destruct (is_err r); [own_failure|].
    apply finish_node_sets_for; discriminate.
  - apply (creating_hook_sets KBlockDevice c
             (fun c => bind (mknod (_curtgtpath c) (Z.lor S_IFBLK S_IRWXU)
                                   (st_rdev (fts_statp (_curr c)))) _));
      [intros; simpl; auto|].
    apply ends_skip; intros r. destruct (is_err r); [own_failure|].
    apply finish_node_sets_for; discriminate.
  - apply (creating_hook_sets KCharacterDevice c
             (fun c => bind (mknod (_curtgtpath c) (Z.lor S_IFCHR S_IRWXU)
                                   (st_rdev (fts_statp (_curr c)))) _));
      [intros; simpl; auto|].
    apply ends_skip; intros r. destruct (is_err r); [own_failure|].
    apply finish_node_sets_for; discriminate.
  - apply (creating_hook_sets KFifo c
             (fun c => bind (mkfifo (_curtgtpath c) S_IRWXU) _));
      [intros; simpl; auto|].
    apply ends_skip; intros r. destruct (is_err r); [own_failure|].
    apply finish_node_sets_for; discriminate.
  - unfold on_reached_socket. apply ends_ret. intros p _. left. auto.
Qed.
End StepEnds.

Section DirectoryMessages.
Context {K : Type} `{Kernel K}.

(** The two attribute steps the pre-order hook runs for a directory it
    skips: the message at the end is that of the last step that failed. *)
Lemma refused_tail (success0 : bool) cm (pm : proc K) success c' p' :
  ('(ok1, c) <- cp_attrs cm ;;
   '(ok2, c) <- cp_xattrs c ;;
   ret (success0 && ok1 && ok2, c)) pm = Some ((success, c'), p') ->
  exists ok1 c1 p1 ok2,
    success = success0 && ok1 && ok2 /\
    cp_attrs cm pm = Some ((ok1, c1), p1) /\
    cp_xattrs c1 p1 = Some ((ok2, c'), p') /\
    _curtgtpath c' = _curtgtpath cm /\ _curr c' = _curr cm /\
    _error_msg c' =
      if ok2 then
        if ok1 then _error_msg cm
        else errno_message "%s: Failed to copy attributes: %s"
                           (_curtgtpath cm) (p_errno p1)
      else errno_message "%s: Failed to copy xattrs: %s"
                         (_curtgtpath cm) (p_errno p').
Proof.
  intros Hrun.
  apply bind_Some in Hrun. destruct Hrun as ([ok1 c1] & p1 & Hattrs & Hrun).
  apply bind_Some in Hrun. destruct Hrun as ([ok2 c2] & p2 & Hxattrs & Hrun).
  apply ret_spec in Hrun. destruct Hrun as (Hx & Hp). subst p2.
  inversion Hx; subst success c2. clear Hx.
  exists ok1, c1, p1, ok2. split; [reflexivity|].
  split; [exact Hattrs|]. split; [exact Hxattrs|].
  pose proof (cp_attrs_sets cm pm _ p1 I Hattrs) as H1.
  pose proof (cp_xattrs_sets c1 p1 _ p' I Hxattrs) as H2.
  unfold step_sets in H1, H2. simpl in H1, H2.
  destruct H1 as [(-> & ->) | (-> & ->)];
    destruct H2 as [(-> & ->) | (-> & ->)]; simpl; auto.
Qed.

(** How the pre-order hook of a directory ends: with [FTS_OK] and the
    object as it was, or with skip and fail together, after its message
    for the refusal and the two attribute steps. *)
Lemma directory_pre_messages c (p : proc K) a c' p' :
  on_reached_directory_pre c p = Some ((a, c'), p') ->
  (a = FTS_OK /\ c' = c) \/
  (a = Z.lor FTS_Skip FTS_Fail /\
   exists cm pm ok1 c1 p1 ok2,
     (cm = set_error_msg c
             (errno_message "%s: Failed to create directory: %s"
                            (_curtgtpath c) (p_errno pm)) \/
      cm = set_error_msg c
             (fmt_format "%s: Exists but is not a directory"
                         [ArgStr (_curtgtpath c)])) /\
     cp_attrs cm pm = Some ((ok1, c1), p1) /\
     cp_xattrs c1 p1 = Some ((ok2, c'), p') /\
     _curtgtpath c' = _curtgtpath c /\ _curr c' = _curr c /\
     _error_msg c' =
       if ok2 then
         if ok1 then _error_msg cm
         else errno_message "%s: Failed to copy attributes: %s"
                            (_curtgtpath c) (p_errno p1)
       else errno_message "%s: Failed to copy xattrs: %s"
                          (_curtgtpath c) (p_errno p')).
Proof.
  unfold on_reached_directory_pre. intros Hrun.
  apply bind_Some in Hrun. destruct Hrun as (r & p1 & Hmk & Hrun).
  apply bind_Some in Hrun. destruct Hrun as (e & p1' & Hget & Hrun).
  apply get_errno_spec in Hget. destruct Hget as (-> & ->).
  destruct (is_err r && negb (p_errno p1 =? EEXIST)).
  - apply bind_Some in Hrun. destruct Hrun as (x & p2 & Hx & Hrun).
    apply bind_Some in Hx. destruct Hx as (cm & p2' & Hfail & Hx).
    apply ret_spec in Hx. destruct Hx as (-> & ->).
    rewrite fail_with_eq in Hfail. inversion Hfail; subst cm p2'.
    clear Hfail. cbn [negb] in Hrun.
    apply bind_Some in Hrun. destruct Hrun as (x & p3 & Hx & Hrun).
    apply ret_spec in Hx. destruct Hx as (-> & ->).
    apply bind_Some in Hrun.
    destruct Hrun as ([success c3] & p4 & Hx & Hrun).
    apply ret_spec in Hrun. destruct Hrun as (Hy & ->).
    apply refused_tail in Hx.
    destruct Hx as (ok1 & c1 & q1 & ok2 & -> & Ha & Hb & Hp & Hc & Hm).
    inversion Hy; subst a c3. right. split; [reflexivity|].
    eexists _, p1, ok1, c1, q1, ok2.
    split; [left; reflexivity|]. auto 6.
  - apply bind_Some in Hrun. destruct Hrun as (x & p2 & Hx & Hrun).
    apply ret_spec in Hx. destruct Hx as (-> & ->). cbn [negb] in Hrun.
    apply bind_Some in Hrun. destruct Hrun as (x & p3 & Hx & Hrun).
    apply bind_Some in Hx. destruct Hx as (r2 & p2' & Hstat & Hx).
    assert (Haccept : x = (false, true, c) -> a = FTS_OK /\ c' = c).
    { intros ->.
      apply bind_Some in Hrun.
      destruct Hrun as ([success c3] & p4 & Hx' & Hrun).
      apply ret_spec in Hx'. destruct Hx' as (Hy & ->).
      apply ret_spec in Hrun. destruct Hrun as (Hz & ->).
      inversion Hy; subst. inversion Hz; subst. auto. }
    destruct r2 as [e|sb].
    + apply ret_spec in Hx. destruct Hx as (-> & ->). left. auto.
    + destruct (S_ISDIR (st_mode sb)); cbn [negb] in Hx.
      * apply ret_spec in Hx. destruct Hx as (-> & ->). left. auto.
      * clear Haccept. apply ret_spec in Hx. destruct Hx as (-> & ->).
        apply bind_Some in Hrun.
        destruct Hrun as ([success c3] & p4 & Hx & Hrun).
        apply ret_spec in Hrun. destruct Hrun as (Hy & ->).
        apply refused_tail in Hx.
        destruct Hx as (ok1 & c1 & q1 & ok2 & -> & Ha & Hb & Hp & Hc & Hm).
        inversion Hy; subst a c3. right. split; [reflexivity|].
        eexists _, p2', ok1, c1, q1, ok2.
        split; [right; reflexivity|]. auto 6.
Qed.

(** What every hook of a visit answers. *)
Lemma hook_answers fuel k c (p : proc K) a c' p' :
  hook_of fuel k c p = Some ((a, c'), p') ->
  has_flag a FTS_Stop = false /\
  _curtgtpath c' = _curtgtpath c /\ _curr c' = _curr c /\
  (has_flag a FTS_Fail = false ->
   c' = c /\ (k = VisitPre -> a = FTS_OK)) /\
  (has_flag a FTS_Fail = true ->
   exists e, In (_error_msg c') (own_messages k c e)).
Proof.
  intros Hrun.
  assert (Hsets : forall k0, hook_sets k0 c (a, c') p' ->
            k0 <> VisitPre ->
            has_flag a FTS_Stop = false /\
            _curtgtpath c' = _curtgtpath c /\ _curr c' = _curr c /\
            (has_flag a FTS_Fail = false ->
             c' = c /\ (k0 = VisitPre -> a = FTS_OK)) /\
            (has_flag a FTS_Fail = true ->
             exists e, In (_error_msg c') (own_messages k0 c e))).
  { intros k0 [([Ha | Ha] & Hc) | (Ha & m & Hin & Hc)] Hk;
      simpl in Ha, Hc; subst a c'.
    - repeat split; auto; try contradiction. discriminate.
    - repeat split; auto; try contradiction. discriminate.
    - repeat split; try reflexivity; try discriminate.
      intros _. exists (p_errno p'). exact Hin. }
  destruct k as [| |kind].
  - simpl in Hrun. apply directory_pre_messages in Hrun.
    destruct Hrun as [(-> & ->) |
      (-> & cm & pm & ok1 & c1 & p1 & ok2 & Hcm & _ & _ & Hp & Hc & Hm)].
    + repeat split; auto. discriminate.
    + split; [reflexivity|]. split; [exact Hp|]. split; [exact Hc|].
      split; [discriminate|]. intros _. rewrite Hm.
      destruct ok2; [destruct ok1|].
      * destruct Hcm as [-> | ->]; [exists (p_errno pm) | exists 0];
          simpl; auto.
      * exists (p_errno p1). simpl. auto.
      * exists (p_errno p'). simpl. auto.
  - apply Hsets; [|discriminate].
    apply (finish_node_sets c p (a, c') p' I Hrun).
  - apply Hsets; [|discriminate].
    apply (dispatch_sets fuel kind c p (a, c') p' I Hrun).
Qed.
End DirectoryMessages.

Section Logged.
Context {K : Type} `{Kernel K}.

Lemma walk_tree_logged_dir fuel ent children w p :
  walk_tree_logged fuel (FtsDir ent children) w p =
  bind (visit_logged fuel VisitPre ent w)
       (fun x => match x with
                 | (a, w, v) =>
                     if w_stop w || has_flag a FTS_Skip then ret (w, [v])
                     else
                     bind (walk_list_logged fuel children w)
                          (fun y => match y with
                             | (w, l) =>
                                 if w_stop w then ret (w, v :: l) else
                                 bind (visit_logged fuel VisitPost ent w)
                                      (fun z => match z with
                                         | (_, w, v') =>
                                             ret (w, v :: l ++ [v'])
                                         end)
                             end)
                 end) p.
Proof.
  cbn [walk_tree_logged].
  match goal with
  | |- context [bind (?f children _) _] =>
      assert (Hl : forall ts w0 p0,
                 f ts w0 p0 = walk_list_logged fuel ts w0 p0)
  end.
  { induction ts as [|t ts IH]; intros w0 p0; [reflexivity|].
    simpl. unfold bind.
    destruct (walk_tree_logged fuel t w0 p0) as [[[w1 l1] p1]|];
      [|reflexivity].
    destruct (w_stop w1); [reflexivity|]. rewrite IH. reflexivity. }
  unfold bind.
  destruct (visit_logged fuel VisitPre ent w p) as [[[[a w1] v] p1]|];
    [|reflexivity].
  destruct (w_stop w1 || has_flag a FTS_Skip); [reflexivity|].
  rewrite Hl. reflexivity.
Qed.

(** The walk with its records is the walk. *)
Lemma walk_tree_logged_erase fuel t :
  forall w p, walk_tree fuel t w p = erase (walk_tree_logged fuel t w p).
Proof.
  induction t as [kind ent | ent children IH] using fts_tree_induction;
    intros w p.
  - simpl. unfold bind, visit_logged. simpl hook_of.
    destruct (visit (dispatch fuel kind) ent w p) as [[[a w1] p1]|];
      reflexivity.
  - rewrite walk_tree_dir, walk_tree_logged_dir.
    assert (Hlist : forall w0 p0,
              walk_list fuel children w0 p0
              = erase (walk_list_logged fuel children w0 p0)).
    { clear w p.
      induction IH as [|t ts Ht _ IHts]; intros w0 p0; [reflexivity|].
      simpl. unfold bind. rewrite Ht.
      destruct (walk_tree_logged fuel t w0 p0) as [[[w1 l1] p1]|];
        [|reflexivity].
      simpl. destruct (w_stop w1); [reflexivity|]. rewrite IHts.
      destruct (walk_list_logged fuel ts w1 p1) as [[[w2 l2] p2]|];
        reflexivity. }
    unfold bind, visit_logged. simpl hook_of.
    destruct (visit on_reached_directory_pre ent w p) as [[[a w1] p1]|];
      [|reflexivity].
    destruct (w_stop w1 || has_flag a FTS_Skip); [reflexivity|].
    rewrite Hlist.
    destruct (walk_list_logged fuel children w1 p1) as [[[w2 l2] p2]|];
      [|reflexivity].
    simpl. destruct (w_stop w2); [reflexivity|].
    destruct (visit on_reached_directory_post ent w2 p2)
      as [[[b w3] p3]|]; reflexivity.
Qed.

Lemma walk_tree_has_log fuel t w p w' p' :
  walk_tree fuel t w p = Some (w', p') ->
  exists log, walk_tree_logged fuel t w p = Some ((w', log), p').
Proof.
  rewrite walk_tree_logged_erase.
  destruct (walk_tree_logged fuel t w p) as [[[w1 log] p1]|];
    [|discriminate].
  simpl. intros Heq. inversion Heq; subst. exists log. reflexivity.
Qed.

(** What holds of every visit, and of two stretches of a walk if of
    each, holds of the walk. *)
Lemma walk_tree_logged_fold fuel
    (R : walk -> proc K -> list visited -> walk -> proc K -> Prop) :
  (forall w p, R w p [] w p) ->
  (forall w1 p1 l1 w2 p2 l2 w3 p3,
     R w1 p1 l1 w2 p2 -> R w2 p2 l2 w3 p3 -> R w1 p1 (l1 ++ l2) w3 p3) ->
  (forall k ent w p a w' v p',
     visit_logged fuel k ent w p = Some ((a, w', v), p') ->
     R w p [v] w' p') ->
  forall t w p w' log p',
    walk_tree_logged fuel t w p = Some ((w', log), p') ->
    R w p log w' p'.
Proof.
  intros Hnil Happ Hvisit.
  induction t as [kind ent | ent children IH] using fts_tree_induction;
    intros w p w' log p' Hrun.
  - simpl in Hrun. apply bind_Some in Hrun.
    destruct Hrun as ([[a w1] v] & p1 & Hv & Hrun).
    apply ret_spec in Hrun. destruct Hrun as (Hx & Hp). subst p1.
    inversion Hx; subst. eapply Hvisit, Hv.
  - rewrite walk_tree_logged_dir in Hrun. apply bind_Some in Hrun.
    destruct Hrun as ([[a w1] v] & p1 & Hv & Hrun).
    apply Hvisit in Hv.
    destruct (w_stop w1 || has_flag a FTS_Skip).
    { apply ret_spec in Hrun. destruct Hrun as (Hx & Hp). subst p1.
      inversion Hx; subst. exact Hv. }
    assert (Hlist : forall w0 p0 w2 l p2,
              walk_list_logged fuel children w0 p0 = Some ((w2, l), p2) ->
              R w0 p0 l w2 p2).
    { clear w p a w1 v p1 Hv Hrun.
      induction IH as [|t ts Ht _ IHts]; intros w0 p0 w2 l p2 Hrun.
      - apply ret_spec in Hrun. destruct Hrun as (Hx & Hp). subst p2.
        inversion Hx; subst. apply Hnil.
      - simpl in Hrun. apply bind_Some in Hrun.
        destruct Hrun as ([w1 l1] & p1 & H1 & Hrun). apply Ht in H1.
        destruct (w_stop w1).
        + apply ret_spec in Hrun. destruct Hrun as (Hx & Hp). subst p1.
          inversion Hx; subst. exact H1.
        + apply bind_Some in Hrun.
          destruct Hrun as ([w3 l3] & p3 & H3 & Hrun). apply IHts in H3.
          apply ret_spec in Hrun. destruct Hrun as (Hx & Hp). subst p3.
          inversion Hx; subst. eapply Happ; eassumption. }
    apply bind_Some in Hrun. destruct Hrun as ([w2 l] & p2 & Hl & Hrun).
    apply Hlist in Hl.
    assert (Hvl : R w p (v :: l) w2 p2).
    { change (v :: l) with ([v] ++ l). eapply Happ; eassumption. }
    destruct (w_stop w2).
    { apply ret_spec in Hrun. destruct Hrun as (Hx & Hp). subst p2.
      inversion Hx; subst. exact Hvl. }
    apply bind_Some in Hrun.
    destruct Hrun as ([[b w3] v'] & p3 & Hv' & Hrun). apply Hvisit in Hv'.
    apply ret_spec in Hrun. destruct Hrun as (Hx & Hp). subst p3.
    inversion Hx; subst.
    change (v :: l ++ [v']) with ((v :: l) ++ [v']).
    eapply Happ; eassumption.
Qed.

Lemma traced_hook_of fuel k c :
  traced any_call (hook_result c) (hook_of fuel k c).
Proof.
  destruct k; simpl.
  - apply traced_on_reached_directory_pre with (flags := _copyflags c);
      auto; intros; exact I.
  - apply traced_on_reached_directory_post with (flags := _copyflags c);
      auto; intros; exact I.
  - apply traced_dispatch with (flags := _copyflags c);
      auto; intros; exact I.
Qed.

Lemma skipn_past (l evs : list event) :
  skipn (List.length l) (l ++ evs) = evs.
Proof. induction l; simpl; auto. Qed.

(** The two ways of a visit: the guard ends the walk, or the hook of the
    entry runs on the object with its target path. *)
Lemma visit_cases (hook : copier -> M K (Z * copier)) ent w p a w' p' :
  visit hook ent w p = Some ((a, w'), p') ->
  (same_file (sb_target (w_copier w)) (fts_statp ent) = true /\
   a = Z.lor FTS_Fail FTS_Stop /\ p' = p /\
   w' = mkwalk false true
               (set_error_msg (set_curr (w_copier w) ent)
                              (guard_message ent))
               (w_reached w)) \/
  (same_file (sb_target (w_copier w)) (fts_statp ent) = false /\
   exists c1 c',
     on_changed_path (set_curr (w_copier w) ent) = (FTS_OK, c1) /\
     hook c1 p = Some ((a, c'), p') /\
     w' = mkwalk (w_ok w && negb (has_flag a FTS_Fail))
                 (has_flag a FTS_Stop) c' (w_reached w ++ [ent])).
Proof.
  unfold visit. intros Hrun.
  pose proof (on_changed_path_action (set_curr (w_copier w) ent)) as Hact.
  destruct (on_changed_path (set_curr (w_copier w) ent)) as [a0 c1] eqn:Hocp.
  cbn [fst] in Hact. destruct Hact as [(Hsame & ->) | (Hdiff & ->)].
  - left. simpl in Hrun. apply ret_spec in Hrun.
    destruct Hrun as (Hx & Hp). subst p'.
    split; [destruct (w_copier w); exact Hsame|].
    inversion Hx; subst a w'. split; [reflexivity|]. split; [reflexivity|].
    rewrite andb_false_r. f_equal.
    unfold on_changed_path in Hocp. unfold same_file in Hsame.
    rewrite Hsame in Hocp. inversion Hocp. reflexivity.
  - right. simpl in Hrun. split; [destruct (w_copier w); exact Hdiff|].
    apply bind_Some in Hrun. destruct Hrun as ([b c2] & p1 & Hh & Hrun).
    apply ret_spec in Hrun. destruct Hrun as (Hx & Hp). subst p1.
    inversion Hx; subst a w'. exists c1, c2.
    split; [reflexivity|]. split; [exact Hh|].
    rewrite andb_true_r. reflexivity.
Qed.
End Logged.

Section Accounts.
Context {K : Type} `{Kernel K}.

Lemma begins_with_status {A} s (f : Z + unit -> M K A) :
  (forall r, traced any_call any_result (f r)) ->
  begins_with s (bind (sys_status s) f).
Proof.
  intros Hf p a p' Hrun.
  apply bind_Some in Hrun. destruct Hrun as (r & p1 & H1 & H2).
  apply sys_status_spec in H1. destruct H1 as (r0 & (_ & Hu & Ht) & _).
  apply Hf in H2. destruct H2 as (_ & _ & evs & Ht2 & _).
  eexists _, evs.
  split; [rewrite Ht2, Ht, <- app_assoc; reflexivity|].
  split; reflexivity.
Qed.

Lemma traced_any_cp_attrs c : traced any_call any_result (cp_attrs c).
Proof.
  eapply traced_weaken;
    [apply traced_cp_attrs with (flags := _copyflags c); auto;
     intros; exact I
    | intros; exact I].
Qed.

Lemma traced_any_cp_xattrs c : traced any_call any_result (cp_xattrs c).
Proof.
  eapply traced_weaken;
    [apply traced_cp_xattrs with (flags := _copyflags c); auto;
     intros; exact I
    | intros; exact I].
Qed.

Lemma traced_any_fail_ret {A} c f path (r : A) :
  traced (K:=K) any_call any_result
         (bind (fail_with c f path) (fun c' => ret (r, c'))).
Proof.
  eapply traced_weaken;
    [apply traced_fail_ret, same_but_msg_refl | intros; exact I].
Qed.

Lemma on_reached_directory_pre_begins c :
  begins_with (SysMkdir (_curtgtpath c) 511) (on_reached_directory_pre c).
Proof.
  unfold on_reached_directory_pre, mkdir.
  change (Z.lor S_IRWXU (Z.lor S_IRWXG S_IRWXO)) with 511.
  apply begins_with_status. intros r.
  apply (traced_bind _ any_result); [apply traced_get_errno | intros e _].
  apply (traced_bind _ any_result).
  { destruct (_ && _);
      [apply traced_any_fail_ret | apply traced_ret; exact I]. }
  intros [[skip success] c1] _.
  apply (traced_bind _ any_result).
  { destruct (negb skip); [|apply traced_ret; exact I]. unfold sys_stat.
    apply (traced_bind _ any_result);
      [apply traced_sys_stat_like; exact I | intros r2 _].
    destruct r2 as [e2|sb]; [apply traced_ret; exact I|].
    destruct (negb _); apply traced_ret; exact I. }
  intros [[skip2 success2] c2] _.
  apply (traced_bind _ any_result).
  { destruct skip2; [|apply traced_ret; exact I].
    apply (traced_bind _ any_result);
      [apply traced_any_cp_attrs | intros [ok1 c3] _].
    apply (traced_bind _ any_result);
      [apply traced_any_cp_xattrs | intros [ok2 c4] _].
    apply traced_ret; exact I. }
  intros [success3 c3] _. apply traced_ret; exact I.
Qed.

Lemma own_messages_ext k c c' e :
  _curtgtpath c' = _curtgtpath c -> _curr c' = _curr c ->
  own_messages k c' e = own_messages k c e.
Proof. unfold own_messages. intros -> ->. reflexivity. Qed.

Lemma target_path_config c c' ent :
  same_config c c' ->
  same_file (sb_target c) (fts_statp ent) = false ->
  target_path_of c' ent = target_path_of c ent.
Proof.
  intros Hcfg Hg. unfold target_path_of, on_changed_path.
  destruct c, c'. destruct Hcfg as (?&?&?&?&?). simpl in *. subst.
  unfold same_file in Hg. rewrite Hg. reflexivity.
Qed.

Lemma creates_directory_config c c' u v :
  same_config c c' -> creates_directory c' u v -> creates_directory c u v.
Proof.
  intros Hcfg Hv Hk Hs. destruct (Hv Hk Hs) as (Hg & Hp & Hev).
  assert (Hg' : same_file (sb_target c) (fts_statp (v_ent v)) = false).
  { destruct Hcfg as (_ & _ & _ & Hsb & _). rewrite <- Hsb. exact Hg. }
  rewrite (target_path_config c c' _ Hcfg Hg') in Hp, Hev. auto.
Qed.

Lemma walk_account_nil w (p : proc K) : walk_account w p [] w p.
Proof.
  unfold walk_account. simpl. rewrite app_nil_r, andb_true_r.
  repeat split; auto; apply same_config_refl.
Qed.

Lemma walk_account_app w1 (p1 : proc K) l1 w2 p2 l2 w3 p3 :
  walk_account w1 p1 l1 w2 p2 -> walk_account w2 p2 l2 w3 p3 ->
  walk_account w1 p1 (l1 ++ l2) w3 p3.
Proof.
  intros (Ht1 & Hu1 & Hc1 & Hm1 & Ho1 & Ha1 & Hd1)
         (Ht2 & Hu2 & Hc2 & Hm2 & Ho2 & Ha2 & Hd2).
  unfold walk_account.
  split; [rewrite Ht2, Ht1, map_app, concat_app, app_assoc; reflexivity|].
  split; [congruence|].
  split; [eapply same_config_trans; eassumption|].
  split; [unfold retained in *; rewrite fold_left_app, <- Hm1; exact Hm2|].
  split; [unfold all_fine in *;
          rewrite forallb_app, andb_assoc, <- Ho1; exact Ho2|].
  split; [apply Forall_app; auto|].
  apply Forall_app. split; [exact Hd1|].
  rewrite <- Hu1. revert Hd2. apply Forall_impl. intros v.
  apply creates_directory_config, Hc1.
Qed.

Lemma on_changed_path_keeps_msg c c1 :
  on_changed_path c = (FTS_OK, c1) ->
  _error_msg c1 = _error_msg c /\ _curr c1 = _curr c /\ same_config c c1.
Proof.
  intros Hocp. pose proof (on_changed_path_config c) as Hcfg.
  rewrite Hocp in Hcfg. simpl in Hcfg. split; [|split; [|exact Hcfg]].
  - unfold on_changed_path in Hocp. destruct (_ && _); [discriminate|].
    inversion Hocp. reflexivity.
  - unfold on_changed_path in Hocp. destruct (_ && _); [discriminate|].
    inversion Hocp. reflexivity.
Qed.

(** The account of one visit. *)
Lemma visit_logged_account fuel k ent w (p : proc K) a w' v p' :
  visit_logged fuel k ent w p = Some ((a, w', v), p') ->
  walk_account w p [v] w' p' /\
  visit_key v = (k, ent) /\ v_action v = a /\ v_copier v = w_copier w' /\
  (visit_failed v = false ->
   w_stop w' = false /\ (k = VisitPre -> has_flag a FTS_Skip = false)).
Proof.
  unfold visit_logged. intros Hrun.
  destruct (visit (hook_of fuel k) ent w p) as [[[a0 w0] p0]|] eqn:Hv;
    [|discriminate].
  inversion Hrun; subst a0 w0 p0 v. clear Hrun.
  apply visit_cases in Hv.
  destruct Hv as [(Hsame & -> & -> & ->)
                 | (Hdiff & c1 & c' & Hocp & Hh & ->)].
  - rewrite skipn_all. unfold walk_account, visit_key. simpl.
    rewrite app_nil_r.
    split; [|split; [reflexivity|]; split; [reflexivity|];
             split; [reflexivity|]; discriminate].
    split; [reflexivity|]. split; [reflexivity|].
    split; [unfold same_config; destruct (w_copier w); simpl; auto|].
    split; [reflexivity|].
    split; [destruct (w_ok w); reflexivity|].
    split; (constructor; [|constructor]).
    + intros _. left. split; reflexivity.
    + unfold creates_directory. simpl. intros _ Hstop. discriminate.
  - pose proof (traced_hook_of fuel k c1 p _ p' Hh) as (_ & Hu & evs & Ht & _).
    pose proof (hook_answers fuel k c1 p a c' p' Hh)
      as (Hstop & Hpath & Hcurr & Hfine & Hfailed).
    apply on_changed_path_keeps_msg in Hocp as Hkeep.
    destruct Hkeep as (Hmsg & Hcur1 & Hcfg1).
    assert (Hcfg : same_config (w_copier w) c').
    { eapply same_config_trans; [apply same_config_set_curr|].
      eapply same_config_trans; [exact Hcfg1|].
      pose proof (traced_hook_of fuel k c1 p _ p' Hh) as (Hres & _).
      apply same_but_msg_config, Hres. }
    rewrite Ht, skipn_past. unfold walk_account, visit_key. simpl.
    rewrite app_nil_r.
    split; [|split; [reflexivity|]; split; [reflexivity|];
             split; [reflexivity|]].
    + split; [exact Ht|]. split; [exact Hu|]. split; [exact Hcfg|].
      split.
      { unfold visit_failed. simpl.
        destruct (has_flag a FTS_Fail) eqn:Hf; [reflexivity|].
        destruct (Hfine eq_refl) as (-> & _). rewrite Hmsg.
        destruct (w_copier w); reflexivity. }
      split.
      { unfold visit_failed. simpl. rewrite andb_true_r. reflexivity. }
      split; (constructor; [|constructor]).
      * unfold assigned_by_visit, visit_failed. simpl. intros Hf. right.
        split; [exact Hstop|].
        split; [rewrite Hcurr, Hcur1; destruct (w_copier w); reflexivity|].
        destruct (Hfailed Hf) as (e & Hin). exists e.
        rewrite (own_messages_ext k c1 c' e Hpath Hcurr). exact Hin.
      * unfold creates_directory. simpl. intros -> _.
        assert (Htp : target_path_of (w_copier w) ent = _curtgtpath c1).
        { unfold target_path_of. rewrite Hocp. reflexivity. }
        rewrite Htp. split; [exact Hdiff|]. split; [exact Hpath|].
        destruct (on_reached_directory_pre_begins c1 p _ p' Hh)
          as (e & rest & Ht' & Hcall & Hue).
        rewrite Ht in Ht'. apply app_inv_head in Ht'.
        exists e, rest. auto.
    + unfold visit_failed. simpl. intros Hf.
      split; [exact Hstop|]. intros Hk.
      destruct (Hfine Hf) as (_ & Ha). rewrite (Ha Hk). reflexivity.
Qed.

(** The account of a walk. *)
Lemma walk_tree_account fuel t w (p : proc K) w' log p' :
  walk_tree_logged fuel t w p = Some ((w', log), p') ->
  walk_account w p log w' p'.
Proof.
  apply (walk_tree_logged_fold fuel walk_account).
  - apply walk_account_nil.
  - apply walk_account_app.
  - intros k ent w0 p0 a w1 v p1 Hv.
    apply (visit_logged_account fuel k ent w0 p0 a w1 v p1 Hv).
Qed.
End Accounts.

Section WalkAccounts.
Context {K : Type} `{Kernel K}.

(** How [on_pre_execute] ends. *)
Lemma on_pre_execute_outcome c (p : proc K) ok c1 p1 :
  on_pre_execute c p = Some ((ok, c1), p1) ->
  p_umask p1 = p_umask p /\
  (ok = false -> In (_error_msg c1) (pre_execute_messages c (p_errno p1))) /\
  ((flag_set (_copyflags c) MB_COPY_FOLLOW_SYMLINKS = true /\
    ok = false /\ p_trace p1 = p_trace p) \/
   (flag_set (_copyflags c) MB_COPY_FOLLOW_SYMLINKS = false /\
    exists e0 rest,
      p_trace p1 = p_trace p ++ e0 :: rest /\
      ev_call e0 = SysMkdir (_target c) 511 /\
      ev_umask e0 = p_umask p /\
      ((ok = false /\
        (rest = [] \/
         exists e1, rest = [e1] /\ ev_call e1 = SysStat (_target c))) \/
       (ok = true /\
        exists e1 sb,
          rest = [e1] /\ ev_call e1 = SysStat (_target c) /\
          ev_ret e1 = inr (VStat sb) /\ S_ISDIR (st_mode sb) = true /\
          c1 = set_sb_target c sb)))).
Proof.
  unfold on_pre_execute. intros Hrun.
  destruct (flag_set (_copyflags c) MB_COPY_FOLLOW_SYMLINKS).
  { apply ret_spec in Hrun. destruct Hrun as (Hx & Hp). subst p1.
    inversion Hx; subst ok c1. split; [reflexivity|].
    split; [intros _; simpl; auto|]. left. auto. }
  change (Z.lor S_IRWXU (Z.lor S_IRWXG S_IRWXO)) with 511 in Hrun.
  apply bind_Some in Hrun. destruct Hrun as (r & q1 & Hmk & Hrun).
  apply bind_Some in Hrun. destruct Hrun as (e & q1' & Hget & Hrun).
  apply get_errno_spec in Hget. destruct Hget as (-> & ->).
  apply sys_status_spec in Hmk. destruct Hmk as (r0 & (_ & Hu1 & Ht1) & _).
  destruct (is_err r && negb (p_errno q1 =? EEXIST)).
  { rewrite (bind_eq _ _ _ _ _ (fail_with_eq _ _ _ _)) in Hrun.
    apply ret_spec in Hrun. destruct Hrun as (Hx & Hp). subst p1.
    inversion Hx; subst ok c1. split; [exact Hu1|].
    split; [intros _; simpl; auto|]. right. split; [reflexivity|].
    eexists _, []. split; [exact Ht1|]. split; [reflexivity|].
    split; [reflexivity|]. left. auto. }
  apply bind_Some in Hrun. destruct Hrun as (r2 & q2 & Hstat & Hrun).
  apply sys_stat_like_spec in Hstat.
  destruct Hstat as (r3 & (_ & Hu2 & Ht2) & Hr3).
  assert (Htrace : p_trace q2 =
            p_trace p ++ [mkevent (SysMkdir (_target c) 511) (p_umask p) r0;
                          mkevent (SysStat (_target c)) (p_umask q1) r3]).
  { rewrite Ht2, Ht1, <- app_assoc. reflexivity. }
  destruct r2 as [e2|sb].
  { rewrite (bind_eq _ _ _ _ _ (fail_with_eq _ _ _ _)) in Hrun.
    apply ret_spec in Hrun. destruct Hrun as (Hx & Hp). subst p1.
    inversion Hx; subst ok c1. split; [congruence|].
    split; [intros _; simpl; auto|]. right. split; [reflexivity|].
    eexists _, _. split; [exact Htrace|]. split; [reflexivity|].
    split; [reflexivity|]. left. split; [reflexivity|]. right.
    eexists. split; reflexivity. }
  subst r3. destruct (S_ISDIR (st_mode sb)) eqn:Hdir; cbn [negb] in Hrun;
    apply ret_spec in Hrun; destruct Hrun as (Hx & Hp); subst p1;
    inversion Hx; subst ok c1; (split; [congruence|]).
  - split; [discriminate|]. right. split; [reflexivity|].
    eexists _, _. split; [exact Htrace|]. split; [reflexivity|].
    split; [reflexivity|]. right. split; [reflexivity|].
    eexists _, sb. repeat split; auto.
  - split; [intros _; simpl; auto 6|]. right. split; [reflexivity|].
    eexists _, _. split; [exact Htrace|]. split; [reflexivity|].
    split; [reflexivity|]. left. split; [reflexivity|]. right.
    eexists. split; reflexivity.
Qed.

Lemma all_fine_app l1 l2 :
  all_fine (l1 ++ l2) = all_fine l1 && all_fine l2.
Proof. apply forallb_app. Qed.

(** A walk in which no visit failed visited everything, in order. *)
Lemma walk_visits_all fuel t :
  forall w (p : proc K) w' log p',
    walk_tree_logged fuel t w p = Some ((w', log), p') ->
    all_fine log = true ->
    w_stop w' = false /\ map visit_key log = full_visits t.
Proof.
  assert (Hone : forall k ent w (p : proc K) a w' v p',
            visit_logged fuel k ent w p = Some ((a, w', v), p') ->
            all_fine [v] = true ->
            w_stop w' = false /\ visit_key v = (k, ent) /\
            (k = VisitPre -> has_flag a FTS_Skip = false)).
  { intros k ent w p a w' v p' Hv Hfine.
    apply visit_logged_account in Hv.
    destruct Hv as (_ & Hkey & _ & _ & Hok).
    unfold all_fine in Hfine. simpl in Hfine. rewrite andb_true_r in Hfine.
    apply negb_true_iff in Hfine. destruct (Hok Hfine). auto. }
  induction t as [kind ent | ent children IH] using fts_tree_induction;
    intros w p w' log p' Hrun Hfine.
  - simpl in Hrun. apply bind_Some in Hrun.
    destruct Hrun as ([[a w1] v] & p1 & Hv & Hrun).
    apply ret_spec in Hrun. destruct Hrun as (Hx & Hp). subst p1.
    inversion Hx; subst w1 log.
    destruct (Hone _ _ _ _ _ _ _ _ Hv Hfine) as (Hs & Hk & _).
    split; [exact Hs|]. simpl. rewrite Hk. reflexivity.
  - rewrite walk_tree_logged_dir in Hrun. apply bind_Some in Hrun.
    destruct Hrun as ([[a w1] v] & p1 & Hv & Hrun).
    assert (Hv1 : all_fine [v] = true /\
                  forall l, log = v :: l -> all_fine l = true).
    { split.
      - destruct (w_stop w1 || has_flag a FTS_Skip).
        + apply ret_spec in Hrun. destruct Hrun as (Hx & _).
          inversion Hx; subst. exact Hfine.
        + apply bind_Some in Hrun.
          destruct Hrun as ([w2 l] & p2 & _ & Hrun).
          destruct (w_stop w2).
          * apply ret_spec in Hrun. destruct Hrun as (Hx & _).
            inversion Hx; subst. change (v :: l) with ([v] ++ l) in Hfine.
            rewrite all_fine_app in Hfine.
            apply andb_true_iff in Hfine. apply Hfine.
          * apply bind_Some in Hrun.
            destruct Hrun as ([[b w3] v'] & p3 & _ & Hrun).
            apply ret_spec in Hrun. destruct Hrun as (Hx & _).
            inversion Hx; subst.
            change (v :: l ++ [v']) with ([v] ++ l ++ [v']) in Hfine.
            rewrite all_fine_app in Hfine.
            apply andb_true_iff in Hfine. apply Hfine.
      - intros l ->. change (v :: l) with ([v] ++ l) in Hfine.
        rewrite all_fine_app in Hfine.
        apply andb_true_iff in Hfine. apply Hfine. }
    destruct Hv1 as (Hv1 & Hrest).
    destruct (Hone _ _ _ _ _ _ _ _ Hv Hv1) as (Hs1 & Hk1 & Hskip).
    rewrite Hs1, (Hskip eq_refl) in Hrun. simpl in Hrun.
    assert (Hlist : forall w0 p0 w2 l p2,
              walk_list_logged fuel children w0 p0 = Some ((w2, l), p2) ->
              w_stop w0 = false -> all_fine l = true ->
              w_stop w2 = false /\
              map visit_key l = flat_map full_visits children).
    { clear w p a w1 v p1 Hv Hrun Hfine Hv1 Hrest Hs1 Hk1 Hskip.
      induction IH as [|t ts Ht _ IHts]; intros w0 p0 w2 l p2 Hrun Hs0 Hf.
      - apply ret_spec in Hrun. destruct Hrun as (Hx & _).
        inversion Hx; subst. auto.
      - simpl in Hrun. apply bind_Some in Hrun.
        destruct Hrun as ([w1 l1] & p1 & H1 & Hrun).
        assert (Hf1 : all_fine l1 = true).
        { destruct (w_stop w1).
          - apply ret_spec in Hrun. destruct Hrun as (Hx & _).
            inversion Hx; subst. exact Hf.
          - apply bind_Some in Hrun.
            destruct Hrun as ([w3 l3] & p3 & _ & Hrun).
            apply ret_spec in Hrun. destruct Hrun as (Hx & _).
            inversion Hx; subst. rewrite all_fine_app in Hf.
            apply andb_true_iff in Hf. apply Hf. }
        destruct (Ht _ _ _ _ _ H1 Hf1) as (Hs1 & Hk1).
        rewrite Hs1 in Hrun. apply bind_Some in Hrun.
        destruct Hrun as ([w3 l3] & p3 & H3 & Hrun).
        apply ret_spec in Hrun. destruct Hrun as (Hx & _).
        inversion Hx; subst. rewrite all_fine_app in Hf.
        apply andb_true_iff in Hf. destruct Hf as (_ & Hf3).
        destruct (IHts _ _ _ _ _ H3 Hs1 Hf3) as (Hs3 & Hk3).
        split; [exact Hs3|]. simpl. rewrite map_app, Hk1, Hk3.
        reflexivity. }
    apply bind_Some in Hrun. destruct Hrun as ([w2 l] & p2 & Hl & Hrun).
    assert (Hfl : all_fine l = true).
    { destruct (w_stop w2).
      - apply ret_spec in Hrun. destruct Hrun as (Hx & _).
        inversion Hx; subst. apply (Hrest l eq_refl).
      - apply bind_Some in Hrun.
        destruct Hrun as ([[b w3] v'] & p3 & _ & Hrun).
        apply ret_spec in Hrun. destruct Hrun as (Hx & _).
        inversion Hx; subst.
        pose proof (Hrest _ eq_refl) as Hf. rewrite all_fine_app in Hf.
        apply andb_true_iff in Hf. apply Hf. }
    destruct (Hlist _ _ _ _ _ Hl Hs1 Hfl) as (Hs2 & Hk2).
    rewrite Hs2 in Hrun. apply bind_Some in Hrun.
    destruct Hrun as ([[b w3] v'] & p3 & Hv' & Hrun).
    apply ret_spec in Hrun. destruct Hrun as (Hx & _).
    inversion Hx; subst.
    pose proof (Hrest _ eq_refl) as Hf. rewrite all_fine_app in Hf.
    apply andb_true_iff in Hf. destruct Hf as (_ & Hf').
    destruct (Hone _ _ _ _ _ _ _ _ Hv' Hf') as (Hs3 & Hk3 & _).
    split; [exact Hs3|]. simpl. rewrite map_app, Hk1, Hk2. simpl.
    rewrite Hk3. reflexivity.
Qed.

(** The account of [run]: [on_pre_execute] refuses, or the walk runs the
    tree from the first entry as root. *)
Lemma run_account fuel tree c (p : proc K) w p' :
  run fuel tree c p = Some (w, p') ->
  (exists c1,
     on_pre_execute c p = Some ((false, c1), p') /\
     w = mkwalk false true c1 []) \/
  (exists c1 p1 log,
     on_pre_execute c p = Some ((true, c1), p1) /\
     walk_tree_logged fuel tree
       (mkwalk true false (set_root c1 (tree_root tree)) []) p1
       = Some ((w, log), p') /\
     walk_account (mkwalk true false (set_root c1 (tree_root tree)) [])
                  p1 log w p').
Proof.
  unfold run. intros Hrun. apply bind_Some in Hrun.
  destruct Hrun as ([ok c1] & p1 & Hpre & Hrun). destruct ok; simpl in Hrun.
  - right. apply walk_tree_has_log in Hrun. destruct Hrun as (log & Hlog).
    exists c1, p1, log. split; [exact Hpre|]. split; [exact Hlog|].
    apply (walk_tree_account fuel tree _ _ _ _ _ Hlog).
  - left. apply ret_spec in Hrun. destruct Hrun as (Hx & Hp). subst p1 w.
    exists c1. auto.
Qed.
End WalkAccounts.

(** ** The retained error message (C4) *)

Lemma hook_of_msg {K : Type} `{Kernel K} fuel k :
  replaces_msg_on_failure (fun a => has_flag a FTS_Fail) (hook_of fuel k).
Proof.
  destruct k as [| |kind]; simpl.
  - apply on_reached_directory_pre_msg.
  - apply on_reached_directory_post_msg.
  - destruct kind; simpl.
    + apply on_reached_file_msg.
    + apply on_reached_symlink_msg.
    + apply on_reached_block_device_msg.
    + apply on_reached_character_device_msg.
    + apply on_reached_fifo_msg.
    + apply on_reached_socket_msg.
Qed.

(** C4 (as amended): in a tree copy in which several per-node failures
    occur, the error message retained for reporting at the end of the walk
    is the message of the LAST failure. Every failing step assigns
    [_error_msg] without looking at it: the three helpers and the
    self-copy guard each leave their own message; a hook started with
    another message does the same and, when it answers FAIL, leaves one of
    its own messages, else the object as it was; the pre-order hook of a
    directory, which goes on to two attribute steps after its refusal,
    leaves the message of the last of its steps that failed. At the end
    of [run] the message is the one retained from the visits of the walk,
    in order, each failed visit having assigned its own; if
    [on_pre_execute] refuses, no visit is made and the message is its. *)
Theorem failure_replaces_error_msg {K : Type} `{Kernel K} (fuel : nat) :
  (forall c (p : proc K) ok c' p',
     (remove_existing_file c p = Some ((ok, c'), p') ->
      step_sets "%s: Failed to remove old path: %s" c (ok, c') p') /\
     (cp_attrs c p = Some ((ok, c'), p') ->
      step_sets "%s: Failed to copy attributes: %s" c (ok, c') p') /\
     (cp_xattrs c p = Some ((ok, c'), p') ->
      step_sets "%s: Failed to copy xattrs: %s" c (ok, c') p')) /\
  (forall c,
     same_file (sb_target c) (fts_statp (_curr c)) = true ->
     on_changed_path c =
       (Z.lor FTS_Fail FTS_Stop,
        set_error_msg c (guard_message (_curr c)))) /\
  (forall k c m0 (p : proc K) a c' p',
     hook_of fuel k c p = Some ((a, c'), p') ->
     hook_of fuel k (set_error_msg c m0) p =
       Some ((a, if has_flag a FTS_Fail then c' else set_error_msg c' m0),
             p') /\
     (has_flag a FTS_Fail = false -> c' = c) /\
     (has_flag a FTS_Fail = true ->
      exists e, In (_error_msg c') (own_messages k c e)) /\
     (k <> VisitPre -> hook_sets k c (a, c') p')) /\
  (forall c (p : proc K) a c' p',
     on_reached_directory_pre c p = Some ((a, c'), p') ->
     has_flag a FTS_Fail = true ->
     exists cm pm ok1 c1 p1 ok2,
       (cm = set_error_msg c
               (errno_message "%s: Failed to create directory: %s"
                              (_curtgtpath c) (p_errno pm)) \/
        cm = set_error_msg c
               (fmt_format "%s: Exists but is not a directory"
                           [ArgStr (_curtgtpath c)])) /\
       cp_attrs cm pm = Some ((ok1, c1), p1) /\
       cp_xattrs c1 p1 = Some ((ok2, c'), p') /\
       _error_msg c' =
         if ok2 then
           if ok1 then _error_msg cm
           else errno_message "%s: Failed to copy attributes: %s"
                              (_curtgtpath c) (p_errno p1)
         else errno_message "%s: Failed to copy xattrs: %s"
                            (_curtgtpath c) (p_errno p')) /\
  (forall tree c (p : proc K) w p',
     run fuel tree c p = Some (w, p') ->
     (exists c1,
        on_pre_execute c p = Some ((false, c1), p') /\
        w = mkwalk false true c1 [] /\
        In (_error_msg c1) (pre_execute_messages c (p_errno p'))) \/
     (exists c1 p1 log,
        on_pre_execute c p = Some ((true, c1), p1) /\
        walk_tree_logged fuel tree
          (mkwalk true false (set_root c1 (tree_root tree)) []) p1
          = Some ((w, log), p') /\
        _error_msg (w_copier w) = retained (_error_msg c) log /\
        w_ok w = all_fine log /\
        Forall assigned_by_visit log)).
Proof.
  split; [|split; [|split; [|split]]].
  - intros c p ok c' p'. split; [|split]; intros Hrun.
    + apply (remove_existing_file_sets c p _ p' I Hrun).
    + apply (cp_attrs_sets c p _ p' I Hrun).
    + apply (cp_xattrs_sets c p _ p' I Hrun).
  - intros c Hsame. unfold on_changed_path. unfold same_file in Hsame.
    rewrite Hsame. reflexivity.
  - intros k c m0 p a c' p' Hrun.
    pose proof (hook_answers fuel k c p a c' p' Hrun)
      as (_ & _ & _ & Hfine & Hfailed).
    split; [apply hook_of_msg, Hrun|].
    split; [intros Hf; apply (Hfine Hf)|]. split; [exact Hfailed|].
    intros Hk. destruct k as [| |kind]; [congruence| |].
    + apply (finish_node_sets c p (a, c') p' I Hrun).
    + apply (dispatch_sets fuel kind c p (a, c') p' I Hrun).
  - intros c p a c' p' Hrun Hf. apply directory_pre_messages in Hrun.
    destruct Hrun as [(-> & _) |
      (_ & cm & pm & ok1 & c1 & p1 & ok2 & Hcm & Ha & Hx & _ & _ & Hm)];
      [discriminate|].
    exists cm, pm, ok1, c1, p1, ok2. auto.
  - intros tree c p w p' Hrun. apply run_account in Hrun.
    destruct Hrun as [(c1 & Hpre & Hw)
                     | (c1 & p1 & log & Hpre & Hlog & Hacc)].
    + left. exists c1. split; [exact Hpre|]. split; [exact Hw|].
      apply (on_pre_execute_outcome c p false c1 p' Hpre). reflexivity.
    + right. exists c1, p1, log. split; [exact Hpre|]. split; [exact Hlog|].
      destruct Hacc as (_ & _ & _ & Hmsg & Hok & Hass & _).
      simpl in Hmsg, Hok.
      pose proof (on_pre_execute_outcome c p true c1 p1 Hpre)
        as (_ & _ & [(_ & Hno & _) | (_ & e0 & rest & _ & _ & _ & Hcase)]);
        [discriminate|].
      destruct Hcase as [(Hno & _) | (_ & e1 & sb & _ & _ & _ & _ & ->)];
        [discriminate|].
      split; [exact Hmsg|]. split; [exact Hok | exact Hass].
Qed.

Lemma failure_replaces_error_msg_witness :
  exists w p' log,
    run 10 ex_two_files (RecursiveCopier "/a" "/b" 0)
        (start ex_failing_script) = Some (w, p') /\
    map visit_key log =
      [ (VisitPre, ex_ent "/a" "a" (ex_dir_stat 10));
        (VisitNode KFile, ex_ent "/a/f1" "f1" (ex_file_stat 11));
        (VisitNode KFile, ex_ent "/a/f2" "f2" (ex_file_stat 12));
        (VisitPost, ex_ent "/a" "a" (ex_dir_stat 10)) ] /\
    map visit_failed log = [false; true; true; false] /\
    map (fun v => _error_msg (v_copier v)) log =
      [no_message; ex_first_message; ex_last_message; ex_last_message] /\
    _error_msg (w_copier w) = retained no_message log /\
    _error_msg (w_copier w) = ex_last_message /\
    w_ok w = false.
Proof.
  destruct (run 10 ex_two_files (RecursiveCopier "/a" "/b" 0)
                (start ex_failing_script)) as [[w p']|] eqn:Hrun;
    [|vm_compute in Hrun; discriminate].
  destruct (proj2 (proj2 (proj2 (proj2
              (failure_replaces_error_msg (K:=script) 10))))
              ex_two_files _ _ w p' Hrun)
    as [(c1 & Hpre & _) | (c1 & p1 & log & Hpre & Hlog & Hmsg & Hok & _)].
  - vm_compute in Hpre. discriminate.
  - exists w, p', log. split; [reflexivity|].
    vm_compute in Hpre. inversion Hpre; subst c1 p1. clear Hpre.
    vm_compute in Hlog. inversion Hlog; subst w log p'. clear Hlog.
    split; [reflexivity|]. split; [reflexivity|]. split; [reflexivity|].
    split; [exact Hmsg|]. split; reflexivity.
Defined.

(** C4 as stated fails: in the copy of [/a] with the two files, the first
    failure is that of [f1], whose message is the one retained when the
    walk is cut after [f1]; the walk goes on, [f2] fails as well, and at
    the end of the walk the message retained is that of [f2]. Within one
    hook it is the same: when [mkdir] fails for a directory and then the
    copy of its attributes fails, the message of the second failure is
    the one retained. *)
Lemma first_error_message_replaced :
  (exists w p',
     run 10 ex_first_file (RecursiveCopier "/a" "/b" 0)
         (start ex_failing_script) = Some (w, p') /\
     w_ok w = false /\ _error_msg (w_copier w) = ex_first_message) /\
  (exists w p',
     run 10 ex_two_files (RecursiveCopier "/a" "/b" 0)
         (start ex_failing_script) = Some (w, p') /\
     w_ok w = false /\ w_stop w = false /\
     _error_msg (w_copier w) = ex_last_message) /\
  ex_last_message <> ex_first_message /\
  (exists c' p',
     on_reached_directory_pre ex_dir_copier (start ex_dir_script)
       = Some ((Z.lor FTS_Skip FTS_Fail, c'), p') /\
     map ev_call (p_trace p') =
       [SysMkdir "/b/a/d1" 511; SysLstat "/a/d1"] /\
     _error_msg c' =
       fmt_format "%s: Failed to copy attributes: %s"
                  [ArgStr "/b/a/d1"; ArgStrerror 13]).
Proof.
  split; [|split; [|split]].
  - eexists _, _. split; [vm_compute; reflexivity|]. split; reflexivity.
  - eexists _, _. split; [vm_compute; reflexivity|]. repeat split.
  - discriminate.
  - eexists _, _. split; [vm_compute; reflexivity|]. split; reflexivity.
Qed.

(** ** Directories of a tree copy (C10) *)



